(* ===== verification/_CoqProject ===== *)
-Q . S2P
Prelude.v
Memory.v
StringC.v
Kalloc.v
Vm.v
Compact.v
PageTable.v
AddrSpace.v
Demo.v
Uvm.v
Cow.v
Fault.v
VmSpec.v
Spinlock.v
Proc.v
Sched.v
ProcInv.v
ProcSpec.v
Sleeplock.v
Pipe.v
Console.v
Printf.v
Virtio.v
VirtioSpec.v
Bio.v
BioSpec.v
Log.v
LogSpec.v
Fs.v
FsLayer.v
FsSpec.v
FsClaims.v
Userland.v
Mkfs.v
MkfsSpec.v
Path.v
File.v
Args.v
Exec.v
Sysfile.v
Sysproc.v
FileSpec.v
FileClaims.v
ConsoleSpec.v
Ulib.v
Grep.v
Umalloc.v
UmallocSpec.v
Shell.v
ShellSpec.v
ShellRun.v
Calculator.v
CalculatorSpec.v
PrintfSpec.v
