(* ===== verification/Prelude.v ===== *)
(** * MiniOS verification library

    MiniOS is a small Unix-like kernel for RISC-V, a descendant of xv6, with
    an allocator of contiguous pages, copy-on-write fork, a priority
    scheduler, in-memory files with a garbage collector and a system log.
    This library is a shallow embedding of the kernel and of parts of its
    user library, written from the C sources under src/, with the theorems
    that make the parts correct.

    ** Conventions

    A fixed-width C integer is a [Z] in range; [u8] ... [u64] and [s16] ...
    [s64] of this file are the conversions, written where C converts or an
    operation can wrap.  Memory is a function from addresses to bytes
    (Memory.v) with little-endian accesses; the allocator's free list, page
    tables, trap frames and blocks live there as the code lays them out.
    Code that changes state is in the monad [M S] of this file: it returns
    with a new state, panics with the code's message, or hangs.  [Hang]
    stands for a loop that does not end in the model: waiting for another
    process where the code would sleep inside an inode, buffer or log lock,
    running out of a bound, and undefined behaviour such as a missing
    [printf] argument.  [wp c Q s] says that [c] does return from [s], in a
    state that satisfies [Q]: statements with [wp], or with an equation
    [c s = Ret a s'], exclude panics and hangs.  A critical section is one
    step, which the theorem on spinlocks justifies; code that sleeps is cut
    at its sleep and resumed as another step.

    A loop that is not structural takes fuel.  The bounds are those of the
    data: the free list and its walks by the number of physical pages, page
    tables by their three levels, a format or path by its length, a file by
    its size, a string of the user library by a length given to it.  The
    theorems that use such a loop show that it returns, or say so with [wp].

    ** The parts and their files

    - Memory.v, StringC.v: bytes, pages and entries of riscv.h and
      memlayout.h; string.c.
    - Kalloc.v, Compact.v: kalloc.c.  The free list is kept sorted and fully
      coalesced inside the free pages, and reference counts tell allocated
      pages from free ones, in every reachable state; allocation is best fit
      and complete; freeing coalesces; the compactor never moves a page.
    - Vm.v: vm.c and the page-table part of proc.c.  PageTable.v describes
      [walk], [mappages] and [uvmunmap] by their effect on the translation
      of addresses; AddrSpace.v states the invariant of all address spaces,
      that the reference count of a user page is the number of its mappings;
      Uvm.v, Cow.v and Fault.v carry it through growing, shrinking, fork and
      faults; VmSpec.v has the theorems (fork shares memory, writes are
      private, faults are invisible to others, failures undo) and Demo.v the
      system they are instantiated with.
    - Spinlock.v: spinlock.c on any number of harts, as a transition system:
      mutual exclusion, and interrupts off while a lock is held.
    - Proc.v, Sched.v: proc.c, over the class [FileLayer] of what processes
      ask of the file code.  ProcInv.v makes the operations the steps of the
      whole system and proves its invariants; ProcSpec.v has the theorems
      (unique identifiers, one hart per process, bounded waiting and where
      it fails, priorities, wakeup, exit).
    - Sleeplock.v, Pipe.v: sleeplock.c and pipe.c, with mutual exclusion, the
      order of bytes, and that nobody sleeps who could go on.
    - Console.v, Printf.v: console.c and uart.c; printf.c of the kernel and
      of the user.  ConsoleSpec.v refines the ring buffer to lists of bytes;
      PrintfSpec.v has the numerals printed.
    - Bio.v, Log.v: bio.c and log.c over a disk that records its writes.
      BioSpec.v refines the cache to one without buffers; LogSpec.v proves
      that transactions are atomic and durable across a crash at any write,
      and that recovery can be restarted.
    - Fs.v: fs.c over the class [BlockLayer] of what the file system asks of
      the log.  FsLayer.v states the laws of that layer and proves them of
      the log; FsSpec.v describes the routines by their effect on blocks and
      files for every layer with the laws; FsClaims.v has the theorems
      (inodes and contents round trip, a write is atomic over the log);
      Path.v relates path traversal to splitting at slashes.
    - File.v: file.c, gc.c, mem.c and pipe allocation.  Args.v and Sysproc.v:
      syscall.c, sysproc.c and trap.c.  Exec.v: exec.c.  Sysfile.v: sysfile.c.
      FileSpec.v proves that every system call keeps the reference counts of
      open files equal to the descriptors that name them; FileClaims.v has
      the theorems, among them that the file code satisfies [FileLayer]'s
      laws, so that what is proved of processes holds of this kernel.
    - Ulib.v: user/ulib.c.

    The kernel's state is the record [kernel F] of Proc.v, with the memory
    of Kalloc.v and a file layer of type [F]; File.v gives the type [filesys]
    of the real one, with the file system over its log, the tables of files
    and in-memory files, the pipes, the console and the system log.

    ** Parameters

    Addresses the linker chooses ([end], the trampoline, [forkret], the
    kernel stack variables whose address is taken) are parameters of the
    definitions that use them, and so is what the hardware reports: the
    cause of a trap, the characters received, the state of the transmitter.

    ** Not modelled

    - The disk driver (virtio_disk.c), the interrupt controller (plic.c) and
      the set-up of devices: accesses to device registers.  The cache relies
      on the driver to read and write whole blocks, in order.
    - Boot and assembly (main.c, start.c, *.S): control registers and the
      saving of registers at a switch.
    - The messages that kernel code prints while it works (procdump, the
      traces in file.c and gc.c, unexpected traps): the effect of [printf] on
      the console and on the log is modelled in Printf.v, but its callers
      elsewhere do not call it.
    - A process that would sleep in [acquiresleep] of an inode or a buffer,
      or in [begin_op], inside a longer operation: the model covers the runs
      in which the lock is free, and shows the others as [Hang].
    - The shell, the user memory allocator and the other user programs, the
      tests, the quiz application and the image builder mkfs.c. *)

From Stdlib Require Export ZArith Lia ZifyBool.
From stdpp Require Export strings numbers base tactics relations sets list.

#[export] Set Warnings "-clear-no-such-hyp".

#[global] Open Scope Z_scope.

(** ** Machine integers

    C's fixed-width integers are values of [Z] kept in range by the
    conversions below: [uN] is the conversion to an unsigned N-bit type,
    [sN] the conversion to a signed one (two's complement). *)

Definition u8 (x : Z) : Z := x mod 2 ^ 8.
Definition u16 (x : Z) : Z := x mod 2 ^ 16.
Definition u32 (x : Z) : Z := x mod 2 ^ 32.
Definition u64 (x : Z) : Z := x mod 2 ^ 64.

Definition s16 (x : Z) : Z :=
  let y := x mod 2 ^ 16 in if y <? 2 ^ 15 then y else y - 2 ^ 16.

Definition s32 (x : Z) : Z :=
  let y := x mod 2 ^ 32 in if y <? 2 ^ 31 then y else y - 2 ^ 32.

Definition s64 (x : Z) : Z :=
  let y := x mod 2 ^ 64 in if y <? 2 ^ 63 then y else y - 2 ^ 64.

Lemma u8_small x : 0 <= x < 2 ^ 8 -> u8 x = x.
Proof. apply Z.mod_small. Qed.

Lemma u32_small x : 0 <= x < 2 ^ 32 -> u32 x = x.
Proof. apply Z.mod_small. Qed.

Lemma u64_small x : 0 <= x < 2 ^ 64 -> u64 x = x.
Proof. apply Z.mod_small. Qed.

Lemma u32_range x : 0 <= u32 x < 2 ^ 32.
Proof. apply Z.mod_pos_bound; lia. Qed.

Lemma u64_range x : 0 <= u64 x < 2 ^ 64.
Proof. apply Z.mod_pos_bound; lia. Qed.

Lemma s32_small x : - 2 ^ 31 <= x < 2 ^ 31 -> s32 x = x.
Proof.
  intros Hx. unfold s32. destruct (Z_lt_le_dec x 0) as [Hneg|Hpos].
  - rewrite <- (Z_mod_plus_full x 1), (Z.mod_small (x + 1 * 2 ^ 32)) by lia.
    destruct (Z.ltb_spec (x + 1 * 2 ^ 32) (2 ^ 31)); lia.
  - rewrite Z.mod_small by lia. destruct (Z.ltb_spec x (2 ^ 31)); lia.
Qed.

Lemma s32_range x : - 2 ^ 31 <= s32 x < 2 ^ 31.
Proof.
  unfold s32. pose proof (Z.mod_pos_bound x (2 ^ 32)).
  destruct (Z.ltb_spec (x mod 2 ^ 32) (2 ^ 31)); lia.
Qed.

(** ** Outcomes of kernel code

    A kernel routine run from a state returns a value and a new state,
    or calls [panic] (kernel/printf.c, which never returns), or loops
    without returning ([Hang]: a loop that exhausts the bound its model
    computes for it). *)

Inductive outcome (S A : Type) : Type :=
| Ret (a : A) (s : S)
| Panic (msg : string)
| Hang.

Arguments Ret {S A} a s.
Arguments Panic {S A} msg.
Arguments Hang {S A}.

Definition M (S A : Type) : Type := S -> outcome S A.

Definition kret {S A} (a : A) : M S A := fun s => Ret a s.

Definition kbind {S A B} (c : M S A) (k : A -> M S B) : M S B :=
  fun s => match c s with
           | Ret a s' => k a s'
           | Panic msg => Panic msg
           | Hang => Hang
           end.

Definition kpanic {S A} (msg : string) : M S A := fun _ => Panic msg.
Definition khang {S A} : M S A := fun _ => Hang.
Definition kget {S A} (f : S -> A) : M S A := fun s => Ret (f s) s.
Definition kupd {S} (f : S -> S) : M S unit := fun s => Ret tt (f s).

Declare Scope kernel_scope.
Delimit Scope kernel_scope with K.
#[global] Open Scope kernel_scope.

Notation "'let!' x ':=' c 'in' k" := (kbind c (fun x => k))
  (at level 10, x name, c at level 100, k at level 200) : kernel_scope.
Notation "'do!' c ';' k" := (kbind c (fun _ : unit => k))
  (at level 10, c at level 100, k at level 200) : kernel_scope.

(** [for_each l f] is a C [for] loop whose iterations are the elements
    of [l] in order. *)
Fixpoint for_each {S A} (l : list A) (f : A -> M S unit) : M S unit :=
  match l with
  | [] => kret tt
  | x :: l' => do! f x; for_each l' f
  end.

Lemma for_each_fmap {S A B} (g : A -> B) (l : list A) (f : B -> M S unit) s :
  for_each (g <$> l) f s = for_each l (fun x => f (g x)) s.
Proof.
  revert s. induction l as [|x l IH]; intros s; simpl; [done|].
  unfold kbind. destruct (f (g x) s); [apply IH|done..].
Qed.

(** ** Total correctness

    [wp c Q s]: run from [s], [c] returns (it neither panics nor hangs)
    and its result satisfies [Q]. *)

Definition wp {S A} (c : M S A) (Q : A -> S -> Prop) (s : S) : Prop :=
  match c s with
  | Ret a s' => Q a s'
  | _ => False
  end.

Section wp_rules.
Context {S A B : Type}.
Implicit Types (s : S) (Q : A -> S -> Prop).

Lemma wp_ret (a : A) Q s : Q a s -> wp (kret a) Q s.
Proof. done. Qed.

Lemma wp_bind (c : M S B) (k : B -> M S A) Q s :
  wp c (fun b s' => wp (k b) Q s') s -> wp (kbind c k) Q s.
Proof. unfold wp, kbind. destruct (c s); auto. Qed.

Lemma wp_get (f : S -> A) Q s : Q (f s) s -> wp (kget f) Q s.
Proof. done. Qed.

Lemma wp_mono (c : M S A) Q Q' s :
  wp c Q s -> (forall a s', Q a s' -> Q' a s') -> wp c Q' s.
Proof. unfold wp. destruct (c s); auto. Qed.

Lemma wp_ex (c : M S A) Q s :
  wp c Q s <-> exists a s', c s = Ret a s' /\ Q a s'.
Proof.
  unfold wp. split; [destruct (c s); naive_solver|].
  intros (a & s' & -> & ?). done.
Qed.

Lemma wp_run (c : M S A) Q s a s' : c s = Ret a s' -> Q a s' -> wp c Q s.
Proof. unfold wp. intros E H. by rewrite E. Qed.

Lemma wp_det (c : M S A) Q s a s' : wp c Q s -> c s = Ret a s' -> Q a s'.
Proof. unfold wp. intros H E. by rewrite E in H. Qed.
End wp_rules.

Lemma wp_upd {S} (f : S -> S) Q s : Q tt (f s) -> wp (kupd f) Q s.
Proof. done. Qed.

(** The steps of a run that returned. *)
Lemma kbind_inv {S A B} (c : M S A) (k : A -> M S B) s b s' :
  kbind c k s = Ret b s' -> exists a s1, c s = Ret a s1 /\ k a s1 = Ret b s'.
Proof. unfold kbind. destruct (c s); naive_solver. Qed.

(** A loop that returned kept what each of its iterations keeps. *)
Lemma for_each_inv {S A} (l : list A) (f : A -> M S unit) (R : S -> Prop) s s' :
  (forall x s1 s2, x ∈ l -> R s1 -> f x s1 = Ret tt s2 -> R s2) ->
  R s -> for_each l f s = Ret tt s' -> R s'.
Proof.
  revert s. induction l as [|x l IH]; intros s Hf HR; simpl.
  { intros [= <-]. done. }
  intros ([] & s1 & E1 & E2)%kbind_inv. eapply IH; [|by eapply Hf; [left|..]|done].
  intros y s2 s3 Hy. apply Hf. by right.
Qed.

(** A loop invariant indexed by the prefix of the iterations done. *)
Lemma wp_for_each {S A} (l : list A) (f : A -> M S unit) (I : list A -> S -> Prop) s :
  I [] s ->
  (forall pre x post s', l = pre ++ x :: post -> I pre s' ->
     wp (f x) (fun _ s'' => I (pre ++ [x]) s'') s') ->
  wp (for_each l f) (fun _ s' => I l s') s.
Proof.
  intros Hinit Hstep.
  cut (forall post pre s', l = pre ++ post -> I pre s' ->
         wp (for_each post f) (fun _ s'' => I l s'') s').
  { intros Hcut. by apply (Hcut l []). }
  induction post as [|x post IH]; intros pre s' Hl Hpre; simpl.
  - rewrite app_nil_r in Hl. by subst.
  - apply wp_bind. eapply wp_mono; [by eapply Hstep|].
    intros [] s'' Hs''. apply (IH (pre ++ [x])); [|done].
    by rewrite <- app_assoc.
Qed.

(** The same for a counting loop [for(i = 0; i < n; i++)]. *)
Lemma wp_for_range {S} (n : Z) (f : Z -> M S unit) (I : Z -> S -> Prop) s :
  0 <= n ->
  I 0 s ->
  (forall i s', 0 <= i < n -> I i s' -> wp (f i) (fun _ s'' => I (i + 1) s'') s') ->
  wp (for_each (seqZ 0 n) f) (fun _ s' => I n s') s.
Proof.
  intros Hn Hinit Hstep.
  eapply wp_mono; [apply (wp_for_each _ _ (fun pre s' => I (Z.of_nat (length pre)) s')); [done|]|].
  - intros pre x post s' Hl Hpre.
    assert (x = Z.of_nat (length pre) /\ Z.of_nat (length pre) < n) as [-> Hlt].
    { assert (seqZ 0 n !! length pre = Some x) as Hx by (rewrite Hl; by apply list_lookup_middle).
      apply lookup_seqZ in Hx. lia. }
    eapply wp_mono; [apply Hstep; [lia|done]|]. intros [] s'' Hs''.
    rewrite length_app. simpl. by replace (Z.of_nat (length pre + 1)) with (Z.of_nat (length pre) + 1) by lia.
  - intros [] s' Hs'. rewrite length_seqZ in Hs'. by replace (Z.of_nat (Z.to_nat n)) with n in Hs' by lia.
Qed.

(** [kinv] takes apart hypotheses that a composed run returned. *)
Ltac kinv :=
  repeat match goal with
  | H : kbind _ _ _ = Ret _ _ |- _ =>
      let a := fresh "v" in let s := fresh "s" in let E := fresh "E" in
      apply kbind_inv in H; destruct H as (a & s & E & H)
  | H : kret _ _ = Ret _ _ |- _ => unfold kret in H; (injection H as ? ? || injection H as ?); subst
  | H : kget _ _ = Ret _ _ |- _ => unfold kget in H; injection H as ? ?; subst
  | H : kupd _ _ = Ret _ _ |- _ => unfold kupd in H; injection H as ?; subst
  | H : kpanic _ _ = Ret _ _ |- _ => discriminate H
  | H : khang _ = Ret _ _ |- _ => discriminate H
  | x : unit |- _ => destruct x
  end.

Create HintDb kernel.
#[export] Hint Resolve wp_ret wp_get wp_upd : kernel.

(** [cbool] exposes the conditions of C [if]s as arithmetic facts. *)
Ltac cbool :=
  repeat match goal with
  | H : andb _ _ = true |- _ => apply andb_prop in H; destruct H
  | H : andb _ _ = false |- _ => apply andb_false_iff in H
  | H : orb _ _ = true |- _ => apply orb_prop in H
  | H : orb _ _ = false |- _ => apply orb_false_elim in H; destruct H
  | H : negb _ = true |- _ => apply negb_true_iff in H
  | H : negb _ = false |- _ => apply negb_false_iff in H
  | H : (_ =? _) = true |- _ => apply Z.eqb_eq in H
  | H : (_ =? _) = false |- _ => apply Z.eqb_neq in H
  | H : (_ <? _) = true |- _ => apply Z.ltb_lt in H
  | H : (_ <? _) = false |- _ => apply Z.ltb_ge in H
  | H : (_ <=? _) = true |- _ => apply Z.leb_le in H
  | H : (_ <=? _) = false |- _ => apply Z.leb_gt in H
  end.

(** [cif] splits on the condition of the first [if] of the goal. *)
Ltac cif :=
  match goal with
  | |- context [if ?c then _ else _] =>
      match type of c with bool => destruct c eqn:?; cbool end
  end.

(** ** Sums over lists *)

Fixpoint total {A} (l : list A) (g : A -> Z) : Z :=
  match l with [] => 0 | x :: l' => g x + total l' g end.

Lemma total_ext {A} (l : list A) g h : (forall x, x ∈ l -> g x = h x) -> total l g = total l h.
Proof. induction l as [|x l IH]; intros H; simpl; [done|]. rewrite H by (by left). f_equal. apply IH. intros. apply H. by right. Qed.

Lemma total_nonneg {A} (l : list A) g : (forall x, x ∈ l -> 0 <= g x) -> 0 <= total l g.
Proof.
  induction l as [|x l IH]; intros H; simpl; [lia|].
  pose proof (H x ltac:(by left)). assert (0 <= total l g) by (apply IH; intros; apply H; by right). lia.
Qed.

Lemma total_le {A} (l : list A) g b : (forall x, x ∈ l -> g x <= b) -> total l g <= Z.of_nat (length l) * b.
Proof.
  induction l as [|x l IH]; intros H; simpl; [lia|].
  pose proof (H x ltac:(by left)). assert (total l g <= Z.of_nat (length l) * b) by (apply IH; intros; apply H; by right). lia.
Qed.

Lemma total_ge {A} (l : list A) g x : (forall y, y ∈ l -> 0 <= g y) -> x ∈ l -> g x <= total l g.
Proof.
  induction l as [|y l IH]; intros H Hx; [by apply elem_of_nil in Hx|]. simpl. apply elem_of_cons in Hx as [->|Hx].
  - assert (0 <= total l g) by (apply total_nonneg; intros; apply H; by right). lia.
  - pose proof (H y ltac:(by left)). assert (g x <= total l g) by (apply IH; [intros; apply H; by right|done]). lia.
Qed.

(** One term changed. *)
Lemma total_at {A} (l : list A) g h x :
  NoDup l -> x ∈ l -> (forall y, y ∈ l -> y <> x -> h y = g y) -> total l h = total l g - g x + h x.
Proof.
  induction l as [|y l IH]; intros Hnd Hx H; [by apply elem_of_nil in Hx|]. apply NoDup_cons in Hnd as [Hy Hnd]. simpl.
  apply elem_of_cons in Hx as [->|Hx].
  - rewrite (total_ext l h g); [lia|]. intros z Hz. apply H; [by right|]. intros ->. done.
  - rewrite (H y) by (by left || (intros ->; done)). rewrite (IH Hnd Hx); [lia|]. intros z Hz. apply H. by right.
Qed.

Lemma total_app {A} (l1 l2 : list A) g : total (l1 ++ l2) g = total l1 g + total l2 g.
Proof. induction l1 as [|x l1 IH]; simpl; [done|]. rewrite IH. lia. Qed.
