(* ===== verification/Memory.v ===== *)
(** * Byte-addressed memory and the RISC-V address macros

    Physical memory as a byte store with little-endian multi-byte
    accesses (the compiler's layout of struct fields, page-table entries
    and free-list headers), and the address and page-table-entry macros of
    kernel/riscv.h and kernel/memlayout.h. *)

From S2P Require Import Prelude.

(** ** The byte store *)

Definition mem : Type := Z -> Z.

(** Update of an array, of memory cells or of any other element type. *)
Definition upd {A : Type} (m : Z -> A) (a : Z) (v : A) : Z -> A :=
  fun x => if x =? a then v else m x.

(** [ldn n m a] and [stn n m a v]: load and store [n] bytes at [a],
    least significant byte first. *)
Fixpoint ldn (n : nat) (m : mem) (a : Z) : Z :=
  match n with
  | O => 0
  | S n' => m a mod 256 + 256 * ldn n' m (a + 1)
  end.

Fixpoint stn (n : nat) (m : mem) (a v : Z) : mem :=
  match n with
  | O => m
  | S n' => stn n' (upd m a (v mod 256)) (a + 1) (v / 256)
  end.

Definition ld16 := ldn 2.
Definition st16 := stn 2.
Definition ld32 := ldn 4.
Definition st32 := stn 4.
Definition ld64 := ldn 8.
Definition st64 := stn 8.

Lemma upd_eq {A} (m : Z -> A) a v : upd m a v a = v.
Proof. unfold upd. by rewrite Z.eqb_refl. Qed.

Lemma upd_ne {A} (m : Z -> A) a v b : b <> a -> upd m a v b = m b.
Proof. unfold upd. intros. by rewrite (proj2 (Z.eqb_neq b a)). Qed.

Lemma stn_other n m a v b : ~ (a <= b < a + Z.of_nat n) -> stn n m a v b = m b.
Proof.
  revert m a v. induction n as [|n IH]; intros m a v Hb; simpl; [done|].
  rewrite IH by lia. apply upd_ne. lia.
Qed.

Lemma ldn_ext n m m' a b :
  (forall i, 0 <= i < Z.of_nat n -> m (a + i) = m' (b + i)) -> ldn n m a = ldn n m' b.
Proof.
  revert a b. induction n as [|n IH]; intros a b H; simpl; [done|].
  rewrite <- (Z.add_0_r a) at 1. rewrite H, Z.add_0_r by lia. do 2 f_equal.
  apply IH. intros i Hi. rewrite <- !Z.add_assoc. apply H. lia.
Qed.

Lemma ldn_stn_same n m a v : ldn n (stn n m a v) a = v mod 256 ^ Z.of_nat n.
Proof.
  revert m a v. induction n as [|n IH]; intros m a v.
  { by rewrite Z.mod_1_r. }
  cbn [ldn stn]. rewrite IH, stn_other, upd_eq by lia.
  rewrite Zmod_mod, Nat2Z.inj_succ, Z.pow_succ_r by lia.
  rewrite Z.rem_mul_r by lia. lia.
Qed.

Lemma ldn_stn_other k n m a b v :
  a + Z.of_nat n <= b \/ b + Z.of_nat k <= a -> ldn k (stn n m a v) b = ldn k m b.
Proof. intros H. apply ldn_ext. intros i Hi. apply stn_other. lia. Qed.

Lemma ldn_range n m a : 0 <= ldn n m a < 256 ^ Z.of_nat n.
Proof.
  revert a. induction n as [|n IH]; intros a; [simpl; lia|].
  cbn [ldn]. rewrite Nat2Z.inj_succ, Z.pow_succ_r by lia.
  pose proof (Z.mod_pos_bound (m a) 256). specialize (IH (a + 1)). lia.
Qed.

Lemma ldn_zero n m a : (forall i, 0 <= i < Z.of_nat n -> m (a + i) = 0) -> ldn n m a = 0.
Proof.
  revert a. induction n as [|n IH]; intros a H; cbn [ldn]; [done|].
  rewrite IH, <- (Z.add_0_r a), H by (intros; rewrite <- ?Z.add_assoc; try apply H; lia).
  done.
Qed.

Lemma ld64_range m a : 0 <= ld64 m a < 2 ^ 64.
Proof. apply (ldn_range 8). Qed.

Lemma st64_out m a v x : ~ (a <= x < a + 8) -> st64 m a v x = m x.
Proof. intros. unfold st64. apply stn_other. lia. Qed.

Lemma ld64_st64_same m a v : 0 <= v < 2 ^ 64 -> ld64 (st64 m a v) a = v.
Proof.
  intros Hv. unfold ld64, st64. rewrite ldn_stn_same.
  apply Z.mod_small. done.
Qed.

Lemma ld32_st32_same m a v : 0 <= v < 2 ^ 32 -> ld32 (st32 m a v) a = v.
Proof.
  intros Hv. unfold ld32, st32. rewrite ldn_stn_same.
  apply Z.mod_small. done.
Qed.

Lemma ld64_st64_other m a b v : a + 8 <= b \/ b + 8 <= a -> ld64 (st64 m a v) b = ld64 m b.
Proof. apply (ldn_stn_other 8 8). Qed.

Lemma ld64_st32_other m a b v : a + 4 <= b \/ b + 8 <= a -> ld64 (st32 m a v) b = ld64 m b.
Proof. apply (ldn_stn_other 8 4). Qed.

Lemma ld32_st64_other m a b v : a + 8 <= b \/ b + 4 <= a -> ld32 (st64 m a v) b = ld32 m b.
Proof. apply (ldn_stn_other 4 8). Qed.

Lemma ld32_st32_other m a b v : a + 4 <= b \/ b + 4 <= a -> ld32 (st32 m a v) b = ld32 m b.
Proof. apply (ldn_stn_other 4 4). Qed.

Lemma ld16_range m a : 0 <= ld16 m a < 2 ^ 16.
Proof. apply (ldn_range 2). Qed.

Lemma ld32_range m a : 0 <= ld32 m a < 2 ^ 32.
Proof. apply (ldn_range 4). Qed.

Lemma ld16_st16_same m a v : 0 <= v < 2 ^ 16 -> ld16 (st16 m a v) a = v.
Proof.
  intros Hv. unfold ld16, st16. rewrite ldn_stn_same.
  apply Z.mod_small. done.
Qed.

Lemma ld16_st16_other m a b v : a + 2 <= b \/ b + 2 <= a -> ld16 (st16 m a v) b = ld16 m b.
Proof. apply (ldn_stn_other 2 2). Qed.

Lemma ld16_st32_other m a b v : a + 4 <= b \/ b + 2 <= a -> ld16 (st32 m a v) b = ld16 m b.
Proof. apply (ldn_stn_other 2 4). Qed.

Lemma ld32_st16_other m a b v : a + 2 <= b \/ b + 4 <= a -> ld32 (st16 m a v) b = ld32 m b.
Proof. apply (ldn_stn_other 4 2). Qed.

Lemma st16_out m a v x : ~ (a <= x < a + 2) -> st16 m a v x = m x.
Proof. intros. unfold st16. apply stn_other. lia. Qed.

Lemma st32_out m a v x : ~ (a <= x < a + 4) -> st32 m a v x = m x.
Proof. intros. unfold st32. apply stn_other. lia. Qed.

#[global] Opaque ld16 st16 ld32 st32 ld64 st64.

(** ** kernel/fs.h: the size of a disk block *)

Definition BSIZE : Z := 1024.

(** ** kernel/riscv.h, kernel/memlayout.h *)

Definition PGSIZE : Z := 4096.
Definition PGSHIFT : Z := 12.

Definition PGROUNDUP (sz : Z) : Z := Z.land (u64 (sz + PGSIZE - 1)) (Z.lnot (PGSIZE - 1)).
Definition PGROUNDDOWN (a : Z) : Z := Z.land a (Z.lnot (PGSIZE - 1)).

Definition PTE_V : Z := 1.
Definition PTE_R : Z := 2.
Definition PTE_W : Z := 4.
Definition PTE_X : Z := 8.
Definition PTE_U : Z := 16.

Definition PA2PTE (pa : Z) : Z := u64 (Z.shiftl (Z.shiftr pa 12) 10).
Definition PTE2PA (pte : Z) : Z := u64 (Z.shiftl (Z.shiftr pte 10) 12).
Definition PTE_FLAGS (pte : Z) : Z := Z.land pte 1023.

Definition PXMASK : Z := 511.
Definition PXSHIFT (level : Z) : Z := PGSHIFT + 9 * level.
Definition PX (level va : Z) : Z := Z.land (Z.shiftr va (PXSHIFT level)) PXMASK.

Definition MAXVA : Z := Z.shiftl 1 (9 + 9 + 9 + 12 - 1).

Definition KERNBASE : Z := 2147483648.
Definition PHYSTOP : Z := KERNBASE + 128 * 1024 * 1024.
Definition TRAMPOLINE : Z := MAXVA - PGSIZE.
Definition KSTACK (p : Z) : Z := TRAMPOLINE - (p + 1) * 2 * PGSIZE.
Definition TRAPFRAME : Z := TRAMPOLINE - PGSIZE.

Lemma land_page_mask x : Z.land x (Z.lnot (PGSIZE - 1)) = x / PGSIZE * PGSIZE.
Proof.
  rewrite <- Z.ldiff_land. change (PGSIZE - 1) with (Z.ones 12).
  rewrite Z.ldiff_ones_r, Z.shiftl_mul_pow2, Z.shiftr_div_pow2 by lia. done.
Qed.

Lemma PGROUNDDOWN_spec a : PGROUNDDOWN a = a / PGSIZE * PGSIZE.
Proof. apply land_page_mask. Qed.

Lemma PGROUNDUP_spec sz :
  0 <= sz <= 2 ^ 64 - PGSIZE -> PGROUNDUP sz = (sz + PGSIZE - 1) / PGSIZE * PGSIZE.
Proof.
  intros H. unfold PGROUNDUP. rewrite u64_small by (unfold PGSIZE in *; lia).
  apply land_page_mask.
Qed.

Lemma lor_shiftl_add a b n : 0 <= n -> 0 <= b < 2 ^ n -> Z.lor (Z.shiftl a n) b = a * 2 ^ n + b.
Proof.
  intros Hn Hb. rewrite <- Z.shiftl_mul_pow2, <- Z.add_lor_land by done.
  enough (Z.land (Z.shiftl a n) b = 0) by lia.
  apply Z.bits_inj'. intros i Hi. rewrite Z.bits_0, Z.land_spec, Z.shiftl_spec by lia.
  destruct (Z_lt_le_dec i n).
  - by rewrite (Z.testbit_neg_r a) by lia.
  - rewrite <- (Z.mod_small b (2 ^ n)), Z.mod_pow2_bits_high by lia. apply andb_false_r.
Qed.

(** A page-table entry built from a page address and flag bits holds
    both: the two macros that read it recover them. *)
Lemma PA2PTE_spec pa :
  pa mod PGSIZE = 0 -> 0 <= pa < 2 ^ 56 -> PA2PTE pa = Z.shiftl (pa / PGSIZE) 10.
Proof.
  intros Hal Hr. unfold PA2PTE. rewrite Z.shiftr_div_pow2 by lia. apply u64_small.
  change (2 ^ 12) with PGSIZE. rewrite Z.shiftl_mul_pow2 by lia. unfold PGSIZE in *.
  Z.to_euclidean_division_equations. lia.
Qed.

Lemma PTE2PA_PA2PTE pa fl :
  pa mod PGSIZE = 0 -> 0 <= pa < 2 ^ 56 -> 0 <= fl < 1024 ->
  PTE2PA (Z.lor (PA2PTE pa) fl) = pa.
Proof.
  intros Hal Hr Hf. rewrite PA2PTE_spec, lor_shiftl_add by (try done; lia).
  unfold PTE2PA. rewrite Z.shiftr_div_pow2, Z.shiftl_mul_pow2 by lia.
  rewrite Z.div_add_l, (Z.div_small fl) by lia.
  replace ((pa / PGSIZE + 0) * 2 ^ 12) with pa; [apply u64_small; lia|].
  unfold PGSIZE in *. Z.to_euclidean_division_equations. lia.
Qed.

Lemma PTE_FLAGS_PA2PTE pa fl :
  pa mod PGSIZE = 0 -> 0 <= pa < 2 ^ 56 -> 0 <= fl < 1024 ->
  PTE_FLAGS (Z.lor (PA2PTE pa) fl) = fl.
Proof.
  intros Hal Hr Hf. rewrite PA2PTE_spec, lor_shiftl_add by (try done; lia).
  unfold PTE_FLAGS. change 1023 with (Z.ones 10).
  rewrite Z.land_ones, Z.add_comm, Z_mod_plus_full by lia. apply Z.mod_small; lia.
Qed.

Lemma PX_spec level va :
  0 <= level -> 0 <= va -> PX level va = va / 2 ^ (12 + 9 * level) mod 512.
Proof.
  intros Hl Hv. unfold PX, PXSHIFT, PGSHIFT. change PXMASK with (Z.ones 9).
  rewrite Z.land_ones, Z.shiftr_div_pow2 by lia. done.
Qed.

Lemma PX_range level va : 0 <= PX level va < 512.
Proof.
  unfold PX. change PXMASK with (Z.ones 9). rewrite Z.land_ones by lia.
  apply Z.mod_pos_bound. lia.
Qed.
