(* ===== verification/StringC.v ===== *)
(** * kernel/string.c

    The kernel's memory and string routines over the byte store, with the
    functional behaviour of each: block fill and copy (overlapping
    regions included), block comparison, and the bounded string
    operations the directory and process code rely on. *)

From S2P Require Import Prelude Memory.

(** ** The routines *)

(** The loop [for(i = 0; i < n; i++) cdst[i] = c]. *)
Fixpoint memset_loop (n : nat) (m : mem) (cdst c : Z) : mem :=
  match n with
  | O => m
  | S n' => memset_loop n' (upd m cdst (u8 c)) (cdst + 1) c
  end.

Definition memset (m : mem) (dst c n : Z) : mem := memset_loop (Z.to_nat n) m dst c.

Fixpoint memcmp_loop (n : nat) (m : mem) (s1 s2 : Z) : Z :=
  match n with
  | O => 0
  | S n' =>
      if negb (u8 (m s1) =? u8 (m s2)) then u8 (m s1) - u8 (m s2)
      else memcmp_loop n' m (s1 + 1) (s2 + 1)
  end.

Definition memcmp (m : mem) (v1 v2 n : Z) : Z := memcmp_loop (Z.to_nat n) m v1 v2.

(** [while(n-- > 0) *d++ = *s++] *)
Fixpoint copy_forward (n : nat) (m : mem) (d s : Z) : mem :=
  match n with
  | O => m
  | S n' => copy_forward n' (upd m d (m s)) (d + 1) (s + 1)
  end.

(** [while(n-- > 0) *--d = *--s] *)
Fixpoint copy_backward (n : nat) (m : mem) (d s : Z) : mem :=
  match n with
  | O => m
  | S n' => copy_backward n' (upd m (d - 1) (m (s - 1))) (d - 1) (s - 1)
  end.

Definition memmove (m : mem) (dst src n : Z) : mem :=
  if n =? 0 then m
  else if (src <? dst) && (src + n >? dst)
  then copy_backward (Z.to_nat n) m (dst + n) (src + n)
  else copy_forward (Z.to_nat n) m dst src.

Definition memcpy (m : mem) (dst src n : Z) : mem := memmove m dst src n.

Fixpoint strncmp_loop (n : nat) (m : mem) (p q : Z) : Z :=
  match n with
  | O => 0
  | S n' =>
      if negb (u8 (m p) =? 0) && (u8 (m p) =? u8 (m q))
      then strncmp_loop n' m (p + 1) (q + 1)
      else u8 (m p) - u8 (m q)
  end.

Definition strncmp (m : mem) (p q n : Z) : Z := strncmp_loop (Z.to_nat n) m p q.

(** The second loop of [strncpy]: [while(n-- > 0) *s++ = 0]. *)
Fixpoint zero_fill (n : nat) (m : mem) (s : Z) : mem :=
  match n with
  | O => m
  | S n' => zero_fill n' (upd m s 0) (s + 1)
  end.

Fixpoint strncpy_loop (n : nat) (m : mem) (s t : Z) : mem :=
  match n with
  | O => m
  | S n' =>
      let c := u8 (m t) in
      if negb (c =? 0) then strncpy_loop n' (upd m s c) (s + 1) (t + 1)
      else zero_fill n' (upd m s c) (s + 1)
  end.

Definition strncpy (m : mem) (s t n : Z) : mem := strncpy_loop (Z.to_nat n) m s t.

(** [n] counts the passes [--n > 0] still allows.  The copied NUL, when
    there is one, is followed by the final [*s = 0]. *)
Fixpoint safestrcpy_loop (n : nat) (m : mem) (s t : Z) : mem :=
  match n with
  | O => upd m s 0
  | S n' =>
      let c := u8 (m t) in
      if negb (c =? 0) then safestrcpy_loop n' (upd m s c) (s + 1) (t + 1)
      else upd (upd m s c) (s + 1) 0
  end.

Definition safestrcpy (m : mem) (s t n : Z) : mem :=
  if n <=? 0 then m else safestrcpy_loop (Z.to_nat (n - 1)) m s t.

(** [strlen] scans without a bound; [fuel] is the number of bytes the
    scan may inspect, [None] that it found no NUL among them. *)
Fixpoint strlen (fuel : nat) (m : mem) (s : Z) : option Z :=
  match fuel with
  | O => None
  | S f => if u8 (m s) =? 0 then Some 0 else option_map Z.succ (strlen f m (s + 1))
  end.

(** ** C strings

    [cstr m a l]: the bytes [l], none of them NUL, sit at [a], followed
    by a NUL.  [cbuf m a n l]: the first [n] bytes at [a] are [l], padded
    with NULs. *)

Fixpoint cstr (m : mem) (a : Z) (l : list Z) : Prop :=
  match l with
  | [] => u8 (m a) = 0
  | c :: l' => u8 (m a) = c /\ c <> 0 /\ cstr m (a + 1) l'
  end.

(** ** Fill and copy *)

Lemma memset_loop_spec n m d c x :
  memset_loop n m d c x = if (d <=? x) && (x <? d + Z.of_nat n) then u8 c else m x.
Proof.
  revert m d. induction n as [|n IH]; intros m d; cbn [memset_loop].
  - cif; [lia|done].
  - rewrite IH. destruct (decide (x = d)) as [->|Hne].
    + rewrite upd_eq. repeat cif; try done; lia.
    + rewrite upd_ne by done. repeat cif; try done; lia.
Qed.

Lemma memset_in m d c n x : d <= x < d + n -> memset m d c n x = u8 c.
Proof. intros. unfold memset. rewrite memset_loop_spec. cif; [done|lia]. Qed.

Lemma memset_out m d c n x : 0 <= n -> ~ (d <= x < d + n) -> memset m d c n x = m x.
Proof. intros. unfold memset. rewrite memset_loop_spec. cif; [lia|done]. Qed.

Lemma copy_forward_spec n m d s x :
  d <= s \/ s + Z.of_nat n <= d ->
  copy_forward n m d s x = if (d <=? x) && (x <? d + Z.of_nat n) then m (x - d + s) else m x.
Proof.
  revert m d s. induction n as [|n IH]; intros m d s Hd; cbn [copy_forward].
  - cif; [lia|done].
  - rewrite IH by lia. destruct (decide (x = d)) as [->|Hne].
    + rewrite upd_eq. replace (d - d + s) with s by lia. repeat cif; try done; lia.
    + rewrite (upd_ne m d (m s) x) by done.
      repeat cif; try done; try lia. rewrite upd_ne by lia. f_equal. lia.
Qed.

Lemma copy_backward_spec n m d s x :
  s <= d ->
  copy_backward n m d s x = if (d - Z.of_nat n <=? x) && (x <? d) then m (x - d + s) else m x.
Proof.
  revert m d s. induction n as [|n IH]; intros m d s Hd; cbn [copy_backward].
  - cif; [lia|done].
  - rewrite IH by lia. destruct (decide (x = d - 1)) as [->|Hne].
    + rewrite upd_eq. replace (d - 1 - d + s) with (s - 1) by lia. repeat cif; try done; lia.
    + rewrite (upd_ne m (d - 1) (m (s - 1)) x) by done.
      repeat cif; try done; try lia. rewrite upd_ne by lia. f_equal. lia.
Qed.

Lemma memmove_spec m dst src n x :
  0 <= n ->
  memmove m dst src n x = if (dst <=? x) && (x <? dst + n) then m (x - dst + src) else m x.
Proof.
  intros Hn. unfold memmove. destruct (n =? 0) eqn:E0; cbool.
  { subst. cif; [lia|done]. }
  rewrite Z.gtb_ltb. destruct ((src <? dst) && (dst <? src + n)) eqn:E; cbool.
  - rewrite copy_backward_spec by lia. rewrite Z2Nat.id by lia.
    repeat cif; try done; try lia. f_equal. lia.
  - rewrite copy_forward_spec; rewrite Z2Nat.id by lia; [done|lia].
Qed.

Lemma memmove_in m dst src n i :
  0 <= i < n -> memmove m dst src n (dst + i) = m (src + i).
Proof. intros. rewrite memmove_spec by lia. cif; [f_equal; lia|lia]. Qed.

Lemma memmove_out m dst src n x :
  0 <= n -> ~ (dst <= x < dst + n) -> memmove m dst src n x = m x.
Proof. intros. rewrite memmove_spec by lia. cif; [lia|done]. Qed.

Lemma ldn_memset_other k m d c n a :
  0 <= n -> d + n <= a \/ a + Z.of_nat k <= d -> ldn k (memset m d c n) a = ldn k m a.
Proof. intros. apply ldn_ext. intros. apply memset_out; lia. Qed.

Lemma ldn_memmove_other k m d s n a :
  0 <= n -> d + n <= a \/ a + Z.of_nat k <= d -> ldn k (memmove m d s n) a = ldn k m a.
Proof. intros. apply ldn_ext. intros. apply memmove_out; lia. Qed.

(** ** Comparison *)

Lemma memcmp_loop_zero n m s1 s2 :
  memcmp_loop n m s1 s2 = 0 <->
  forall i, 0 <= i < Z.of_nat n -> u8 (m (s1 + i)) = u8 (m (s2 + i)).
Proof.
  revert s1 s2. induction n as [|n IH]; intros s1 s2; cbn [memcmp_loop].
  { split; [lia|done]. }
  split.
  - destruct (negb _) eqn:E; cbool; [lia|]. intros H i Hi.
    destruct (decide (i = 0)) as [->|]; [by rewrite !Z.add_0_r|].
    replace (s1 + i) with (s1 + 1 + (i - 1)) by lia.
    replace (s2 + i) with (s2 + 1 + (i - 1)) by lia. apply IH; [done|lia].
  - intros H. assert (u8 (m s1) = u8 (m s2)) as E by (specialize (H 0); rewrite !Z.add_0_r in H; apply H; lia).
    rewrite E, Z.eqb_refl. simpl. apply IH. intros i Hi.
    rewrite <- !Z.add_assoc. apply H. lia.
Qed.

(** ** Strings *)

Lemma cstr_ext m m' a b l :
  (forall i, 0 <= i <= Z.of_nat (length l) -> m (a + i) = m' (b + i)) -> cstr m a l -> cstr m' b l.
Proof.
  revert a b. induction l as [|c l IH]; intros a b H; simpl.
  - by rewrite <- (Z.add_0_r a), <- (Z.add_0_r b), H by (simpl; lia).
  - intros (H1 & H2 & H3). split_and!; [|done|].
    + by rewrite <- (Z.add_0_r b), <- H, Z.add_0_r by (simpl; lia).
    + eapply IH; [|exact H3]. intros i Hi. rewrite <- !Z.add_assoc. apply H. simpl; lia.
Qed.

Lemma cstr_char m a l j c : cstr m a l -> l !! j = Some c -> u8 (m (a + Z.of_nat j)) = c.
Proof.
  revert a j. induction l as [|d l IH]; intros a j Hs Hj; [done|]. destruct Hs as (H1 & H2 & H3), j as [|j]; simpl in Hj.
  - simplify_eq. by rewrite Z.add_0_r.
  - rewrite <- (IH _ _ H3 Hj). do 2 f_equal. lia.
Qed.

Lemma cstr_end m a l : cstr m a l -> u8 (m (a + Z.of_nat (length l))) = 0.
Proof.
  revert a. induction l as [|d l IH]; intros a Hs; simpl in *; [by rewrite Z.add_0_r|]. destruct Hs as (_ & _ & Hs).
  rewrite <- (IH _ Hs). do 2 f_equal. lia.
Qed.

Lemma strlen_cstr m a l fuel :
  cstr m a l -> (length l < fuel)%nat -> strlen fuel m a = Some (Z.of_nat (length l)).
Proof.
  revert a fuel. induction l as [|c l IH]; intros a [|fuel] Hs Hf; simpl in *; try lia.
  - by rewrite Hs.
  - destruct Hs as (H1 & H2 & H3). rewrite H1. destruct (c =? 0) eqn:E; cbool; [done|].
    rewrite (IH _ fuel) by (done || lia). simpl. f_equal. lia.
Qed.

(** [strncmp] compares the strings cut at [n] characters. *)
Lemma strncmp_cstr n m p q lp lq :
  cstr m p lp -> cstr m q lq ->
  (strncmp_loop n m p q = 0 <-> take n lp = take n lq).
Proof.
  revert p q lp lq. induction n as [|n IH]; intros p q lp lq Hp Hq.
  { by split. }
  cbn [strncmp_loop]. destruct lp as [|cp lp], lq as [|cq lq]; simpl in Hp, Hq.
  - rewrite Hp, Hq. done.
  - destruct Hq as (H1 & H2 & _). rewrite Hp, H1. simpl. split; [lia|done].
  - destruct Hp as (H1 & H2 & _). rewrite Hq, H1.
    destruct (negb (cp =? 0) && (cp =? 0)) eqn:E; cbool; simpl; split; try lia; try done.
  - destruct Hp as (-> & Hcp & Hp), Hq as (-> & Hcq & Hq). simpl.
    destruct (negb (cp =? 0) && (cp =? cq)) eqn:E; cbool.
    + rewrite (IH _ _ lp lq) by done. subst. split; [by intros ->|by inversion 1].
    + split; [destruct E; cbool; lia|]. inversion 1; subst. destruct E; cbool; lia.
Qed.

Lemma zero_fill_spec n m s x :
  zero_fill n m s x = if (s <=? x) && (x <? s + Z.of_nat n) then 0 else m x.
Proof.
  revert m s. induction n as [|n IH]; intros m s; cbn [zero_fill].
  - cif; [lia|done].
  - rewrite IH. destruct (decide (x = s)) as [->|Hne].
    + rewrite upd_eq. repeat cif; try done; lia.
    + rewrite upd_ne by done. repeat cif; try done; lia.
Qed.

(** The [n] bytes [strncpy] writes, and that it writes no others. *)
Lemma strncpy_loop_spec n m s t l x :
  cstr m t l ->
  s + Z.of_nat n <= t \/ t + Z.of_nat (length l) < s ->
  strncpy_loop n m s t x =
    if (s <=? x) && (x <? s + Z.of_nat n) then nth (Z.to_nat (x - s)) l 0 else m x.
Proof.
  revert m s t l. induction n as [|n IH]; intros m s t l Hl Hd; cbn [strncpy_loop]; cbv zeta.
  { cif; [lia|done]. }
  destruct l as [|c l]; simpl in Hl.
  - rewrite Hl, Z.eqb_refl. cbn [negb]. rewrite zero_fill_spec.
    destruct (decide (x = s)) as [->|].
    + rewrite upd_eq. replace (Z.to_nat (s - s)) with O by lia. repeat cif; done || lia.
    + rewrite upd_ne by done. destruct (Z.to_nat (x - s)); repeat cif; done || lia.
  - destruct Hl as (H1 & H2 & H3). rewrite H1. destruct (c =? 0) eqn:E; cbool; [done|]. cbn [negb].
    simpl in Hd. rewrite (IH _ _ _ l); [|eapply cstr_ext, H3; intros; symmetry; apply upd_ne; lia|lia].
    destruct (decide (x = s)) as [->|].
    + rewrite upd_eq. replace (Z.to_nat (s - s)) with O by lia. repeat cif; done || lia.
    + rewrite upd_ne by done. repeat cif; try done; try lia.
      replace (Z.to_nat (x - s)) with (S (Z.to_nat (x - (s + 1)))) by lia. done.
Qed.
