(* ===== verification/Kalloc.v ===== *)
(** * kernel/kalloc.c: the physical page allocator

    The allocator keeps its free list inside the free pages themselves:
    the first bytes of a free run hold a [struct free_block].  The model
    keeps them there too, as little-endian fields of the byte store
    [phys], and walks the list through pointers, as the code does.

    Each routine runs between one [acquire]/[release] of [kmem.lock] or is
    called with it held; the model takes such a run as one step
    (mutual exclusion is the subject of the file on spinlocks). *)

From S2P Require Import Prelude Memory StringC.

(** ** State *)

Record rmap := Rmap { pagetable : Z; va : Z }.

Record kmem_state := KMem {
  phys : mem;                   (* physical memory *)
  ref_count : Z -> Z;           (* int ref_count[PHYSTOP / PGSIZE] *)
  reverse_map : Z -> rmap;      (* struct rmap reverse_map[...] *)
  freelist : Z;                 (* kmem.freelist, 0 when empty *)
  use_lock : bool               (* kmem.use_lock *)
}.

Definition set_phys (f : mem -> mem) (s : kmem_state) : kmem_state :=
  KMem (f (phys s)) (ref_count s) (reverse_map s) (freelist s) (use_lock s).
Definition set_ref_count (i v : Z) (s : kmem_state) : kmem_state :=
  KMem (phys s) (upd (ref_count s) i v) (reverse_map s) (freelist s) (use_lock s).
Definition set_reverse_map (i : Z) (r : rmap) (s : kmem_state) : kmem_state :=
  KMem (phys s) (ref_count s) (upd (reverse_map s) i r) (freelist s) (use_lock s).
Definition set_freelist (p : Z) (s : kmem_state) : kmem_state :=
  KMem (phys s) (ref_count s) (reverse_map s) p (use_lock s).
Definition set_use_lock (b : bool) (s : kmem_state) : kmem_state :=
  KMem (phys s) (ref_count s) (reverse_map s) (freelist s) b.

(** [struct free_block]: [next] at offset 0, [num_pages] at offset 8. *)
Definition next (m : mem) (b : Z) : Z := ld64 m b.
Definition num_pages (m : mem) (b : Z) : Z := ld32 m (b + 8).
Definition set_next (b v : Z) (m : mem) : mem := st64 m b v.
Definition set_num_pages (b v : Z) (m : mem) : mem := st32 m (b + 8) v.

Definition PA2IDX (pa : Z) : Z := pa / PGSIZE.

(** [(pagetable_t)-1], the mark of a page mapped by several page tables. *)
Definition PT_SHARED : Z := 2 ^ 64 - 1.

(** Every walk of the free list visits each block at most once, and a
    block is at least one page: the bound the list loops run under. *)
Definition NPAGES : Z := (PHYSTOP - KERNBASE) / PGSIZE.
Definition list_fuel : nat := S (Z.to_nat NPAGES).

(** ** Operations *)

Section kalloc.
(** [end], the first address after the kernel, set by the linker script. *)
Variable kend : Z.

Definition record_rmap (pa pt vaddr : Z) : M kmem_state unit :=
  if (pa >=? KERNBASE) && (pa <? PHYSTOP) then
    let idx := (pa - KERNBASE) / PGSIZE in
    let! rm := kget reverse_map in
    if pagetable (rm idx) =? 0 then kupd (set_reverse_map idx (Rmap pt vaddr))
    else if negb (pagetable (rm idx) =? pt)
    then kupd (set_reverse_map idx (Rmap PT_SHARED (va (rm idx))))
    else kret tt
  else kret tt.

Definition clear_rmap (pa : Z) : M kmem_state unit :=
  if (pa >=? KERNBASE) && (pa <? PHYSTOP)
  then kupd (set_reverse_map ((pa - KERNBASE) / PGSIZE) (Rmap 0 0))
  else kret tt.

(** [while(curr != 0 && curr < b) { prev = curr; curr = curr->next; }] *)
Fixpoint find_slot (fuel : nat) (m : mem) (b prev curr : Z) : option (Z * Z) :=
  match fuel with
  | O => None
  | S f =>
      if negb (curr =? 0) && (curr <? b) then find_slot f m b curr (next m curr)
      else Some (prev, curr)
  end.

Definition link_block (prev curr b : Z) : M kmem_state unit :=
  do! (if negb (prev =? 0) then kupd (set_phys (set_next prev b)) else kupd (set_freelist b));
  kupd (set_phys (set_next b curr)).

Definition coalesce_right (b : Z) : M kmem_state unit :=
  let! m := kget phys in
  if negb (next m b =? 0) && (b + u32 (num_pages m b * PGSIZE) =? next m b) then
    do! kupd (set_phys (set_num_pages b (u32 (num_pages m b + num_pages m (next m b)))));
    let! m' := kget phys in
    kupd (set_phys (set_next b (next m' (next m' b))))
  else kret tt.

Definition coalesce_left (prev b : Z) : M kmem_state unit :=
  let! m := kget phys in
  if negb (prev =? 0) && (prev + u32 (num_pages m prev * PGSIZE) =? b) then
    do! kupd (set_phys (set_num_pages prev (u32 (num_pages m prev + num_pages m b))));
    let! m' := kget phys in
    kupd (set_phys (set_next prev (next m' b)))
  else kret tt.

(** Put the run at [b], whose header holds its size, on the list. *)
Definition insert_run (b : Z) : M kmem_state unit :=
  let! m := kget phys in
  let! first := kget freelist in
  match find_slot list_fuel m b 0 first with
  | None => khang
  | Some (prev, curr) =>
      do! link_block prev curr b;
      do! coalesce_right b;
      coalesce_left prev b
  end.

(** The decrement of one page's count, with its check. *)
Definition drop_ref (idx : Z) : M kmem_state unit :=
  let! rc := kget ref_count in
  if rc idx <=? 0 then kpanic "kfree_contig: ref_count already zero"
  else kupd (set_ref_count idx (s32 (rc idx - 1))).

Definition check_unreferenced (idx : Z) : M kmem_state unit :=
  let! rc := kget ref_count in
  if rc idx >? 0 then kpanic "kfree_contig: partial free not supported on contiguous blocks"
  else kret tt.

Definition kfree_contig (pa n : Z) : M kmem_state unit :=
  if negb (pa mod PGSIZE =? 0) || (pa <? kend) || (u64 (pa + s32 (n * PGSIZE)) >? PHYSTOP)
  then kpanic "kfree_contig" else
  do! for_each (seqZ 0 n) (fun i => drop_ref (PA2IDX (pa + i * PGSIZE)));
  let! rc := kget ref_count in
  if (n =? 1) && (rc (PA2IDX pa) >? 0) then kret tt else
  do! (if n >? 1
       then for_each (seqZ 0 n) (fun i => check_unreferenced (PA2IDX (pa + i * PGSIZE)))
       else kret tt);
  do! for_each (seqZ 0 n) (fun i => clear_rmap (pa + i * PGSIZE));
  do! kupd (set_phys (fun m => memset m pa 1 (u32 (n * PGSIZE))));
  do! kupd (set_phys (set_num_pages pa (u32 n)));
  insert_run pa.

(** The search of [kalloc_contig]: among the blocks of at least [n]
    pages, the first of the smallest ones, with its predecessor. *)
Fixpoint best_fit (fuel : nat) (m : mem) (n prev curr best_prev best_curr : Z)
    : option (Z * Z) :=
  match fuel with
  | O => None
  | S f =>
      if curr =? 0 then Some (best_prev, best_curr)
      else if (num_pages m curr >=? u32 n) &&
              ((best_curr =? 0) || (num_pages m curr <? num_pages m best_curr))
      then best_fit f m n curr (next m curr) prev curr
      else best_fit f m n curr (next m curr) best_prev best_curr
  end.

Definition unlink_block (best_prev best_curr : Z) : M kmem_state unit :=
  let! m := kget phys in
  if negb (best_prev =? 0) then kupd (set_phys (set_next best_prev (next m best_curr)))
  else kupd (set_freelist (next m best_curr)).

Definition split_block (best_prev best_curr n : Z) : M kmem_state unit :=
  let split := best_curr + s32 (n * PGSIZE) in
  let! m := kget phys in
  do! kupd (set_phys (set_num_pages split (u32 (num_pages m best_curr - n))));
  let! m' := kget phys in
  do! kupd (set_phys (set_next split (next m' best_curr)));
  if negb (best_prev =? 0) then kupd (set_phys (set_next best_prev split))
  else kupd (set_freelist split).

Definition kalloc_contig (n : Z) : M kmem_state Z :=
  let! m := kget phys in
  let! first := kget freelist in
  match best_fit list_fuel m n 0 first 0 0 with
  | None => khang
  | Some (best_prev, best_curr) =>
      if best_curr =? 0 then kret 0 else
      do! (if num_pages m best_curr =? u32 n then unlink_block best_prev best_curr
           else split_block best_prev best_curr n);
      do! for_each (seqZ 0 n) (fun i => kupd (set_ref_count (PA2IDX (best_curr + i * PGSIZE)) 1));
      do! kupd (set_phys (fun m' => memset m' best_curr 5 (u32 (n * PGSIZE))));
      kret best_curr
  end.

Definition kfree (pa : Z) : M kmem_state unit := kfree_contig pa 1.
Definition kalloc : M kmem_state Z := kalloc_contig 1.

(** The pages [p, p + PGSIZE) that fit below [pa_end], from [p0] up. *)
Definition pages_upto (p0 pa_end : Z) : list Z :=
  (fun i => p0 + i * PGSIZE) <$> seqZ 0 ((pa_end - p0) / PGSIZE).

Definition freerange (pa_start pa_end : Z) : M kmem_state unit :=
  let p0 := PGROUNDUP pa_start in
  do! for_each (pages_upto p0 pa_end) (fun p => kupd (set_ref_count (PA2IDX p) 1));
  kfree_contig p0 (s32 (u64 (pa_end - p0) / PGSIZE)).

Definition kinit : M kmem_state unit :=
  do! kupd (set_use_lock false);
  do! for_each (seqZ 0 NPAGES) (fun i => kupd (set_reverse_map i (Rmap 0 0)));
  do! for_each (seqZ 0 (PHYSTOP / PGSIZE)) (fun i => kupd (set_ref_count i 0));
  do! freerange kend PHYSTOP;
  kupd (set_use_lock true).

Definition incref (pa : Z) : M kmem_state unit :=
  let! rc := kget ref_count in
  kupd (set_ref_count (PA2IDX pa) (s32 (rc (PA2IDX pa) + 1))).

Definition getref (pa : Z) : M kmem_state Z :=
  let! rc := kget ref_count in kret (rc (PA2IDX pa)).

Definition decref (pa : Z) : M kmem_state Z :=
  let! rc := kget ref_count in
  if rc (PA2IDX pa) <=? 0 then kpanic "decref: invalid" else
  do! kupd (set_ref_count (PA2IDX pa) (s32 (rc (PA2IDX pa) - 1)));
  let! rc' := kget ref_count in kret (rc' (PA2IDX pa)).

End kalloc.

(** ** The free list as a list of runs

    [seg m p l q]: from pointer [p], following [next], memory [m] holds
    headers for exactly the runs [l] (address, pages), ending at [q]. *)

Fixpoint seg (m : mem) (p : Z) (l : list (Z * Z)) (q : Z) : Prop :=
  match l with
  | [] => p = q
  | (a, k) :: l' => p = a /\ a <> 0 /\ num_pages m a = k /\ seg m (next m a) l' q
  end.

(** Runs in address order, page aligned, non-empty, disjoint, from [lo]
    up to [PHYSTOP]. *)
Fixpoint runs_from (lo : Z) (l : list (Z * Z)) : Prop :=
  match l with
  | [] => True
  | (a, k) :: l' =>
      lo <= a /\ a mod PGSIZE = 0 /\ 1 <= k /\ a + k * PGSIZE <= PHYSTOP /\
      runs_from (a + k * PGSIZE) l'
  end.

(** No two neighbouring runs touch: everything that could be merged is. *)
Fixpoint coalesced (l : list (Z * Z)) : Prop :=
  match l with
  | (a, k) :: (((b, _) :: _) as l') => a + k * PGSIZE <> b /\ coalesced l'
  | _ => True
  end.

(** The addresses the runs cover. *)
Definition in_runs (l : list (Z * Z)) (x : Z) : Prop :=
  exists a k, (a, k) ∈ l /\ a <= x < a + k * PGSIZE.

Definition runs_end (lo : Z) (l : list (Z * Z)) : Z :=
  match last l with Some (a, k) => a + k * PGSIZE | None => lo end.

(** *** Segments *)

Lemma seg_app m p l1 l2 q :
  seg m p (l1 ++ l2) q <-> exists r, seg m p l1 r /\ seg m r l2 q.
Proof.
  revert p. induction l1 as [|[a k] l1 IH]; intros p; simpl; [naive_solver|].
  rewrite IH. naive_solver.
Qed.

Lemma seg_ext m m' p l q :
  (forall a k, (a, k) ∈ l -> next m' a = next m a /\ num_pages m' a = num_pages m a) ->
  seg m p l q -> seg m' p l q.
Proof.
  revert p. induction l as [|[a k] l IH]; intros p Hext; simpl; [done|].
  intros (-> & Ha & Hk & Hl). destruct (Hext a k) as [En Ek]; [set_solver|].
  rewrite En, Ek. split_and!; try done. apply IH; [|done].
  intros. apply (Hext _ k0). set_solver.
Qed.

Lemma seg_head m p l q : seg m p l q -> l <> [] -> exists a k l', l = (a, k) :: l' /\ p = a /\ a <> 0.
Proof. destruct l as [|[a k] l]; naive_solver. Qed.

Lemma seg_null m l : seg m 0 l 0 -> l = [].
Proof. destruct l as [|[a k] l]; naive_solver. Qed.

(** *** Runs *)

Lemma runs_end_cons lo a k l : runs_end lo ((a, k) :: l) = runs_end (a + k * PGSIZE) l.
Proof. unfold runs_end. rewrite last_cons. by destruct (last l) as [[]|]. Qed.

Lemma runs_from_app lo l1 l2 :
  runs_from lo (l1 ++ l2) <-> runs_from lo l1 /\ runs_from (runs_end lo l1) l2.
Proof.
  revert lo. induction l1 as [|[a k] l1 IH]; intros lo; simpl; [naive_solver|].
  rewrite IH, runs_end_cons. naive_solver.
Qed.

Lemma runs_from_weaken lo lo' l : lo' <= lo -> runs_from lo l -> runs_from lo' l.
Proof. destruct l as [|[a k] l]; simpl; [done|]. intros ? (? & ?). split; [lia|done]. Qed.

Lemma runs_end_ge lo l : runs_from lo l -> lo <= runs_end lo l.
Proof.
  revert lo. induction l as [|[a k] l IH]; intros lo; simpl; [unfold runs_end; simpl; lia|].
  intros (? & ? & ? & ? & Hl). specialize (IH _ Hl). rewrite runs_end_cons.
  unfold PGSIZE in *. lia.
Qed.

Lemma runs_from_in lo l a k :
  runs_from lo l -> (a, k) ∈ l ->
  lo <= a /\ a mod PGSIZE = 0 /\ 1 <= k /\ a + k * PGSIZE <= runs_end lo l /\ a + k * PGSIZE <= PHYSTOP.
Proof.
  revert lo. induction l as [|[a' k'] l IH]; intros lo; simpl; [set_solver|].
  intros (H1 & H2 & H3 & H4 & Hl) Hin. pose proof (runs_end_ge _ _ Hl) as Hge.
  rewrite runs_end_cons.
  apply elem_of_cons in Hin as [[= -> ->]|Hin]; [lia|].
  destruct (IH _ Hl Hin) as (? & ? & ? & ? & ?). unfold PGSIZE in *. lia.
Qed.

Lemma runs_end_snoc lo l a k : runs_end lo (l ++ [(a, k)]) = a + k * PGSIZE.
Proof. unfold runs_end. by rewrite last_snoc. Qed.

Lemma in_runs_cons a k l x :
  in_runs ((a, k) :: l) x <-> a <= x < a + k * PGSIZE \/ in_runs l x.
Proof. unfold in_runs. set_solver. Qed.

Lemma in_runs_app l1 l2 x : in_runs (l1 ++ l2) x <-> in_runs l1 x \/ in_runs l2 x.
Proof. unfold in_runs. set_solver. Qed.

Lemma runs_length lo l :
  runs_from lo l -> lo mod PGSIZE = 0 -> lo <= PHYSTOP ->
  Z.of_nat (length l) * PGSIZE <= PHYSTOP - lo.
Proof.
  revert lo. induction l as [|[a k] l IH]; intros lo; simpl; [lia|].
  intros (H1 & H2 & H3 & H4 & Hl) Hlo Hle.
  specialize (IH _ Hl). rewrite Nat2Z.inj_succ. unfold PGSIZE in *.
  rewrite Z_mod_plus_full in IH. lia.
Qed.

Lemma runs_sep lo l1 a k l2 a' k' :
  runs_from lo (l1 ++ (a, k) :: l2) ->
  ((a', k') ∈ l1 -> a' + k' * PGSIZE <= a /\ a' + PGSIZE <= a) /\
  ((a', k') ∈ l2 -> a + k * PGSIZE <= a' /\ a + PGSIZE <= a').
Proof.
  rewrite runs_from_app. simpl. intros (H1 & Hlo & _ & Hk & _ & H2).
  split; intros Hin.
  - destruct (runs_from_in _ _ _ _ H1 Hin) as (_ & _ & ? & ? & _). unfold PGSIZE in *. lia.
  - destruct (runs_from_in _ _ _ _ H2 Hin) as (? & _). unfold PGSIZE in *. lia.
Qed.

(** The bound on list walks is enough for any free list. *)
Lemma runs_fuel lo l :
  KERNBASE <= lo -> lo mod PGSIZE = 0 -> lo <= PHYSTOP -> runs_from lo l -> (length l < list_fuel)%nat.
Proof.
  intros H1 H2 H3 HR. pose proof (runs_length _ _ HR H2 H3). unfold list_fuel, NPAGES, PGSIZE in *.
  Z.to_euclidean_division_equations. lia.
Qed.
#[global] Opaque list_fuel.

(** *** Header fields under header writes *)

Lemma next_set_next_eq m b v : 0 <= v < 2 ^ 64 -> next (set_next b v m) b = v.
Proof. apply ld64_st64_same. Qed.

Lemma next_set_next_ne m a b v :
  a + 16 <= b \/ b + 16 <= a -> next (set_next b v m) a = next m a.
Proof. intros. apply ld64_st64_other. lia. Qed.

Lemma num_set_next m a b v :
  a = b \/ a + 16 <= b \/ b + 16 <= a -> num_pages (set_next b v m) a = num_pages m a.
Proof. intros. apply ld32_st64_other. lia. Qed.

Lemma next_set_num m a b v :
  a = b \/ a + 16 <= b \/ b + 16 <= a -> next (set_num_pages b v m) a = next m a.
Proof. intros. apply ld64_st32_other. lia. Qed.

Lemma num_set_num_eq m b v : 0 <= v < 2 ^ 32 -> num_pages (set_num_pages b v m) b = v.
Proof. apply ld32_st32_same. Qed.

Lemma num_set_num_ne m a b v :
  a + 16 <= b \/ b + 16 <= a -> num_pages (set_num_pages b v m) a = num_pages m a.
Proof. intros. apply ld32_st32_other. lia. Qed.

Lemma next_memset m a d c n :
  0 <= n -> a + 16 <= d \/ d + n <= a -> next (memset m d c n) a = next m a.
Proof. intros. with_strategy transparent [ld64] (apply (ldn_memset_other 8); lia). Qed.

Lemma num_memset m a d c n :
  0 <= n -> a + 16 <= d \/ d + n <= a -> num_pages (memset m d c n) a = num_pages m a.
Proof. intros. with_strategy transparent [ld32] (apply (ldn_memset_other 4); lia). Qed.

Lemma set_next_out m b v x : ~ (b <= x < b + 16) -> set_next b v m x = m x.
Proof. intros. with_strategy transparent [st64] (apply (stn_other 8); lia). Qed.

Lemma set_num_out m b v x : ~ (b <= x < b + 16) -> set_num_pages b v m x = m x.
Proof. intros. with_strategy transparent [st32] (apply (stn_other 4); lia). Qed.

(** [hdr] evaluates header reads over header writes, [hdr_ext] proves that
    a segment's headers are the same in both memories. *)
Ltac hdr :=
  repeat first
    [ rewrite next_set_next_eq by lia | rewrite num_set_num_eq by lia
    | rewrite next_set_next_ne by lia | rewrite num_set_num_ne by lia
    | rewrite num_set_next by lia | rewrite next_set_num by lia
    | rewrite next_memset by lia | rewrite num_memset by lia ].

Definition last_addr (prev : Z) (l : list (Z * Z)) : Z :=
  match last l with Some (a, _) => a | None => prev end.

Lemma find_slot_split fuel m b prev p l lo :
  seg m p l 0 -> runs_from lo l -> (length l < fuel)%nat ->
  exists l1 l2 r, l = l1 ++ l2 /\
    (forall a k, (a, k) ∈ l1 -> a < b) /\ (forall a k, (a, k) ∈ l2 -> b <= a) /\
    find_slot fuel m b prev p = Some (last_addr prev l1, r) /\
    seg m p l1 r /\ seg m r l2 0.
Proof.
  revert fuel prev p lo. induction l as [|[a k] l IH]; intros [|fuel] prev p lo Hs Hr Hf;
    simpl in Hf; try lia; simpl in Hs.
  { subst p. exists [], [], 0. simpl. split_and!; set_solver. }
  destruct Hs as (-> & Ha & Hk & Hs). simpl in Hr. destruct Hr as (H1 & H2 & H3 & H4 & Hr).
  simpl find_slot. rewrite (proj2 (Z.eqb_neq a 0)) by done. simpl.
  destruct (a <? b) eqn:E; cbool.
  - destruct (IH fuel a (next m a) _ Hs Hr) as (l1 & l2 & r & -> & Hl1 & Hl2 & Hf' & Hs1 & Hs2); [lia|].
    exists ((a, k) :: l1), l2, r. rewrite Hf'. split_and!; try done.
    + intros a' k' [[= -> ->]|Hin]%elem_of_cons; [done|]. by eapply Hl1.
    + f_equal. f_equal. unfold last_addr. rewrite last_cons. by destruct (last l1) as [[]|].
  - exists [], ((a, k) :: l), a. simpl. split_and!; try done; [set_solver|].
    intros a' k' [[= -> ->]|Hin]%elem_of_cons; [lia|].
    destruct (runs_from_in _ _ _ _ Hr Hin). unfold PGSIZE in *. lia.
Qed.

(** *** Linking and merging runs

    The parts of the state the list surgery leaves alone. *)
Definition list_frame (P : Z -> Prop) (s s' : kmem_state) : Prop :=
  ref_count s' = ref_count s /\ reverse_map s' = reverse_map s /\ use_lock s' = use_lock s /\
  (forall x, ~ P x -> phys s' x = phys s x).

Lemma list_frame_trans (P : Z -> Prop) s1 s2 s3 :
  list_frame P s1 s2 -> list_frame P s2 s3 -> list_frame P s1 s3.
Proof.
  intros (? & ? & ? & HP1) (? & ? & ? & HP2). split_and!; try congruence.
  intros x Hx. by rewrite HP2, HP1.
Qed.

Lemma list_frame_mono (P Q : Z -> Prop) s s' :
  (forall x, P x -> Q x) -> list_frame P s s' -> list_frame Q s s'.
Proof. intros HPQ (? & ? & ? & HP). split_and!; auto. Qed.

Lemma header_in_runs lo l a k x :
  runs_from lo l -> (a, k) ∈ l -> a <= x < a + 16 -> in_runs l x.
Proof.
  intros Hr Hin Hx. exists a, k. split; [done|].
  destruct (runs_from_in _ _ _ _ Hr Hin) as (_ & _ & ? & _). unfold PGSIZE. lia.
Qed.

Lemma seg_ptr_range m p l q lo :
  seg m p l q -> runs_from lo l -> 0 <= lo -> 0 <= q < 2 ^ 64 -> 0 <= p < 2 ^ 64.
Proof.
  destruct l as [|[a k] l]; simpl; [by intros ->|].
  intros (-> & _) (? & ? & ? & ? & _) ? ?. unfold PHYSTOP, KERNBASE, PGSIZE in *. lia.
Qed.

Lemma run_size_range lo l a k :
  runs_from lo l -> 0 <= lo -> (a, k) ∈ l -> 1 <= k < 2 ^ 20 /\ u32 (k * PGSIZE) = k * PGSIZE.
Proof.
  intros Hr Hlo Hin. destruct (runs_from_in _ _ _ _ Hr Hin) as (? & _ & ? & _ & ?).
  assert (1 <= k < 2 ^ 20) by (unfold PHYSTOP, KERNBASE, PGSIZE in *; lia).
  split; [done|]. apply u32_small. unfold PGSIZE. lia.
Qed.

Section list_surgery.
Context (lo : Z) (Hlo : 0 < lo).

Lemma link_block_spec s curr b n l1 l2 :
  runs_from lo (l1 ++ (b, n) :: l2) ->
  seg (phys s) (freelist s) l1 curr -> seg (phys s) curr l2 0 -> num_pages (phys s) b = n ->
  wp (link_block (last_addr 0 l1) curr b)
     (fun _ s' => seg (phys s') (freelist s') (l1 ++ (b, n) :: l2) 0 /\
                  list_frame (in_runs (l1 ++ (b, n) :: l2)) s s') s.
Proof.
  intros HR H1 H2 Hn. assert (Hb := runs_from_in _ _ b n HR ltac:(set_solver)).
  assert (0 <= b < 2 ^ 64) by (unfold PHYSTOP, KERNBASE, PGSIZE in *; lia).
  assert (Hc : 0 <= curr < 2 ^ 64).
  { apply runs_from_app in HR as (? & ? & ? & ? & ? & HR2). eapply seg_ptr_range; [done..|unfold PGSIZE in *; lia|lia]. }
  assert (Hsep := fun a k => runs_sep lo l1 b n l2 a k HR).
  assert (Hhdr := fun a k x => header_in_runs lo _ a k x HR).
  induction l1 as [|[a k] l0 _] using rev_ind.
  - simpl in H1 |- *. unfold wp, list_frame, link_block; simpl. split_and!; try done; try lia.
    + by hdr.
    + hdr. eapply seg_ext; [|exact H2]. intros a k Hin. destruct (Hsep a k) as [_ Hs].
      specialize (Hs Hin). unfold PGSIZE in *. split; hdr; done.
    + intros x Hx. apply set_next_out. contradict Hx. eapply (Hhdr b n); [set_solver|done].
  - rewrite <- app_assoc in HR, Hhdr |- *. simpl in HR, Hhdr |- *.
    assert (Hsa := fun a' k' => runs_sep lo l0 a k ((b, n) :: l2) a' k' HR).
    assert (Hab : a + 16 <= b).
    { destruct (Hsa b n) as [_ Hs]. specialize (Hs ltac:(set_solver)). unfold PGSIZE in *. lia. }
    apply seg_app in H1 as (r & H0 & -> & Ha & Hk & <-).
    unfold last_addr. rewrite last_snoc. unfold wp, list_frame, link_block, kbind.
    rewrite (proj2 (Z.eqb_neq a 0)) by done. simpl. split_and!; try done.
    + apply seg_app. exists a. split; [|simpl; split_and!; try done; try lia].
      * eapply seg_ext; [|exact H0]. intros a' k' Hin. destruct (Hsa a' k') as [Hs _].
        specialize (Hs Hin). unfold PGSIZE in *. split; hdr; done.
      * by hdr.
      * by hdr.
      * by hdr.
      * hdr. eapply seg_ext; [|exact H2]. intros a' k' Hin. destruct (Hsep a' k') as [_ Hs].
        specialize (Hs Hin). unfold PGSIZE in *. split; hdr; done.
    + intros x Hx. rewrite !set_next_out; [done| |].
      * contradict Hx. eapply (Hhdr a k); [set_solver|done].
      * contradict Hx. eapply (Hhdr b n); [set_solver|done].
Qed.

(** What [coalesce_right] does to the list of runs from the block on. *)
Definition merge_right (b n : Z) (l2 : list (Z * Z)) : list (Z * Z) :=
  match l2 with
  | (a, k) :: l2' => if b + n * PGSIZE =? a then (b, n + k) :: l2' else (b, n) :: l2
  | [] => [(b, n)]
  end.

Lemma merge_right_in_runs b n l2 x :
  0 <= n -> Forall (fun r => 0 <= r.2) l2 ->
  in_runs (merge_right b n l2) x <-> in_runs ((b, n) :: l2) x.
Proof.
  intros Hn Hk. destruct l2 as [|[a k] l2]; simpl; [done|].
  destruct (_ =? a) eqn:E; cbool; [|done]. rewrite !in_runs_cons.
  inversion Hk; simpl in *. unfold PGSIZE in *. intuition lia.
Qed.

Lemma coalesce_right_spec s b n l1 l2 :
  runs_from lo (l1 ++ (b, n) :: l2) ->
  seg (phys s) (freelist s) (l1 ++ (b, n) :: l2) 0 ->
  wp (coalesce_right b)
     (fun _ s' => seg (phys s') (freelist s') (l1 ++ merge_right b n l2) 0 /\
                  list_frame (in_runs (l1 ++ (b, n) :: l2)) s s') s.
Proof.
  intros HR HS. assert (Hb := run_size_range _ _ b n HR ltac:(lia) ltac:(set_solver)).
  pose proof HS as (r & H1 & -> & Hb0 & Hn & H2)%seg_app.
  unfold wp, list_frame, coalesce_right, kbind, kget. rewrite Hn, (proj2 Hb).
  destruct l2 as [|[a k] l2].
  { simpl in H2. rewrite H2, Z.eqb_refl. simpl. split; [done|]. by split_and!. }
  destruct H2 as (Ha & Ha0 & Hk & H2). rewrite Ha, (proj2 (Z.eqb_neq a 0)) by done. simpl.
  destruct (_ =? a) eqn:E; cbool; simpl; [|split; [done|by split_and!]].
  assert (Hk' := run_size_range _ _ a k HR ltac:(lia) ltac:(set_solver)).
  assert (Hsb := fun a' k' => runs_sep lo l1 b n ((a, k) :: l2) a' k' HR).
  assert (Hsa := fun a' k' => runs_sep lo (l1 ++ [(b, n)]) a k l2 a' k' ltac:(by rewrite <- app_assoc)).
  assert (Hab : b + 16 <= a) by (unfold PGSIZE in *; lia).
  assert (Hna : 0 <= next (phys s) a < 2 ^ 64) by apply ld64_range.
  rewrite Hk, (next_set_num _ b b) by lia. rewrite Ha. hdr. rewrite u32_small by lia. split_and!; try done.
  - apply seg_app. exists b. split; [|simpl; split_and!; try done].
    + eapply seg_ext; [|exact H1]. intros a' k' Hin. destruct (Hsb a' k') as [Hs _].
      specialize (Hs Hin). unfold PGSIZE in *. split; hdr; done.
    + by hdr.
    + hdr. eapply seg_ext; [|exact H2]. intros a' k' Hin. destruct (Hsb a' k') as [_ Hs].
      specialize (Hs ltac:(set_solver)). unfold PGSIZE in *. split; hdr; done.
  - intros x Hx. rewrite set_next_out, set_num_out; [done|..];
      contradict Hx; (eapply (header_in_runs lo _ b n); [done|set_solver|done]).
Qed.

Lemma coalesce_left_spec s l0 a k b n l2 :
  runs_from lo (l0 ++ (a, k) :: (b, n) :: l2) ->
  seg (phys s) (freelist s) (l0 ++ (a, k) :: (b, n) :: l2) 0 ->
  wp (coalesce_left a b)
     (fun _ s' => seg (phys s') (freelist s')
                    (l0 ++ (if a + k * PGSIZE =? b then (a, k + n) :: l2
                            else (a, k) :: (b, n) :: l2)) 0 /\
                  list_frame (in_runs (l0 ++ (a, k) :: (b, n) :: l2)) s s') s.
Proof.
  intros HR HS. assert (Ha := run_size_range _ _ a k HR ltac:(lia) ltac:(set_solver)).
  assert (Hb := run_size_range _ _ b n HR ltac:(lia) ltac:(set_solver)).
  pose proof HS as (r & H1 & -> & Ha0 & Hk & Hnx & Hb0 & Hn & H2)%seg_app.
  unfold wp, list_frame, coalesce_left, kbind, kget. rewrite Hk, (proj2 Ha), (proj2 (Z.eqb_neq a 0)) by done.
  simpl. destruct (_ =? b) eqn:E; cbool; simpl; [|split; [done|by split_and!]].
  assert (Hsa := fun a' k' => runs_sep lo l0 a k ((b, n) :: l2) a' k' HR).
  assert (Hab : a + 16 <= b) by (unfold PGSIZE in *; lia).
  assert (Hnb : 0 <= next (phys s) b < 2 ^ 64) by apply ld64_range.
  rewrite Hn. hdr. rewrite u32_small by lia. split_and!; try done.
  - apply seg_app. exists a. split; [|simpl; split_and!; try done].
    + eapply seg_ext; [|exact H1]. intros a' k' Hin. destruct (Hsa a' k') as [Hs _].
      specialize (Hs Hin). unfold PGSIZE in *. split; hdr; done.
    + by hdr.
    + hdr. eapply seg_ext; [|exact H2]. intros a' k' Hin. destruct (Hsa a' k') as [_ Hs].
      specialize (Hs ltac:(set_solver)). unfold PGSIZE in *. split; hdr; done.
  - intros x Hx. rewrite set_next_out, set_num_out; [done|..];
      contradict Hx; (eapply (header_in_runs lo _ a k); [done|set_solver|done]).
Qed.

End list_surgery.

(** *** Runs stay ordered, disjoint and merged *)

Lemma coalesced_app l1 x l2 :
  coalesced (l1 ++ x :: l2) <-> coalesced (l1 ++ [x]) /\ coalesced (x :: l2).
Proof.
  induction l1 as [|[a k] l1 IH]; simpl.
  { destruct x as [a k]. naive_solver. }
  destruct l1 as [|[b j] l1]; simpl in *; destruct x as [c i]; naive_solver.
Qed.

Lemma coalesced_tail l1 l2 : coalesced (l1 ++ l2) -> coalesced l2.
Proof.
  induction l1 as [|[a k] l1 IH]; simpl; [done|].
  destruct (l1 ++ l2) as [|[]] eqn:E; [by destruct l1, l2|naive_solver].
Qed.

Lemma coalesced_init l1 l2 : coalesced (l1 ++ l2) -> coalesced l1.
Proof.
  induction l1 as [|[a k] l1 IH]; simpl; [done|].
  destruct l1 as [|[b j] l1]; simpl in *; naive_solver.
Qed.

Lemma coalesced_last_size l a k k' : coalesced (l ++ [(a, k)]) -> coalesced (l ++ [(a, k')]).
Proof.
  induction l as [|[b j] l IH]; simpl; [done|].
  destruct l as [|[c i] l]; simpl in *; naive_solver.
Qed.

Lemma runs_insert lo l1 l2 b n :
  runs_from lo (l1 ++ l2) -> b mod PGSIZE = 0 -> lo <= b -> 1 <= n -> b + n * PGSIZE <= PHYSTOP ->
  (forall a k, (a, k) ∈ l1 -> a < b) -> (forall a k, (a, k) ∈ l2 -> b <= a) ->
  (forall i, 0 <= i < n -> ~ in_runs (l1 ++ l2) (b + i * PGSIZE)) ->
  runs_from lo (l1 ++ (b, n) :: l2).
Proof.
  intros HR Hal Hlo Hn Hend Hl1 Hl2 Hfree.
  apply runs_from_app in HR as [HR1 HR2]. apply runs_from_app. split; [done|].
  simpl. split_and!; try done.
  - induction l1 as [|[a k] l0 _] using rev_ind; [done|]. rewrite runs_end_snoc.
    specialize (Hl1 a k ltac:(set_solver)). apply Z.nlt_ge. intros Hlt.
    apply (Hfree 0); [lia|]. exists a, k. split; [set_solver|lia].
  - destruct l2 as [|[a k] l2]; [done|]. simpl in HR2 |- *.
    specialize (Hl2 a k ltac:(set_solver)). split_and!; try apply HR2.
    apply Z.nlt_ge. intros Hlt. apply (Hfree ((a - b) / PGSIZE)).
    + unfold PGSIZE in *. Z.to_euclidean_division_equations. lia.
    + exists a, k. split; [set_solver|]. destruct HR2 as (_ & Ha & Hk & _). unfold PGSIZE in *.
      Z.to_euclidean_division_equations. lia.
Qed.

Lemma merge_right_ok lo l1 b n l2 :
  runs_from lo (l1 ++ (b, n) :: l2) -> coalesced l2 ->
  exists n' l2', merge_right b n l2 = (b, n') :: l2' /\
    runs_from lo (l1 ++ (b, n') :: l2') /\ coalesced ((b, n') :: l2') /\
    (forall x, in_runs ((b, n') :: l2') x <-> in_runs ((b, n) :: l2) x).
Proof.
  intros HR HC. destruct l2 as [|[a k] l2]; simpl merge_right.
  { exists n, []. by split_and!. }
  destruct (_ =? a) eqn:E; cbool.
  - exists (n + k), l2. split; [done|]. rewrite runs_from_app in HR |- *. simpl in HR |- *.
    destruct HR as (? & ? & ? & ? & ? & ? & ? & ? & ? & HR).
    replace (b + (n + k) * PGSIZE) with (a + k * PGSIZE) by lia. split_and!; try done; try lia.
    intros x. rewrite !in_runs_cons. unfold PGSIZE in *. intuition lia.
  - exists n, ((a, k) :: l2). by split_and!.
Qed.

Lemma merge_left_ok lo l0 a k b n l2 :
  runs_from lo (l0 ++ (a, k) :: (b, n) :: l2) ->
  coalesced (l0 ++ [(a, k)]) -> coalesced ((b, n) :: l2) ->
  let l' := l0 ++ (if a + k * PGSIZE =? b then (a, k + n) :: l2 else (a, k) :: (b, n) :: l2) in
  runs_from lo l' /\ coalesced l' /\
  (forall x, in_runs l' x <-> in_runs (l0 ++ (a, k) :: (b, n) :: l2) x).
Proof.
  intros HR HC1 HC2. simpl. destruct (_ =? b) eqn:E; cbool.
  - rewrite runs_from_app in HR |- *. simpl in HR |- *.
    destruct HR as (? & ? & ? & ? & ? & ? & ? & ? & ? & HR).
    replace (a + (k + n) * PGSIZE) with (b + n * PGSIZE) by lia. split_and!; try done; try lia.
    + apply coalesced_app. split; [by eapply coalesced_last_size|].
      destruct l2 as [|[c j] l2]; [done|]. simpl in HC2 |- *.
      by replace (a + (k + n) * PGSIZE) with (b + n * PGSIZE) by lia.
    + intros x. rewrite !in_runs_app, !in_runs_cons. unfold PGSIZE in *. intuition lia.
  - split_and!; try done. apply coalesced_app. split; [done|]. simpl. split; [lia|done].
Qed.

Lemma insert_run_spec lo s l b n :
  KERNBASE <= lo -> lo mod PGSIZE = 0 -> lo <= PHYSTOP ->
  seg (phys s) (freelist s) l 0 -> runs_from lo l -> coalesced l ->
  num_pages (phys s) b = n -> b mod PGSIZE = 0 -> lo <= b -> 1 <= n -> b + n * PGSIZE <= PHYSTOP ->
  (forall i, 0 <= i < n -> ~ in_runs l (b + i * PGSIZE)) ->
  wp (insert_run b) (fun _ s' => exists l',
    seg (phys s') (freelist s') l' 0 /\ runs_from lo l' /\ coalesced l' /\
    (forall x, in_runs l' x <-> in_runs l x \/ b <= x < b + n * PGSIZE) /\
    list_frame (in_runs l') s s') s.
Proof.
  intros Hlo Hlal Hlt HS HR HC Hnum Hal Hb Hn Hend Hfree.
  assert (Hfuel := runs_fuel _ _ Hlo Hlal Hlt HR).
  destruct (find_slot_split list_fuel (phys s) b 0 (freelist s) l lo HS HR Hfuel)
    as (l1 & l2 & curr & -> & Hl1 & Hl2 & Hslot & HS1 & HS2).
  assert (HR' := runs_insert lo l1 l2 b n HR Hal Hb Hn Hend Hl1 Hl2 Hfree).
  assert (Hpos : 0 < lo) by (unfold KERNBASE in *; lia).
  destruct (merge_right_ok lo l1 b n l2 HR' (coalesced_tail _ _ HC)) as (n' & l2' & Em & HRm & HCm & Him).
  unfold insert_run. apply wp_bind, wp_get, wp_bind, wp_get. rewrite Hslot. cbv beta iota. apply wp_bind.
  eapply wp_mono; [by apply (link_block_spec lo Hpos s curr b n l1 l2)|]. intros [] s1 [HS' HF1].
  apply wp_bind. eapply wp_mono; [by apply (coalesce_right_spec lo Hpos s1 b n l1 l2)|]. intros [] s2 [HS'' HF2].
  rewrite Em in HS''.
  assert (Hin : forall x, in_runs (l1 ++ (b, n') :: l2') x <->
                          in_runs (l1 ++ l2) x \/ b <= x < b + n * PGSIZE).
  { intros x. rewrite in_runs_app, Him, in_runs_cons, in_runs_app. tauto. }
  assert (HF : list_frame (in_runs (l1 ++ (b, n') :: l2')) s s2).
  { eapply list_frame_mono, list_frame_trans; [|done|done]. intros x.
    rewrite in_runs_app, (in_runs_app l1 ((b, n') :: l2')), Him. done. }
  induction l1 as [|[a k] l0 _] using rev_ind.
  - unfold wp, coalesce_left; simpl. exists ((b, n') :: l2'). by split_and!.
  - unfold last_addr. rewrite last_snoc. rewrite <- app_assoc in HS'', HRm, Hin, HF. simpl in HS'', HRm, Hin, HF.
    destruct (merge_left_ok lo l0 a k b n' l2' HRm) as (HRl & HCl & Hil); [by eapply coalesced_init|done|].
    eapply wp_mono; [by apply (coalesce_left_spec lo Hpos s2 l0 a k b n' l2')|]. intros [] s3 [HS3 HF3].
    eexists. split; [exact HS3|]. split_and!; try done.
    + intros x. by rewrite Hil, Hin.
    + eapply list_frame_mono, list_frame_trans; [|done|done]. intros x. by rewrite Hil.
Qed.

(** *** The best-fit search *)

(** What [best_prev]/[best_curr] say of the part [l] of the list already
    searched: no block of [n] pages, or the first of the smallest ones. *)
Definition best_inv (n : Z) (l : list (Z * Z)) (bp bc : Z) : Prop :=
  (bc = 0 /\ bp = 0 /\ forall a k, (a, k) ∈ l -> k < n) \/
  (exists la k lb, l = la ++ (bc, k) :: lb /\ bc <> 0 /\ bp = last_addr 0 la /\ n <= k /\
     (forall a' k', (a', k') ∈ la -> n <= k' -> k < k') /\
     (forall a' k', (a', k') ∈ lb -> n <= k' -> k <= k')).

Lemma last_addr_snoc prev l a k : last_addr prev (l ++ [(a, k)]) = a.
Proof. unfold last_addr. by rewrite last_snoc. Qed.

Lemma best_fit_spec fuel m n f l1 l2 p bp bc :
  0 <= n < 2 ^ 32 -> seg m f l1 p -> seg m p l2 0 -> best_inv n l1 bp bc -> (length l2 < fuel)%nat ->
  exists bp' bc', best_fit fuel m n (last_addr 0 l1) p bp bc = Some (bp', bc') /\
                  best_inv n (l1 ++ l2) bp' bc'.
Proof.
  intros Hn. revert fuel l1 p bp bc.
  induction l2 as [|[a k] l2 IH]; intros [|fuel] l1 p bp bc HS1 HS2 Hinv Hf; simpl in Hf; try lia.
  { simpl in HS2. subst p. simpl. rewrite app_nil_r. eauto. }
  destruct HS2 as (-> & Ha & Hk & HS2). cbn [best_fit].
  rewrite (proj2 (Z.eqb_neq a 0)), Hk, u32_small by (done || lia).
  assert (HS1' : seg m f (l1 ++ [(a, k)]) (next m a)) by (apply seg_app; exists a; by simpl).
  specialize (IH fuel (l1 ++ [(a, k)]) (next m a)). rewrite last_addr_snoc, <- app_assoc in IH.
  destruct ((k >=? n) && _) eqn:E; (apply IH; [done|done| |lia]).
  - apply andb_prop in E as [Hkn Hbest]. rewrite Z.geb_leb in Hkn. cbool. right. exists l1, k, [].
    split_and!; try done; [|set_solver]. destruct Hinv as [(-> & _ & Hall)|(la & k0 & lb & -> & Hb & _ & _ & Hla & Hlb)].
    + intros a' k' Hin ?. specialize (Hall _ _ Hin). lia.
    + rewrite (proj2 (Z.eqb_neq _ _) Hb) in Hbest. simpl in Hbest. cbool.
      apply seg_app in HS1 as (r & _ & _ & _ & Hk0 & _). rewrite Hk0 in Hbest.
      intros a' k' [Hin|[[= -> ->]|Hin]%elem_of_cons]%elem_of_app ?; [|lia|].
      * specialize (Hla _ _ Hin). lia.
      * specialize (Hlb _ _ Hin). lia.
  - rewrite Z.geb_leb in E. destruct Hinv as [(-> & -> & Hall)|(la & k0 & lb & -> & Hb & -> & Hk0 & Hla & Hlb)].
    + left. split_and!; try done. intros a' k' [Hin|[[= -> ->]|Hin]%elem_of_cons]%elem_of_app; [eauto| |set_solver].
      simpl in E. rewrite andb_true_r in E. by cbool.
    + right. exists la, k0, (lb ++ [(a, k)]). rewrite <- app_assoc. split_and!; try done.
      intros a' k' [Hin|[[= -> ->]|Hin]%elem_of_cons]%elem_of_app ?; [eauto| |set_solver].
      apply seg_app in HS1 as (r & _ & _ & _ & Hk0' & _). rewrite Hk0' in E.
      rewrite (proj2 (Z.eqb_neq _ _) Hb) in E. simpl in E. cbool. destruct E; cbool; lia.
Qed.

(** *** Taking [n] pages off a run *)

Definition take_run (la : list (Z * Z)) (b k n : Z) (lb : list (Z * Z)) : list (Z * Z) :=
  la ++ (if k =? n then lb else (b + n * PGSIZE, k - n) :: lb).

Lemma take_run_ok lo la b k n lb :
  runs_from lo (la ++ (b, k) :: lb) -> coalesced (la ++ (b, k) :: lb) -> 1 <= n <= k ->
  runs_from lo (take_run la b k n lb) /\ coalesced (take_run la b k n lb) /\
  (forall x, in_runs (take_run la b k n lb) x <->
             in_runs (la ++ (b, k) :: lb) x /\ ~ (b <= x < b + n * PGSIZE)).
Proof.
  intros HR HC Hn. unfold take_run. pose proof (coalesced_init _ _ HC) as HCa.
  pose proof (coalesced_tail _ _ HC) as HCb.
  assert (Hsep := fun a' k' => runs_sep lo la b k lb a' k' HR).
  apply runs_from_app in HR as (HRa & Hlo & Hal & Hk & Hend & HRb).
  assert (Hin : forall x, in_runs la x \/ in_runs lb x -> ~ (b <= x < b + k * PGSIZE)).
  { intros x [(a' & k' & Hin & Hx)|(a' & k' & Hin & Hx)]; destruct (Hsep a' k') as [Hs1 Hs2].
    - specialize (Hs1 Hin). lia.
    - specialize (Hs2 Hin). lia. }
  assert (Hglue : forall l, coalesced l -> (match l with (a', _) :: _ => b < a' | [] => True end) -> coalesced (la ++ l)).
  { intros l Hl Hhd. induction la as [|[a j] la0 _] using rev_ind; [done|]. rewrite <- app_assoc.
    apply coalesced_app. split; [done|]. destruct l as [|[a' j'] l]; [done|]. simpl. split; [|done].
    rewrite runs_end_snoc in Hlo. lia. }
  destruct (k =? n) eqn:E; cbool.
  - subst k. split_and!.
    + apply runs_from_app. split; [done|]. eapply runs_from_weaken, HRb. unfold PGSIZE in *. lia.
    + apply Hglue; [by eapply (coalesced_tail [_])|]. destruct lb as [|[a' j'] lb]; [done|].
      simpl in HRb. unfold PGSIZE in *. lia.
    + intros x. specialize (Hin x). rewrite !in_runs_app, in_runs_cons. unfold PGSIZE in *. tauto.
  - split_and!.
    + apply runs_from_app. split; [done|]. simpl.
      replace (b + n * PGSIZE + (k - n) * PGSIZE) with (b + k * PGSIZE) by lia.
      rewrite Z_mod_plus_full. split_and!; try done; unfold PGSIZE in *; lia.
    + apply Hglue; [|unfold PGSIZE; lia]. destruct lb as [|[a' j'] lb]; [done|]. simpl in HCb |- *.
      by replace (b + n * PGSIZE + (k - n) * PGSIZE) with (b + k * PGSIZE) by lia.
    + intros x. specialize (Hin x). rewrite !in_runs_app, !in_runs_cons. unfold PGSIZE in *. intuition lia.
Qed.

Lemma seg_snoc_next m f la a k p b :
  seg m f (la ++ [(a, k)]) p -> runs_from 0 (la ++ [(a, k)]) -> 0 <= b < 2 ^ 64 ->
  seg (set_next a b m) f (la ++ [(a, k)]) b.
Proof.
  intros (r & H1 & -> & Ha & Hk & _)%seg_app HR Hb. apply seg_app. exists a. split.
  - eapply seg_ext; [|exact H1]. intros a' k' Hin.
    destruct (runs_sep 0 la a k [] a' k' HR) as [Hs _]. specialize (Hs Hin).
    unfold PGSIZE in *. split; hdr; done.
  - simpl. split_and!; try done; by hdr.
Qed.

Section take_pages.
Context (lo : Z) (Hlo : KERNBASE <= lo).

#[local] Lemma lo_pos : 0 < lo.
Proof. unfold KERNBASE in *. lia. Qed.

Lemma unlink_block_spec s la b k lb :
  runs_from lo (la ++ (b, k) :: lb) ->
  seg (phys s) (freelist s) (la ++ (b, k) :: lb) 0 ->
  wp (unlink_block (last_addr 0 la) b)
     (fun _ s' => seg (phys s') (freelist s') (la ++ lb) 0 /\
                  list_frame (in_runs (la ++ (b, k) :: lb)) s s') s.
Proof.
  intros HR HS. pose proof HS as (r & H1 & -> & Hb & Hk & H2)%seg_app.
  assert (Hnx : 0 <= next (phys s) b < 2 ^ 64) by apply ld64_range.
  assert (Hsep := fun a' k' => runs_sep lo la b k lb a' k' HR).
  unfold wp, list_frame, unlink_block, kbind, kget.
  induction la as [|[a j] la0 _] using rev_ind.
  { simpl. by split_and!. }
  rewrite last_addr_snoc. pose proof H1 as (r & _ & -> & Ha & _)%seg_app.
  rewrite (proj2 (Z.eqb_neq a 0)) by done. simpl. split_and!; try done.
  - apply seg_app. exists (next (phys s) b). split.
    + eapply seg_snoc_next; [done| |done]. apply runs_from_app in HR as [HR _].
      eapply runs_from_weaken, HR. pose proof lo_pos. lia.
    + eapply seg_ext; [|exact H2]. intros a' k' Hin. destruct (Hsep a' k') as [_ Hs].
      destruct (Hsep a j) as [Hs' _]. specialize (Hs Hin). specialize (Hs' ltac:(set_solver)).
      unfold PGSIZE in *. apply runs_from_app in HR as (_ & _ & _ & Hk1 & _). split; hdr; done.
  - intros x Hx. apply set_next_out. contradict Hx.
    eapply (header_in_runs lo _ a j); [done|set_solver|done].
Qed.

Lemma split_block_spec s la b k n lb :
  runs_from lo (la ++ (b, k) :: lb) -> 1 <= n < k ->
  seg (phys s) (freelist s) (la ++ (b, k) :: lb) 0 ->
  wp (split_block (last_addr 0 la) b n)
     (fun _ s' => seg (phys s') (freelist s') (la ++ (b + n * PGSIZE, k - n) :: lb) 0 /\
                  list_frame (in_runs (la ++ (b, k) :: lb)) s s') s.
Proof.
  intros HR Hn HS. pose proof HS as (r & H1 & -> & Hb & Hk & H2)%seg_app.
  assert (Hkr := run_size_range _ _ b k HR ltac:(pose proof lo_pos; lia) ltac:(set_solver)).
  assert (Hbr := runs_from_in _ _ b k HR ltac:(set_solver)).
  assert (Hnx : 0 <= next (phys s) b < 2 ^ 64) by apply ld64_range.
  assert (Hsep := fun a' k' => runs_sep lo la b k lb a' k' HR).
  assert (Hsp : b + 16 <= b + n * PGSIZE /\ b + n * PGSIZE + 16 <= b + k * PGSIZE) by (unfold PGSIZE in *; lia).
  assert (Hspr : 0 < b + n * PGSIZE < 2 ^ 64) by (unfold PHYSTOP, KERNBASE, PGSIZE in *; lia).
  unfold wp, list_frame, split_block, kbind, kget.
  rewrite Hk, s32_small, u32_small by (unfold PHYSTOP, KERNBASE, PGSIZE in *; lia). set (sp := b + n * PGSIZE) in *.
  assert (Hout : forall v w x, ~ in_runs (la ++ (b, k) :: lb) x ->
                 set_next sp v (set_num_pages sp w (phys s)) x = phys s x).
  { intros v w x Hx. rewrite set_next_out, set_num_out; [done|..]; contradict Hx;
      (exists b, k; split; [set_solver|lia]). }
  assert (Hlb : forall a' k', (a', k') ∈ lb -> sp + 16 <= a').
  { intros a' k' Hin. destruct (Hsep a' k') as [_ Hs]. specialize (Hs Hin). lia. }
  induction la as [|[a j] la0 _] using rev_ind.
  - simpl. hdr. split_and!; try done; try lia; [|by apply Hout].
    eapply seg_ext; [|exact H2]. intros a' k' Hin. specialize (Hlb _ _ Hin). split; hdr; done.
  - rewrite last_addr_snoc. pose proof H1 as (r & _ & -> & Ha & _)%seg_app.
    rewrite (proj2 (Z.eqb_neq a 0)) by done. simpl.
    assert (Hasp : a + 16 <= sp).
    { destruct (Hsep a j) as [Hs _]. specialize (Hs ltac:(set_solver)). unfold PGSIZE in *. lia. }
    split_and!; try done.
    + apply seg_app. exists sp. split.
      * eapply seg_snoc_next; [| |lia].
        -- eapply seg_ext; [|exact H1]. intros a' k' Hin. destruct (Hsep a' k') as [Hs _].
           specialize (Hs Hin). unfold PGSIZE in *. split; hdr; done.
        -- apply runs_from_app in HR as [HR _]. eapply runs_from_weaken, HR. pose proof lo_pos. lia.
      * simpl. hdr. split_and!; try done; try lia.
        eapply seg_ext; [|exact H2]. intros a' k' Hin. specialize (Hlb _ _ Hin). split; hdr; done.
    + intros x Hx. rewrite set_next_out; [by apply Hout|]. contradict Hx.
      eapply (header_in_runs lo _ a j); [done|set_solver|done].
Qed.

Lemma remove_run_spec s la b k n lb :
  runs_from lo (la ++ (b, k) :: lb) -> 1 <= n <= k ->
  seg (phys s) (freelist s) (la ++ (b, k) :: lb) 0 ->
  wp (if num_pages (phys s) b =? u32 n then unlink_block (last_addr 0 la) b
      else split_block (last_addr 0 la) b n)
     (fun _ s' => seg (phys s') (freelist s') (take_run la b k n lb) 0 /\
                  list_frame (in_runs (la ++ (b, k) :: lb)) s s') s.
Proof.
  intros HR Hn HS. assert (Hkr := run_size_range _ _ b k HR ltac:(pose proof lo_pos; lia) ltac:(set_solver)).
  pose proof HS as (r & _ & _ & _ & -> & _)%seg_app. unfold take_run.
  rewrite u32_small by lia. destruct (k =? n) eqn:E; cbool.
  - by apply unlink_block_spec.
  - apply split_block_spec; [done|lia|done].
Qed.

End take_pages.

(** ** The allocator's invariant

    [kmem_ok s l]: the free list is the list of runs [l] inside the managed
    range, in address order and fully merged, and the reference counts
    agree with it: zero exactly for the free pages, and zero for every
    index that is not a managed page. *)

Definition kbase (kend : Z) : Z := PGROUNDUP kend.

Definition managed (kend pa : Z) : Prop :=
  pa mod PGSIZE = 0 /\ kbase kend <= pa /\ pa + PGSIZE <= PHYSTOP.

Record kmem_ok (kend : Z) (s : kmem_state) (l : list (Z * Z)) : Prop := {
  ko_seg : seg (phys s) (freelist s) l 0;
  ko_runs : runs_from (kbase kend) l;
  ko_coalesced : coalesced l;
  ko_rc : forall pa, managed kend pa ->
    0 <= ref_count s (PA2IDX pa) < 2 ^ 31 /\ (ref_count s (PA2IDX pa) = 0 <-> in_runs l pa);
  ko_rest : forall i, ~ managed kend (i * PGSIZE) -> ref_count s i = 0
}.

(** Index ranges, as the loops over the pages of a run see them. *)
Definition in_range (i0 n i : Z) : bool := (i0 <=? i) && (i <? i0 + n).

Lemma PA2IDX_step pa i : PA2IDX (pa + i * PGSIZE) = PA2IDX pa + i.
Proof. unfold PA2IDX, PGSIZE. rewrite Z.div_add by lia. done. Qed.

Lemma PA2IDX_mul i : PA2IDX (i * PGSIZE) = i.
Proof. unfold PA2IDX, PGSIZE. by rewrite Z.div_mul. Qed.

Lemma in_range_addr pa n pa' :
  pa mod PGSIZE = 0 -> pa' mod PGSIZE = 0 ->
  in_range (PA2IDX pa) n (PA2IDX pa') = true <-> pa <= pa' < pa + n * PGSIZE.
Proof.
  intros H1 H2. unfold in_range, PA2IDX, PGSIZE in *.
  assert (pa = pa / 4096 * 4096) by (Z.to_euclidean_division_equations; lia).
  assert (pa' = pa' / 4096 * 4096) by (Z.to_euclidean_division_equations; lia).
  split; intros H3; lia.
Qed.

Lemma drop_ref_loop s pa n :
  0 <= n -> (forall i, 0 <= i < n -> 0 < ref_count s (PA2IDX pa + i) < 2 ^ 31) ->
  wp (for_each (seqZ 0 n) (fun i => drop_ref (PA2IDX (pa + i * PGSIZE))))
     (fun _ s' => s' = KMem (phys s) (ref_count s') (reverse_map s) (freelist s) (use_lock s) /\
        forall i, ref_count s' i =
          if in_range (PA2IDX pa) n i then ref_count s i - 1 else ref_count s i) s.
Proof.
  intros Hn Hrc.
  apply (wp_for_range n _ (fun j s' =>
    s' = KMem (phys s) (ref_count s') (reverse_map s) (freelist s) (use_lock s) /\
    forall i, ref_count s' i =
      if in_range (PA2IDX pa) j i then ref_count s i - 1 else ref_count s i)); [done|split|].
  - by destruct s.
  - intros i. unfold in_range. cif; [lia|done].
  - intros j s' Hj [-> Hs']. rewrite PA2IDX_step. unfold drop_ref, wp, kbind, kget.
    specialize (Hrc j Hj). simpl in Hs' |- *. rewrite !Hs'.
    assert (in_range (PA2IDX pa) j (PA2IDX pa + j) = false) as -> by (unfold in_range; lia).
    destruct (_ <=? 0) eqn:E; cbool; [lia|]. simpl. split; [done|]. intros i.
    destruct (decide (i = PA2IDX pa + j)) as [->|Hne].
    + rewrite upd_eq, s32_small by lia. unfold in_range. cif; lia.
    + rewrite upd_ne, Hs' by done. unfold in_range. repeat cif; lia.
Qed.

Lemma clear_rmap_loop s pa n :
  0 <= n -> KERNBASE <= pa -> pa + n * PGSIZE <= PHYSTOP ->
  wp (for_each (seqZ 0 n) (fun i => clear_rmap (pa + i * PGSIZE)))
     (fun _ s' => s' = KMem (phys s) (ref_count s) (reverse_map s') (freelist s) (use_lock s) /\
        forall i, reverse_map s' i =
          if in_range ((pa - KERNBASE) / PGSIZE) n i then Rmap 0 0 else reverse_map s i) s.
Proof.
  intros Hn Hpa Hend.
  apply (wp_for_range n _ (fun j s' =>
    s' = KMem (phys s) (ref_count s) (reverse_map s') (freelist s) (use_lock s) /\
    forall i, reverse_map s' i =
      if in_range ((pa - KERNBASE) / PGSIZE) j i then Rmap 0 0 else reverse_map s i)); [done|split|].
  - by destruct s.
  - intros i. unfold in_range. cif; [lia|done].
  - intros j s' Hj [-> Hs']. unfold clear_rmap.
    destruct ((pa + j * PGSIZE >=? KERNBASE) && _) eqn:E; [|unfold PGSIZE in *; lia].
    unfold wp. simpl. split; [done|]. intros i.
    replace (pa + j * PGSIZE - KERNBASE) with (pa - KERNBASE + j * PGSIZE) by lia.
    rewrite Z.div_add by (unfold PGSIZE; lia). simpl in Hs'.
    destruct (decide (i = (pa - KERNBASE) / PGSIZE + j)) as [->|Hne].
    + rewrite upd_eq. unfold in_range. cif; [done|lia].
    + rewrite upd_ne, Hs' by done. unfold in_range. repeat cif; try done; lia.
Qed.

Lemma check_loop s pa n :
  0 <= n -> (forall i, 0 <= i < n -> ref_count s (PA2IDX pa + i) = 0) ->
  wp (for_each (seqZ 0 n) (fun i => check_unreferenced (PA2IDX (pa + i * PGSIZE)))) (fun _ s' => s' = s) s.
Proof.
  intros Hn Hrc. apply (wp_for_range n _ (fun _ s' => s' = s)); [done..|].
  intros j s' Hj ->. rewrite PA2IDX_step. unfold check_unreferenced, wp, kbind, kget.
  rewrite Hrc by done. done.
Qed.

Lemma set_ref_loop s pa n v :
  0 <= n ->
  wp (for_each (seqZ 0 n) (fun i => kupd (set_ref_count (PA2IDX (pa + i * PGSIZE)) v)))
     (fun _ s' => s' = KMem (phys s) (ref_count s') (reverse_map s) (freelist s) (use_lock s) /\
        forall i, ref_count s' i = if in_range (PA2IDX pa) n i then v else ref_count s i) s.
Proof.
  intros Hn.
  apply (wp_for_range n _ (fun j s' =>
    s' = KMem (phys s) (ref_count s') (reverse_map s) (freelist s) (use_lock s) /\
    forall i, ref_count s' i = if in_range (PA2IDX pa) j i then v else ref_count s i)); [done|split|].
  - by destruct s.
  - intros i. unfold in_range. cif; [lia|done].
  - intros j s' Hj [-> Hs']. rewrite PA2IDX_step. unfold wp. simpl in Hs' |- *. split; [done|].
    intros i. destruct (decide (i = PA2IDX pa + j)) as [->|Hne].
    + rewrite upd_eq. unfold in_range. cif; [done|lia].
    + rewrite upd_ne, Hs' by done. unfold in_range. repeat cif; try done; lia.
Qed.

Section allocator.
Context (kend : Z) (Hkend : KERNBASE <= kend <= PHYSTOP).

Lemma kbase_facts :
  KERNBASE <= kbase kend /\ kend <= kbase kend /\ kbase kend mod PGSIZE = 0 /\ kbase kend <= PHYSTOP.
Proof.
  unfold kbase. rewrite PGROUNDUP_spec by (unfold PGSIZE, PHYSTOP, KERNBASE in *; lia).
  rewrite Z.mod_mul by (unfold PGSIZE; lia). unfold PGSIZE, PHYSTOP, KERNBASE in *.
  Z.to_euclidean_division_equations. lia.
Qed.

Lemma managed_addr pa : managed kend pa -> PA2IDX pa * PGSIZE = pa.
Proof. intros [H _]. unfold PA2IDX, PGSIZE in *. Z.to_euclidean_division_equations. lia. Qed.

Lemma managed_step pa n i :
  pa mod PGSIZE = 0 -> kbase kend <= pa -> pa + n * PGSIZE <= PHYSTOP -> 0 <= i < n ->
  managed kend (pa + i * PGSIZE).
Proof.
  intros H1 H2 H3 Hi. unfold managed. rewrite Z_mod_plus_full. unfold PGSIZE in *. lia.
Qed.

(** The rest of the state after the pages [pa, pa + n pages) were freed. *)
Definition freed (pa n : Z) (l' : list (Z * Z)) (s s' : kmem_state) : Prop :=
  (forall i, ref_count s' i = if in_range (PA2IDX pa) n i then 0 else ref_count s i) /\
  (forall i, reverse_map s' i =
     if in_range ((pa - KERNBASE) / PGSIZE) n i then Rmap 0 0 else reverse_map s i) /\
  (forall x, ~ in_runs l' x -> phys s' x = phys s x) /\
  use_lock s' = use_lock s.

(** Counts that drop to zero together with the run joining the list. *)
Lemma kmem_ok_freed s l s' l' pa n :
  kmem_ok kend s l -> pa mod PGSIZE = 0 ->
  (forall i, ref_count s' i = if in_range (PA2IDX pa) n i then 0 else ref_count s i) ->
  seg (phys s') (freelist s') l' 0 -> runs_from (kbase kend) l' -> coalesced l' ->
  (forall x, in_runs l' x <-> in_runs l x \/ pa <= x < pa + n * PGSIZE) ->
  kmem_ok kend s' l'.
Proof.
  intros [? ? ? Hrc Hrest] Hal Hs' HS HR HC Hin. split; try done.
  - intros pa' Hm. rewrite Hs', Hin. destruct (Hrc pa' Hm) as [Hb Hf].
    pose proof (in_range_addr pa n pa' Hal (proj1 Hm)) as Hir.
    destruct (in_range _ _ _); [split; [lia|]; naive_solver|].
    split; [done|]. rewrite Hf. split; [naive_solver|]. intros [?|?]; [done|]. by apply Hir in H.
  - intros i Hi. rewrite Hs'. cif; [done|]. by apply Hrest.
Qed.

Lemma kfree_contig_ok s l pa n :
  kmem_ok kend s l -> pa mod PGSIZE = 0 -> kbase kend <= pa -> 1 <= n -> pa + n * PGSIZE <= PHYSTOP ->
  (forall i, 0 <= i < n -> ref_count s (PA2IDX pa + i) = 1) ->
  wp (kfree_contig kend pa n) (fun _ s' => exists l', kmem_ok kend s' l' /\
    (forall x, in_runs l' x <-> in_runs l x \/ pa <= x < pa + n * PGSIZE) /\
    freed pa n l' s s') s.
Proof.
  intros Hok Hal Hlo Hn Hend Hrc. destruct kbase_facts as (Hb1 & Hb2 & Hb3 & Hb4).
  assert (Hsz : n * PGSIZE <= 128 * 1024 * 1024) by (unfold PHYSTOP in *; lia).
  unfold kfree_contig. rewrite s32_small, u64_small by (unfold PHYSTOP, KERNBASE, PGSIZE in *; lia).
  rewrite Hal, (proj2 (Z.ltb_ge pa kend)) by lia. rewrite Z.gtb_ltb, (proj2 (Z.ltb_ge PHYSTOP _)) by lia.
  simpl. apply wp_bind. eapply wp_mono.
  { apply drop_ref_loop; [lia|]. intros i Hi. rewrite Hrc by done. lia. }
  intros [] s1 [E1 Hrc1]. apply wp_bind, wp_get.
  assert (Hz : forall i, 0 <= i < n -> ref_count s1 (PA2IDX pa + i) = 0).
  { intros i Hi. rewrite Hrc1, Hrc by done. unfold in_range. cif; lia. }
  assert (Hz0 : ref_count s1 (PA2IDX pa) = 0) by (rewrite <- (Z.add_0_r (PA2IDX pa)); apply Hz; lia).
  rewrite Hz0, andb_false_r. apply wp_bind.
  eapply (wp_mono _ (fun _ s' => s' = s1)).
  { destruct (n >? 1); [by apply check_loop; [lia|]|done]. }
  intros [] ? ->. apply wp_bind. eapply wp_mono; [apply clear_rmap_loop; lia|].
  intros [] s2 [E2 Hrm2]. apply wp_bind, wp_upd, wp_bind, wp_upd.
  set (s3 := set_phys (set_num_pages pa (u32 n)) _).
  assert (Hmem : forall x, ~ (pa <= x < pa + n * PGSIZE) -> phys s3 x = phys s x).
  { intros x Hx. subst s3. rewrite E2, E1. simpl. rewrite !u32_small by (unfold PGSIZE in *; lia).
    rewrite set_num_out by (unfold PGSIZE in *; lia). apply memset_out; unfold PGSIZE in *; lia. }
  assert (Hfree : forall i, 0 <= i < n -> ~ in_runs l (pa + i * PGSIZE)).
  { intros i Hi Hin. pose proof (managed_step pa n i Hal Hlo Hend Hi) as Hm.
    apply (ko_rc _ _ _ Hok) in Hin; [|done]. rewrite PA2IDX_step, Hrc in Hin; lia. }
  pose proof Hok as [HS HR HC Hrcs Hrest].
  eapply wp_mono; [apply (insert_run_spec (kbase kend) s3 l pa n); try done|].
  - subst s3. rewrite E2, E1. simpl. eapply seg_ext; [|exact HS]. intros a k Hin.
    assert (a + 16 <= pa \/ pa + n * PGSIZE <= a).
    { destruct (runs_from_in _ _ _ _ HR Hin) as (_ & Ha & Hk & _).
      destruct (Z_lt_le_dec a pa) as [Hlt|Hge]; [left; unfold PGSIZE in *; Z.to_euclidean_division_equations; lia|right].
      apply Z.nlt_ge. intros Hlt. apply (Hfree ((a - pa) / PGSIZE)).
      - unfold PGSIZE in *. Z.to_euclidean_division_equations. lia.
      - exists a, k. split; [done|]. unfold PGSIZE in *. Z.to_euclidean_division_equations. lia. }
    rewrite (u32_small (n * PGSIZE)) by (unfold PGSIZE in *; lia). unfold PGSIZE in *. split; hdr; done.
  - subst s3. simpl. rewrite u32_small by (unfold PGSIZE in *; lia). apply num_set_num_eq. unfold PGSIZE in *; lia.
  - intros [] s' (l' & HS' & HR' & HC' & Hin' & HF).
    assert (Hrc' : forall i, ref_count s' i = if in_range (PA2IDX pa) n i then 0 else ref_count s i).
    { intros i. destruct HF as (-> & _). subst s3. rewrite E2. simpl. rewrite Hrc1.
      destruct (in_range _ _ _) eqn:E; [|done]. unfold in_range in E.
      replace i with (PA2IDX pa + (i - PA2IDX pa)) by lia. rewrite Hrc; lia. }
    exists l'. split; [by apply (kmem_ok_freed s l s' l' pa n)|]. split; [done|].
    destruct HF as (_ & Hrm & Hul & Hph). split_and!; try done.
    + intros i. rewrite Hrm. subst s3. simpl. rewrite Hrm2. by rewrite E1.
    + intros x Hx. rewrite Hph by done. apply Hmem. contradict Hx. apply Hin'. tauto.
    + rewrite Hul. subst s3. simpl. by rewrite E2, E1.
Qed.

(** The rest of the state after the pages [b, b + n pages) were taken. *)
Definition taken (b n : Z) (l : list (Z * Z)) (s s' : kmem_state) : Prop :=
  (forall i, ref_count s' i = if in_range (PA2IDX b) n i then 1 else ref_count s i) /\
  reverse_map s' = reverse_map s /\
  (forall x, b <= x < b + n * PGSIZE -> phys s' x = 5) /\
  (forall x, ~ in_runs l x -> phys s' x = phys s x) /\
  use_lock s' = use_lock s.

Lemma kmem_ok_taken s l s' l' b n :
  kmem_ok kend s l -> b mod PGSIZE = 0 -> kbase kend <= b -> b + n * PGSIZE <= PHYSTOP ->
  (forall i, ref_count s' i = if in_range (PA2IDX b) n i then 1 else ref_count s i) ->
  seg (phys s') (freelist s') l' 0 -> runs_from (kbase kend) l' -> coalesced l' ->
  (forall x, in_runs l' x <-> in_runs l x /\ ~ (b <= x < b + n * PGSIZE)) ->
  kmem_ok kend s' l'.
Proof.
  intros [? ? ? Hrc Hrest] Hal Hlo Hend Hs' HS HR HC Hin. split; try done.
  - intros pa' Hm. rewrite Hs', Hin. destruct (Hrc pa' Hm) as [Hb Hf].
    pose proof (in_range_addr b n pa' Hal (proj1 Hm)) as Hir.
    destruct (in_range _ _ _); [split; [lia|]; split; [lia|naive_solver]|].
    split; [done|]. rewrite Hf. split; [|naive_solver]. intros ?. split; [done|]. intros ?%Hir. done.
  - intros i Hi. rewrite Hs'. destruct (in_range _ _ _) eqn:E; [|by apply Hrest].
    exfalso. apply Hi. unfold in_range in E.
    replace (i * PGSIZE) with (b + (i - PA2IDX b) * PGSIZE); [by apply (managed_step b n); [..|lia]|].
    unfold PA2IDX, PGSIZE in *. Z.to_euclidean_division_equations. lia.
Qed.

Lemma kalloc_contig_ok s l n :
  kmem_ok kend s l -> 1 <= n < 2 ^ 31 ->
  wp (kalloc_contig n) (fun b s' =>
    (b = 0 /\ s' = s /\ (forall a k, (a, k) ∈ l -> k < n)) \/
    (b <> 0 /\ exists k l', (b, k) ∈ l /\ n <= k /\
       (forall a' k', (a', k') ∈ l -> n <= k' -> k <= k') /\
       kmem_ok kend s' l' /\
       (forall x, in_runs l' x <-> in_runs l x /\ ~ (b <= x < b + n * PGSIZE)) /\
       taken b n l s s')) s.
Proof.
  intros Hok Hn. destruct kbase_facts as (Hb1 & Hb2 & Hb3 & Hb4).
  pose proof Hok as [HS HR HC Hrc Hrest].
  assert (Hfuel := runs_fuel _ _ Hb1 Hb3 Hb4 HR).
  destruct (best_fit_spec list_fuel (phys s) n (freelist s) [] l (freelist s) 0 0) as (bp & bc & Hbf & Hinv);
    [lia|done|done|left; split_and!; set_solver|done|].
  unfold kalloc_contig. apply wp_bind, wp_get, wp_bind, wp_get. change (last_addr 0 []) with 0 in Hbf.
  rewrite Hbf. cbv beta iota. rewrite app_nil_l in Hinv.
  destruct Hinv as [(-> & -> & Hall)|(la & k & lb & El & Hbc & -> & Hk & Hla & Hlb)].
  { left. done. }
  rewrite (proj2 (Z.eqb_neq bc 0)) by done. rewrite El in HR, HS, HC.
  assert (Hbr := runs_from_in _ _ bc k HR ltac:(set_solver)).
  destruct (take_run_ok _ la bc k n lb HR HC ltac:(lia)) as (HR' & HC' & Hin').
  apply wp_bind. eapply wp_mono; [apply (remove_run_spec (kbase kend) Hb1 s la bc k n lb HR); [lia|done]|].
  intros [] s1 [HS1 HF1]. apply wp_bind. eapply wp_mono; [apply set_ref_loop; lia|].
  intros [] s2 [E2 Hrc2]. apply wp_bind, wp_upd, wp_ret.
  set (s3 := set_phys _ s2).
  assert (Hsz : n * PGSIZE <= k * PGSIZE /\ k * PGSIZE <= 128 * 1024 * 1024) by (unfold PHYSTOP, PGSIZE in *; lia).
  assert (Hu : u32 (n * PGSIZE) = n * PGSIZE) by (apply u32_small; unfold PGSIZE in *; lia).
  assert (Hrc3 : forall i, ref_count s3 i = if in_range (PA2IDX bc) n i then 1 else ref_count s i).
  { intros i. subst s3. simpl. rewrite Hrc2. destruct HF1 as (-> & _). done. }
  right. split; [done|]. exists k, (take_run la bc k n lb). rewrite El. split_and!; try done; [set_solver|..].
  - intros a' k' [Hin|[[= -> ->]|Hin]%elem_of_cons]%elem_of_app ?; [|lia|by eapply Hlb].
    specialize (Hla _ _ Hin). lia.
  - rewrite <- El in Hin'. apply (kmem_ok_taken s l s3 _ bc n); try done; try lia.
    subst s3. rewrite E2. simpl. rewrite Hu. eapply seg_ext; [|exact HS1]. intros a j Hin.
    destruct (runs_from_in _ _ _ _ HR' Hin) as (_ & Ha & Hj & _).
    assert (a + 16 <= bc \/ bc + n * PGSIZE <= a).
    { destruct (Z_lt_le_dec a bc) as [Hlt|Hge];
        [left; unfold PGSIZE in *; Z.to_euclidean_division_equations; lia|right].
      apply Z.nlt_ge. intros Hlt. apply (Hin' a); [|lia]. exists a, j. unfold PGSIZE. split; [done|lia]. }
    unfold PGSIZE in *. split; hdr; done.
  - destruct HF1 as (_ & Hrm1 & Hul1 & Hph1). subst s3. rewrite E2. unfold taken. simpl. rewrite Hu.
    split_and!; try done.
    + intros x Hx. by rewrite memset_in.
    + intros x Hx. rewrite memset_out; [by apply Hph1|unfold PGSIZE in *; lia|].
      contradict Hx. exists bc, k. split; [set_solver|lia].
Qed.

Lemma kfree_shared_ok s l pa :
  kmem_ok kend s l -> managed kend pa -> 1 < ref_count s (PA2IDX pa) ->
  kfree kend pa s = Ret tt (set_ref_count (PA2IDX pa) (ref_count s (PA2IDX pa) - 1) s) /\
  kmem_ok kend (set_ref_count (PA2IDX pa) (ref_count s (PA2IDX pa) - 1) s) l.
Proof.
  intros Hok Hm Hrc. destruct kbase_facts as (Hb1 & Hb2 & Hb3 & Hb4).
  destruct (ko_rc _ _ _ Hok pa Hm) as [Hr Hf]. destruct Hm as (Hal & Hlo & Hend). split.
  - unfold kfree, kfree_contig. change (s32 (1 * PGSIZE)) with PGSIZE.
    rewrite u64_small by (unfold PHYSTOP, KERNBASE, PGSIZE in *; lia).
    rewrite Hal, (proj2 (Z.ltb_ge pa kend)), Z.gtb_ltb, (proj2 (Z.ltb_ge PHYSTOP _)) by lia.
    change (seqZ 0 1) with [0]. unfold kbind, kget, drop_ref; simpl. rewrite Z.add_0_r.
    unfold kbind, kget. destruct (_ <=? 0) eqn:E; cbool; [lia|]. rewrite s32_small by lia. simpl.
    rewrite upd_eq, Z.gtb_ltb, (proj2 (Z.ltb_lt 0 _)) by lia. done.
  - destruct Hok as [HS HR HC Hrc' Hrest]. split; try done.
    + intros pa' Hm'. simpl. destruct (decide (PA2IDX pa' = PA2IDX pa)) as [E|E].
      * rewrite E, upd_eq. split; [lia|]. split; [lia|]. intros Hin. apply Hrc' in Hin; [|done]. rewrite E in Hin. lia.
      * rewrite upd_ne by done. by apply Hrc'.
    + intros i Hi. simpl. rewrite upd_ne; [by apply Hrest|]. intros ->. apply Hi.
      replace (PA2IDX pa * PGSIZE) with pa; [done|]. unfold PA2IDX, PGSIZE in *.
      Z.to_euclidean_division_equations. lia.
Qed.

Lemma kfree_not_allocated s l pa :
  kmem_ok kend s l -> managed kend pa -> in_runs l pa ->
  kfree kend pa s = Panic "kfree_contig: ref_count already zero".
Proof.
  intros Hok Hm Hin. destruct kbase_facts as (Hb1 & Hb2 & Hb3 & Hb4).
  apply (ko_rc _ _ _ Hok pa Hm) in Hin. destruct Hm as (Hal & Hlo & Hend).
  unfold kfree, kfree_contig. change (s32 (1 * PGSIZE)) with PGSIZE.
  rewrite u64_small by (unfold PHYSTOP, KERNBASE, PGSIZE in *; lia).
  rewrite Hal, (proj2 (Z.ltb_ge pa kend)), Z.gtb_ltb, (proj2 (Z.ltb_ge PHYSTOP _)) by lia.
  change (seqZ 0 1) with [0]. unfold kbind, kget, drop_ref; simpl. rewrite Z.add_0_r.
  unfold kbind, kget. by rewrite Hin.
Qed.

(** A change of the count of an allocated page that keeps it allocated. *)
Lemma kmem_ok_set_ref s l pa v :
  kmem_ok kend s l -> managed kend pa -> ~ in_runs l pa -> 0 < v < 2 ^ 31 ->
  kmem_ok kend (set_ref_count (PA2IDX pa) v s) l.
Proof.
  intros [HS HR HC Hrc Hrest] Hm Hin Hv. split; try done.
  - intros pa' Hm'. simpl. destruct (decide (PA2IDX pa' = PA2IDX pa)) as [E|E].
    + rewrite E, upd_eq. rewrite <- (managed_addr pa'), E, managed_addr by done. split; [lia|]. split; [lia|done].
    + rewrite upd_ne by done. by apply Hrc.
  - intros i Hi. simpl. rewrite upd_ne; [by apply Hrest|]. intros ->. by rewrite managed_addr in Hi.
Qed.

Lemma allocated_ref s l pa :
  kmem_ok kend s l -> managed kend pa -> (0 < ref_count s (PA2IDX pa) <-> ~ in_runs l pa).
Proof. intros Hok Hm. destruct (ko_rc _ _ _ Hok pa Hm) as [? <-]. lia. Qed.

Lemma incref_ok s l pa :
  kmem_ok kend s l -> managed kend pa -> ~ in_runs l pa -> ref_count s (PA2IDX pa) < 2 ^ 31 - 1 ->
  wp (incref pa) (fun _ s' => kmem_ok kend s' l /\
    s' = set_ref_count (PA2IDX pa) (ref_count s (PA2IDX pa) + 1) s) s.
Proof.
  intros Hok Hm Hin Hr. pose proof (proj2 (allocated_ref _ _ _ Hok Hm) Hin).
  unfold wp, incref; simpl. rewrite s32_small by lia. split; [|done].
  apply kmem_ok_set_ref; try done. lia.
Qed.

Lemma decref_ok s l pa :
  kmem_ok kend s l -> managed kend pa -> 1 < ref_count s (PA2IDX pa) ->
  wp (decref pa) (fun r s' => kmem_ok kend s' l /\ r = ref_count s (PA2IDX pa) - 1 /\
    s' = set_ref_count (PA2IDX pa) (ref_count s (PA2IDX pa) - 1) s) s.
Proof.
  intros Hok Hm Hr. destruct (ko_rc _ _ _ Hok pa Hm) as [Hb Hf].
  unfold wp, decref, kbind, kget. destruct (_ <=? 0) eqn:E; cbool; [lia|]. simpl.
  rewrite s32_small by lia. rewrite upd_eq. split_and!; try done.
  apply kmem_ok_set_ref; try done; [|lia]. rewrite <- Hf. lia.
Qed.

(** *** Initialisation *)

Lemma zero_rmap_loop n s :
  0 <= n -> (forall i, ref_count s i = 0) -> (forall i, reverse_map s i = Rmap 0 0) ->
  wp (for_each (seqZ 0 n) (fun i => kupd (set_reverse_map i (Rmap 0 0))))
     (fun _ s' => s' = KMem (phys s) (ref_count s) (reverse_map s') (freelist s) (use_lock s) /\
                  forall i, reverse_map s' i = Rmap 0 0) s.
Proof.
  intros Hn Hrc Hrm. apply (wp_for_range n _ (fun _ s' =>
    s' = KMem (phys s) (ref_count s) (reverse_map s') (freelist s) (use_lock s) /\
    forall i, reverse_map s' i = Rmap 0 0)); [done|split; [by destruct s|done]|].
  intros i s' _ [E H]. unfold wp. simpl. split; [by rewrite E|]. intros j. unfold upd. destruct (j =? i); [done|apply H].
Qed.

Lemma zero_ref_loop n s :
  0 <= n -> (forall i, ref_count s i = 0) ->
  wp (for_each (seqZ 0 n) (fun i => kupd (set_ref_count i 0)))
     (fun _ s' => s' = KMem (phys s) (ref_count s') (reverse_map s) (freelist s) (use_lock s) /\
                  forall i, ref_count s' i = 0) s.
Proof.
  intros Hn Hrc. apply (wp_for_range n _ (fun _ s' =>
    s' = KMem (phys s) (ref_count s') (reverse_map s) (freelist s) (use_lock s) /\
    forall i, ref_count s' i = 0)); [done|split; [by destruct s|done]|].
  intros i s' _ [E H]. unfold wp. simpl. split; [by rewrite E|]. intros j. unfold upd. destruct (j =? i); [done|apply H].
Qed.

(** The state the kernel is loaded in: zeroed variables, any memory. *)
Definition boot_state (m : mem) : kmem_state :=
  KMem m (fun _ => 0) (fun _ => Rmap 0 0) 0 false.

(** All managed pages allocated once, none free. *)
Lemma kmem_ok_all_allocated s :
  freelist s = 0 ->
  (forall i, ref_count s i = if in_range (PA2IDX (kbase kend)) (PA2IDX PHYSTOP - PA2IDX (kbase kend)) i then 1 else 0) ->
  kmem_ok kend s [].
Proof.
  intros Hf Hrc. destruct kbase_facts as (Hb1 & Hb2 & Hb3 & Hb4).
  assert (Hm : forall i, managed kend (i * PGSIZE) <->
     in_range (PA2IDX (kbase kend)) (PA2IDX PHYSTOP - PA2IDX (kbase kend)) i = true).
  { intros i. unfold managed, in_range, PA2IDX. rewrite Z.mod_mul by (unfold PGSIZE; lia).
    change (PHYSTOP / PGSIZE) with 557056. unfold PHYSTOP, KERNBASE, PGSIZE in *.
    Z.to_euclidean_division_equations. lia. }
  split; try done.
  - intros pa Hpa. rewrite Hrc. rewrite <- managed_addr in Hpa by done. apply Hm in Hpa. rewrite Hpa.
    split; [lia|]. split; [lia|]. unfold in_runs. set_solver.
  - intros i Hi. rewrite Hrc. cif; [|done]. exfalso. by apply Hi, Hm.
Qed.

Lemma kinit_ok m :
  kbase kend < PHYSTOP ->
  wp (kinit kend) (fun _ s' => exists l, kmem_ok kend s' l /\
    (forall x, in_runs l x <-> kbase kend <= x < PHYSTOP) /\
    (forall i, reverse_map s' i = Rmap 0 0) /\ use_lock s' = true /\
    (forall x, ~ (kbase kend <= x < PHYSTOP) -> phys s' x = m x)) (boot_state m).
Proof.
  intros Hlt. destruct kbase_facts as (Hb1 & Hb2 & Hb3 & Hb4).
  set (np := (PHYSTOP - kbase kend) / PGSIZE).
  assert (Hnp : kbase kend + np * PGSIZE = PHYSTOP /\ 1 <= np < 2 ^ 31 /\
                PA2IDX PHYSTOP - PA2IDX (kbase kend) = np).
  { subst np. unfold PA2IDX. change (PHYSTOP / PGSIZE) with 557056.
    unfold PHYSTOP, KERNBASE, PGSIZE in *. Z.to_euclidean_division_equations. lia. }
  destruct Hnp as (Hnp1 & Hnp2 & Hnp3).
  unfold kinit. apply wp_bind, wp_upd, wp_bind.
  eapply wp_mono; [apply zero_rmap_loop; done|].
  intros [] s1 [E1 Hrm1]. apply wp_bind.
  eapply wp_mono; [apply zero_ref_loop; [done|by rewrite E1]|].
  intros [] s2 [E2 Hrc2]. apply wp_bind. unfold freerange. fold (kbase kend).
  apply wp_bind. unfold wp at 1, pages_upto. fold np. rewrite for_each_fmap.
  change (wp (for_each (seqZ 0 np) (fun i => kupd (set_ref_count (PA2IDX (kbase kend + i * PGSIZE)) 1)))
    (fun _ s' => wp (kfree_contig kend (kbase kend) (s32 (u64 (PHYSTOP - kbase kend) / PGSIZE)))
      (fun _ s'0 => wp (kupd (set_use_lock true)) (fun _ s' => exists l, kmem_ok kend s' l /\
    (forall x, in_runs l x <-> kbase kend <= x < PHYSTOP) /\
    (forall i, reverse_map s' i = Rmap 0 0) /\ use_lock s' = true /\
    (forall x, ~ (kbase kend <= x < PHYSTOP) -> phys s' x = m x)) s'0) s') s2).
  eapply wp_mono; [apply set_ref_loop; lia|]. intros [] s3 [E3 Hrc3].
  rewrite (u64_small (PHYSTOP - _)) by (unfold PHYSTOP, KERNBASE in *; lia). fold np.
  rewrite s32_small by lia.
  eapply wp_mono; [apply (kfree_contig_ok s3 []); try done; try lia|].
  - apply kmem_ok_all_allocated; [by rewrite E3, E2, E1|]. intros i. rewrite Hrc3, Hnp3, Hrc2. done.
  - intros i Hi. rewrite Hrc3. unfold in_range. cif; lia.
  - intros [] s4 (l & Hok & Hin & Hrc & Hrm & Hph & Hul). apply wp_upd. exists l.
    assert (Hin' : forall x, in_runs l x <-> kbase kend <= x < PHYSTOP).
    { intros x. rewrite Hin, Hnp1. unfold in_runs at 1. set_solver. }
    split_and!; try done.
    + by destruct Hok.
    + intros i. simpl. rewrite Hrm. cif; [done|]. rewrite E3; simpl. rewrite E2. apply Hrm1.
    + intros x Hx. simpl. rewrite Hph by (by rewrite Hin'). by rewrite E3, E2, E1.
Qed.

End allocator.

(** ** The allocator as a state machine

    One step is one call of the allocator's interface under its callers'
    obligations (free what you own, count only what is allocated), or a
    store by the owner of an allocated page. *)

Inductive alloc_step (kend : Z) : kmem_state -> kmem_state -> Prop :=
| step_kalloc s n b s' :
    1 <= n < 2 ^ 31 -> kalloc_contig n s = Ret b s' -> alloc_step kend s s'
| step_kfree s pa n s' :
    pa mod PGSIZE = 0 -> kbase kend <= pa -> 1 <= n -> pa + n * PGSIZE <= PHYSTOP ->
    (forall i, 0 <= i < n -> ref_count s (PA2IDX pa + i) = 1) ->
    kfree_contig kend pa n s = Ret tt s' -> alloc_step kend s s'
| step_kfree_shared s pa s' :
    managed kend pa -> 1 < ref_count s (PA2IDX pa) -> kfree kend pa s = Ret tt s' ->
    alloc_step kend s s'
| step_incref s pa s' :
    managed kend pa -> 0 < ref_count s (PA2IDX pa) < 2 ^ 31 - 1 -> incref pa s = Ret tt s' ->
    alloc_step kend s s'
| step_decref s pa r s' :
    managed kend pa -> 1 < ref_count s (PA2IDX pa) -> decref pa s = Ret r s' ->
    alloc_step kend s s'
| step_store s pa x v :
    managed kend pa -> 0 < ref_count s (PA2IDX pa) -> pa <= x < pa + PGSIZE ->
    alloc_step kend s (set_phys (fun m => upd m x v) s)
| step_rmap s pa pt vaddr s' :
    record_rmap pa pt vaddr s = Ret tt s' -> alloc_step kend s s'.

Lemma in_runs_page l lo pa x :
  runs_from lo l -> pa mod PGSIZE = 0 -> pa <= x < pa + PGSIZE -> in_runs l x -> in_runs l pa.
Proof.
  intros HR Hal Hx (a & k & Hin & Ha). exists a, k. split; [done|].
  destruct (runs_from_in _ _ _ _ HR Hin) as (_ & Ham & _). unfold PGSIZE in *.
  Z.to_euclidean_division_equations. lia.
Qed.

Lemma record_rmap_ok pa pt vaddr s :
  wp (record_rmap pa pt vaddr)
     (fun _ s' => s' = KMem (phys s) (ref_count s) (reverse_map s') (freelist s) (use_lock s)) s.
Proof. unfold record_rmap, wp, kbind, kget. destruct s. repeat cif; done. Qed.

Lemma kmem_ok_ext kend s s' l :
  (forall x, in_runs l x -> phys s' x = phys s x) -> ref_count s' = ref_count s ->
  freelist s' = freelist s -> kmem_ok kend s l -> kmem_ok kend s' l.
Proof.
  intros Hph Hrc Hfl [HS HR HC Hc Hrest]. split; try done; [|by rewrite Hrc..].
  rewrite Hfl. eapply seg_ext; [|exact HS]. intros a k Hin.
  assert (Hx : forall i, 0 <= i < 16 -> phys s' (a + i) = phys s (a + i)).
  { intros i Hi. apply Hph. eapply header_in_runs; [done..|lia]. }
  unfold next, num_pages. with_strategy transparent [ld64 ld32]
    (split; apply ldn_ext; intros i Hi; rewrite <- ?Z.add_assoc; apply Hx; lia).
Qed.

Lemma alloc_step_ok kend s s' l :
  KERNBASE <= kend <= PHYSTOP -> kmem_ok kend s l -> alloc_step kend s s' ->
  exists l', kmem_ok kend s' l'.
Proof.
  intros Hkend Hok Hstep. destruct Hstep as
    [s n b s' Hn E|s pa n s' Hal Hlo Hn Hend Hrc E|s pa s' Hm Hr E|s pa s' Hm Hr E|s pa r s' Hm Hr E
    |s pa x v Hm Hr Hx|s pa pt vaddr s' E].
  - pose proof (wp_det _ _ _ _ _ (kalloc_contig_ok kend Hkend s l n Hok Hn) E) as H.
    destruct H as [(_ & -> & _)|(_ & k & l' & _ & _ & _ & Hok' & _)]; eauto.
  - pose proof (wp_det _ _ _ _ _ (kfree_contig_ok kend Hkend s l pa n Hok Hal Hlo Hn Hend Hrc) E) as H.
    destruct H as (l' & Hok' & _). eauto.
  - destruct (kfree_shared_ok kend Hkend s l pa Hok Hm Hr) as [E' Hok']. rewrite E in E'. simplify_eq. eauto.
  - assert (~ in_runs l pa) as Hin by (apply (allocated_ref kend s l pa Hok Hm); lia).
    destruct (wp_det _ _ _ _ _ (incref_ok kend s l pa Hok Hm Hin ltac:(lia)) E). eauto.
  - destruct (wp_det _ _ _ _ _ (decref_ok kend s l pa Hok Hm Hr) E). eauto.
  - exists l. eapply (kmem_ok_ext kend s); [|done..]. intros y Hy. simpl. rewrite upd_ne; [done|].
    intros ->. apply (allocated_ref kend s l pa Hok Hm) in Hr. apply Hr.
    eapply in_runs_page; [apply Hok|apply Hm|done|done].
  - exists l. rewrite (wp_det _ _ _ _ _ (record_rmap_ok pa pt vaddr s) E).
    by eapply (kmem_ok_ext kend s).
Qed.

(** ** Properties *)

(** C1. From boot on, whatever sequence of allocations, frees, reference
    count changes and stores to allocated pages runs, the free list in
    memory is a list of disjoint page runs inside the managed range, in
    address order, fully coalesced, and a page's reference count is zero
    exactly when the page is on the list. *)
Theorem alloc_reachable_ok kend m s0 s :
  KERNBASE <= kend <= PHYSTOP -> kbase kend < PHYSTOP ->
  kinit kend (boot_state m) = Ret tt s0 -> rtc (alloc_step kend) s0 s ->
  exists l, kmem_ok kend s l.
Proof.
  intros Hkend Hlt Hinit Hrun.
  destruct (wp_det _ _ _ _ _ (kinit_ok kend Hkend m Hlt) Hinit) as (l & Hok & _).
  clear Hinit. revert l Hok.
  induction Hrun as [s|s s1 s2 Hstep _ IH]; intros l Hok; [eauto|].
  destruct (alloc_step_ok kend s s1 l Hkend Hok Hstep) as [l' Hok']. eauto.
Qed.

(** [kinit] does not panic and leaves one state of the allocator: every
    page from [PGROUNDUP(end)] to [PHYSTOP] free, nothing else, and an
    empty reverse map. *)
Theorem kinit_frees_all kend m :
  KERNBASE <= kend <= PHYSTOP -> kbase kend < PHYSTOP ->
  wp (kinit kend) (fun _ s => exists l, kmem_ok kend s l /\
    (forall x, in_runs l x <-> kbase kend <= x < PHYSTOP) /\
    (forall i, reverse_map s i = Rmap 0 0) /\ use_lock s = true /\
    (forall x, ~ (kbase kend <= x < PHYSTOP) -> phys s x = m x)) (boot_state m).
Proof. intros. by apply kinit_ok. Qed.

(** C2. [kalloc_contig n] is best fit and complete: it returns 0, leaving
    the state alone, only if no free run has [n] pages; otherwise it takes
    the first [n] pages of a smallest sufficient run off the free list,
    gives each of them count 1, fills them with 5s, and changes no memory
    outside the pages that were free. *)
Theorem kalloc_contig_best_fit kend s l n :
  KERNBASE <= kend <= PHYSTOP -> kmem_ok kend s l -> 1 <= n < 2 ^ 31 ->
  wp (kalloc_contig n) (fun b s' =>
    (b = 0 /\ s' = s /\ (forall a k, (a, k) ∈ l -> k < n)) \/
    (b <> 0 /\ exists k l', (b, k) ∈ l /\ n <= k /\
       (forall a' k', (a', k') ∈ l -> n <= k' -> k <= k') /\
       kmem_ok kend s' l' /\
       (forall x, in_runs l' x <-> in_runs l x /\ ~ (b <= x < b + n * PGSIZE)) /\
       taken b n l s s')) s.
Proof. intros. by apply kalloc_contig_ok. Qed.

(** C3. Freeing a run of pages that each have count 1 puts exactly these
    pages on the free list, merged with the runs they touch, drops their
    counts to 0, forgets their reverse mappings, and changes no memory
    outside the free pages. *)
Theorem kfree_contig_coalesces kend s l pa n :
  KERNBASE <= kend <= PHYSTOP -> kmem_ok kend s l ->
  pa mod PGSIZE = 0 -> kbase kend <= pa -> 1 <= n -> pa + n * PGSIZE <= PHYSTOP ->
  (forall i, 0 <= i < n -> ref_count s (PA2IDX pa + i) = 1) ->
  wp (kfree_contig kend pa n) (fun _ s' => exists l', kmem_ok kend s' l' /\
    (forall x, in_runs l' x <-> in_runs l x \/ pa <= x < pa + n * PGSIZE) /\
    freed pa n l' s s') s.
Proof. intros. by apply kfree_contig_ok. Qed.

(** [kfree] of one page decides by its reference count: a shared page
    only loses one reference, a page already free is a kernel panic. *)
Theorem kfree_by_count kend s l pa :
  KERNBASE <= kend <= PHYSTOP -> kmem_ok kend s l -> managed kend pa ->
  (1 < ref_count s (PA2IDX pa) ->
     kfree kend pa s = Ret tt (set_ref_count (PA2IDX pa) (ref_count s (PA2IDX pa) - 1) s)) /\
  (in_runs l pa -> kfree kend pa s = Panic "kfree_contig: ref_count already zero").
Proof.
  intros Hk Hok Hm. split; intros H.
  - by apply (kfree_shared_ok kend Hk s l pa Hok Hm H).
  - by apply (kfree_not_allocated kend Hk s l pa Hok Hm H).
Qed.

(** ** Witnesses: a machine with four managed pages *)

Definition kend4 : Z := PHYSTOP - 4 * PGSIZE.

Definition full4 : kmem_state :=
  KMem (fun _ => 0) (fun i => if in_range (PA2IDX kend4) 4 i then 1 else 0)
       (fun _ => Rmap 0 0) 0 true.

Definition empty4 : kmem_state :=
  KMem (set_next kend4 0 (set_num_pages kend4 4 (fun _ => 0))) (fun _ => 0)
       (fun _ => Rmap 0 0) kend4 true.

Lemma kend4_range : KERNBASE <= kend4 <= PHYSTOP.
Proof. unfold kend4, PHYSTOP, KERNBASE, PGSIZE. lia. Qed.

Lemma kbase_kend4 : kbase kend4 = kend4.
Proof. reflexivity. Qed.

Lemma full4_ok : kmem_ok kend4 full4 [].
Proof. apply kmem_ok_all_allocated; [apply kend4_range|done..]. Qed.

Lemma empty4_ok : kmem_ok kend4 empty4 [(kend4, 4)].
Proof.
  split.
  - split_and!; try done; vm_compute; congruence.
  - change (kbase kend4) with kend4. split_and!; try done; vm_compute; congruence.
  - done.
  - intros pa (Hal & Hlo & Hend). rewrite kbase_kend4 in Hlo. simpl. split; [lia|]. split; [|done].
    intros _. exists kend4, 4. split; [set_solver|]. unfold kend4, PHYSTOP, KERNBASE, PGSIZE in *. lia.
  - done.
Qed.

Lemma alloc_reachable_ok_witness :
  exists s0 l, kinit kend4 (boot_state (fun _ => 0)) = Ret tt s0 /\ kmem_ok kend4 s0 l.
Proof.
  destruct (proj1 (wp_ex _ _ _) (kinit_ok kend4 kend4_range (fun _ => 0) ltac:(done)))
    as ([] & s0 & E & _).
  destruct (alloc_reachable_ok kend4 (fun _ => 0) s0 s0 kend4_range ltac:(done) E (rtc_refl _ _)) as [l Hl].
  exists s0, l. by split.
Defined.

Lemma kinit_frees_all_witness :
  exists s, kinit kend4 (boot_state (fun _ => 0)) = Ret tt s /\ reverse_map s 0 = Rmap 0 0.
Proof.
  destruct (proj1 (wp_ex _ _ _) (kinit_frees_all kend4 (fun _ => 0) kend4_range ltac:(done)))
    as ([] & s & E & l & _ & _ & H & _). exists s. by split.
Defined.

Lemma kalloc_contig_best_fit_witness :
  kmem_ok kend4 empty4 [(kend4, 4)] /\
  exists b s', kalloc_contig 3 empty4 = Ret b s' /\ b = kend4.
Proof.
  split; [apply empty4_ok|].
  destruct (proj1 (wp_ex _ _ _) (kalloc_contig_best_fit kend4 empty4 _ 3 kend4_range empty4_ok ltac:(done)))
    as (b & s' & E & [(_ & _ & H)|(_ & k & l' & Hin & _)]).
  - exfalso. specialize (H kend4 4 ltac:(set_solver)). lia.
  - exists b, s'. split; [done|]. apply list_elem_of_singleton in Hin. by injection Hin.
Defined.

Lemma kfree_contig_coalesces_witness :
  kmem_ok kend4 full4 [] /\
  exists s' l', kfree_contig kend4 kend4 2 full4 = Ret tt s' /\ kmem_ok kend4 s' l' /\ in_runs l' kend4.
Proof.
  split; [apply full4_ok|].
  destruct (proj1 (wp_ex _ _ _) (kfree_contig_coalesces kend4 full4 [] kend4 2 kend4_range full4_ok
    ltac:(done) ltac:(done) ltac:(done) ltac:(done)
    ltac:(intros i Hi; assert (i = 0 \/ i = 1) as [-> | ->] by lia; reflexivity)))
    as ([] & s' & E & l' & Hok & Hin & _).
  exists s', l'. split_and!; try done. apply Hin. right. unfold PGSIZE. lia.
Defined.

Lemma kfree_by_count_witness :
  kfree kend4 kend4 empty4 = Panic "kfree_contig: ref_count already zero".
Proof.
  destruct (kfree_by_count kend4 empty4 _ kend4 kend4_range empty4_ok) as [_ H].
  - unfold managed. rewrite kbase_kend4. by split_and!.
  - apply H. exists kend4, 4. split; [set_solver|]. unfold PGSIZE. lia.
Defined.
