(* ===== verification/Vm.v ===== *)
(** * kernel/vm.c: page tables and user memory

    Sv39 page tables live in pages of physical memory as arrays of 512
    little-endian 64-bit entries; [walk] follows and extends them there.
    The routines run over the allocator's state, since they allocate and
    free pages, and panics and failures are the code's.  The current
    process enters only through its size ([psz], [myproc()->sz]). *)

From S2P Require Import Prelude Memory StringC Kalloc.

(** ** Operations *)

(** Device addresses of memlayout.h. *)
Definition UART0 : Z := 268435456.
Definition VIRTIO0 : Z := 268439552.
Definition PLIC : Z := 201326592.

Definition PTE_COW : Z := Z.shiftl 1 8.

(** A flag test [pte & f] as a C condition. *)
Definition has (pte f : Z) : bool := negb (Z.land pte f =? 0).

(** [pagetable[i]] *)
Definition entry (m : mem) (pt i : Z) : Z := ld64 m (pt + 8 * i).
Definition set_pte (a v : Z) : M kmem_state unit := kupd (set_phys (fun m => st64 m a (u64 v))).

Section vm.
Variable kend : Z.

(** One pass of [walk]'s loop: the next-level table, or [None] for
    [return 0]. *)
Definition walk_level (level vaddr : Z) (alloc : bool) (pt : Z) : M kmem_state (option Z) :=
  let pte := pt + 8 * PX level vaddr in
  let! m := kget phys in
  if has (ld64 m pte) PTE_V then kret (Some (PTE2PA (ld64 m pte)))
  else if negb alloc then kret None
  else
    let! np := kalloc in
    if np =? 0 then kret None else
    do! kupd (set_phys (fun m' => memset m' np 0 PGSIZE));
    do! set_pte pte (Z.lor (PA2PTE np) PTE_V);
    kret (Some np).

Definition walk (pt vaddr : Z) (alloc : bool) : M kmem_state Z :=
  if vaddr >=? MAXVA then kpanic "walk" else
  let! r2 := walk_level 2 vaddr alloc pt in
  match r2 with
  | None => kret 0
  | Some pt1 =>
      let! r1 := walk_level 1 vaddr alloc pt1 in
      match r1 with
      | None => kret 0
      | Some pt0 => kret (pt0 + 8 * PX 0 vaddr)
      end
  end.

Definition walkaddr (pt vaddr : Z) : M kmem_state Z :=
  if vaddr >=? MAXVA then kret 0 else
  let! pte := walk pt vaddr false in
  if pte =? 0 then kret 0 else
  let! m := kget phys in
  if negb (has (ld64 m pte) PTE_V) then kret 0
  else if negb (has (ld64 m pte) PTE_U) then kret 0
  else kret (PTE2PA (ld64 m pte)).

(** The loop of [mappages]; [fuel] bounds its passes by the page count. *)
Fixpoint mappages_loop (fuel : nat) (pt a last pa perm : Z) : M kmem_state Z :=
  match fuel with
  | O => khang
  | S f =>
      let! pte := walk pt a true in
      if pte =? 0 then kret (-1) else
      let! m := kget phys in
      if has (ld64 m pte) PTE_V then kpanic "mappages: remap" else
      do! set_pte pte (Z.lor (Z.lor (PA2PTE pa) perm) PTE_V);
      do! (if has perm PTE_U then record_rmap pa pt a else kret tt);
      if a =? last then kret 0
      else mappages_loop f pt (u64 (a + PGSIZE)) last (u64 (pa + PGSIZE)) perm
  end.

Definition mappages (pt vaddr size pa perm : Z) : M kmem_state Z :=
  if negb (vaddr mod PGSIZE =? 0) then kpanic "mappages: va not aligned"
  else if negb (size mod PGSIZE =? 0) then kpanic "mappages: size not aligned"
  else if size =? 0 then kpanic "mappages: size"
  else mappages_loop (Z.to_nat (size / PGSIZE)) pt vaddr (u64 (vaddr + size - PGSIZE)) pa perm.

Definition kvmmap (kpgtbl vaddr pa sz perm : Z) : M kmem_state unit :=
  let! r := mappages kpgtbl vaddr sz pa perm in
  if negb (r =? 0) then kpanic "kvmmap" else kret tt.

(** kernel/proc.c: a kernel stack page for each of the [NPROC] slots. *)
Definition NPROC : Z := 64.
Definition proc_mapstacks (kpgtbl : Z) : M kmem_state unit :=
  for_each (seqZ 0 NPROC) (fun p =>
    let! pa := kalloc in
    if pa =? 0 then kpanic "kalloc" else
    kvmmap kpgtbl (KSTACK p) pa PGSIZE (Z.lor PTE_R PTE_W)).

(** [etext] and [trampoline] are symbols of the linker script and of
    trampoline.S. *)
Definition kvmmake (etext trampoline : Z) : M kmem_state Z :=
  let! kpgtbl := kalloc in
  do! kupd (set_phys (fun m => memset m kpgtbl 0 PGSIZE));
  do! kvmmap kpgtbl UART0 UART0 PGSIZE (Z.lor PTE_R PTE_W);
  do! kvmmap kpgtbl VIRTIO0 VIRTIO0 PGSIZE (Z.lor PTE_R PTE_W);
  do! kvmmap kpgtbl PLIC PLIC 67108864 (Z.lor PTE_R PTE_W);
  do! kvmmap kpgtbl KERNBASE KERNBASE (etext - KERNBASE) (Z.lor PTE_R PTE_X);
  do! kvmmap kpgtbl etext etext (PHYSTOP - etext) (Z.lor PTE_R PTE_W);
  do! kvmmap kpgtbl TRAMPOLINE trampoline PGSIZE (Z.lor PTE_R PTE_X);
  do! proc_mapstacks kpgtbl;
  kret kpgtbl.

Definition uvmcreate : M kmem_state Z :=
  let! pt := kalloc in
  if pt =? 0 then kret 0 else
  do! kupd (set_phys (fun m => memset m pt 0 PGSIZE));
  kret pt.

(** The values of [a] in [for(a = start; a < stop; a += PGSIZE)]. *)
Definition page_range (start stop : Z) : list Z :=
  (fun i => start + i * PGSIZE) <$> seqZ 0 ((stop - start + PGSIZE - 1) / PGSIZE).

Definition unmap_page (pt : Z) (do_free : bool) (a : Z) : M kmem_state unit :=
  let! pte := walk pt a false in
  if pte =? 0 then kret tt else
  let! m := kget phys in
  if negb (has (ld64 m pte) PTE_V) then kret tt else
  do! (if do_free then kfree kend (PTE2PA (ld64 m pte)) else kret tt);
  set_pte pte 0.

Definition uvmunmap (pt vaddr npages : Z) (do_free : bool) : M kmem_state unit :=
  if negb (vaddr mod PGSIZE =? 0) then kpanic "uvmunmap: not aligned" else
  for_each (page_range vaddr (u64 (vaddr + u64 (npages * PGSIZE)))) (unmap_page pt do_free).

Definition uvmdealloc (pt oldsz newsz : Z) : M kmem_state Z :=
  if newsz >=? oldsz then kret oldsz else
  do! (if PGROUNDUP newsz <? PGROUNDUP oldsz then
         let npages := s32 (u64 (PGROUNDUP oldsz - PGROUNDUP newsz) / PGSIZE) in
         uvmunmap pt (PGROUNDUP newsz) (u64 npages) true
       else kret tt);
  kret newsz.

Fixpoint uvmalloc_loop (pages : list Z) (pt oldsz newsz xperm : Z) : M kmem_state Z :=
  match pages with
  | [] => kret newsz
  | a :: rest =>
      let! page := kalloc in
      if page =? 0 then let! r := uvmdealloc pt a oldsz in kret 0 else
      do! kupd (set_phys (fun m => memset m page 0 PGSIZE));
      let! r := mappages pt a PGSIZE page (Z.lor (Z.lor PTE_R PTE_U) xperm) in
      if negb (r =? 0) then
        do! kfree kend page;
        let! r' := uvmdealloc pt a oldsz in kret 0
      else uvmalloc_loop rest pt oldsz newsz xperm
  end.

Definition uvmalloc (pt oldsz newsz xperm : Z) : M kmem_state Z :=
  if newsz <? oldsz then kret oldsz else
  let oldsz' := PGROUNDUP oldsz in
  uvmalloc_loop (page_range oldsz' newsz) pt oldsz' newsz xperm.

(** [freewalk] recurses once per page-table level; [depth] is the number
    of levels below and including [pt]. *)
Fixpoint freewalk (depth : nat) (pt : Z) : M kmem_state unit :=
  match depth with
  | O => khang
  | S d =>
      do! for_each (seqZ 0 512) (fun i =>
        let! m := kget phys in
        let pte := entry m pt i in
        if has pte PTE_V && (Z.land pte (Z.lor (Z.lor PTE_R PTE_W) PTE_X) =? 0) then
          do! freewalk d (PTE2PA pte);
          set_pte (pt + 8 * i) 0
        else if has pte PTE_V then kpanic "freewalk: leaf"
        else kret tt);
      kfree kend pt
  end.

Definition uvmfree (pt sz : Z) : M kmem_state unit :=
  do! (if sz >? 0 then uvmunmap pt 0 (PGROUNDUP sz / PGSIZE) true else kret tt);
  freewalk 3 pt.

(** One page of [uvmcopy]: [true] for [goto err]. *)
Definition uvmcopy_page (old new i : Z) : M kmem_state bool :=
  let! pte := walk old i false in
  if pte =? 0 then kret false else
  let! m := kget phys in
  if negb (has (ld64 m pte) PTE_V) then kret false else
  let pa := PTE2PA (ld64 m pte) in
  let flags := PTE_FLAGS (ld64 m pte) in
  let flags' := if has flags PTE_W then Z.lor (Z.land flags (Z.lnot PTE_W)) PTE_COW else flags in
  do! (if has flags PTE_W then set_pte pte (Z.lor (PA2PTE pa) flags') else kret tt);
  let! r := mappages new i PGSIZE pa flags' in
  if negb (r =? 0) then kret true else
  do! incref pa;
  kret false.

Fixpoint uvmcopy_loop (pages : list Z) (old new : Z) : M kmem_state Z :=
  match pages with
  | [] => kret 0
  | i :: rest =>
      let! err := uvmcopy_page old new i in
      if err then
        do! uvmunmap new 0 (i / PGSIZE) true;
        kret (-1)
      else uvmcopy_loop rest old new
  end.

Definition uvmcopy (old new sz : Z) : M kmem_state Z := uvmcopy_loop (page_range 0 sz) old new.

Definition uvmclear (pt vaddr : Z) : M kmem_state unit :=
  let! pte := walk pt vaddr false in
  if pte =? 0 then kpanic "uvmclear" else
  let! m := kget phys in
  set_pte pte (Z.land (ld64 m pte) (Z.lnot PTE_U)).

(** The copy-on-write case of [vmfault], for the entry at [pte]. *)
Definition cow_fault (pt vaddr pte : Z) : M kmem_state Z :=
  let! m := kget phys in
  let pa := PTE2PA (ld64 m pte) in
  let! ref := getref pa in
  let! failed :=
    (if ref >? 1 then
       let! page := kalloc in
       if page =? 0 then kret true else
       do! kupd (set_phys (fun m' => memmove m' page pa PGSIZE));
       do! set_pte pte (Z.lor (Z.lor (Z.lor (Z.lor (Z.lor (PA2PTE page) PTE_W) PTE_U) PTE_R) PTE_V) PTE_U);
       let! r := decref pa in
       kret false
     else
       do! set_pte pte (Z.lor (ld64 m pte) PTE_W);
       let! m' := kget phys in
       do! set_pte pte (Z.land (ld64 m' pte) (Z.lnot PTE_COW));
       kret false) in
  if (failed : bool) then kret 0 else
  let! m' := kget phys in
  do! record_rmap (PTE2PA (ld64 m' pte)) pt vaddr;
  kret (PTE2PA (ld64 m' pte)).

Definition vmfault (psz pt vaddr0 : Z) : M kmem_state Z :=
  if vaddr0 >=? psz then kret 0 else
  let vaddr := PGROUNDDOWN vaddr0 in
  let! pte := walk pt vaddr false in
  let! m := kget phys in
  if (pte =? 0) || negb (has (ld64 m pte) PTE_V) then
    let! page := kalloc in
    if page =? 0 then kret 0 else
    do! kupd (set_phys (fun m' => memset m' page 0 PGSIZE));
    let! r := mappages pt vaddr PGSIZE page (Z.lor (Z.lor PTE_W PTE_U) PTE_R) in
    if negb (r =? 0) then do! kfree kend page; kret 0
    else kret page
  else if has (ld64 m pte) PTE_COW && negb (has (ld64 m pte) PTE_W) then cow_fault pt vaddr pte
  else kret 0.

(** The loops of the copy routines advance at least one byte a pass. *)
Definition copy_fuel (len : Z) : nat := S (Z.to_nat len).

Fixpoint copyout_loop (fuel : nat) (psz pt dstva src len : Z) : M kmem_state Z :=
  match fuel with
  | O => khang
  | S f =>
      if len <=? 0 then kret 0 else
      let va0 := PGROUNDDOWN dstva in
      if va0 >=? MAXVA then kret (-1) else
      let! pa := walkaddr pt va0 in
      let! pa0 := (if pa =? 0 then vmfault psz pt va0 else kret pa) in
      if pa0 =? 0 then kret (-1) else
      let! pte := walk pt va0 false in
      let! m := kget phys in
      if negb (has (ld64 m pte) PTE_W) then kret (-1) else
      let n := Z.min (PGSIZE - (dstva - va0)) len in
      do! kupd (set_phys (fun m' => memmove m' (pa0 + (dstva - va0)) src n));
      copyout_loop f psz pt (u64 (va0 + PGSIZE)) (src + n) (len - n)
  end.

Definition copyout (psz pt dstva src len : Z) : M kmem_state Z :=
  copyout_loop (copy_fuel len) psz pt dstva src len.

Fixpoint copyin_loop (fuel : nat) (psz pt dst srcva len : Z) : M kmem_state Z :=
  match fuel with
  | O => khang
  | S f =>
      if len <=? 0 then kret 0 else
      let va0 := PGROUNDDOWN srcva in
      let! pa := walkaddr pt va0 in
      let! pa0 := (if pa =? 0 then vmfault psz pt va0 else kret pa) in
      if pa0 =? 0 then kret (-1) else
      let n := Z.min (PGSIZE - (srcva - va0)) len in
      do! kupd (set_phys (fun m' => memmove m' dst (pa0 + (srcva - va0)) n));
      copyin_loop f psz pt (dst + n) (u64 (va0 + PGSIZE)) (len - n)
  end.

Definition copyin (psz pt dst srcva len : Z) : M kmem_state Z :=
  copyin_loop (copy_fuel len) psz pt dst srcva len.

(** The inner loop of [copyinstr]: copies up to [n] bytes from [p] to
    [dst], stopping after a NUL; the result is the memory, whether a NUL
    was copied, and the number of non-NUL bytes copied. *)
Fixpoint copyinstr_bytes (n : nat) (m : mem) (dst p : Z) : mem * bool * Z :=
  match n with
  | O => (m, false, 0)
  | S n' =>
      if u8 (m p) =? 0 then (upd m dst 0, true, 0)
      else let '(m', got, k) := copyinstr_bytes n' (upd m dst (m p)) (dst + 1) (p + 1) in
           (m', got, k + 1)
  end.

Fixpoint copyinstr_loop (fuel : nat) (pt dst srcva max : Z) : M kmem_state Z :=
  match fuel with
  | O => khang
  | S f =>
      if max <=? 0 then kret (-1) else
      let va0 := PGROUNDDOWN srcva in
      let! pa0 := walkaddr pt va0 in
      if pa0 =? 0 then kret (-1) else
      let n := Z.min (PGSIZE - (srcva - va0)) max in
      let! m := kget phys in
      let '(m', got, k) := copyinstr_bytes (Z.to_nat n) m dst (pa0 + (srcva - va0)) in
      do! kupd (set_phys (fun _ => m'));
      if got then kret 0
      else copyinstr_loop f pt (dst + k) (u64 (va0 + PGSIZE)) (max - k)
  end.

Definition copyinstr (pt dst srcva max : Z) : M kmem_state Z :=
  copyinstr_loop (copy_fuel max) pt dst srcva max.

Definition ismapped (pt vaddr : Z) : M kmem_state Z :=
  let! pte := walk pt vaddr false in
  if pte =? 0 then kret 0 else
  let! m := kget phys in
  if has (ld64 m pte) PTE_V then kret 1 else kret 0.

(** kernel/proc.c: a process's page table, with the trampoline (a symbol
    of trampoline.S) and the trapframe page. *)
Definition proc_pagetable (trampoline trapframe : Z) : M kmem_state Z :=
  let! pt := uvmcreate in
  if pt =? 0 then kret 0 else
  let! r := mappages pt TRAMPOLINE PGSIZE trampoline (Z.lor PTE_R PTE_X) in
  if r <? 0 then do! uvmfree pt 0; kret 0 else
  let! r' := mappages pt TRAPFRAME PGSIZE trapframe (Z.lor PTE_R PTE_W) in
  if r' <? 0 then
    do! uvmunmap pt TRAMPOLINE 1 false;
    do! uvmfree pt 0;
    kret 0
  else kret pt.

Definition proc_freepagetable (pt sz : Z) : M kmem_state unit :=
  do! uvmunmap pt TRAMPOLINE 1 false;
  do! uvmunmap pt TRAPFRAME 1 false;
  uvmfree pt sz.

(** kernel/proc.c: the memory part of [growproc], from the process's size
    and page table to its new size, [None] for a return of -1. *)
Definition growproc (psz pt n : Z) : M kmem_state (option Z) :=
  if n >? 0 then
    if u64 (psz + n) >? TRAPFRAME then kret None else
    let! sz := uvmalloc pt psz (u64 (psz + n)) PTE_W in
    if sz =? 0 then kret None else kret (Some sz)
  else if n <? 0 then
    let! sz := uvmdealloc pt psz (u64 (psz + n)) in kret (Some sz)
  else kret (Some psz).

End vm.
