(* ===== verification/Compact.v ===== *)
(** * kernel/kalloc.c: [compact_memory]

    The compactor slides a used page into the free run before it and
    rewrites the page's page-table entry.  It reads the reference count of
    the page at the page's index from [KERNBASE], while the rest of the
    allocator keeps counts at the index from address zero; the theorem
    below shows what follows from that. *)

From S2P Require Import Prelude Memory StringC Kalloc Vm.

(** [while(p != 0 && p->next != curr) p = p->next;] *)
Fixpoint find_pred (fuel : nat) (m : mem) (curr p : Z) : option Z :=
  match fuel with
  | O => None
  | S f => if (p =? 0) || (next m p =? curr) then Some p else find_pred f m curr (next m p)
  end.

(** Link the shifted hole in place of [curr], with the code's fallback. *)
Definition relink (curr shifted : Z) : M kmem_state unit :=
  let! f := kget freelist in
  if f =? curr then kupd (set_freelist shifted) else
  let! m := kget phys in
  match find_pred list_fuel m curr f with
  | None => khang
  | Some p => if p =? 0 then kupd (set_freelist shifted) else kupd (set_phys (set_next p shifted))
  end.

(** Move the used page at [used] down to [hole], a run of [size] pages. *)
Definition slide_page (curr hole size used pfn_used : Z) : M kmem_state unit :=
  let! rc := kget ref_count in
  do! kupd (set_ref_count (PA2IDX hole) (rc (PA2IDX used)));
  do! kupd (set_ref_count (PA2IDX used) (rc (PA2IDX hole)));
  do! kupd (set_phys (fun m => memmove m hole used PGSIZE));
  let! rm := kget reverse_map in
  let pt := pagetable (rm pfn_used) in
  let vaddr := va (rm pfn_used) in
  let! pte := walk pt vaddr false in
  let! m := kget phys in
  do! (if negb (pte =? 0) && has (ld64 m pte) PTE_V
       then set_pte pte (Z.lor (PA2PTE hole) (PTE_FLAGS (ld64 m pte)))
       else kret tt);
  do! kupd (set_reverse_map ((hole - KERNBASE) / PGSIZE) (Rmap pt vaddr));
  do! kupd (set_reverse_map pfn_used (Rmap 0 0));
  let shifted := u64 (hole + PGSIZE) in
  do! kupd (set_phys (set_num_pages shifted size));
  do! kupd (set_phys (fun m' => set_next shifted (next m' curr) m'));
  do! relink curr shifted;
  let! m' := kget phys in
  let nx := next m' shifted in
  if negb (nx =? 0) && (u64 (shifted + u32 (num_pages m' shifted * PGSIZE)) =? nx) then
    do! kupd (set_phys (set_num_pages shifted (u32 (num_pages m' shifted + num_pages m' nx))));
    kupd (set_phys (fun m2 => set_next shifted (next m2 (next m2 shifted)) m2))
  else kret tt.

Fixpoint compact_loop (fuel : nat) (curr : Z) : M kmem_state unit :=
  match fuel with
  | O => khang
  | S f =>
      if curr =? 0 then kret tt else
      let! m := kget phys in
      let size := num_pages m curr in
      let used := u64 (curr + u32 (size * PGSIZE)) in
      if used >=? PHYSTOP then kret tt
      else if negb (next m curr =? 0) && (next m curr =? used) then compact_loop f (next m curr)
      else
        let pfn_used := u64 (used - KERNBASE) / PGSIZE in
        let! rm := kget reverse_map in
        let! rc := kget ref_count in
        if negb (pagetable (rm pfn_used) =? 0) && negb (pagetable (rm pfn_used) =? PT_SHARED) &&
           (rc pfn_used =? 1)
        then
          do! slide_page curr curr size used pfn_used;
          let! fl := kget freelist in
          compact_loop f fl
        else compact_loop f (next m curr)
  end.

(** [fuel] bounds the passes over the free list. *)
Definition compact_memory (fuel : nat) : M kmem_state unit :=
  let! ul := kget use_lock in
  if negb ul then kret tt else
  let! fl := kget freelist in
  compact_loop fuel fl.

(** ** Properties *)

Lemma compact_loop_noop kend s l0 fuel curr l :
  KERNBASE <= kend <= PHYSTOP -> kmem_ok kend s l0 ->
  seg (phys s) curr l 0 -> runs_from (kbase kend) l -> (length l < fuel)%nat ->
  compact_loop fuel curr s = Ret tt s.
Proof.
  intros Hkend Hok. revert fuel curr. pose proof (kbase_facts kend Hkend) as (Hb & _).
  assert (Hgen : forall lo fuel curr, KERNBASE <= lo -> seg (phys s) curr l 0 -> runs_from lo l ->
            (length l < fuel)%nat -> compact_loop fuel curr s = Ret tt s); [|intros; by eapply Hgen].
  induction l as [|[a k] l IH]; intros lo [|fuel] curr Hlo HS HR Hf; simpl in Hf; try lia.
  { simpl in HS. subst curr. reflexivity. }
  destruct HS as (-> & Ha & Hk & HS). simpl in HR. destruct HR as (Hlo' & Hal & Hk1 & Hend & HR).
  simpl. rewrite (proj2 (Z.eqb_neq a 0)) by done. unfold kbind, kget.
  assert (Hrec : compact_loop fuel (next (phys s) a) s = Ret tt s).
  { eapply (IH _ fuel); [|exact HS|exact HR|lia]. unfold PGSIZE in *. lia. }
  rewrite Hk, u32_small, u64_small by (unfold PHYSTOP, KERNBASE, PGSIZE in *; lia).
  rewrite Z.geb_leb. destruct (Z.leb_spec PHYSTOP (a + k * PGSIZE)) as [|Hlt]; [done|].
  destruct (_ && (next (phys s) a =? _)); [done|].
  rewrite u64_small by (unfold PHYSTOP, KERNBASE, PGSIZE in *; lia).
  rewrite (ko_rest _ _ _ Hok); [by rewrite andb_false_r|]. intros (_ & Hm & _).
  unfold PHYSTOP, KERNBASE, PGSIZE in *. Z.to_euclidean_division_equations. lia.
Qed.

(** C21. Compaction does nothing: in every state the allocator can be in,
    [compact_memory] terminates, within one pass over the free list, and leaves
    memory, page tables, reference counts and reverse map as they are, because
    the count it tests is never 1. *)
Theorem compact_memory_noop kend s l fuel :
  KERNBASE <= kend <= PHYSTOP -> kmem_ok kend s l -> (list_fuel <= fuel)%nat ->
  compact_memory fuel s = Ret tt s.
Proof.
  intros Hkend Hok Hf. unfold compact_memory, kbind, kget. destruct (use_lock s); [|done]. simpl.
  destruct (kbase_facts kend Hkend) as (H1 & H2 & H3 & H4).
  pose proof (runs_fuel _ _ H1 H3 H4 (ko_runs _ _ _ Hok)).
  eapply (compact_loop_noop kend s l); [done..|apply Hok|apply Hok|lia].
Qed.

Lemma compact_memory_noop_witness : compact_memory list_fuel empty4 = Ret tt empty4.
Proof. exact (compact_memory_noop kend4 empty4 _ list_fuel kend4_range empty4_ok (le_n _)). Defined.
