(* ===== verification/PageTable.v ===== *)
(** * The page-table invariant and the routines that keep it

    A ghost map [pos] assigns to every page that holds a table its level
    and the virtual page prefix it covers.  Under the invariant [pt_ok]
    the table reachable from a root is a tree, and [mapping], the
    translation of a virtual page, can be updated one page at a time.
    The theorems describe [walk], [mappages] and [uvmunmap] by their
    effect on [mapping], together with a frame condition: memory outside
    the table and the free list is untouched. *)

From S2P Require Import Prelude Memory StringC Kalloc Vm.

(** The leaf entry that translates [va], if it is valid. *)
Definition mapping (m : mem) (pt va : Z) : option Z :=
  let e2 := entry m pt (PX 2 va) in
  if has e2 PTE_V then
    let e1 := entry m (PTE2PA e2) (PX 1 va) in
    if has e1 PTE_V then
      let e0 := entry m (PTE2PA e1) (PX 0 va) in
      if has e0 PTE_V then Some e0 else None
    else None
  else None.

Definition posmap := Z -> option (Z * Z).

(** [x] is a byte of a page-table page. *)
Definition in_pt (pos : posmap) (x : Z) : Prop := exists p z, pos p = Some z /\ p <= x < p + PGSIZE.

Record pt_ok (kend : Z) (s : kmem_state) (l : list (Z * Z)) (pt : Z) (pos : posmap) : Prop := {
  po_root : pos pt = Some (2, 0);
  po_page : forall p lv pre, pos p = Some (lv, pre) ->
    managed kend p /\ ~ in_runs l p /\ 0 <= lv <= 2;
  po_child : forall p lv pre i, pos p = Some (lv, pre) -> 0 < lv -> 0 <= i < 512 ->
    has (entry (phys s) p i) PTE_V = true ->
    pos (PTE2PA (entry (phys s) p i)) = Some (lv - 1, pre * 512 + i);
  po_dir : forall p lv pre i, pos p = Some (lv, pre) -> 0 < lv -> 0 <= i < 512 ->
    has (entry (phys s) p i) PTE_V = true ->
    has (entry (phys s) p i) (Z.lor (Z.lor PTE_R PTE_W) PTE_X) = false
}.

(** ** Entries *)

Lemma entry_st64_same m p i v : 0 <= v < 2 ^ 64 -> entry (st64 m (p + 8 * i) v) p i = v.
Proof. apply ld64_st64_same. Qed.

Lemma entry_st64_other m p i q j v :
  p mod PGSIZE = 0 -> q mod PGSIZE = 0 -> 0 <= i < 512 -> 0 <= j < 512 -> (q, j) <> (p, i) ->
  entry (st64 m (p + 8 * i) v) q j = entry m q j.
Proof.
  intros Hp Hq Hi Hj Hne. apply ld64_st64_other.
  destruct (decide (q = p)) as [->|Hqp].
  - assert (j <> i) by congruence. lia.
  - unfold PGSIZE in *. Z.to_euclidean_division_equations. lia.
Qed.

Lemma entry_ext m m' p i :
  0 <= i < 512 -> (forall x, p <= x < p + PGSIZE -> m' x = m x) -> entry m' p i = entry m p i.
Proof.
  intros Hi H. unfold entry. with_strategy transparent [ld64] (apply ldn_ext).
  intros j Hj. apply H. unfold PGSIZE. lia.
Qed.

Lemma entry_zero m p i :
  0 <= i < 512 -> (forall x, p <= x < p + PGSIZE -> m x = 0) -> entry m p i = 0.
Proof.
  intros Hi H. unfold entry. with_strategy transparent [ld64] (apply ldn_zero).
  intros j Hj. apply H. unfold PGSIZE. lia.
Qed.

(** ** Flags *)

Lemma has_lor a b f : has (Z.lor a b) f = has a f || has b f.
Proof.
  unfold has. rewrite Z.land_lor_distr_l. rewrite <- negb_andb. f_equal.
  apply eq_true_iff_eq. rewrite andb_true_iff, !Z.eqb_eq. apply Z.lor_eq_0_iff.
Qed.

Lemma PA2PTE_range pa fl :
  pa mod PGSIZE = 0 -> 0 <= pa < 2 ^ 56 -> 0 <= fl < 1024 ->
  0 <= Z.lor (PA2PTE pa) fl < 2 ^ 54.
Proof.
  intros Hal Hr Hf. rewrite PA2PTE_spec, lor_shiftl_add by (lia || done).
  unfold PGSIZE in *. Z.to_euclidean_division_equations. lia.
Qed.

Lemma has_PA2PTE pa f :
  pa mod PGSIZE = 0 -> 0 <= pa < 2 ^ 56 -> 0 <= f < 1024 -> has (PA2PTE pa) f = false.
Proof.
  intros Hal Hr Hf. unfold has. rewrite PA2PTE_spec by done.
  assert (Z.land (Z.shiftl (pa / PGSIZE) 10) f = 0) as ->; [|done].
  replace f with (Z.land f (Z.ones 10)) by (rewrite Z.land_ones, Z.mod_small by lia; done).
  rewrite Z.land_assoc, (Z.land_comm _ f), <- Z.land_assoc, Z.land_ones, Z.shiftl_mul_pow2, Z_mod_mult by lia.
  apply Z.land_0_r.
Qed.

(** An entry built from a page and flags has just these flags. *)
Lemma has_pte pa fl f :
  pa mod PGSIZE = 0 -> 0 <= pa < 2 ^ 56 -> 0 <= f < 1024 ->
  has (Z.lor (PA2PTE pa) fl) f = has fl f.
Proof. intros. by rewrite has_lor, has_PA2PTE. Qed.

(** ** Trees *)

Lemma pt_child kend s l pt pos p lv pre i :
  pt_ok kend s l pt pos -> pos p = Some (lv, pre) -> 0 < lv -> 0 <= i < 512 ->
  has (entry (phys s) p i) PTE_V = true ->
  pos (PTE2PA (entry (phys s) p i)) = Some (lv - 1, pre * 512 + i).
Proof. intros H. apply H. Qed.

(** A new, empty table page hung into an invalid upper-level slot changes
    no translation. *)
Lemma mapping_grow kend s l pt pos m' p lv pre i np va :
  pt_ok kend s l pt pos -> pos p = Some (lv, pre) -> 0 < lv -> 0 <= i < 512 ->
  has (entry (phys s) p i) PTE_V = false -> pos np = None ->
  (forall q j, pos q <> None -> 0 <= j < 512 -> (q, j) <> (p, i) -> entry m' q j = entry (phys s) q j) ->
  PTE2PA (entry m' p i) = np -> (forall j, 0 <= j < 512 -> entry m' np j = 0) ->
  mapping m' pt va = mapping (phys s) pt va.
Proof.
  intros Hpt Hp Hlv Hi Hinv Hnp Hsame Hnew Hzero. unfold mapping.
  pose proof (PX_range 2 va). pose proof (PX_range 1 va). pose proof (PX_range 0 va).
  pose proof (po_root _ _ _ _ _ Hpt) as Hroot.
  destruct (decide ((pt, PX 2 va) = (p, i))) as [[= -> <-]|Hne2].
  { rewrite Hinv, Hnew, (Hzero (PX 1 va)) by done. change (has 0 PTE_V) with false. by case_match. }
  rewrite (Hsame pt) by (congruence || done).
  destruct (has (entry (phys s) pt (PX 2 va)) PTE_V) eqn:E2; [|done].
  pose proof (pt_child _ _ _ _ _ _ _ _ _ Hpt Hroot ltac:(lia) (PX_range 2 va) E2) as Hp1.
  set (p1 := PTE2PA (entry (phys s) pt (PX 2 va))) in *.
  destruct (decide ((p1, PX 1 va) = (p, i))) as [[= Hpp <-]|Hne1].
  { rewrite Hpp in *. rewrite Hinv, Hnew, (Hzero (PX 0 va)) by done. change (has 0 PTE_V) with false. by case_match. }
  rewrite (Hsame p1) by (congruence || done).
  destruct (has (entry (phys s) p1 (PX 1 va)) PTE_V) eqn:E1; [|done].
  pose proof (pt_child _ _ _ _ _ _ _ _ _ Hpt Hp1 ltac:(lia) (PX_range 1 va) E1) as Hp0.
  by rewrite Hsame by (congruence || done || (intros [= Hq _]; rewrite Hq, Hp in Hp0; simplify_eq; lia)).
Qed.

(** The virtual page a leaf slot translates. *)
Lemma vpn_split va :
  0 <= va < MAXVA ->
  va / PGSIZE = (PX 2 va * 512 + PX 1 va) * 512 + PX 0 va.
Proof.
  intros Hva. rewrite !PX_spec by lia. unfold MAXVA, PGSIZE in *.
  change (2 ^ (12 + 9 * 2)) with 1073741824. change (2 ^ (12 + 9 * 1)) with 2097152.
  change (2 ^ (12 + 9 * 0)) with 4096. change (Z.shiftl 1 (9 + 9 + 9 + 12 - 1)) with 274877906944 in Hva.
  Z.to_euclidean_division_equations. lia.
Qed.

(** Translation depends on the page only. *)
Lemma PX_page va va' level :
  0 <= va -> 0 <= va' -> 0 <= level -> va / PGSIZE = va' / PGSIZE -> PX level va = PX level va'.
Proof.
  intros H1 H2 Hl E. rewrite !PX_spec by done. rewrite Z.pow_add_r by lia. change (2 ^ 12) with PGSIZE.
  by rewrite <- !Z.div_div, E by (unfold PGSIZE; lia).
Qed.

Lemma lor_flags a b : 0 <= a < 1024 -> 0 <= b < 1024 -> 0 <= Z.lor a b < 1024.
Proof.
  intros Ha Hb. change 1024 with (2 ^ 10) in *.
  rewrite <- (Z.mod_small a (2 ^ 10)), <- (Z.mod_small b (2 ^ 10)), <- !Z.land_ones by lia.
  rewrite <- Z.land_lor_distr_l, Z.land_ones by lia. apply Z.mod_pos_bound. lia.
Qed.

(** The slot [walk] finds for [va]: a level-0 page at the right prefix. *)
Definition leaf_slot (m : mem) (pt va p0 : Z) : Prop :=
  has (entry m pt (PX 2 va)) PTE_V = true /\
  has (entry m (PTE2PA (entry m pt (PX 2 va))) (PX 1 va)) PTE_V = true /\
  p0 = PTE2PA (entry m (PTE2PA (entry m pt (PX 2 va))) (PX 1 va)).

Lemma leaf_slot_pos kend s l pt pos va p0 :
  pt_ok kend s l pt pos -> leaf_slot (phys s) pt va p0 ->
  pos p0 = Some (0, PX 2 va * 512 + PX 1 va).
Proof.
  intros Hpt (E2 & E1 & ->).
  pose proof (pt_child _ _ _ _ _ _ _ _ _ Hpt (po_root _ _ _ _ _ Hpt) ltac:(lia) (PX_range 2 va) E2) as Hp1.
  exact (pt_child _ _ _ _ _ _ _ _ _ Hpt Hp1 ltac:(lia) (PX_range 1 va) E1).
Qed.

Lemma leaf_slot_mapping m pt va p0 :
  leaf_slot m pt va p0 ->
  mapping m pt va = if has (entry m p0 (PX 0 va)) PTE_V then Some (entry m p0 (PX 0 va)) else None.
Proof. intros (E2 & E1 & ->). unfold mapping. by rewrite E2, E1. Qed.

(** No slot: no translation. *)
Lemma no_leaf_slot m pt va : (forall p0, ~ leaf_slot m pt va p0) -> mapping m pt va = None.
Proof.
  intros H. unfold mapping. destruct (has (entry m pt _) _) eqn:E2; [|done].
  destruct (has (entry m (PTE2PA _) (PX 1 va)) _) eqn:E1; [|done]. by destruct (H _ (conj E2 (conj E1 eq_refl))).
Qed.

Lemma mapping_leaf_slot m pt va e :
  mapping m pt va = Some e ->
  exists p0, leaf_slot m pt va p0 /\ entry m p0 (PX 0 va) = e /\ has e PTE_V = true.
Proof.
  unfold mapping, leaf_slot. destruct (has (entry m pt _) _) eqn:E2; [|done].
  destruct (has (entry m (PTE2PA _) (PX 1 va)) _) eqn:E1; [|done].
  destruct (has (entry m (PTE2PA (entry m (PTE2PA _) _)) (PX 0 va)) _) eqn:E0; [|done].
  intros [= <-]. eexists (PTE2PA _). by split_and!.
Qed.

(** A store to a leaf slot leaves the paths to all slots in place and
    changes the translation of its own page only. *)
Section leaf_store.
Context (kend : Z) (s : kmem_state) (l : list (Z * Z)) (pt : Z) (pos : posmap) (Hpt : pt_ok kend s l pt pos).
Context (va p0 : Z) (Hva : 0 <= va < MAXVA) (Hslot : leaf_slot (phys s) pt va p0).
Context (m' : mem)
  (Hsame : forall q j, pos q <> None -> 0 <= j < 512 -> (q, j) <> (p0, PX 0 va) ->
     entry m' q j = entry (phys s) q j).

Lemma leaf_store_upper q lv pre j :
  pos q = Some (lv, pre) -> 0 < lv -> 0 <= j < 512 -> entry m' q j = entry (phys s) q j.
Proof.
  intros Hq Hlv Hj. apply Hsame; [congruence|done|]. intros [= -> _].
  rewrite (leaf_slot_pos _ _ _ _ _ _ _ Hpt Hslot) in Hq. simplify_eq. lia.
Qed.

Lemma leaf_store_slot va' q : leaf_slot m' pt va' q <-> leaf_slot (phys s) pt va' q.
Proof.
  pose proof (po_root _ _ _ _ _ Hpt) as Hroot. unfold leaf_slot.
  rewrite (leaf_store_upper _ _ _ _ Hroot) by (lia || apply PX_range).
  destruct (has (entry (phys s) pt (PX 2 va')) PTE_V) eqn:E2; [|naive_solver].
  pose proof (pt_child _ _ _ _ _ _ _ _ _ Hpt Hroot ltac:(lia) (PX_range 2 va') E2) as Hp1.
  by rewrite (leaf_store_upper _ _ _ _ Hp1) by (lia || apply PX_range).
Qed.

Lemma leaf_store_same :
  mapping m' pt va =
    if has (entry m' p0 (PX 0 va)) PTE_V then Some (entry m' p0 (PX 0 va)) else None.
Proof. apply leaf_slot_mapping. by apply leaf_store_slot. Qed.

Lemma leaf_store_other va' :
  0 <= va' < MAXVA -> va' / PGSIZE <> va / PGSIZE -> mapping m' pt va' = mapping (phys s) pt va'.
Proof.
  intros Hva' Hne. pose proof (po_root _ _ _ _ _ Hpt) as Hroot. unfold mapping.
  rewrite (leaf_store_upper _ _ _ _ Hroot) by (lia || apply PX_range).
  destruct (has (entry (phys s) pt (PX 2 va')) PTE_V) eqn:E2; [|done].
  pose proof (pt_child _ _ _ _ _ _ _ _ _ Hpt Hroot ltac:(lia) (PX_range 2 va') E2) as Hp1.
  rewrite (leaf_store_upper _ _ _ _ Hp1) by (lia || apply PX_range).
  destruct (has (entry (phys s) _ (PX 1 va')) PTE_V) eqn:E1; [|done].
  pose proof (pt_child _ _ _ _ _ _ _ _ _ Hpt Hp1 ltac:(lia) (PX_range 1 va') E1) as Hp0.
  rewrite Hsame; [done|congruence|apply PX_range|]. intros [= Hq HX].
  rewrite Hq, (leaf_slot_pos _ _ _ _ _ _ _ Hpt Hslot) in Hp0.
  apply Hne. rewrite (vpn_split va'), (vpn_split va) by done. simplify_eq. lia.
Qed.

End leaf_store.

(** ** Extending a table *)

(** What the routines that extend a table keep: old table pages stay,
    new ones come from the free list, valid upper-level entries stay, and
    all other allocated memory and counts are untouched. *)
Record pt_ext (kend : Z) (s : kmem_state) (l : list (Z * Z)) (pos : posmap)
    (s' : kmem_state) (l' : list (Z * Z)) (pos' : posmap) : Prop := {
  pe_free : forall x, in_runs l' x -> in_runs l x;
  pe_pos : forall p z, pos p = Some z -> pos' p = Some z;
  pe_new : forall p, pos' p <> None -> pos p <> None \/ forall x, p <= x < p + PGSIZE -> in_runs l x;
  pe_valid : forall q lv pre j, pos q = Some (lv, pre) -> 0 < lv -> 0 <= j < 512 ->
    has (entry (phys s) q j) PTE_V = true -> entry (phys s') q j = entry (phys s) q j;
  pe_mem : forall x, ~ in_runs l x -> ~ in_pt pos x -> phys s' x = phys s x;
  pe_ref : forall pa, managed kend pa -> ~ in_runs l pa ->
    ref_count s' (PA2IDX pa) = ref_count s (PA2IDX pa);
  pe_taken : forall pa, managed kend pa -> in_runs l pa -> ~ in_runs l' pa ->
    pos' pa <> None /\ ref_count s' (PA2IDX pa) = 1
}.

Lemma in_runs_dec l x : in_runs l x \/ ~ in_runs l x.
Proof.
  induction l as [|[a k] l IH].
  - right. intros (a & k & Hin & _). set_solver.
  - rewrite in_runs_cons. destruct (decide (a <= x < a + k * PGSIZE)); tauto.
Qed.

Lemma pt_ext_refl kend s l pos : pt_ext kend s l pos s l pos.
Proof. split; try done. intros p Hp. by left. Qed.

Lemma pt_ext_frame kend s l pos s' l' pos' x :
  pt_ext kend s l pos s' l' pos' -> ~ in_runs l x -> ~ in_pt pos x -> ~ in_runs l' x /\ ~ in_pt pos' x.
Proof.
  intros [Hf Hp Hn _ _ _ _] Hl Hpos. split; [by intros ?%Hf|]. intros (p & z & Hz & Hx).
  destruct (Hn p ltac:(congruence)) as [Hold|Hin]; [|by apply Hl, Hin].
  destruct (pos p) as [z'|] eqn:E; [|done]. apply Hpos. by exists p, z'.
Qed.

Lemma pt_ext_trans kend s1 l1 pos1 s2 l2 pos2 s3 l3 pos3 :
  pt_ext kend s1 l1 pos1 s2 l2 pos2 -> pt_ext kend s2 l2 pos2 s3 l3 pos3 ->
  pt_ext kend s1 l1 pos1 s3 l3 pos3.
Proof.
  intros H12 H23. split.
  - intros x Hx. apply H12, H23, Hx.
  - intros p z Hz. apply H23, H12, Hz.
  - intros p Hp. destruct (pe_new _ _ _ _ _ _ _ H23 p Hp) as [Hp2|Hin]; [by apply H12|].
    right. intros x Hx. by apply H12, Hin.
  - intros q lv pre j Hq Hlv Hj Hv. pose proof (pe_valid _ _ _ _ _ _ _ H12 q lv pre j Hq Hlv Hj Hv) as E.
    rewrite <- E. apply (pe_valid _ _ _ _ _ _ _ H23 q lv pre j); try done; [by apply H12|by rewrite E].
  - intros x Hl Hp. destruct (pt_ext_frame _ _ _ _ _ _ _ _ H12 Hl Hp).
    by rewrite (pe_mem _ _ _ _ _ _ _ H23), (pe_mem _ _ _ _ _ _ _ H12).
  - intros pa Hm Hl. rewrite (pe_ref _ _ _ _ _ _ _ H23), (pe_ref _ _ _ _ _ _ _ H12); try done.
    by intros ?%H12.
  - intros pa Hm Hl1 Hl3. destruct (in_runs_dec l2 pa) as [Hl2|Hl2]; [by apply H23|].
    destruct (pe_taken _ _ _ _ _ _ _ H12 pa Hm Hl1 Hl2) as [Hp Hr].
    destruct (pos2 pa) as [z|] eqn:E; [|done]. rewrite (pe_pos _ _ _ _ _ _ _ H23 pa z E).
    by rewrite (pe_ref _ _ _ _ _ _ _ H23).
Qed.

Lemma leaf_slot_ext kend s l pt pos s' l' pos' va p0 :
  pt_ok kend s l pt pos -> pt_ext kend s l pos s' l' pos' ->
  leaf_slot (phys s) pt va p0 -> leaf_slot (phys s') pt va p0.
Proof.
  intros Hpt Hext (E2 & E1 & ->). pose proof (po_root _ _ _ _ _ Hpt) as Hroot.
  pose proof (pt_child _ _ _ _ _ _ _ _ _ Hpt Hroot ltac:(lia) (PX_range 2 va) E2) as Hp1.
  unfold leaf_slot.
  rewrite (pe_valid _ _ _ _ _ _ _ Hext _ _ _ _ Hroot) by (done || apply PX_range || lia).
  rewrite (pe_valid _ _ _ _ _ _ _ Hext _ _ _ _ Hp1) by (done || apply PX_range || lia). done.
Qed.

Lemma in_page_aligned p q x :
  p mod PGSIZE = 0 -> q mod PGSIZE = 0 -> p <= x < p + PGSIZE -> q <= x < q + PGSIZE -> p = q.
Proof. unfold PGSIZE. intros. Z.to_euclidean_division_equations. lia. Qed.

Section tables.
Context (kend : Z) (Hkend : KERNBASE <= kend <= PHYSTOP).

Lemma managed_range pa : managed kend pa -> KERNBASE <= pa /\ 0 <= pa < 2 ^ 56 /\ pa mod PGSIZE = 0.
Proof.
  intros (Hal & Hlo & Hhi). destruct (kbase_facts kend Hkend) as (? & _).
  unfold PHYSTOP, KERNBASE, PGSIZE in *. lia.
Qed.

Lemma kalloc_ok s l :
  kmem_ok kend s l ->
  wp kalloc (fun b s' => (b = 0 /\ s' = s) \/
    (b <> 0 /\ managed kend b /\ (forall x, b <= x < b + PGSIZE -> in_runs l x) /\
     exists l', kmem_ok kend s' l' /\
       (forall x, in_runs l' x <-> in_runs l x /\ ~ (b <= x < b + PGSIZE)) /\
       taken b 1 l s s')) s.
Proof.
  intros Hok. eapply wp_mono; [by apply (kalloc_contig_ok kend Hkend s l 1 Hok)|].
  intros b s' [(-> & -> & _)|(Hb & k & l' & Hin & Hk & _ & Hok' & Hl' & Ht)]; [by left|right].
  rewrite Z.mul_1_l in Hl'.
  destruct (runs_from_in _ _ _ _ (ko_runs _ _ _ Hok) Hin) as (H1 & H2 & H3 & H4).
  split_and!; try done.
  - unfold managed, PGSIZE in *. lia.
  - intros x Hx. exists b, k. split; [done|]. unfold PGSIZE in *. lia.
  - by exists l'.
Qed.

(** A store that leaves the free runs alone keeps the allocator's
    invariant. *)
Lemma kmem_ok_phys s l f :
  kmem_ok kend s l -> (forall x, in_runs l x -> f (phys s) x = phys s x) -> kmem_ok kend (set_phys f s) l.
Proof. intros Hok Hf. by apply (kmem_ok_ext kend s). Qed.

(** Bytes of table pages are not free. *)
Lemma pt_not_free s l pt pos p z x :
  kmem_ok kend s l -> pt_ok kend s l pt pos -> pos p = Some z -> p <= x < p + PGSIZE -> ~ in_runs l x.
Proof.
  intros Hok Hpt Hp Hx Hin. destruct z as [lv pre].
  destruct (po_page _ _ _ _ _ Hpt _ _ _ Hp) as (Hm & Hnin & _). apply Hnin.
  eapply in_runs_page; [apply Hok|apply Hm|done|done].
Qed.

(** The state after [walk] hung the page [np] into slot [i] of [p]. *)
Section grow.
Context (s s1 : kmem_state) (l l1 : list (Z * Z)) (pt p lv pre i np : Z) (pos : posmap).
Context (Hok : kmem_ok kend s l) (Hpt : pt_ok kend s l pt pos).
Context (Hp : pos p = Some (lv, pre)) (Hlv : 0 < lv) (Hi : 0 <= i < 512)
  (Hinv : has (entry (phys s) p i) PTE_V = false).
Context (Hnp : managed kend np) (Hnpl : forall x, np <= x < np + PGSIZE -> in_runs l x).
Context (Hok1 : kmem_ok kend s1 l1) (Hl1 : forall x, in_runs l1 x <-> in_runs l x /\ ~ (np <= x < np + PGSIZE))
  (Ht : taken np 1 l s s1).

Definition grown : kmem_state :=
  set_phys (fun m => st64 m (p + 8 * i) (u64 (Z.lor (PA2PTE np) PTE_V)))
    (set_phys (fun m => memset m np 0 PGSIZE) s1).
Definition grown_pos : posmap := upd pos np (Some (lv - 1, pre * 512 + i)).

Lemma grown_entry_new : entry (phys grown) p i = Z.lor (PA2PTE np) PTE_V.
Proof.
  destruct (managed_range _ Hnp) as (_ & Hr & Hal). simpl.
  pose proof (PA2PTE_range np PTE_V Hal Hr ltac:(unfold PTE_V; lia)).
  rewrite u64_small by lia. apply entry_st64_same. lia.
Qed.

Lemma grown_out x :
  ~ in_runs l x -> ~ (p + 8 * i <= x < p + 8 * i + 8) -> phys grown x = phys s x.
Proof.
  intros Hx Hs. simpl. rewrite st64_out by lia.
  rewrite memset_out; [by apply Ht|unfold PGSIZE; lia|]. contradict Hx. by apply Hnpl.
Qed.

Lemma grown_free x : in_runs l1 x -> phys grown x = phys s1 x.
Proof.
  intros Hx. apply Hl1 in Hx as [Hx Hn]. simpl.
  rewrite st64_out; [by apply memset_out; [unfold PGSIZE; lia|]|].
  intros Hs. eapply (pt_not_free s l pt pos p _ x); try done. unfold PGSIZE. lia.
Qed.

Lemma grown_pos_new : pos np = None.
Proof.
  destruct (pos np) as [[lv' pre']|] eqn:E; [|done].
  destruct (po_page _ _ _ _ _ Hpt _ _ _ E) as (_ & Hn & _). destruct Hn. apply Hnpl. unfold PGSIZE. lia.
Qed.

Lemma grown_entry q j :
  pos q <> None -> 0 <= j < 512 -> (q, j) <> (p, i) -> entry (phys grown) q j = entry (phys s) q j.
Proof.
  intros Hq Hj Hne. destruct (pos q) as [[lv' pre']|] eqn:E; [|done].
  destruct (po_page _ _ _ _ _ Hpt _ _ _ E) as (Hm & Hn & _).
  destruct (po_page _ _ _ _ _ Hpt _ _ _ Hp) as (Hmp & _).
  simpl. rewrite entry_st64_other by (done || apply managed_range; done). apply entry_ext; [done|].
  intros x Hx. pose proof (pt_not_free _ _ _ _ _ _ _ Hok Hpt E Hx) as Hxl.
  rewrite memset_out; [by apply Ht|unfold PGSIZE; lia|]. contradict Hxl. by apply Hnpl.
Qed.

Lemma grown_entry_zero j : 0 <= j < 512 -> entry (phys grown) np j = 0.
Proof.
  intros Hj. destruct (po_page _ _ _ _ _ Hpt _ _ _ Hp) as (Hmp & _). simpl.
  assert (np <> p) by (intros E; pose proof grown_pos_new; congruence).
  rewrite entry_st64_other by (congruence || done || apply managed_range; done).
  apply entry_zero; [done|]. intros x Hx. apply memset_in. lia.
Qed.

Lemma grown_ok :
  kmem_ok kend grown l1 /\ pt_ok kend grown l1 pt grown_pos /\ pt_ext kend s l pos grown l1 grown_pos /\
  (forall va, mapping (phys grown) pt va = mapping (phys s) pt va) /\
  has (entry (phys grown) p i) PTE_V = true /\ PTE2PA (entry (phys grown) p i) = np.
Proof.
  destruct (managed_range _ Hnp) as (_ & Hr & Hal). pose proof grown_pos_new as Hnew.
  assert (Hv : has (entry (phys grown) p i) PTE_V = true)
    by (rewrite grown_entry_new, has_pte by (unfold PTE_V; lia || done); done).
  assert (Ha : PTE2PA (entry (phys grown) p i) = np)
    by (rewrite grown_entry_new; apply PTE2PA_PA2PTE; unfold PTE_V; lia || done).
  assert (Hpos : forall q z, pos q = Some z -> grown_pos q = Some z)
    by (intros q z Hq; unfold grown_pos; rewrite upd_ne by congruence; done).
  split_and!; try done.
  - apply (kmem_ok_ext kend s1); [apply grown_free|done..].
  - destruct Hpt as [Hroot Hpage Hchild Hdir]. split; [by apply Hpos|..].
    + intros q lv' pre'. unfold grown_pos. destruct (decide (q = np)) as [->|Hne].
      * rewrite upd_eq. intros [= <- <-]. destruct (Hpage _ _ _ Hp) as (_ & _ & ?).
        split_and!; [done| |lia..]. rewrite Hl1. unfold PGSIZE. lia.
      * rewrite upd_ne by done. intros Hq. destruct (Hpage _ _ _ Hq) as (? & ? & ?).
        split_and!; [done| |lia..]. rewrite Hl1. tauto.
    + intros q lv' pre' j Hq Hlv' Hj Hvq. unfold grown_pos in Hq. destruct (decide (q = np)) as [->|Hne].
      { rewrite grown_entry_zero in Hvq by done. done. }
      rewrite upd_ne in Hq by done. destruct (decide ((q, j) = (p, i))) as [[= -> ->]|Hne2].
      { rewrite Ha. unfold grown_pos. rewrite upd_eq. congruence. }
      rewrite grown_entry in Hvq |- * by (congruence || done). apply Hpos. by apply Hchild.
    + intros q lv' pre' j Hq Hlv' Hj Hvq. unfold grown_pos in Hq. destruct (decide (q = np)) as [->|Hne].
      { rewrite grown_entry_zero in Hvq by done. done. }
      rewrite upd_ne in Hq by done. destruct (decide ((q, j) = (p, i))) as [[= -> ->]|Hne2].
      { by rewrite grown_entry_new, has_pte by done. }
      rewrite grown_entry in Hvq |- * by (congruence || done). by eapply Hdir.
  - split; try done.
    + intros x Hx. by apply Hl1 in Hx as [? _].
    + intros q Hq. unfold grown_pos in Hq. destruct (decide (q = np)) as [->|Hne]; [by right|].
      rewrite upd_ne in Hq by done. by left.
    + intros q lv' pre' j Hq Hlv' Hj Hvq. apply grown_entry; [congruence|done|]. intros [= -> ->]. congruence.
    + intros x Hx Hxp. apply grown_out; [done|]. contradict Hxp. exists p, (lv, pre).
      split; [done|]. unfold PGSIZE. lia.
    + intros pa Hm Hx. destruct Ht as (Hrc & _). simpl. rewrite Hrc.
      destruct (in_range _ _ _) eqn:E; [|done]. apply in_range_addr in E; [|apply Hnp|apply Hm].
      rewrite Z.mul_1_l in E. by destruct Hx; apply Hnpl.
    + intros pa Hm Hin Hnin. destruct Ht as (Hrc & _). simpl. rewrite Hrc.
      rewrite Hl1 in Hnin. assert (np <= pa < np + PGSIZE) as Hpa
        by (destruct (decide (np <= pa < np + PGSIZE)); tauto).
      rewrite (proj2 (in_range_addr np 1 pa ltac:(apply Hnp) ltac:(apply Hm))) by (unfold PGSIZE in *; lia).
      rewrite (in_page_aligned pa np pa) by (apply Hnp || apply Hm || (unfold PGSIZE in *; lia)).
      split; [|done]. unfold grown_pos. by rewrite upd_eq.
  - intros va. by apply (mapping_grow kend s l pt pos _ p lv pre i np); try done;
      [apply grown_entry|apply grown_entry_zero].
Qed.

End grow.

(** One level of [walk]. *)
Lemma walk_level_ok s l pt pos p lv pre vaddr alloc :
  kmem_ok kend s l -> pt_ok kend s l pt pos -> pos p = Some (lv, pre) -> 0 < lv ->
  wp (walk_level lv vaddr alloc p) (fun r s' => exists l' pos',
    kmem_ok kend s' l' /\ pt_ok kend s' l' pt pos' /\ pt_ext kend s l pos s' l' pos' /\
    (forall va, mapping (phys s') pt va = mapping (phys s) pt va) /\ (alloc = false -> s' = s) /\
    match r with
    | None => s' = s /\ has (entry (phys s) p (PX lv vaddr)) PTE_V = false
    | Some np => has (entry (phys s') p (PX lv vaddr)) PTE_V = true /\
                 PTE2PA (entry (phys s') p (PX lv vaddr)) = np
    end) s.
Proof.
  intros Hok Hpt Hp Hlv. unfold walk_level. apply wp_bind, wp_get.
  change (ld64 (phys s) (p + 8 * PX lv vaddr)) with (entry (phys s) p (PX lv vaddr)).
  destruct (has _ _) eqn:Hv.
  { apply wp_ret. exists l, pos. split_and!; try done. apply pt_ext_refl. }
  destruct alloc; simpl.
  - apply wp_bind. eapply wp_mono; [by apply kalloc_ok|].
    intros np s1 [[-> ->]|(Hnp0 & Hnp & Hnpl & l1 & Hok1 & Hl1 & Ht)].
    { apply wp_ret. exists l, pos. split_and!; try done. apply pt_ext_refl. }
    rewrite (proj2 (Z.eqb_neq np 0)) by done. apply wp_bind, wp_upd, wp_bind, wp_upd, wp_ret.
    destruct (grown_ok s s1 l l1 pt p lv pre (PX lv vaddr) np pos) as (H1 & H2 & H3 & H4 & H5 & H6); try done.
    { apply PX_range. }
    exists l1, (grown_pos lv pre (PX lv vaddr) np pos). by split_and!.
  - apply wp_ret. exists l, pos. split_and!; try done. apply pt_ext_refl.
Qed.

Lemma walk_ok s l pt pos vaddr alloc :
  kmem_ok kend s l -> pt_ok kend s l pt pos -> 0 <= vaddr < MAXVA ->
  wp (walk pt vaddr alloc) (fun a s' => exists l' pos',
    kmem_ok kend s' l' /\ pt_ok kend s' l' pt pos' /\ pt_ext kend s l pos s' l' pos' /\
    (forall va, mapping (phys s') pt va = mapping (phys s) pt va) /\ (alloc = false -> s' = s) /\
    ((a = 0 /\ forall p0, ~ leaf_slot (phys s) pt vaddr p0) \/
     (a <> 0 /\ exists p0, leaf_slot (phys s') pt vaddr p0 /\ a = p0 + 8 * PX 0 vaddr))) s.
Proof.
  intros Hok Hpt Hva. unfold walk. rewrite Z.geb_leb, (proj2 (Z.leb_gt MAXVA vaddr)) by lia.
  pose proof (po_root _ _ _ _ _ Hpt) as Hroot. apply wp_bind.
  eapply wp_mono; [by apply (walk_level_ok s l pt pos pt 2 0)|].
  intros [p1|] s1 (l1 & pos1 & Hok1 & Hpt1 & Hext1 & Hmap1 & Hro1 & Hr1).
  2:{ apply wp_ret. destruct Hr1 as [-> Hr1]. exists l, pos. split_and!; try done; [apply pt_ext_refl|].
      left. split; [done|]. intros p0 (E2 & _). congruence. }
  destruct Hr1 as [Hv1 <-]. pose proof (po_root _ _ _ _ _ Hpt1) as Hroot1.
  pose proof (pt_child _ _ _ _ _ _ _ _ _ Hpt1 Hroot1 ltac:(lia) (PX_range 2 vaddr) Hv1) as Hp1.
  change (2 - 1) with 1 in Hp1. apply wp_bind. eapply wp_mono; [by apply (walk_level_ok s1 l1 pt pos1 _ _ _ vaddr alloc Hok1 Hpt1 Hp1)|].
  intros [p0|] s2 (l2 & pos2 & Hok2 & Hpt2 & Hext2 & Hmap2 & Hro2 & Hr2).
  - apply wp_ret. exists l2, pos2. split_and!; try done.
    + by eapply pt_ext_trans.
    + intros va. by rewrite Hmap2.
    + intros Ha. rewrite Hro2; auto.
    + right. destruct Hr2 as [Hv2 Hp0].
      pose proof (pe_valid _ _ _ _ _ _ _ Hext2 _ _ _ _ Hroot1 ltac:(lia) (PX_range 2 vaddr) Hv1) as E2.
      assert (Hls : leaf_slot (phys s2) pt vaddr p0) by (unfold leaf_slot; rewrite E2; done).
      split; [|by exists p0]. pose proof (leaf_slot_pos _ _ _ _ _ _ _ Hpt2 Hls) as Hpos.
      destruct (po_page _ _ _ _ _ Hpt2 _ _ _ Hpos) as (Hm & _).
      destruct (managed_range _ Hm). pose proof (PX_range 0 vaddr). unfold KERNBASE in *. lia.
  - apply wp_ret. destruct Hr2 as [-> Hr2]. exists l1, pos1. split_and!; try done.
    left. split; [done|]. intros p0 Hls. destruct (leaf_slot_ext _ _ _ _ _ _ _ _ _ _ Hpt Hext1 Hls) as (_ & E1 & _).
    congruence.
Qed.

(** The lookup form: [walk] with [alloc = 0] reads only. *)
Lemma walk_lookup s l pt pos vaddr :
  kmem_ok kend s l -> pt_ok kend s l pt pos -> 0 <= vaddr < MAXVA ->
  wp (walk pt vaddr false) (fun a s' => s' = s /\
    ((a = 0 /\ mapping (phys s) pt vaddr = None) \/
     (a <> 0 /\ exists p0, leaf_slot (phys s) pt vaddr p0 /\ a = p0 + 8 * PX 0 vaddr))) s.
Proof.
  intros Hok Hpt Hva. eapply wp_mono; [by apply (walk_ok s l pt pos vaddr false)|].
  intros a s' (l' & pos' & _ & _ & _ & _ & Hs & Hr). rewrite Hs in Hr |- * by done. split; [done|].
  destruct Hr as [[-> Hn]|Hr]; [left|by right]. split; [done|]. by apply no_leaf_slot.
Qed.

(** A store of [v] to the leaf slot of [vaddr]. *)
Definition store_leaf (p0 vaddr v : Z) : kmem_state -> kmem_state :=
  set_phys (fun m => st64 m (p0 + 8 * PX 0 vaddr) (u64 v)).

Lemma store_leaf_ok s l pt pos vaddr p0 v :
  kmem_ok kend s l -> pt_ok kend s l pt pos -> 0 <= vaddr < MAXVA ->
  leaf_slot (phys s) pt vaddr p0 -> 0 <= v < 2 ^ 64 ->
  let s' := store_leaf p0 vaddr v s in
  kmem_ok kend s' l /\ pt_ok kend s' l pt pos /\ pt_ext kend s l pos s' l pos /\
  mapping (phys s') pt vaddr = (if has v PTE_V then Some v else None) /\
  (forall va, 0 <= va < MAXVA -> va / PGSIZE <> vaddr / PGSIZE ->
     mapping (phys s') pt va = mapping (phys s) pt va) /\
  (forall va q, leaf_slot (phys s') pt va q <-> leaf_slot (phys s) pt va q).
Proof.
  intros Hok Hpt Hva Hls Hv s'. subst s'. unfold store_leaf. rewrite u64_small by done.
  set (m' := phys _). simpl in m'.
  pose proof (leaf_slot_pos _ _ _ _ _ _ _ Hpt Hls) as Hp0.
  destruct (po_page _ _ _ _ _ Hpt _ _ _ Hp0) as (Hm & Hnin & _). pose proof (PX_range 0 vaddr) as HX.
  assert (Hsame : forall q j, pos q <> None -> 0 <= j < 512 -> (q, j) <> (p0, PX 0 vaddr) ->
            entry m' q j = entry (phys s) q j).
  { intros q j Hq Hj Hne. destruct (pos q) as [[lv pre]|] eqn:E; [|done].
    destruct (po_page _ _ _ _ _ Hpt _ _ _ E) as (Hmq & _).
    apply entry_st64_other; try done; by apply managed_range. }
  assert (Hup : forall q lv pre j, pos q = Some (lv, pre) -> 0 < lv -> 0 <= j < 512 ->
            entry m' q j = entry (phys s) q j)
    by (intros; by eapply (leaf_store_upper kend s l pt pos Hpt vaddr p0 Hls m' Hsame)).
  split_and!.
  - apply kmem_ok_phys; [done|]. intros x Hx. apply st64_out. intros Hs.
    eapply (pt_not_free s l pt pos p0 _ x); try done. unfold PGSIZE. lia.
  - destruct Hpt as [Hroot Hpage Hchild Hdir]. split; try done;
      intros q lv pre j Hq Hlv Hj Hvq; change (phys (set_phys _ s)) with m' in Hvq |- *;
      rewrite (Hup q lv pre j) in Hvq |- * by done; [by apply Hchild|by eapply Hdir].
  - split; try done; [by left| |].
    + intros q lv pre j Hq Hlv Hj _. by apply (Hup q lv pre j).
    + intros x Hx Hxp. apply st64_out. contradict Hxp. eexists p0, _. split; [done|]. unfold PGSIZE. lia.
  - rewrite (leaf_store_same kend s l pt pos Hpt vaddr p0 Hva Hls m' Hsame). unfold m'.
    by rewrite entry_st64_same.
  - intros va Hva' Hne. by apply (leaf_store_other kend s l pt pos Hpt vaddr p0 Hva Hls m' Hsame).
  - intros va q. by apply (leaf_store_slot kend s l pt pos Hpt vaddr p0 Hva Hls m' Hsame).
Qed.

(** The reverse map plays no part in translation. *)
Lemma pt_ok_phys s s' l pt pos : phys s' = phys s -> pt_ok kend s l pt pos -> pt_ok kend s' l pt pos.
Proof. intros E [H1 H2 H3 H4]. split; rewrite ?E; done. Qed.

Lemma pt_ext_phys s l pos s1 s2 l' pos' :
  phys s2 = phys s1 -> ref_count s2 = ref_count s1 ->
  pt_ext kend s l pos s1 l' pos' -> pt_ext kend s l pos s2 l' pos'.
Proof. intros E1 E2 [H1 H2 H3 H4 H5 H6 H7]. split; rewrite ?E1, ?E2; done. Qed.

Lemma record_rmap_tables (b : bool) pa pt vaddr s l pt' pos :
  kmem_ok kend s l -> pt_ok kend s l pt' pos ->
  wp (if b then record_rmap pa pt vaddr else kret tt) (fun _ s' =>
    kmem_ok kend s' l /\ pt_ok kend s' l pt' pos /\ phys s' = phys s /\ ref_count s' = ref_count s) s.
Proof.
  intros Hok Hpt. destruct b; [|by apply wp_ret]. eapply wp_mono; [apply record_rmap_ok|].
  intros [] s' E. assert (phys s' = phys s /\ ref_count s' = ref_count s /\ freelist s' = freelist s)
    as (E1 & E2 & E3) by (by rewrite E). split_and!; try done.
  - apply (kmem_ok_ext kend s); try done. by rewrite E1.
  - by apply (pt_ok_phys s).
Qed.

(** The translation after the pages [va, va + n pages) were mapped to
    consecutive pages from [pa]. *)
Definition mapped (m m' : mem) (pt vaddr n pa perm : Z) : Prop :=
  forall va, 0 <= va < MAXVA -> mapping m' pt va =
    if (vaddr <=? va) && (va <? vaddr + n * PGSIZE)
    then Some (Z.lor (Z.lor (PA2PTE (pa + (va - vaddr) / PGSIZE * PGSIZE)) perm) PTE_V)
    else mapping m pt va.

Lemma mapped_none m m' pt vaddr pa perm :
  (forall va, mapping m' pt va = mapping m pt va) -> mapped m m' pt vaddr 0 pa perm.
Proof. intros H va Hva. rewrite H. cif; [lia|done]. Qed.

Lemma mapped_step m m1 m2 pt vaddr n pa perm :
  vaddr mod PGSIZE = 0 -> 0 <= n ->
  mapped m m1 pt vaddr 1 pa perm -> mapped m1 m2 pt (vaddr + PGSIZE) n (pa + PGSIZE) perm ->
  mapped m m2 pt vaddr (n + 1) pa perm.
Proof.
  intros Hal Hn H1 H2 va Hva. rewrite (H2 va Hva), (H1 va Hva).
  destruct ((vaddr + PGSIZE <=? va) && _) eqn:E1; destruct ((vaddr <=? va) && (va <? vaddr + 1 * PGSIZE)) eqn:E2;
    destruct ((vaddr <=? va) && (va <? vaddr + (n + 1) * PGSIZE)) eqn:E3; unfold PGSIZE in *; try lia; try done.
  do 4 f_equal. Z.to_euclidean_division_equations. lia.
Qed.

Lemma map_one_ok s l pt pos vaddr pa perm :
  kmem_ok kend s l -> pt_ok kend s l pt pos -> 0 <= vaddr < MAXVA -> vaddr mod PGSIZE = 0 ->
  pa mod PGSIZE = 0 -> 0 <= pa < 2 ^ 56 -> 0 <= perm < 1024 -> mapping (phys s) pt vaddr = None ->
  forall (k : M kmem_state Z) Q,
  (forall s' l' pos', kmem_ok kend s' l' -> pt_ok kend s' l' pt pos' -> pt_ext kend s l pos s' l' pos' ->
     mapped (phys s) (phys s') pt vaddr 1 pa perm -> wp k Q s') ->
  (forall s' l' pos', kmem_ok kend s' l' -> pt_ok kend s' l' pt pos' -> pt_ext kend s l pos s' l' pos' ->
     mapped (phys s) (phys s') pt vaddr 0 pa perm -> Q (-1) s') ->
  wp (let! pte := walk pt vaddr true in
      if pte =? 0 then kret (-1) else
      let! m := kget phys in
      if has (ld64 m pte) PTE_V then kpanic "mappages: remap" else
      do! set_pte pte (Z.lor (Z.lor (PA2PTE pa) perm) PTE_V);
      do! (if has perm PTE_U then record_rmap pa pt vaddr else kret tt);
      k) Q s.
Proof.
  intros Hok Hpt Hva Hal Hpal Hpa Hperm Hnone k Q Hk Herr.
  apply wp_bind. eapply wp_mono; [by apply (walk_ok s l pt pos vaddr true)|].
  intros a s1 (l1 & pos1 & Hok1 & Hpt1 & Hext1 & Hmap1 & _ & Hr).
  destruct Hr as [[-> _]|(Ha & p0 & Hls & ->)].
  { apply wp_ret. apply (Herr s1 l1 pos1); try done. by apply mapped_none. }
  rewrite (proj2 (Z.eqb_neq _ 0)) by done. apply wp_bind, wp_get.
  change (ld64 (phys s1) (p0 + 8 * PX 0 vaddr)) with (entry (phys s1) p0 (PX 0 vaddr)).
  pose proof (leaf_slot_mapping _ _ _ _ Hls) as Hm1. rewrite Hmap1, Hnone in Hm1.
  destruct (has (entry (phys s1) p0 (PX 0 vaddr)) PTE_V); [done|]. apply wp_bind, wp_upd.
  set (v := Z.lor (Z.lor (PA2PTE pa) perm) PTE_V).
  assert (Ev : v = Z.lor (PA2PTE pa) (Z.lor perm PTE_V)) by (unfold v; by rewrite Z.lor_assoc).
  assert (Hfl : 0 <= Z.lor perm PTE_V < 1024) by (apply lor_flags; unfold PTE_V; lia).
  pose proof (PA2PTE_range pa _ Hpal Hpa Hfl) as Hrange. rewrite <- Ev in Hrange.
  destruct (store_leaf_ok s1 l1 pt pos1 vaddr p0 v) as (Hok2 & Hpt2 & Hext2 & Hsame & Hother & _); try done; [lia|].
  apply wp_bind. eapply wp_mono; [by apply (record_rmap_tables _ pa pt vaddr _ l1 pt pos1 Hok2 Hpt2)|].
  intros [] s3 (Hok3 & Hpt3 & Eph & Erc). apply (Hk s3 l1 pos1); try done.
  - apply (pt_ext_phys _ _ _ _ _ _ _ Eph Erc). by eapply pt_ext_trans.
  - intros va Hva'. rewrite Eph. destruct ((vaddr <=? va) && _) eqn:E.
    + assert (va / PGSIZE = vaddr / PGSIZE) as Epg
        by (unfold PGSIZE in *; Z.to_euclidean_division_equations; lia).
      replace ((va - vaddr) / PGSIZE * PGSIZE) with 0 by (unfold PGSIZE in *; Z.to_euclidean_division_equations; lia).
      rewrite Z.add_0_r. fold v.
      assert (mapping (phys (store_leaf p0 vaddr v s1)) pt va = mapping (phys (store_leaf p0 vaddr v s1)) pt vaddr) as E'.
      { unfold mapping. by rewrite !(PX_page va vaddr) by (lia || done). }
      rewrite E', Hsame, Ev, has_pte, has_lor by (unfold PTE_V; lia || done).
      by rewrite orb_true_r.
    + rewrite Hother; [apply Hmap1|done|]. unfold PGSIZE in *. Z.to_euclidean_division_equations. lia.
Qed.

Lemma MAXVA_small : MAXVA = 2 ^ 38.
Proof. done. Qed.

Lemma mappages_loop_ok fuel s l pt pos vaddr n pa perm :
  kmem_ok kend s l -> pt_ok kend s l pt pos -> fuel = Z.to_nat n -> 1 <= n ->
  0 <= vaddr -> vaddr + n * PGSIZE <= MAXVA -> vaddr mod PGSIZE = 0 ->
  pa mod PGSIZE = 0 -> 0 <= pa -> pa + n * PGSIZE <= 2 ^ 56 -> 0 <= perm < 1024 ->
  (forall i, 0 <= i < n -> mapping (phys s) pt (vaddr + i * PGSIZE) = None) ->
  wp (mappages_loop fuel pt vaddr (vaddr + (n - 1) * PGSIZE) pa perm) (fun r s' => exists l' pos' k,
    kmem_ok kend s' l' /\ pt_ok kend s' l' pt pos' /\ pt_ext kend s l pos s' l' pos' /\
    mapped (phys s) (phys s') pt vaddr k pa perm /\ (r = 0 /\ k = n \/ r = -1 /\ 0 <= k < n)) s.
Proof.
  revert s l pos vaddr n pa. induction fuel as [|fuel IH];
    intros s l pos vaddr n pa Hok Hpt Hf Hn Hv0 Hv1 Hal Hpal Hp0 Hp1 Hperm Hnone; [lia|].
  simpl. rewrite MAXVA_small in *. apply (map_one_ok s l pt pos); try done; try (unfold MAXVA; unfold PGSIZE in *; lia).
  { rewrite MAXVA_small. unfold PGSIZE in *; lia. }
  { rewrite <- (Hnone 0) by lia. f_equal. lia. }
  - intros s1 l1 pos1 Hok1 Hpt1 Hext1 Hmap1. destruct (decide (n = 1)) as [->|Hn1].
    { rewrite (proj2 (Z.eqb_eq _ _)) by lia. apply wp_ret. exists l1, pos1, 1. split_and!; try done. by left. }
    rewrite (proj2 (Z.eqb_neq _ _)) by (unfold PGSIZE; lia).
    rewrite !u64_small by (unfold PGSIZE in *; lia).
    replace (vaddr + (n - 1) * PGSIZE) with (vaddr + PGSIZE + (n - 1 - 1) * PGSIZE) by lia.
    eapply wp_mono; [apply (IH s1 l1 pos1 (vaddr + PGSIZE) (n - 1) (pa + PGSIZE))|]; try done; try lia;
      try (unfold PGSIZE in *; Z.to_euclidean_division_equations; lia).
    + intros i Hi. rewrite Hmap1 by (rewrite MAXVA_small; unfold PGSIZE in *; lia).
      destruct (_ && _) eqn:E; [unfold PGSIZE in *; lia|].
      rewrite <- (Hnone (i + 1)) by lia. f_equal. lia.
    + intros r s' (l' & pos' & k & Hok' & Hpt' & Hext' & Hmap' & Hr). exists l', pos', (k + 1).
      split_and!; try done; [by eapply pt_ext_trans| |lia].
      apply (mapped_step _ (phys s1) _ _ _ _ _ _ Hal); [lia|done..].
  - intros s1 l1 pos1 Hok1 Hpt1 Hext1 Hmap1. exists l1, pos1, 0. split_and!; try done. right. lia.
Qed.

Lemma mappages_ok s l pt pos vaddr n pa perm :
  kmem_ok kend s l -> pt_ok kend s l pt pos -> 1 <= n ->
  0 <= vaddr -> vaddr + n * PGSIZE <= MAXVA -> vaddr mod PGSIZE = 0 ->
  pa mod PGSIZE = 0 -> 0 <= pa -> pa + n * PGSIZE <= 2 ^ 56 -> 0 <= perm < 1024 ->
  (forall i, 0 <= i < n -> mapping (phys s) pt (vaddr + i * PGSIZE) = None) ->
  wp (mappages pt vaddr (n * PGSIZE) pa perm) (fun r s' => exists l' pos' k,
    kmem_ok kend s' l' /\ pt_ok kend s' l' pt pos' /\ pt_ext kend s l pos s' l' pos' /\
    mapped (phys s) (phys s') pt vaddr k pa perm /\ (r = 0 /\ k = n \/ r = -1 /\ 0 <= k < n)) s.
Proof.
  intros Hok Hpt Hn Hv0 Hv1 Hal Hpal Hp0 Hp1 Hperm Hnone. unfold mappages. rewrite Hal.
  rewrite Z_mod_mult, (proj2 (Z.eqb_neq (n * PGSIZE) 0)) by (unfold PGSIZE; lia). simpl.
  rewrite MAXVA_small in Hv1. rewrite Z.div_mul by (unfold PGSIZE; lia). rewrite u64_small by (unfold PGSIZE in *; lia).
  replace (vaddr + n * PGSIZE - PGSIZE) with (vaddr + (n - 1) * PGSIZE) by lia.
  by apply mappages_loop_ok.
Qed.

Lemma mappages_remap_panics s l pt pos vaddr size pa perm e :
  kmem_ok kend s l -> pt_ok kend s l pt pos -> 0 <= vaddr < MAXVA -> vaddr mod PGSIZE = 0 ->
  size mod PGSIZE = 0 -> 0 < size -> mapping (phys s) pt vaddr = Some e ->
  mappages pt vaddr size pa perm s = Panic "mappages: remap".
Proof.
  intros Hok Hpt Hva Hal Hsz Hpos Hmap. unfold mappages.
  rewrite Hal, Hsz, (proj2 (Z.eqb_neq size 0)) by lia. simpl.
  assert (Z.to_nat (size / PGSIZE) = S (Z.to_nat (size / PGSIZE - 1))) as ->.
  { unfold PGSIZE in *. Z.to_euclidean_division_equations. lia. }
  simpl. unfold kbind.
  destruct (proj1 (wp_ex _ _ _) (walk_ok s l pt pos vaddr true Hok Hpt Hva))
    as (a & s1 & -> & l1 & pos1 & _ & _ & _ & Hmap1 & _ & Hr).
  destruct (mapping_leaf_slot _ _ _ _ Hmap) as (p0 & Hls0 & _).
  destruct Hr as [[_ Hn]|(Ha & q & Hls & ->)]; [by destruct (Hn p0)|].
  rewrite (proj2 (Z.eqb_neq _ 0)) by done. unfold kget.
  change (ld64 (phys s1) (q + 8 * PX 0 vaddr)) with (entry (phys s1) q (PX 0 vaddr)).
  pose proof (leaf_slot_mapping _ _ _ _ Hls) as Hm. rewrite Hmap1, Hmap in Hm.
  by destruct (has (entry (phys s1) q (PX 0 vaddr)) PTE_V).
Qed.

End tables.
