(* ===== verification/AddrSpace.v ===== *)
(** * Address spaces: page tables, sharing and reference counts

    The state of the whole system's user memory: [tabs] records which
    pages hold page tables, and for which root; [users] records, for every
    physical page, the (root, virtual page) pairs that map it.  The
    invariant [vm_ok] ties them to memory and to the allocator: a user
    page's reference count is the number of its mappings.  The step lemmas
    below say how the primitive actions of vm.c (allocate, free, count,
    map, store an entry, store to a page) act on this invariant; the
    routines themselves follow in the files built on it. *)

From stdpp Require Import gmap.
From S2P Require Import Prelude Memory StringC Kalloc Vm PageTable.

(** User virtual pages: below the trapframe page. *)
Definition UPAGES : Z := TRAPFRAME / PGSIZE.

Lemma UPAGES_val : UPAGES = 67108862.
Proof. done. Qed.

Lemma upage_va i : 0 <= i < UPAGES -> 0 <= i * PGSIZE < MAXVA.
Proof. rewrite UPAGES_val, MAXVA_small. unfold PGSIZE. lia. Qed.

Lemma page_index i : i * PGSIZE / PGSIZE = i.
Proof. by apply Z.div_mul. Qed.

Definition tabmap : Type := Z -> option (Z * (Z * Z)).
Definition usermap : Type := Z -> gset (Z * Z).

Definition pos_of (tabs : tabmap) (r : Z) : posmap := fun p =>
  match tabs p with
  | Some (r', z) => if r' =? r then Some z else None
  | None => None
  end.

Definition is_root (tabs : tabmap) (r : Z) : Prop := tabs r = Some (r, (2, 0)).

Record vm_inv (kend : Z) (s : kmem_state) (l : list (Z * Z)) (tabs : tabmap) (users : usermap) : Prop := {
  vi_kmem : kmem_ok kend s l;
  vi_pt : forall r, is_root tabs r -> pt_ok kend s l r (pos_of tabs r);
  vi_tabs : forall p r z, tabs p = Some (r, z) -> is_root tabs r;
  vi_users : forall pa r i, (r, i) ∈ users pa <->
    is_root tabs r /\ 0 <= i < UPAGES /\
    exists e, mapping (phys s) r (i * PGSIZE) = Some e /\ PTE2PA e = pa;
  vi_managed : forall pa r i, (r, i) ∈ users pa -> managed kend pa;
  vi_table : forall p, tabs p <> None -> users p = ∅ /\ ref_count s (PA2IDX p) = 1
}.

(** Sharing is exact, a page is shared at one virtual page only, and a
    page that can be written is not shared. *)
Record vm_ok (kend : Z) (s : kmem_state) (l : list (Z * Z)) (tabs : tabmap) (users : usermap) : Prop := {
  vk_inv : vm_inv kend s l tabs users;
  vk_ref : forall pa, users pa <> ∅ -> ref_count s (PA2IDX pa) = Z.of_nat (size (users pa));
  vk_index : forall pa r i r' i', (r, i) ∈ users pa -> (r', i') ∈ users pa -> i = i';
  vk_excl : forall r i e, is_root tabs r -> 0 <= i < UPAGES ->
    mapping (phys s) r (i * PGSIZE) = Some e -> has e PTE_W = true -> users (PTE2PA e) = {[(r, i)]}
}.

(** Moving the mapping [ri] to the page [new]. *)
Definition assign (users : usermap) (ri : Z * Z) (new : option Z) : usermap := fun pa =>
  if decide (new = Some pa) then {[ri]} ∪ users pa else users pa ∖ {[ri]}.

(** The references to a page that are not user mappings. *)
Definition krefs (s : kmem_state) (users : usermap) (pa : Z) : Z :=
  ref_count s (PA2IDX pa) - Z.of_nat (size (users pa)).

(** ** Frames *)

(** The same translations, found in the same slots. *)
Definition same_maps (m m' : mem) (r : Z) : Prop :=
  forall va, mapping m' r va = mapping m r va /\ forall q, leaf_slot m' r va q <-> leaf_slot m r va q.

Lemma pt_ok_frame kend s s' l l' r pos :
  pt_ok kend s l r pos ->
  (forall p z x, pos p = Some z -> p <= x < p + PGSIZE -> phys s' x = phys s x) ->
  (forall p z, pos p = Some z -> ~ in_runs l' p) ->
  pt_ok kend s' l' r pos /\ same_maps (phys s) (phys s') r.
Proof.
  intros Hpt Hmem Hfree.
  assert (He : forall p z i, pos p = Some z -> 0 <= i < 512 -> entry (phys s') p i = entry (phys s) p i).
  { intros p z i Hp Hi. apply entry_ext; [done|]. intros x Hx. by eapply Hmem. }
  split.
  - destruct Hpt as [Hroot Hpage Hchild Hdir]. split; try done.
    + intros p lv pre Hp. destruct (Hpage _ _ _ Hp) as (? & _ & ?). split_and!; try done; try lia. by eapply Hfree.
    + intros p lv pre i Hp Hlv Hi. rewrite (He _ _ _ Hp Hi). by apply Hchild.
    + intros p lv pre i Hp Hlv Hi. rewrite (He _ _ _ Hp Hi). by eapply Hdir.
  - intros va. pose proof (po_root _ _ _ _ _ Hpt) as Hroot. unfold mapping, leaf_slot.
    rewrite (He _ _ _ Hroot) by apply PX_range.
    destruct (has (entry (phys s) r (PX 2 va)) PTE_V) eqn:E2; [|split; [done|naive_solver]].
    pose proof (pt_child _ _ _ _ _ _ _ _ _ Hpt Hroot ltac:(lia) (PX_range 2 va) E2) as Hp1.
    rewrite (He _ _ _ Hp1) by apply PX_range.
    destruct (has (entry (phys s) _ (PX 1 va)) PTE_V) eqn:E1; [|split; [done|naive_solver]].
    pose proof (pt_child _ _ _ _ _ _ _ _ _ Hpt Hp1 ltac:(lia) (PX_range 1 va) E1) as Hp0.
    by rewrite (He _ _ _ Hp0) by apply PX_range.
Qed.

Lemma pt_ok_pos_ext kend s l r pos pos' :
  (forall p, pos' p = pos p) -> pt_ok kend s l r pos -> pt_ok kend s l r pos'.
Proof.
  intros E [H1 H2 H3 H4]. split.
  - by rewrite E.
  - intros p lv pre. rewrite E. apply H2.
  - intros p lv pre i. rewrite !E. apply H3.
  - intros p lv pre i. rewrite E. apply H4.
Qed.

Lemma pos_of_tabs tabs r p z : pos_of tabs r p = Some z <-> tabs p = Some (r, z).
Proof.
  unfold pos_of. destruct (tabs p) as [[r' z']|]; [|done].
  destruct (Z.eqb_spec r' r); naive_solver.
Qed.

Lemma is_root_pos tabs r : is_root tabs r -> pos_of tabs r r = Some (2, 0).
Proof. intros H. by apply pos_of_tabs. Qed.

(** [x] is a byte of a page-table page, of any root. *)
Definition in_tab (tabs : tabmap) (x : Z) : Prop := exists p z, tabs p = Some z /\ p <= x < p + PGSIZE.

Lemma assign_elem users ri new ri' pa :
  ri' ∈ assign users ri new pa <-> (ri' = ri /\ new = Some pa) \/ (ri' <> ri /\ ri' ∈ users pa).
Proof.
  unfold assign. destruct (decide (ri' = ri)); destruct (decide _); set_solver.
Qed.

Section vm.
Context (kend : Z) (Hkend : KERNBASE <= kend <= PHYSTOP).

Lemma PA2IDX_inj p q : managed kend p -> managed kend q -> PA2IDX p = PA2IDX q -> p = q.
Proof. intros Hp Hq E. by rewrite <- (managed_addr kend p), E, (managed_addr kend q). Qed.

Lemma tab_page s l tabs users p z :
  vm_inv kend s l tabs users -> tabs p = Some z -> managed kend p /\ ~ in_runs l p.
Proof.
  intros Hv Hp. destruct z as [r [lv pre]].
  pose proof (vi_pt _ _ _ _ _ Hv r (vi_tabs _ _ _ _ _ Hv _ _ _ Hp)) as Hpt.
  apply pos_of_tabs in Hp. by destruct (po_page _ _ _ _ _ Hpt _ _ _ Hp) as (? & ? & _).
Qed.

Lemma tab_byte s l tabs users x : vm_inv kend s l tabs users -> in_tab tabs x -> ~ in_runs l x.
Proof.
  intros Hv (p & z & Hp & Hx) Hin. destruct (tab_page _ _ _ _ _ _ Hv Hp) as [Hm Hn]. apply Hn.
  eapply in_runs_page; [apply (vi_kmem _ _ _ _ _ Hv)|apply Hm|done|done].
Qed.

Lemma tab_same_page s l tabs users p x :
  vm_inv kend s l tabs users -> managed kend p -> tabs p = None -> p <= x < p + PGSIZE -> ~ in_tab tabs x.
Proof.
  intros Hv Hm Hp Hx (q & z & Hq & Hx'). destruct (tab_page _ _ _ _ _ _ Hv Hq) as [Hmq _].
  rewrite (in_page_aligned p q x) in Hp by (apply Hm || apply Hmq || done). congruence.
Qed.

(** Changes that leave the tables alone. *)
Lemma vm_inv_frame s s' l l' tabs users :
  vm_inv kend s l tabs users -> kmem_ok kend s' l' ->
  (forall x, in_tab tabs x -> phys s' x = phys s x) ->
  (forall p z, tabs p = Some z -> ~ in_runs l' p /\ ref_count s' (PA2IDX p) = ref_count s (PA2IDX p)) ->
  vm_inv kend s' l' tabs users /\
  (forall r, is_root tabs r -> same_maps (phys s) (phys s') r).
Proof.
  intros Hv Hok' Hmem Htab.
  assert (Hr : forall r, is_root tabs r -> pt_ok kend s' l' r (pos_of tabs r) /\
            same_maps (phys s) (phys s') r).
  { intros r Hr. apply (pt_ok_frame kend s s' l l'); [by apply Hv|..].
    - intros p z x Hp%pos_of_tabs Hx. apply Hmem. by exists p, (r, z).
    - intros p z Hp%pos_of_tabs. by eapply Htab. }
  split; [|intros r Hroot; by apply Hr]. destruct Hv as [_ Hpt Htabs Husers Hman Htable]. split; try done.
  - intros r Hroot. by apply Hr.
  - intros pa r i. rewrite Husers. split; intros (Hroot & Hi & e & He & Hpa); split_and!; try done; try lia;
      exists e; [rewrite (proj1 (proj2 (Hr r Hroot) _))|rewrite <- (proj1 (proj2 (Hr r Hroot) _))]; done.
  - intros p Hp. destruct (tabs p) as [z|] eqn:E; [|done]. destruct (Htab _ _ E) as [_ ->].
    by apply Htable; rewrite E.
Qed.

(** ** Primitive steps *)

(** Bytes outside the tables and the free pages. *)
Definition data_byte (tabs : tabmap) (l : list (Z * Z)) (x : Z) : Prop := ~ in_runs l x /\ ~ in_tab tabs x.

(** [kalloc]: a page leaves the free list with one reference. *)
Lemma vm_kalloc s l tabs users :
  vm_inv kend s l tabs users ->
  wp kalloc (fun b s' => (b = 0 /\ s' = s) \/
    (b <> 0 /\ managed kend b /\ in_runs l b /\ tabs b = None /\ exists l',
       vm_inv kend s' l' tabs users /\
       (forall x, in_runs l' x <-> in_runs l x /\ ~ (b <= x < b + PGSIZE)) /\
       (forall pa, managed kend pa -> ref_count s' (PA2IDX pa) = if pa =? b then 1 else ref_count s (PA2IDX pa)) /\
       (forall r, is_root tabs r -> same_maps (phys s) (phys s') r) /\
       (forall x, ~ in_runs l x -> phys s' x = phys s x))) s.
Proof.
  intros Hv. eapply wp_mono; [by apply (kalloc_ok kend Hkend s l), Hv|].
  intros b s' [?|(Hb & Hm & Hbl & l' & Hok' & Hl' & Ht)]; [by left|right].
  assert (Hin : in_runs l b) by (apply Hbl; unfold PGSIZE; lia).
  assert (Htb : tabs b = None).
  { destruct (tabs b) as [z|] eqn:E; [|done]. by destruct (tab_page _ _ _ _ _ _ Hv E). }
  destruct Ht as (Hrc & _ & _ & Hph & _).
  assert (Hrc' : forall pa, managed kend pa ->
            ref_count s' (PA2IDX pa) = if pa =? b then 1 else ref_count s (PA2IDX pa)).
  { intros pa Hpa. rewrite Hrc. pose proof (in_range_addr b 1 pa (proj1 Hm) (proj1 Hpa)) as Hr.
    destruct (Z.eqb_spec pa b) as [->|Hne].
    - by rewrite (proj2 Hr) by (unfold PGSIZE; lia).
    - destruct (in_range _ _ _); [|done]. destruct Hne.
      apply (in_page_aligned pa b pa); [apply Hpa|apply Hm|unfold PGSIZE; lia|].
      pose proof (proj1 Hr eq_refl). unfold PGSIZE in *. lia. }
  split_and!; try done. exists l'.
  destruct (vm_inv_frame s s' l l' tabs users Hv Hok') as [Hv' Hmap].
  - intros x Hx. apply Hph. by eapply tab_byte.
  - intros p z Hp. destruct (tab_page _ _ _ _ _ _ Hv Hp) as [Hmp Hnp]. rewrite Hl', Hrc' by done.
    split; [tauto|]. destruct (Z.eqb_spec p b) as [->|]; [congruence|done].
  - by split_and!.
Qed.

(** [kfree]: one reference fewer; the last one frees the page. *)
Lemma vm_kfree s l tabs users pa :
  vm_inv kend s l tabs users -> managed kend pa -> tabs pa = None -> 1 <= ref_count s (PA2IDX pa) ->
  wp (kfree kend pa) (fun _ s' => exists l',
    vm_inv kend s' l' tabs users /\
    (forall x, in_runs l' x <-> in_runs l x \/ (ref_count s (PA2IDX pa) = 1 /\ pa <= x < pa + PGSIZE)) /\
    (forall p, managed kend p -> ref_count s' (PA2IDX p) =
       if p =? pa then ref_count s (PA2IDX pa) - 1 else ref_count s (PA2IDX p)) /\
    (forall r, is_root tabs r -> same_maps (phys s) (phys s') r) /\
    (forall x, ~ in_runs l' x -> phys s' x = phys s x)) s.
Proof.
  intros Hv Hm Hnt Hr. pose proof (vi_kmem _ _ _ _ _ Hv) as Hok.
  assert (Hpa : forall p, managed kend p -> PA2IDX p = PA2IDX pa -> p = pa) by (intros; by apply PA2IDX_inj).
  destruct (decide (ref_count s (PA2IDX pa) = 1)) as [H1|H1].
  - eapply wp_mono; [apply (kfree_contig_ok kend Hkend s l pa 1); [done|apply Hm|apply Hm|lia|..]|].
    { destruct Hm as (_ & _ & ?). unfold PGSIZE in *. lia. }
    { intros i Hi. replace i with 0 by lia. by rewrite Z.add_0_r. }
    intros [] s' (l' & Hok' & Hl' & Hrc & _ & Hph & _). rewrite Z.mul_1_l in Hl'.
    assert (Hrc' : forall p, managed kend p -> ref_count s' (PA2IDX p) =
       if p =? pa then ref_count s (PA2IDX pa) - 1 else ref_count s (PA2IDX p)).
    { intros p Hp. rewrite Hrc. unfold in_range. destruct (Z.eqb_spec p pa) as [->|Hne]; cif; try lia.
      destruct Hne. apply Hpa; [done|lia]. }
    exists l'. destruct (vm_inv_frame s s' l l' tabs users Hv Hok') as [Hv' Hmap].
    + intros x Hx. apply Hph. rewrite Hl'. intros [Hin|Hin]; [by eapply tab_byte|].
      by apply (tab_same_page s l tabs users pa x Hv Hm Hnt Hin).
    + intros p z Hp. destruct (tab_page _ _ _ _ _ _ Hv Hp) as [Hmp Hnp]. rewrite Hl', Hrc' by done.
      assert (p <> pa) by congruence. split.
      * intros [?|Hin]; [done|]. apply (tab_same_page s l tabs users pa p Hv Hm Hnt Hin).
        exists p, z. unfold PGSIZE. split; [done|lia].
      * by rewrite (proj2 (Z.eqb_neq _ _)).
    + split_and!; try done. intros x. rewrite Hl'. tauto.
  - destruct (kfree_shared_ok kend Hkend s l pa Hok Hm ltac:(lia)) as [E Hok']. unfold wp. rewrite E.
    set (s' := set_ref_count _ _ s) in *.
    assert (Hrc' : forall p, managed kend p -> ref_count s' (PA2IDX p) =
       if p =? pa then ref_count s (PA2IDX pa) - 1 else ref_count s (PA2IDX p)).
    { intros p Hp. simpl. destruct (Z.eqb_spec p pa) as [->|Hne]; [apply upd_eq|].
      apply upd_ne. contradict Hne. by apply Hpa. }
    exists l. destruct (vm_inv_frame s s' l l tabs users Hv Hok') as [Hv' Hmap]; [done|..].
    + intros p z Hp. destruct (tab_page _ _ _ _ _ _ Hv Hp) as [Hmp Hnp]. rewrite Hrc' by done.
      split; [done|]. rewrite (proj2 (Z.eqb_neq _ _)) by congruence. done.
    + split_and!; try done. tauto.
Qed.

(** A change of the count of an allocated page that is not a table. *)
Lemma vm_set_ref s l tabs users pa v :
  vm_inv kend s l tabs users -> managed kend pa -> tabs pa = None -> ~ in_runs l pa -> 0 < v < 2 ^ 31 ->
  vm_inv kend (set_ref_count (PA2IDX pa) v s) l tabs users.
Proof.
  intros Hv Hm Hnt Hin Hr.
  destruct (vm_inv_frame s (set_ref_count (PA2IDX pa) v s) l l tabs users Hv) as [Hv' _]; try done.
  - apply kmem_ok_set_ref; try done. apply Hv.
  - intros p z Hp. destruct (tab_page _ _ _ _ _ _ Hv Hp) as [Hmp Hnp]. split; [done|]. simpl.
    apply upd_ne. intros E. apply PA2IDX_inj in E; [congruence|done..].
Qed.

(** A change of memory inside one allocated page that is not a table. *)
Lemma vm_write s l tabs users pa f :
  vm_inv kend s l tabs users -> managed kend pa -> tabs pa = None -> ~ in_runs l pa ->
  (forall x, ~ (pa <= x < pa + PGSIZE) -> f (phys s) x = phys s x) ->
  vm_inv kend (set_phys f s) l tabs users /\
  (forall r, is_root tabs r -> same_maps (phys s) (f (phys s)) r).
Proof.
  intros Hv Hm Hnt Hin Hf. apply (vm_inv_frame s (set_phys f s) l l tabs users Hv); try done.
  - apply kmem_ok_phys; [apply Hv|]. intros x Hx. apply Hf. contradict Hin.
    eapply in_runs_page; [apply (vi_kmem _ _ _ _ _ Hv)|apply Hm|done|done].
  - intros x Hx. apply Hf. contradict Hx. by eapply tab_same_page.
  - intros p z Hp. by destruct (tab_page _ _ _ _ _ _ Hv Hp).
Qed.

(** A store of [v] to the leaf entry of virtual page [i] of root [r]. *)
Definition reassign (users : usermap) (r i v : Z) : usermap :=
  if i <? UPAGES then assign users (r, i) (if has v PTE_V then Some (PTE2PA v) else None) else users.

Lemma reassign_elem users r i v r' j pa :
  (r', j) ∈ reassign users r i v pa <->
  (r' = r /\ j = i /\ i < UPAGES /\ has v PTE_V = true /\ PTE2PA v = pa) \/
  (~ (r' = r /\ j = i /\ i < UPAGES) /\ (r', j) ∈ users pa).
Proof.
  unfold reassign. destruct (Z.ltb_spec i UPAGES) as [Hlt|Hge].
  - rewrite assign_elem. split.
    + intros [[[= -> ->] E]|[Hne Hin]]; [left; by case_match; simplify_eq|right].
      split; [|done]. intros (-> & -> & _). done.
    + intros [(-> & -> & _ & -> & ->)|[Hne Hin]]; [by left|right]. split; [|done].
      intros [= -> ->]. by apply Hne.
  - split; [intros Hin; right; split; [lia|done]|]. intros [(_ & _ & ? & _)|[_ ?]]; [lia|done].
Qed.

Lemma vm_store s l tabs users r i p0 v :
  vm_inv kend s l tabs users -> is_root tabs r -> 0 <= i * PGSIZE < MAXVA ->
  leaf_slot (phys s) r (i * PGSIZE) p0 -> 0 <= v < 2 ^ 64 ->
  (i < UPAGES -> has v PTE_V = true -> managed kend (PTE2PA v) /\ tabs (PTE2PA v) = None) ->
  let s' := store_leaf p0 (i * PGSIZE) v s in
  vm_inv kend s' l tabs (reassign users r i v) /\
  (forall r' va, is_root tabs r' -> 0 <= va < MAXVA -> mapping (phys s') r' va =
     if (r' =? r) && (va / PGSIZE =? i) then (if has v PTE_V then Some v else None)
     else mapping (phys s) r' va) /\
  (forall x, ~ in_tab tabs x -> phys s' x = phys s x) /\
  (forall va q, leaf_slot (phys s') r va q <-> leaf_slot (phys s) r va q).
Proof.
  intros Hv Hr Hi Hls Hvr Hnew s'. pose proof (vi_pt _ _ _ _ _ Hv r Hr) as Hpt.
  destruct (store_leaf_ok kend Hkend s l r (pos_of tabs r) (i * PGSIZE) p0 v (vi_kmem _ _ _ _ _ Hv) Hpt Hi Hls Hvr)
    as (Hok' & Hpt' & Hext & Hsame & Hother & Hslots). fold s' in Hok', Hpt', Hext, Hsame, Hother.
  pose proof (leaf_slot_pos _ _ _ _ _ _ _ Hpt Hls) as Hp0. apply pos_of_tabs in Hp0.
  assert (Hmem : forall x, ~ (p0 <= x < p0 + PGSIZE) -> phys s' x = phys s x).
  { intros x Hx. apply st64_out. pose proof (PX_range 0 (i * PGSIZE)). unfold PGSIZE in *. lia. }
  assert (Hroots : forall r', is_root tabs r' -> r' <> r -> pt_ok kend s' l r' (pos_of tabs r') /\
            same_maps (phys s) (phys s') r').
  { intros r' Hr' Hne. apply (pt_ok_frame kend s s' l l); [by apply Hv|..].
    - intros p z x Hp%pos_of_tabs Hx. apply Hmem. intros Hx'. destruct (tab_page _ _ _ _ _ _ Hv Hp) as [Hmp _].
      destruct (tab_page _ _ _ _ _ _ Hv Hp0) as [Hmp0 _].
      rewrite (in_page_aligned p p0 x) in Hp by (apply Hmp || apply Hmp0 || done). congruence.
    - intros p z Hp%pos_of_tabs. by destruct (tab_page _ _ _ _ _ _ Hv Hp). }
  assert (Hmap : forall r' va, is_root tabs r' -> 0 <= va < MAXVA -> mapping (phys s') r' va =
     if (r' =? r) && (va / PGSIZE =? i) then (if has v PTE_V then Some v else None)
     else mapping (phys s) r' va).
  { intros r' va Hr' Hva. destruct (Z.eqb_spec r' r) as [->|Hne]; [|by apply (proj2 (Hroots r' Hr' Hne) va)]. simpl.
    pose proof (page_index i) as Ei.
    destruct (Z.eqb_spec (va / PGSIZE) i) as [E|E]; [|by apply Hother; [|congruence]].
    rewrite <- Hsame. unfold mapping. by rewrite !(PX_page va (i * PGSIZE)) by (lia || congruence). }
  split_and!; try done.
  - destruct Hv as [Hok Hpts Htabs Husers Hman Htable]. split; try done.
    + intros r' Hr'. destruct (decide (r' = r)) as [->|]; [done|by apply Hroots].
    + intros pa r' j.
      assert (Hm : is_root tabs r' -> 0 <= j < UPAGES -> mapping (phys s') r' (j * PGSIZE) =
         if (r' =? r) && (j =? i) then (if has v PTE_V then Some v else None) else mapping (phys s) r' (j * PGSIZE)).
      { intros Hr' Hjr. by rewrite (Hmap r' (j * PGSIZE) Hr' (upage_va j Hjr)), page_index. }
      rewrite reassign_elem, Husers. split.
      * intros [(-> & -> & Hlt & Hhv & Epa)|(Hne & Hr' & Hjr & e & He & Epa)].
        { assert (0 <= i) by (unfold PGSIZE in *; lia). split_and!; try done. exists v.
          rewrite Hm, !Z.eqb_refl, Hhv by done. done. }
        split_and!; try done; try lia. exists e. rewrite Hm by done.
        destruct ((r' =? r) && (j =? i)) eqn:E; [|done]. destruct Hne. cbool. split_and!; lia.
      * intros (Hr' & Hjr & e & He & Epa). rewrite Hm in He by done.
        destruct ((r' =? r) && (j =? i)) eqn:E.
        { left. destruct (has v PTE_V) eqn:Hhv; [|done]. simplify_eq. split_and!; lia || done. }
        right. split; [lia|]. split_and!; try done; try lia. by exists e.
    + intros pa r' j. rewrite reassign_elem. intros [(_ & _ & ? & ? & <-)|[_ Hin]]; [by apply Hnew|by eapply Hman].
    + intros p Hp. destruct (Htable p Hp) as [Hu Hrc]. split; [|done]. apply set_eq. intros [r' j].
      rewrite reassign_elem, Hu. split; [|done]. intros [(_ & _ & Hlt & Hhv & <-)|[_ Hin]]; [|set_solver].
      by destruct (Hnew Hlt Hhv).
  - intros x Hx. apply Hmem. contradict Hx. by eexists p0, _.
Qed.

(** ** Growing a table *)

Definition with_pos (tabs : tabmap) (r : Z) (pos : posmap) : tabmap := fun p =>
  match pos p with
  | Some z => Some (r, z)
  | None => tabs p
  end.

(** What mapping a page keeps, over all address spaces. *)
Record vm_ext (s : kmem_state) (l : list (Z * Z)) (tabs : tabmap)
    (s' : kmem_state) (l' : list (Z * Z)) (tabs' : tabmap) : Prop := {
  ve_free : forall x, in_runs l' x -> in_runs l x;
  ve_tabs : forall p z, tabs p = Some z -> tabs' p = Some z;
  ve_new : forall p z, tabs' p = Some z -> tabs p = Some z \/ in_runs l p;
  ve_root : forall r, is_root tabs' r <-> is_root tabs r;
  ve_mem : forall x, data_byte tabs l x -> phys s' x = phys s x;
  ve_ref : forall pa, managed kend pa -> ~ in_runs l pa -> ref_count s' (PA2IDX pa) = ref_count s (PA2IDX pa);
  ve_taken : forall pa, managed kend pa -> in_runs l pa -> ~ in_runs l' pa -> tabs' pa <> None
}.

Lemma vm_grow s l tabs users r s' l' pos' users' :
  vm_inv kend s l tabs users -> is_root tabs r ->
  kmem_ok kend s' l' -> pt_ok kend s' l' r pos' -> pt_ext kend s l (pos_of tabs r) s' l' pos' ->
  (forall pa j, (r, j) ∈ users' pa <-> 0 <= j < UPAGES /\
     exists e, mapping (phys s') r (j * PGSIZE) = Some e /\ PTE2PA e = pa) ->
  (forall pa r' j, r' <> r -> ((r', j) ∈ users' pa <-> (r', j) ∈ users pa)) ->
  (forall pa r' j, (r', j) ∈ users' pa -> managed kend pa /\ tabs pa = None /\ ~ in_runs l pa) ->
  vm_inv kend s' l' (with_pos tabs r pos') users' /\
  vm_ext s l tabs s' l' (with_pos tabs r pos') /\
  (forall r', is_root tabs r' -> r' <> r -> same_maps (phys s) (phys s') r').
Proof.
  intros Hv Hr Hok' Hpt' Hext Hu Hu' Hman. set (tabs' := with_pos tabs r pos').
  assert (Hold : forall p z, tabs p = Some z -> tabs' p = Some z).
  { intros p [r' z] Hp. unfold tabs', with_pos. destruct (pos' p) as [z'|] eqn:E; [|done].
    destruct (pe_new _ _ _ _ _ _ _ Hext p ltac:(congruence)) as [Hn|Hn].
    - destruct (pos_of tabs r p) as [z''|] eqn:E'; [|done].
      pose proof (pe_pos _ _ _ _ _ _ _ Hext _ _ E'). apply pos_of_tabs in E'. congruence.
    - destruct (tab_page _ _ _ _ _ _ Hv Hp) as [_ Hf]. destruct Hf. apply Hn. unfold PGSIZE. lia. }
  assert (Hnew : forall p z, tabs' p = Some z -> tabs p = Some z \/ in_runs l p /\ pos' p = Some z.2 /\ z.1 = r).
  { intros p z Hp. destruct (tabs p) as [z'|] eqn:E; [left; by rewrite (Hold _ _ E) in Hp|right].
    unfold tabs', with_pos in Hp. destruct (pos' p) as [z'|] eqn:E'; [|congruence]. simplify_eq.
    split; [|done]. destruct (pe_new _ _ _ _ _ _ _ Hext p ltac:(congruence)) as [Hn|Hn].
    - destruct Hn. unfold pos_of. by rewrite E.
    - apply Hn. unfold PGSIZE. lia. }
  assert (Hroot : forall r', is_root tabs' r' <-> is_root tabs r').
  { intros r'. split; [|by apply Hold]. intros Hp. destruct (Hnew _ _ Hp) as [?|(_ & _ & Er)]; [done|].
    simpl in Er. by subst r'. }
  assert (Hposr : forall p, pos_of tabs' r p = pos' p).
  { intros p. unfold pos_of, tabs', with_pos. destruct (pos' p) as [z|] eqn:E; [by rewrite Z.eqb_refl|].
    destruct (tabs p) as [[r' z]|] eqn:Et; [|done]. destruct (Z.eqb_spec r' r) as [->|]; [|done].
    apply pos_of_tabs in Et. apply (pe_pos _ _ _ _ _ _ _ Hext) in Et. congruence. }
  assert (Hothers : forall r', is_root tabs r' -> r' <> r -> pt_ok kend s' l' r' (pos_of tabs r') /\
            same_maps (phys s) (phys s') r').
  { intros r' Hr' Hne. apply (pt_ok_frame kend s s' l l'); [by apply Hv|..].
    - intros p z x Hp%pos_of_tabs Hx. apply Hext.
      + eapply tab_byte; [done|]. by exists p, (r', z).
      + intros (q & z' & Hq%pos_of_tabs & Hx'). destruct (tab_page _ _ _ _ _ _ Hv Hp) as [Hmp _].
        destruct (tab_page _ _ _ _ _ _ Hv Hq) as [Hmq _].
        rewrite (in_page_aligned p q x) in Hp by (apply Hmp || apply Hmq || done). congruence.
    - intros p z Hp%pos_of_tabs Hin. destruct (tab_page _ _ _ _ _ _ Hv Hp) as [_ Hn]. by apply Hn, Hext. }
  split_and!.
  - split; try done.
    + intros r' Hr'%Hroot. destruct (decide (r' = r)) as [->|Hne].
      * by apply (pt_ok_pos_ext _ _ _ _ _ _ Hposr).
      * apply (pt_ok_pos_ext _ _ _ _ (pos_of tabs r')); [|by apply Hothers].
        intros p. apply option_eq. intros z. rewrite !pos_of_tabs. split; [|apply Hold].
        intros Hp. destruct (Hnew _ _ Hp) as [?|(_ & _ & Er)]; [done|]. simpl in Er. congruence.
    + intros p r' z Hp. apply Hroot. destruct (Hnew _ _ Hp) as [Hp'|(_ & _ & Er)].
      * by eapply (vi_tabs _ _ _ _ _ Hv).
      * simpl in Er. by subst r'.
    + intros pa r' j. destruct (decide (r' = r)) as [->|Hne]; [rewrite Hu, Hroot; naive_solver|].
      rewrite Hu', (vi_users _ _ _ _ _ Hv), Hroot by done.
      split; intros (Hr' & Hj & e & He & Hpa); split_and!; try done; try lia; exists e;
        [rewrite (proj1 (proj2 (Hothers r' Hr' Hne) _))|rewrite <- (proj1 (proj2 (Hothers r' Hr' Hne) _))]; done.
    + intros pa r' j Hin. by destruct (Hman _ _ _ Hin).
    + intros p Hp. destruct (tabs' p) as [z|] eqn:E; [|done].
      destruct (Hnew _ _ E) as [E'|(Hin & Hp' & _)].
      * destruct (tab_page _ _ _ _ _ _ Hv E') as [Hmp Hnf].
        rewrite (pe_ref _ _ _ _ _ _ _ Hext) by done. split; [|apply (vi_table _ _ _ _ _ Hv); congruence].
        apply elem_of_equiv_empty_L. intros [r' j] Hin. destruct (Hman _ _ _ Hin). naive_solver congruence.
      * destruct z as [r' [lv pre]]. destruct (po_page _ _ _ _ _ Hpt' _ _ _ Hp') as (Hmp & Hnl & _).
        destruct (pe_taken _ _ _ _ _ _ _ Hext p Hmp Hin Hnl) as [_ Hrc]. split; [|done].
        apply elem_of_equiv_empty_L. intros [r'' j] Hin'. destruct (Hman _ _ _ Hin') as (_ & _ & ?). done.
  - split; try done; try apply Hext.
    + intros p z Hp. destruct (Hnew _ _ Hp) as [?|(? & _)]; tauto.
    + intros x [Hl Ht]. apply Hext; [done|]. contradict Ht. destruct Ht as (p & z & Hp%pos_of_tabs & Hx).
      by exists p, (r, z).
    + intros pa Hm Hin Hnin. destruct (pe_taken _ _ _ _ _ _ _ Hext pa Hm Hin Hnin) as [Hp _].
      unfold tabs', with_pos. by destruct (pos' pa).
  - intros r' Hr' Hne. by apply Hothers.
Qed.

Lemma page_interval i va : (i * PGSIZE <=? va) && (va <? i * PGSIZE + 1 * PGSIZE) = (va / PGSIZE =? i).
Proof.
  apply eq_true_iff_eq. rewrite andb_true_iff, Z.leb_le, Z.ltb_lt, Z.eqb_eq. unfold PGSIZE.
  Z.to_euclidean_division_equations. lia.
Qed.

(** Mapping one page of an address space. *)
Lemma vm_mappages s l tabs users r i pa perm :
  vm_inv kend s l tabs users -> is_root tabs r -> 0 <= i < UPAGES ->
  managed kend pa -> tabs pa = None -> ~ in_runs l pa -> 0 <= perm < 1024 ->
  (forall p r' j, (r', j) ∈ users p -> ~ in_runs l p) ->
  mapping (phys s) r (i * PGSIZE) = None ->
  wp (mappages r (i * PGSIZE) PGSIZE pa perm) (fun res s' => exists l' tabs',
    vm_ext s l tabs s' l' tabs' /\
    (forall r', is_root tabs r' -> r' <> r -> same_maps (phys s) (phys s') r') /\
    ((res = 0 /\ vm_inv kend s' l' tabs' (assign users (r, i) (Some pa)) /\
      forall va, 0 <= va < MAXVA -> mapping (phys s') r va =
        if va / PGSIZE =? i then Some (Z.lor (Z.lor (PA2PTE pa) perm) PTE_V) else mapping (phys s) r va) \/
     (res = -1 /\ vm_inv kend s' l' tabs' users /\
      forall va, 0 <= va < MAXVA -> mapping (phys s') r va = mapping (phys s) r va))) s.
Proof.
  intros Hv Hr Hi Hm Ht Hl Hperm Hfree Hnone. pose proof (upage_va i Hi) as Hva.
  destruct (managed_range kend Hkend pa Hm) as (_ & Hpr & Hpal).
  assert (Hman : forall p r' j, (r', j) ∈ users p -> managed kend p /\ tabs p = None /\ ~ in_runs l p).
  { intros p r' j Hin. split_and!; [by eapply (vi_managed _ _ _ _ _ Hv)| |by eapply Hfree].
    destruct (tabs p) eqn:E; [|done]. destruct (vi_table _ _ _ _ _ Hv p ltac:(congruence)) as [Eu _].
    rewrite Eu in Hin. set_solver. }
  rewrite <- (Z.mul_1_l PGSIZE) at 2. eapply wp_mono.
  { apply (mappages_ok kend Hkend s l r (pos_of tabs r) (i * PGSIZE) 1 pa perm); try apply Hv; try done; try lia.
    - rewrite MAXVA_small in *. rewrite UPAGES_val in Hi. unfold PGSIZE in *. lia.
    - apply Z_mod_mult.
    - destruct Hm as (_ & _ & Hhi). unfold PHYSTOP, KERNBASE, PGSIZE in *. lia.
    - intros j Hj. replace j with 0 by lia. by rewrite Z.mul_0_l, Z.add_0_r. }
  intros res s' (l' & pos' & k & Hok' & Hpt' & Hext & Hmap & Hres).
  set (new := if decide (k = 1) then assign users (r, i) (Some pa) else users).
  assert (Hm1 : forall va, 0 <= va < MAXVA -> mapping (phys s') r va =
            if decide (k = 1 /\ va / PGSIZE = i) then Some (Z.lor (Z.lor (PA2PTE pa) perm) PTE_V)
            else mapping (phys s) r va).
  { intros va Hva'. rewrite (Hmap va Hva'). destruct Hres as [[_ ->]|[_ Hk]].
    - rewrite page_interval. destruct (Z.eqb_spec (va / PGSIZE) i) as [<-|Hne].
      + rewrite decide_True by done. replace ((va - va / PGSIZE * PGSIZE) / PGSIZE * PGSIZE) with 0; [by rewrite Z.add_0_r|].
        unfold PGSIZE. Z.to_euclidean_division_equations. lia.
      + by rewrite decide_False by tauto.
    - replace k with 0 by lia. rewrite decide_False by lia. cif; [lia|done]. }
  assert (Epa : PTE2PA (Z.lor (Z.lor (PA2PTE pa) perm) PTE_V) = pa).
  { rewrite <- Z.lor_assoc. apply PTE2PA_PA2PTE; try done. apply lor_flags; [done|unfold PTE_V; lia]. }
  destruct (vm_grow s l tabs users r s' l' pos' new Hv Hr Hok' Hpt' Hext) as (Hv' & Hve & Hoth).
  - intros p j. unfold new. split.
    + intros Hin. assert (0 <= j < UPAGES /\ (k = 1 /\ j = i /\ p = pa \/ ~ (k = 1 /\ j = i) /\ (r, j) ∈ users p)) as [Hj Hc].
      { destruct (decide (k = 1)) as [Hk|Hk]; [apply assign_elem in Hin as [[[= ->] [= ->]]|[Hne Hin]]|].
        - split; [done|]. by left.
        - split; [by apply (vi_users _ _ _ _ _ Hv) in Hin as (_ & ? & _)|]. right. split; [|done]. naive_solver.
        - split; [by apply (vi_users _ _ _ _ _ Hv) in Hin as (_ & ? & _)|]. right. tauto. }
      split; [done|]. rewrite Hm1, page_index by by apply upage_va. destruct Hc as [(Hk & -> & ->)|[Hc Hin']].
      * rewrite decide_True by done. eauto.
      * rewrite decide_False by done. by apply (vi_users _ _ _ _ _ Hv) in Hin' as (_ & _ & ?).
    + intros (Hj & e & He & Hp). rewrite Hm1, page_index in He by by apply upage_va.
      destruct (decide (k = 1 /\ j = i)) as [[Hk ->]|Hc].
      * rewrite decide_True by done. apply assign_elem. left. simplify_eq. by rewrite Epa.
      * assert ((r, j) ∈ users p) by (apply (vi_users _ _ _ _ _ Hv); eauto).
        destruct (decide (k = 1)); [|done]. apply assign_elem. right. split; [|done]. intros [= ->]. tauto.
  - intros p r' j Hne. unfold new. destruct (decide _); [|done]. rewrite assign_elem. naive_solver.
  - intros p r' j. unfold new. destruct (decide _); [|by apply Hman].
    rewrite assign_elem. intros [[_ [= <-]]|[_ Hin]]; [done|by eapply Hman].
  - exists l', (with_pos tabs r pos'). split_and!; try done.
    destruct Hres as [[-> ->]|[-> Hk]]; [left|right]; split_and!; try done.
    + intros va Hva'. rewrite (Hm1 va Hva'). destruct (Z.eqb_spec (va / PGSIZE) i); [by rewrite decide_True|by rewrite decide_False by tauto].
    + unfold new in Hv'. by rewrite decide_False in Hv' by lia.
    + intros va Hva'. rewrite (Hm1 va Hva'). by rewrite decide_False by lia.
Qed.

End vm.
