(* ===== verification/Demo.v ===== *)
(** * A concrete system of address spaces

    A small state in which the invariant of address spaces holds, used to
    instantiate the theorems about them. *)

From stdpp Require Import gmap.
From S2P Require Import Prelude Memory StringC Kalloc Vm PageTable AddrSpace.

(** ** A concrete system: eight managed pages, two address spaces

    Pages 0 to 2 hold a table that maps virtual page 0 to page 3 with the
    flags [fl]; page 4 is an empty table; pages 5 to 7 are free. *)

Definition kend8 : Z := PHYSTOP - 8 * PGSIZE.
Definition page8 (i : Z) : Z := kend8 + i * PGSIZE.

Definition demo_mem (fl : Z) : mem :=
  st64 (st64 (st64 (set_next (page8 5) 0 (set_num_pages (page8 5) 3 (fun _ => 0)))
    (page8 0 + 8 * 0) (Z.lor (PA2PTE (page8 1)) PTE_V))
    (page8 1 + 8 * 0) (Z.lor (PA2PTE (page8 2)) PTE_V))
    (page8 2 + 8 * 0) (Z.lor (PA2PTE (page8 3)) fl).

Definition demo (fl : Z) : kmem_state :=
  KMem (demo_mem fl) (fun i => if in_range (PA2IDX kend8) 5 i then 1 else 0) (fun _ => Rmap 0 0) (page8 5) true.

Definition demo_tabs : tabmap := fun p =>
  if p =? page8 0 then Some (page8 0, (2, 0))
  else if p =? page8 1 then Some (page8 0, (1, 0))
  else if p =? page8 2 then Some (page8 0, (0, 0))
  else if p =? page8 4 then Some (page8 4, (2, 0))
  else None.

Definition demo_users : usermap := fun pa => if pa =? page8 3 then {[(page8 0, 0)]} else ∅.

Lemma kend8_range : KERNBASE <= kend8 <= PHYSTOP.
Proof. unfold kend8, PHYSTOP, KERNBASE, PGSIZE. lia. Qed.

Lemma page8_mod i : page8 i mod PGSIZE = 0.
Proof. unfold page8, PGSIZE. rewrite Z_mod_plus_full. done. Qed.

Lemma page8_inj i j : page8 i = page8 j -> i = j.
Proof. unfold page8, PGSIZE. lia. Qed.

Lemma managed_page8 p : managed kend8 p <-> exists i, 0 <= i < 8 /\ p = page8 i.
Proof.
  unfold managed, page8. change (kbase kend8) with kend8. unfold kend8, PHYSTOP, KERNBASE, PGSIZE. split.
  - intros (H1 & H2 & H3). exists ((p - (2147483648 + 128 * 1024 * 1024 - 8 * 4096)) / 4096).
    Z.to_euclidean_division_equations. lia.
  - intros (i & Hi & ->). Z.to_euclidean_division_equations. lia.
Qed.

Lemma entry_zero_mem p i : entry (fun _ => 0) p i = 0.
Proof. unfold entry. with_strategy transparent [ld64] (by apply ldn_zero). Qed.

(** The only non-zero entries of the tables. *)
Lemma demo_entry fl p i :
  0 <= fl < 1024 -> 0 <= p < 5 -> 0 <= i < 512 -> entry (demo_mem fl) (page8 p) i =
    if i =? 0 then
      if p =? 0 then Z.lor (PA2PTE (page8 1)) PTE_V
      else if p =? 1 then Z.lor (PA2PTE (page8 2)) PTE_V
      else if p =? 2 then Z.lor (PA2PTE (page8 3)) fl
      else 0
    else 0.
Proof.
  intros Hfl Hp Hi.
  assert (Hbase : entry (set_next (page8 5) 0 (set_num_pages (page8 5) 3 (fun _ => 0))) (page8 p) i = 0).
  { rewrite <- (entry_zero_mem (page8 p) i). apply entry_ext; [done|]. intros x Hx.
    rewrite set_next_out, set_num_out; [done|unfold page8, PGSIZE in *; lia..]. }
  assert (Hrange : forall j f, 0 <= j < 8 -> 0 <= f < 1024 -> 0 <= Z.lor (PA2PTE (page8 j)) f < 2 ^ 64).
  { intros j f Hj Hf. pose proof (PA2PTE_range (page8 j) f (page8_mod j)).
    unfold page8, kend8, PHYSTOP, KERNBASE, PGSIZE in *. lia. }
  assert (Hst : forall m q v, entry (st64 m (page8 q + 8 * 0) v) (page8 p) i =
            if (p =? q) && (i =? 0) then entry (st64 m (page8 p + 8 * i) v) (page8 p) i else entry m (page8 p) i).
  { intros m q v. destruct (_ && _) eqn:E; cbool.
    - replace q with p by lia. by replace i with 0 by lia.
    - apply entry_st64_other; [apply page8_mod..|lia|lia|]. intros [= E1%page8_inj E2]. lia. }
  unfold demo_mem. rewrite !Hst.
  repeat cif; cbool; try lia; rewrite ?entry_st64_same by (apply Hrange; lia || (unfold PTE_V; lia)); try done.
Qed.

(** The same, table by table. *)
Lemma demo_entries fl i :
  0 <= fl < 1024 -> 0 <= i < 512 ->
  entry (demo_mem fl) (page8 0) i = (if i =? 0 then Z.lor (PA2PTE (page8 1)) PTE_V else 0) /\
  entry (demo_mem fl) (page8 1) i = (if i =? 0 then Z.lor (PA2PTE (page8 2)) PTE_V else 0) /\
  entry (demo_mem fl) (page8 2) i = (if i =? 0 then Z.lor (PA2PTE (page8 3)) fl else 0) /\
  entry (demo_mem fl) (page8 4) i = 0.
Proof.
  intros Hfl Hi. rewrite !demo_entry by lia. split_and!; [reflexivity..|]. by destruct (i =? 0).
Qed.

Lemma page8_range i : 0 <= i < 8 -> 0 <= page8 i < 2 ^ 56.
Proof. unfold page8, kend8, PHYSTOP, KERNBASE, PGSIZE. lia. Qed.

Lemma demo_tabs_inv p z :
  demo_tabs p = Some z ->
  (p = page8 0 /\ z = (page8 0, (2, 0))) \/ (p = page8 1 /\ z = (page8 0, (1, 0))) \/
  (p = page8 2 /\ z = (page8 0, (0, 0))) \/ (p = page8 4 /\ z = (page8 4, (2, 0))).
Proof.
  unfold demo_tabs. repeat (case_match; cbool; subst; [intros [= <-]; tauto|]). done.
Qed.

Lemma demo_kmem fl : 0 <= fl < 1024 -> kmem_ok kend8 (demo fl) [(page8 5, 3)].
Proof.
  intros Hfl. assert (forall x, page8 5 <= x < page8 5 + 16 -> demo_mem fl x =
    set_next (page8 5) 0 (set_num_pages (page8 5) 3 (fun _ => 0)) x) as Hx.
  { intros x Hx. unfold demo_mem. rewrite !st64_out; [done|unfold page8, PGSIZE in *; lia..]. }
  split.
  - split; [done|]. split; [unfold page8, kend8, PHYSTOP, KERNBASE, PGSIZE; lia|]. split.
    + unfold num_pages. with_strategy transparent [ld32] (transitivity (num_pages (set_next (page8 5) 0
        (set_num_pages (page8 5) 3 (fun _ => 0))) (page8 5)); [apply ldn_ext|]); [|by vm_compute].
      intros i Hi. rewrite <- Z.add_assoc. apply Hx. lia.
    + unfold next. with_strategy transparent [ld64] (transitivity (next (set_next (page8 5) 0
        (set_num_pages (page8 5) 3 (fun _ => 0))) (page8 5)); [apply ldn_ext|]); [|by vm_compute].
      intros i Hi. apply Hx. lia.
  - change (kbase kend8) with kend8. split_and!; try done; vm_compute; congruence.
  - done.
  - intros pa (i & Hi & ->)%managed_page8. simpl. split; [cif; lia|].
    pose proof (in_range_addr kend8 5 (page8 i) ltac:(done) (page8_mod i)) as Hr.
    destruct (in_range _ _ _).
    + split; [done|]. intros (a & k & Hin%list_elem_of_singleton & Ha). simplify_eq.
      pose proof (proj1 Hr eq_refl). unfold page8, PGSIZE in *. lia.
    + split; [|done]. intros _. exists (page8 5), 3. split; [set_solver|].
      destruct (decide (i < 5)); [|unfold page8, PGSIZE in *; lia].
      assert (false = true) by (apply Hr; unfold page8, PGSIZE in *; lia). done.
  - intros i Hi. simpl. destruct (in_range _ _ _) eqn:E; [|done]. exfalso. apply Hi, managed_page8.
    exists (i - PA2IDX kend8). unfold in_range in E. split; [lia|]. unfold page8.
    assert (kend8 = PA2IDX kend8 * PGSIZE) as -> by done. rewrite PA2IDX_mul. lia.
Qed.

Lemma page8_free i : in_runs [(page8 5, 3)] (page8 i) -> 5 <= i < 8.
Proof.
  intros (a & k & Hin%list_elem_of_singleton & Ha). simplify_eq. unfold page8, PGSIZE in *. lia.
Qed.

#[local] Opaque page8 PA2PTE.

Lemma demo_mapping fl va :
  0 <= fl < 1024 -> has fl PTE_V = true -> 0 <= va < MAXVA ->
  mapping (demo_mem fl) (page8 0) va =
    (if va / PGSIZE =? 0 then Some (Z.lor (PA2PTE (page8 3)) fl) else None) /\
  mapping (demo_mem fl) (page8 4) va = None.
Proof.
  intros Hfl HV Hva. pose proof (vpn_split va Hva) as Hvpn.
  pose proof (PX_range 2 va). pose proof (PX_range 1 va). pose proof (PX_range 0 va).
  assert (Hdir : forall j, 0 <= j < 8 -> has (Z.lor (PA2PTE (page8 j)) PTE_V) PTE_V = true /\
            PTE2PA (Z.lor (PA2PTE (page8 j)) PTE_V) = page8 j).
  { intros j Hj. pose proof (page8_range j Hj). pose proof (page8_mod j). split.
    - by rewrite has_pte.
    - by apply PTE2PA_PA2PTE. }
  destruct (Hdir 1 ltac:(lia)) as [HV1 E1]. destruct (Hdir 2 ltac:(lia)) as [HV2 E2]. unfold mapping.
  destruct (demo_entries fl (PX 2 va)) as (D0 & _ & _ & D4); try done.
  destruct (demo_entries fl (PX 1 va)) as (_ & D1 & _ & _); try done.
  destruct (demo_entries fl (PX 0 va)) as (_ & _ & D2 & _); try done. assert (has 0 PTE_V = false) as H00 by done. split.
  - rewrite D0. destruct (Z.eqb_spec (PX 2 va) 0) as [X2|X2]; [|rewrite H00; cif; [lia|done]].
    rewrite HV1, E1, D1. destruct (Z.eqb_spec (PX 1 va) 0) as [X1|X1]; [|rewrite H00; cif; [lia|done]].
    rewrite HV2, E2, D2. destruct (Z.eqb_spec (PX 0 va) 0) as [X0|X0]; [|rewrite H00; cif; [lia|done]].
    rewrite (has_pte (page8 3) fl PTE_V (page8_mod 3) (page8_range 3 ltac:(lia))), HV by done. cif; [done|lia].
  - by rewrite D4, H00.
Qed.

Lemma demo_root r : is_root demo_tabs r <-> r = page8 0 \/ r = page8 4.
Proof.
  unfold is_root. split.
  - intros H. destruct (demo_tabs_inv _ _ H) as [[-> _]|[[-> [= E]]|[[-> [= E]]|[-> _]]]]; tauto.
  - intros [-> | ->]; done.
Qed.

Lemma demo_pt fl r :
  0 <= fl < 1024 -> is_root demo_tabs r -> pt_ok kend8 (demo fl) [(page8 5, 3)] r (pos_of demo_tabs r).
Proof.
  intros Hfl Hr.
  assert (Hdir : forall j, 0 <= j < 8 -> has (Z.lor (PA2PTE (page8 j)) PTE_V) (Z.lor (Z.lor PTE_R PTE_W) PTE_X) = false /\
            PTE2PA (Z.lor (PA2PTE (page8 j)) PTE_V) = page8 j).
  { intros j Hj. pose proof (page8_range j Hj). pose proof (page8_mod j). split.
    - by rewrite has_pte.
    - by apply PTE2PA_PA2PTE. }
  assert (Hent : forall p lv pre i, demo_tabs p = Some (r, (lv, pre)) -> 0 < lv -> 0 <= i < 512 ->
    has (entry (demo_mem fl) p i) PTE_V = true -> pre = 0 /\ i = 0 /\
    exists j, 0 <= j < 8 /\ entry (demo_mem fl) p i = Z.lor (PA2PTE (page8 j)) PTE_V /\
      demo_tabs (page8 j) = Some (r, (lv - 1, 0))).
  { intros p lv pre i Hp Hlv Hi. destruct (demo_tabs_inv _ _ Hp) as [[-> E]|[[-> E]|[[-> E]|[-> E]]]];
      destruct (demo_entries fl i Hfl Hi) as (D0 & D1 & D2 & D4); injection E as E1 E2 E3; subst lv pre; try lia;
      rewrite ?D0, ?D1, ?D4; try done; (destruct (Z.eqb_spec i 0) as [->|]; [|done]); intros _;
      (split; [done|]); (split; [done|]); rewrite E1; [exists 1|exists 2]; (split; [lia|]); (split; [done|]); reflexivity. }
  split.
  - apply pos_of_tabs, Hr.
  - intros p lv pre Hp%pos_of_tabs. destruct (demo_tabs_inv _ _ Hp) as [[-> E]|[[-> E]|[[-> E]|[-> E]]]];
      simplify_eq; (split; [apply managed_page8; eexists; split; [|done]; lia|split; [|lia]]);
      intros ?%page8_free; lia.
  - intros p lv pre i Hp%pos_of_tabs Hlv Hi Hv. destruct (Hent _ _ _ _ Hp Hlv Hi Hv) as (-> & -> & j & Hj & E & Ht).
    change (phys (demo fl)) with (demo_mem fl). rewrite E, (proj2 (Hdir j Hj)). by apply pos_of_tabs.
  - intros p lv pre i Hp%pos_of_tabs Hlv Hi Hv. destruct (Hent _ _ _ _ Hp Hlv Hi Hv) as (-> & -> & j & Hj & E & Ht).
    change (phys (demo fl)) with (demo_mem fl). rewrite E. by apply Hdir.
Qed.

Lemma demo_vm fl :
  0 <= fl < 1024 -> has fl PTE_V = true ->
  vm_ok kend8 (demo fl) [(page8 5, 3)] demo_tabs demo_users.
Proof.
  intros Hfl HV. assert (E3 : PTE2PA (Z.lor (PA2PTE (page8 3)) fl) = page8 3).
  { apply PTE2PA_PA2PTE; [apply page8_mod|apply page8_range; lia|done]. }
  assert (Husers : forall pa r i, (r, i) ∈ demo_users pa <-> pa = page8 3 /\ r = page8 0 /\ i = 0).
  { intros pa r i. unfold demo_users. destruct (Z.eqb_spec pa (page8 3)) as [->|]; set_solver. }
  assert (Hmap : forall r i e, is_root demo_tabs r -> 0 <= i < UPAGES ->
            mapping (phys (demo fl)) r (i * PGSIZE) = Some e <->
            r = page8 0 /\ i = 0 /\ e = Z.lor (PA2PTE (page8 3)) fl).
  { intros r i e Hr Hi. destruct (demo_mapping fl (i * PGSIZE) Hfl HV (upage_va i Hi)) as [H0 H4].
    change (phys (demo fl)) with (demo_mem fl). apply demo_root in Hr as [-> | ->].
    - rewrite H0, page_index. destruct (Z.eqb_spec i 0) as [->|].
      + split; [intros E; injection E as <-; by split_and!|intros (_ & _ & ->); reflexivity].
      + split; [discriminate|intros (_ & E & _); contradiction].
    - rewrite H4. split; [discriminate|]. intros [E%page8_inj _]. discriminate. }
  split.
  - split.
    + by apply demo_kmem.
    + intros r Hr. by apply demo_pt.
    + intros p r z Hp. apply demo_root.
      destruct (demo_tabs_inv _ _ Hp) as [[-> E]|[[-> E]|[[-> E]|[-> E]]]]; simplify_eq; tauto.
    + intros pa r i. rewrite Husers. split.
      * intros (-> & -> & ->). split; [apply demo_root; tauto|]. split; [done|].
        eexists. rewrite Hmap; [split_and!; [done..|]|apply demo_root; tauto|done]. done.
      * intros (Hr & Hi & e & He & <-). apply Hmap in He as (-> & -> & ->); done.
    + intros pa r i (-> & _)%Husers. apply managed_page8. exists 3. split; [lia|done].
    + intros p Hp. destruct (demo_tabs p) as [z|] eqn:Et; [|done].
      destruct (demo_tabs_inv _ _ Et) as [[-> E]|[[-> E]|[[-> E]|[-> E]]]]; split; by vm_compute.
  - intros pa Hne. destruct (set_choose_L _ Hne) as [[r i] (-> & _)%Husers]. by vm_compute.
  - intros pa r i r' i' (_ & _ & ->)%Husers (_ & _ & ->)%Husers. done.
  - intros r i e Hr Hi He HW. apply Hmap in He as (-> & -> & ->); try done. rewrite E3. done.
Qed.

(** The second address space is empty. *)
Lemma demo_child_none fl n j :
  0 <= fl < 1024 -> has fl PTE_V = true -> 0 <= j < n -> n <= UPAGES ->
  mapping (phys (demo fl)) (page8 4) (j * PGSIZE) = None.
Proof.
  intros Hfl HV Hj Hn. exact (proj2 (demo_mapping fl (j * PGSIZE) Hfl HV (upage_va j ltac:(lia)))).
Qed.

Lemma demo_parent fl va :
  0 <= fl < 1024 -> has fl PTE_V = true -> 0 <= va < PGSIZE ->
  mapping (phys (demo fl)) (page8 0) va = Some (Z.lor (PA2PTE (page8 3)) fl).
Proof.
  intros Hfl HV Hva. change (phys (demo fl)) with (demo_mem fl).
  rewrite (proj1 (demo_mapping fl va Hfl HV ltac:(rewrite MAXVA_small; unfold PGSIZE in *; lia))).
  rewrite Z.div_small by done. reflexivity.
Qed.

Lemma demo_root0 : is_root demo_tabs (page8 0).
Proof. apply demo_root. by left. Qed.

Lemma demo_root4 : is_root demo_tabs (page8 4).
Proof. apply demo_root. by right. Qed.

Lemma demo_roots_ne : page8 0 <> page8 4.
Proof. by intros E%page8_inj. Qed.
