(* ===== verification/Uvm.v ===== *)
(** * Growing and shrinking user memory

    [uvmunmap], [uvmdealloc], [uvmalloc] and [uvmcreate] over the
    invariant of address spaces. *)

From stdpp Require Import gmap.
From S2P Require Import Prelude Memory StringC Kalloc Vm PageTable AddrSpace.

Lemma size_pos (X : gset (Z * Z)) ri : ri ∈ X -> (1 <= size X)%nat.
Proof.
  intros Hin. assert (size X <> 0%nat); [|lia]. intros E%size_empty_inv. set_solver.
Qed.

Section uvm.
Context (kend : Z) (Hkend : KERNBASE <= kend <= PHYSTOP).

(** ** Consequences of the invariant *)

Lemma users_fun s l tabs users r i pa pa' :
  vm_inv kend s l tabs users -> (r, i) ∈ users pa -> (r, i) ∈ users pa' -> pa = pa'.
Proof.
  intros Hv (_ & _ & e & He & <-)%(vi_users _ _ _ _ _ Hv) (_ & _ & e' & He' & <-)%(vi_users _ _ _ _ _ Hv).
  congruence.
Qed.

Lemma user_not_tab s l tabs users ri pa :
  vm_inv kend s l tabs users -> ri ∈ users pa -> tabs pa = None.
Proof.
  intros Hv Hin. destruct (tabs pa) eqn:E; [|done].
  destruct (vi_table _ _ _ _ _ Hv pa ltac:(congruence)) as [Eu _]. rewrite Eu in Hin. set_solver.
Qed.

Lemma user_ref s l tabs users ri pa :
  vm_ok kend s l tabs users -> ri ∈ users pa ->
  managed kend pa /\ tabs pa = None /\ ~ in_runs l pa /\ 1 <= ref_count s (PA2IDX pa) /\
  ref_count s (PA2IDX pa) = Z.of_nat (size (users pa)).
Proof.
  intros [Hv Hrf _ _] Hin. destruct ri as [r i]. pose proof (vi_managed _ _ _ _ _ Hv _ _ _ Hin) as Hm.
  assert (users pa <> ∅) as Hne by set_solver. pose proof (size_pos _ _ Hin).
  specialize (Hrf pa Hne).
  split_and!; try done; [by eapply user_not_tab| |lia].
  apply (allocated_ref kend s l pa (vi_kmem _ _ _ _ _ Hv) Hm). lia.
Qed.

Lemma mapping_user s l tabs users r i e :
  vm_inv kend s l tabs users -> is_root tabs r -> 0 <= i < UPAGES ->
  mapping (phys s) r (i * PGSIZE) = Some e -> (r, i) ∈ users (PTE2PA e).
Proof. intros Hv Hr Hi He. apply (vi_users _ _ _ _ _ Hv). eauto. Qed.

(** ** Unmapping *)

(** Effect of releasing mappings: no other reference is touched, memory
    that stays allocated keeps its contents. *)
Record vm_shrink (s : kmem_state) (l : list (Z * Z)) (tabs : tabmap) (users : usermap)
    (s' : kmem_state) (l' : list (Z * Z)) (users' : usermap) : Prop := {
  vs_krefs : forall pa, managed kend pa -> tabs pa = None -> krefs s' users' pa = krefs s users pa;
  vs_free : forall x, in_runs l x -> in_runs l' x;
  vs_mem : forall x, data_byte tabs l' x -> phys s' x = phys s x
}.

Lemma vm_shrink_refl s l tabs users : vm_shrink s l tabs users s l users.
Proof. split; done. Qed.

Lemma vm_shrink_trans s1 l1 tabs users1 s2 l2 users2 s3 l3 users3 :
  vm_shrink s1 l1 tabs users1 s2 l2 users2 -> vm_shrink s2 l2 tabs users2 s3 l3 users3 ->
  vm_shrink s1 l1 tabs users1 s3 l3 users3.
Proof.
  intros H12 H23. split.
  - intros pa Hm Ht. rewrite (vs_krefs _ _ _ _ _ _ _ H23), (vs_krefs _ _ _ _ _ _ _ H12); done.
  - intros x Hx. by apply H23, H12.
  - intros x [Hl Ht]. rewrite (vs_mem _ _ _ _ _ _ _ H23) by done. apply (vs_mem _ _ _ _ _ _ _ H12).
    split; [|done]. intros Hx. by apply Hl, H23.
Qed.

Lemma unmap_page_ok s l tabs users r i :
  vm_ok kend s l tabs users -> is_root tabs r -> 0 <= i < UPAGES ->
  wp (unmap_page kend r true (i * PGSIZE)) (fun _ s' => exists l' users',
    vm_ok kend s' l' tabs users' /\ vm_shrink s l tabs users s' l' users' /\
    forall r' va, is_root tabs r' -> 0 <= va < MAXVA -> mapping (phys s') r' va =
      if (r' =? r) && (va / PGSIZE =? i) then None else mapping (phys s) r' va) s.
Proof.
  intros Hvm Hr Hi. pose proof Hvm as [Hv Hrf Hix Hex]. pose proof (upage_va i Hi) as Hva.
  pose proof (vi_pt _ _ _ _ _ Hv r Hr) as Hpt.
  assert (Hskip : mapping (phys s) r (i * PGSIZE) = None -> exists l' users',
    vm_ok kend s l' tabs users' /\ vm_shrink s l tabs users s l' users' /\
    forall r' va, is_root tabs r' -> 0 <= va < MAXVA -> mapping (phys s) r' va =
      if (r' =? r) && (va / PGSIZE =? i) then None else mapping (phys s) r' va).
  { intros Hnone. exists l, users. split_and!; [done|apply vm_shrink_refl|].
    intros r' va _ Hva'. destruct (_ && _) eqn:E; [|done]. rewrite <- Hnone. cbool.
    unfold mapping. replace r' with r by lia.
    by rewrite !(PX_page va (i * PGSIZE)) by (lia || rewrite page_index; lia). }
  unfold unmap_page. apply wp_bind. eapply wp_mono; [by apply (walk_lookup kend Hkend s l r (pos_of tabs r)), Hva; [apply Hv|]|].
  intros a s0 [-> [[-> Hnone]|(Ha & p0 & Hls & ->)]]; [by apply wp_ret, Hskip|].
  rewrite (proj2 (Z.eqb_neq _ 0)) by done. apply wp_bind, wp_get.
  change (ld64 (phys s) (p0 + 8 * PX 0 (i * PGSIZE))) with (entry (phys s) p0 (PX 0 (i * PGSIZE))).
  pose proof (leaf_slot_mapping _ _ _ _ Hls) as Hmap. set (e := entry (phys s) p0 _) in *.
  destruct (has e PTE_V) eqn:He; [simpl|by apply wp_ret, Hskip].
  pose proof (mapping_user _ _ _ _ _ _ _ Hv Hr Hi Hmap) as Hin.
  destruct (user_ref _ _ _ _ _ _ Hvm Hin) as (Hm & Ht & Hl & Hr1 & Hrs).
  apply wp_bind. eapply wp_mono; [by apply (vm_kfree kend Hkend s l tabs users)|].
  intros [] s1 (l1 & Hv1 & Hl1 & Hrc1 & Hmaps1 & Hmem1). apply wp_upd.
  change (set_phys _ s1) with (store_leaf p0 (i * PGSIZE) 0 s1).
  destruct (vm_store kend Hkend s1 l1 tabs users r i p0 0) as (Hv2 & Hmap2 & Hmem2 & _); try done.
  { by apply (Hmaps1 r Hr). }
  set (s2 := store_leaf p0 (i * PGSIZE) 0 s1) in *. set (users' := reassign users r i 0) in *.
  assert (Hu : forall pa, users' pa = users pa ∖ {[(r, i)]}).
  { intros pa. unfold users', reassign. rewrite (proj2 (Z.ltb_lt _ _)) by lia. done. }
  assert (Hsz : forall pa, Z.of_nat (size (users' pa)) = Z.of_nat (size (users pa)) - if pa =? PTE2PA e then 1 else 0).
  { intros pa. rewrite Hu. destruct (Z.eqb_spec pa (PTE2PA e)) as [->|Hne].
    - rewrite size_difference, size_singleton by set_solver.
      pose proof (size_pos _ _ Hin). lia.
    - rewrite difference_disjoint_L; [lia|]. apply disjoint_singleton_r. intros Hin'. destruct Hne.
      exact (users_fun _ _ _ _ _ _ _ _ Hv Hin' Hin). }
  assert (Erc : ref_count s2 = ref_count s1) by done.
  exists l1, users'. split_and!.
  - split; [done|..].
    + intros pa Hne. rewrite Hsz. assert (exists ri, ri ∈ users' pa) as [[r' j] Hin'] by by apply set_choose_L.
      assert (Hin'' : (r', j) ∈ users pa) by (rewrite Hu in Hin'; set_solver).
      rewrite Erc, Hrc1 by by eapply vi_managed. rewrite (Hrf pa) by set_solver. destruct (Z.eqb_spec pa (PTE2PA e)) as [->|]; lia.
    + intros pa r' j r'' j'. rewrite !Hu. intros H1 H2. apply (Hix pa r' j r'' j'); set_solver.
    + intros r' j e' Hr' Hj He' Hw. rewrite Hmap2, page_index in He' by (done || by apply upage_va).
      change (has 0 PTE_V) with false in He'. destruct (_ && _) eqn:E; [done|].
      rewrite (proj1 (Hmaps1 r' Hr' _)) in He'. rewrite Hu, (Hex r' j e') by done.
      assert ((r', j) <> (r, i)) by (intros [= -> ->]; lia). set_solver.
  - split.
    + intros pa Hmp Htp. unfold krefs. rewrite Hsz.
      rewrite Erc, Hrc1 by done.
      destruct (Z.eqb_spec pa (PTE2PA e)) as [->|]; lia.
    + intros x Hx. apply Hl1. by left.
    + intros x [Hx Hxt]. rewrite Hmem2 by done. by apply Hmem1.
  - intros r' va Hr' Hva'. rewrite Hmap2 by done. change (has 0 PTE_V) with false.
    destruct (_ && _); [done|]. by apply Hmaps1.
Qed.

Lemma page_range_pages i0 n :
  0 <= n -> page_range (i0 * PGSIZE) ((i0 + n) * PGSIZE) = (fun i => (i0 + i) * PGSIZE) <$> seqZ 0 n.
Proof.
  intros Hn. unfold page_range.
  replace (((i0 + n) * PGSIZE - i0 * PGSIZE + PGSIZE - 1) / PGSIZE) with n
    by (unfold PGSIZE; Z.to_euclidean_division_equations; lia).
  apply list_fmap_ext. intros k i _. lia.
Qed.

Lemma uvmunmap_ok s l tabs users r i0 n :
  vm_ok kend s l tabs users -> is_root tabs r -> 0 <= i0 -> 0 <= n -> i0 + n <= UPAGES ->
  wp (uvmunmap kend r (i0 * PGSIZE) n true) (fun _ s' => exists l' users',
    vm_ok kend s' l' tabs users' /\ vm_shrink s l tabs users s' l' users' /\
    forall r' va, is_root tabs r' -> 0 <= va < MAXVA -> mapping (phys s') r' va =
      if (r' =? r) && (i0 <=? va / PGSIZE) && (va / PGSIZE <? i0 + n) then None
      else mapping (phys s) r' va) s.
Proof.
  intros Hvm Hr Hi0 Hn Hmax. unfold uvmunmap. rewrite Z_mod_mult. simpl.
  rewrite UPAGES_val in Hmax. rewrite (u64_small (n * _)), u64_small by (unfold PGSIZE; lia).
  replace (i0 * PGSIZE + n * PGSIZE) with ((i0 + n) * PGSIZE) by lia.
  rewrite page_range_pages by done. unfold wp. rewrite for_each_fmap.
  apply (wp_for_range n _ (fun k s' => exists l' users',
    vm_ok kend s' l' tabs users' /\ vm_shrink s l tabs users s' l' users' /\
    forall r' va, is_root tabs r' -> 0 <= va < MAXVA -> mapping (phys s') r' va =
      if (r' =? r) && (i0 <=? va / PGSIZE) && (va / PGSIZE <? i0 + k) then None
      else mapping (phys s) r' va)); [done|..].
  - exists l, users. split_and!; [done|apply vm_shrink_refl|]. intros r' va _ _. cif; [lia|done].
  - intros k s1 Hk (l1 & users1 & Hvm1 & Hsh1 & Hmap1).
    eapply wp_mono; [apply (unmap_page_ok s1 l1 tabs users1 r (i0 + k)); try done; rewrite UPAGES_val; lia|].
    intros [] s2 (l2 & users2 & Hvm2 & Hsh2 & Hmap2). exists l2, users2.
    split_and!; [done|by eapply vm_shrink_trans|]. intros r' va Hr' Hva.
    rewrite Hmap2, Hmap1 by done. destruct (r' =? r); simpl; [|done]. repeat cif; try done; lia.
Qed.

Lemma uvmdealloc_ok s l tabs users r oldsz newsz :
  vm_ok kend s l tabs users -> is_root tabs r -> 0 <= newsz -> 0 <= oldsz <= TRAPFRAME ->
  wp (uvmdealloc kend r oldsz newsz) (fun res s' => res = Z.min oldsz newsz /\ exists l' users',
    vm_ok kend s' l' tabs users' /\ vm_shrink s l tabs users s' l' users' /\
    forall r' va, is_root tabs r' -> 0 <= va < MAXVA -> mapping (phys s') r' va =
      if (r' =? r) && (PGROUNDUP res <=? va) && (va <? PGROUNDUP oldsz) then None
      else mapping (phys s) r' va) s.
Proof.
  intros Hvm Hr Hn Ho. change TRAPFRAME with 274877898752 in Ho. unfold uvmdealloc.
  assert (Hnone : forall sz, PGROUNDUP oldsz <= PGROUNDUP sz -> exists l' users',
    vm_ok kend s l' tabs users' /\ vm_shrink s l tabs users s l' users' /\
    forall r' va, is_root tabs r' -> 0 <= va < MAXVA -> mapping (phys s) r' va =
      if (r' =? r) && (PGROUNDUP sz <=? va) && (va <? PGROUNDUP oldsz) then None
      else mapping (phys s) r' va).
  { intros sz Hle. exists l, users. split_and!; [done|apply vm_shrink_refl|]. intros. cif; [lia|done]. }
  rewrite Z.geb_leb. destruct (Z.leb_spec oldsz newsz) as [Hle|Hlt]; [by apply wp_ret; split; [lia|apply Hnone]|].
  apply wp_bind. eapply (wp_mono _ (fun _ s' => exists l' users', _)).
  2:{ intros [] s' H. apply wp_ret. split; [lia|exact H]. }
  destruct (Z.ltb_spec (PGROUNDUP newsz) (PGROUNDUP oldsz)) as [Hl|Hge]; [|by apply wp_ret, Hnone].
  rewrite !PGROUNDUP_spec in * by (unfold PGSIZE; lia).
  set (i0 := (newsz + PGSIZE - 1) / PGSIZE) in *. set (i1 := (oldsz + PGSIZE - 1) / PGSIZE) in *.
  assert (0 <= i0 < i1 /\ i1 <= 67108862) as [? ?]
    by (unfold i0, i1, PGSIZE in *; Z.to_euclidean_division_equations; lia).
  rewrite (u64_small (_ - _)), <- Z.mul_sub_distr_r, Z.div_mul, s32_small, u64_small by (unfold PGSIZE; lia).
  eapply wp_mono; [apply (uvmunmap_ok s l tabs users r i0 (i1 - i0)); try done; rewrite ?UPAGES_val; lia|].
  intros [] s' (l' & users' & Hvm' & Hsh' & Hmap'). exists l', users'. split_and!; try done.
  intros r' va Hr' Hva. rewrite Hmap' by done.
  destruct (r' =? r); simpl; [|done]. replace (i0 + (i1 - i0)) with i1 by lia.
  unfold PGSIZE. repeat cif; try done; Z.to_euclidean_division_equations; lia.
Qed.

(** ** Allocating *)

(** Effect of adding mappings: allocated memory keeps its contents, new
    table pages come from the free list, and references that are not
    mappings stay as they are. *)
Record vm_rel (s : kmem_state) (l : list (Z * Z)) (tabs : tabmap) (users : usermap)
    (s' : kmem_state) (l' : list (Z * Z)) (tabs' : tabmap) (users' : usermap) : Prop := {
  vr_krefs : forall pa, managed kend pa -> tabs pa = None -> tabs' pa = None ->
    krefs s' users' pa = krefs s users pa;
  vr_free : forall x, in_runs l' x -> in_runs l x;
  vr_tabs : forall p z, tabs p = Some z -> tabs' p = Some z;
  vr_new : forall p z, tabs' p = Some z -> tabs p = Some z \/ forall x, p <= x < p + PGSIZE -> in_runs l x;
  vr_root : forall r, is_root tabs' r <-> is_root tabs r;
  vr_mem : forall x, data_byte tabs l x -> phys s' x = phys s x
}.

Lemma vm_rel_refl s l tabs users : vm_rel s l tabs users s l tabs users.
Proof. split; try done. by left. Qed.

Lemma vm_rel_data s l tabs users s' l' tabs' users' x :
  vm_rel s l tabs users s' l' tabs' users' -> data_byte tabs l x -> data_byte tabs' l' x.
Proof.
  intros Hrel [Hl Ht]. split; [by intros ?%(vr_free _ _ _ _ _ _ _ _ Hrel)|].
  intros (p & z & Hp & Hx). destruct (vr_new _ _ _ _ _ _ _ _ Hrel p z Hp) as [?|Hin].
  - apply Ht. by exists p, z.
  - by apply Hl, Hin.
Qed.

Lemma vm_rel_trans s1 l1 tabs1 users1 s2 l2 tabs2 users2 s3 l3 tabs3 users3 :
  vm_rel s1 l1 tabs1 users1 s2 l2 tabs2 users2 -> vm_rel s2 l2 tabs2 users2 s3 l3 tabs3 users3 ->
  vm_rel s1 l1 tabs1 users1 s3 l3 tabs3 users3.
Proof.
  intros H12 H23. split.
  - intros pa Hm H1 H3. assert (H2 : tabs2 pa = None).
    { destruct (tabs2 pa) eqn:E; [|done]. apply (vr_tabs _ _ _ _ _ _ _ _ H23) in E. congruence. }
    by rewrite (vr_krefs _ _ _ _ _ _ _ _ H23), (vr_krefs _ _ _ _ _ _ _ _ H12).
  - intros x Hx. by apply H12, H23.
  - intros p z Hp. by apply H23, H12.
  - intros p z Hp. destruct (vr_new _ _ _ _ _ _ _ _ H23 p z Hp) as [Hp2|Hin]; [by apply H12|].
    right. intros x Hx. by apply H12, Hin.
  - intros r. by rewrite (vr_root _ _ _ _ _ _ _ _ H23), (vr_root _ _ _ _ _ _ _ _ H12).
  - intros x Hx. rewrite (vr_mem _ _ _ _ _ _ _ _ H23) by by eapply vm_rel_data. by apply H12.
Qed.

(** A free page has no user and no count. *)
Lemma free_page s l tabs users pa :
  vm_ok kend s l tabs users -> managed kend pa -> in_runs l pa ->
  users pa = ∅ /\ ref_count s (PA2IDX pa) = 0 /\ krefs s users pa = 0.
Proof.
  intros Hvm Hm Hin. pose proof (vk_inv _ _ _ _ _ Hvm) as Hv.
  assert (Hu : users pa = ∅).
  { apply elem_of_equiv_empty_L. intros ri Hri. by destruct (user_ref _ _ _ _ _ _ Hvm Hri) as (_ & _ & ? & _). }
  pose proof (proj2 (proj2 (ko_rc _ _ _ (vi_kmem _ _ _ _ _ Hv) pa Hm)) Hin) as Hr.
  unfold krefs. rewrite Hu, Hr, size_empty. done.
Qed.

Lemma in_runs_whole_page s l x p :
  kmem_ok kend s l -> p mod PGSIZE = 0 -> in_runs l p -> p <= x < p + PGSIZE -> in_runs l x.
Proof.
  intros Hok Hp (a & k & Hin & Ha) Hx. exists a, k. split; [done|].
  destruct (runs_from_in _ _ _ _ (ko_runs _ _ _ Hok) Hin) as (_ & Hal & _).
  unfold PGSIZE in *. Z.to_euclidean_division_equations. lia.
Qed.

(** A new mapping of a page that was free. *)
Lemma vm_ok_fresh s l tabs users s' l' tabs' r i pa :
  vm_ok kend s l tabs users -> managed kend pa -> in_runs l pa ->
  (forall p, (r, i) ∉ users p) -> vm_inv kend s' l' tabs' (assign users (r, i) (Some pa)) ->
  ref_count s' (PA2IDX pa) = 1 ->
  (forall p, managed kend p -> ~ in_runs l p -> ref_count s' (PA2IDX p) = ref_count s (PA2IDX p)) ->
  (forall p, managed kend p -> in_runs l p -> p <> pa -> ~ in_runs l' p -> tabs' p <> None) ->
  (forall r' j e, is_root tabs' r' -> 0 <= j < UPAGES -> mapping (phys s') r' (j * PGSIZE) = Some e ->
     (r' = r /\ j = i /\ PTE2PA e = pa) \/ (is_root tabs r' /\ mapping (phys s) r' (j * PGSIZE) = Some e)) ->
  vm_ok kend s' l' tabs' (assign users (r, i) (Some pa)) /\
  assign users (r, i) (Some pa) pa = {[(r, i)]} /\
  (forall p, managed kend p -> tabs' p = None ->
     krefs s' (assign users (r, i) (Some pa)) p = krefs s users p).
Proof.
  intros Hvm Hm Hin Hri Hv' Hr1 Hrest Hnew Hmap. destruct (free_page _ _ _ _ _ Hvm Hm Hin) as (Hu & Hr0 & Hk0).
  assert (Hpa : assign users (r, i) (Some pa) pa = {[(r, i)]})
    by (unfold assign; rewrite decide_True by done; set_solver).
  assert (Hp : forall p, p <> pa -> assign users (r, i) (Some pa) p = users p).
  { intros p Hne. unfold assign. rewrite decide_False by congruence. specialize (Hri p). set_solver. }
  split_and!; try done.
  - split; try done.
    + intros p Hne. destruct (decide (p = pa)) as [->|Hpp]; [by rewrite Hpa, size_singleton, Hr1|].
      rewrite (Hp _ Hpp) in *. destruct (set_choose_L _ Hne) as [ri Hri'].
      destruct (user_ref _ _ _ _ _ _ Hvm Hri') as (Hmp & _ & Hl & _ & E). by rewrite Hrest.
    + intros p r1 i1 r2 i2. destruct (decide (p = pa)) as [->|Hpp]; [rewrite Hpa; set_solver|].
      rewrite (Hp _ Hpp). apply Hvm.
    + intros r' j e Hr' Hj He Hw. destruct (Hmap r' j e Hr' Hj He) as [(-> & -> & ->)|[Hr He']]; [done|].
      pose proof (vk_excl _ _ _ _ _ Hvm r' j e Hr Hj He' Hw) as Eu. rewrite Hp; [done|]. intros Epa.
      rewrite Epa, Hu in Eu. set_solver.
  - intros p Hmp Htp. destruct (decide (p = pa)) as [->|Hpp].
    { rewrite Hk0. unfold krefs. rewrite Hpa, Hr1, size_singleton. done. }
    unfold krefs. rewrite (Hp _ Hpp). destruct (in_runs_dec l p) as [Hl|Hl]; [|by rewrite Hrest].
    destruct (free_page _ _ _ _ _ Hvm Hmp Hl) as (_ & -> & _).
    destruct (in_runs_dec l' p) as [Hl'|Hl']; [|by destruct (Hnew p Hmp Hl Hpp Hl')].
    by rewrite (proj2 (proj2 (ko_rc _ _ _ (vi_kmem _ _ _ _ _ Hv') p Hmp)) Hl').
Qed.

(** The common sequence of [uvmalloc] and of [vmfault]'s first case:
    allocate, clear and map one page, giving it back if it cannot be
    mapped. *)
Lemma map_fresh_ok s l tabs users r i perm (kfail : M kmem_state Z) (kok : Z -> M kmem_state Z) Q :
  vm_ok kend s l tabs users -> is_root tabs r -> 0 <= i < UPAGES -> 0 <= perm < 1024 ->
  mapping (phys s) r (i * PGSIZE) = None ->
  (forall s' l' tabs', vm_ok kend s' l' tabs' users -> vm_rel s l tabs users s' l' tabs' users ->
     (forall r' va, is_root tabs r' -> 0 <= va < MAXVA -> mapping (phys s') r' va = mapping (phys s) r' va) ->
     wp kfail Q s') ->
  (forall page s' l' tabs' users', vm_ok kend s' l' tabs' users' -> vm_rel s l tabs users s' l' tabs' users' ->
     managed kend page -> in_runs l page -> users' page = {[(r, i)]} ->
     (forall x, page <= x < page + PGSIZE -> phys s' x = 0) ->
     (forall r' va, is_root tabs r' -> 0 <= va < MAXVA -> mapping (phys s') r' va =
        if (r' =? r) && (va / PGSIZE =? i) then Some (Z.lor (Z.lor (PA2PTE page) perm) PTE_V)
        else mapping (phys s) r' va) ->
     wp (kok page) Q s') ->
  wp (let! page := kalloc in
      if page =? 0 then kfail else
      do! kupd (set_phys (fun m => memset m page 0 PGSIZE));
      let! res := mappages r (i * PGSIZE) PGSIZE page perm in
      if negb (res =? 0) then do! kfree kend page; kfail
      else kok page) Q s.
Proof.
  intros Hvm Hr Hi Hperm Hnone Hfail Hok. pose proof (vk_inv _ _ _ _ _ Hvm) as Hv.
  apply wp_bind. eapply wp_mono; [by apply (vm_kalloc kend Hkend s l tabs users)|].
  intros page s1 [[-> ->]|(Hp0 & Hm & Hin & Ht & l1 & Hv1 & Hl1 & Hrc1 & Hmaps1 & Hmem1)].
  { apply (Hfail s l tabs); try done. apply vm_rel_refl. }
  rewrite (proj2 (Z.eqb_neq _ 0)) by done. apply wp_bind, wp_upd.
  assert (Hnin1 : ~ in_runs l1 page) by (rewrite Hl1; unfold PGSIZE; lia).
  set (f := fun m : mem => memset m page 0 PGSIZE).
  assert (Hz : forall m x, page <= x < page + PGSIZE -> f m x = 0)
    by (intros m x Hx; unfold f; apply memset_in; lia).
  assert (Hf : forall m x, ~ (page <= x < page + PGSIZE) -> f m x = m x)
    by (intros m x Hx; unfold f; apply memset_out; [unfold PGSIZE; lia|done]).
  clearbody f.
  destruct (vm_write kend s1 l1 tabs users page f Hv1 Hm Ht Hnin1 (Hf _)) as [Hv2 Hmaps2].
  set (s2 := set_phys f s1) in *. apply wp_bind.
  assert (Hfree : forall p r' j, (r', j) ∈ users p -> managed kend p /\ ~ in_runs l p).
  { intros p r' j Hu. by destruct (user_ref _ _ _ _ _ _ Hvm Hu) as (? & _ & ? & _). }
  assert (Hm12 : forall r', is_root tabs r' -> same_maps (phys s) (phys s2) r').
  { intros r' Hr' va. destruct (Hmaps2 r' Hr' va) as [E1 E2]. destruct (Hmaps1 r' Hr' va) as [E3 E4].
    split; [by rewrite <- E3|]. intros q. by rewrite <- E4. }
  eapply wp_mono.
  { apply (vm_mappages kend Hkend s2 l1 tabs users r i page perm); try done.
    - intros p r' j Hu Hp. apply Hl1 in Hp as [Hp _]. by destruct (Hfree _ _ _ Hu).
    - by rewrite (proj1 (Hm12 r Hr _)). }
  intros res s3 (l3 & tabs3 & Hext & Hoth & Hres).
  assert (Hmem3 : forall x, data_byte tabs l x -> phys s3 x = phys s x).
  { intros x [Hx Hxt]. rewrite (ve_mem _ _ _ _ _ _ _ Hext).
    - unfold s2. simpl. rewrite Hf; [by apply Hmem1|]. contradict Hx.
      by eapply (in_runs_whole_page s l); [apply Hv|apply Hm|..].
    - split; [|done]. rewrite Hl1. tauto. }
  assert (Hrc3 : forall p, managed kend p -> ~ in_runs l p -> ref_count s3 (PA2IDX p) = ref_count s (PA2IDX p)).
  { intros p Hmp Hlp. rewrite (ve_ref _ _ _ _ _ _ _ Hext) by (rewrite ?Hl1; tauto).
    change (ref_count s2) with (ref_count s1). rewrite Hrc1 by done.
    destruct (Z.eqb_spec p page); [congruence|done]. }
  assert (Hrc3' : ref_count s3 (PA2IDX page) = 1).
  { rewrite (ve_ref _ _ _ _ _ _ _ Hext) by done. change (ref_count s2) with (ref_count s1).
    by rewrite Hrc1, Z.eqb_refl. }
  assert (Ht3 : tabs3 page = None).
  { destruct (tabs3 page) as [z|] eqn:E; [|done]. destruct (ve_new _ _ _ _ _ _ _ Hext _ _ E); [congruence|done]. }
  assert (Hnew3 : (exists u, vm_inv kend s3 l3 tabs3 u) -> forall p z, tabs3 p = Some z ->
            tabs p = Some z \/ forall x, p <= x < p + PGSIZE -> in_runs l x).
  { intros [u Hu] p z Hp. destruct (ve_new _ _ _ _ _ _ _ Hext p z Hp) as [?|Hinp]; [by left|right].
    intros x Hx. destruct (tab_page kend _ _ _ _ _ _ Hu Hp) as [Hmp _]. apply Hl1 in Hinp as [Hinp _].
    by eapply (in_runs_whole_page s l); [apply Hv|apply Hmp|..]. }
  destruct Hres as [(-> & Hv3 & Hmap3)|(-> & Hv3 & Hmap3)]; simpl.
  - destruct (vm_ok_fresh s l tabs users s3 l3 tabs3 r i page) as (Hvm3 & Hu3 & Hk3); try done.
    { intros p Hu. apply (vi_users _ _ _ _ _ Hv) in Hu as (_ & _ & e & He & _). congruence. }
    { intros p Hmp Hlp Hne Hl3. apply (ve_taken _ _ _ _ _ _ _ Hext p Hmp); [|done].
      apply Hl1. split; [done|]. contradict Hne. symmetry.
      eapply in_page_aligned; [apply Hm|apply Hmp|exact Hne|unfold PGSIZE; lia]. }
    { intros r' j e Hr'%(ve_root _ _ _ _ _ _ _ Hext) Hj He. destruct (decide (r' = r)) as [->|Hne].
      - rewrite Hmap3, page_index in He by by apply upage_va. destruct (Z.eqb_spec j i) as [->|].
        + left. split_and!; try done. simplify_eq. rewrite <- Z.lor_assoc.
          destruct (managed_range kend Hkend page Hm) as (_ & ? & ?).
          apply PTE2PA_PA2PTE; try done. apply lor_flags; [done|unfold PTE_V; lia].
        + right. split; [done|]. by rewrite <- (proj1 (Hm12 r Hr _)).
      - right. split; [done|]. by rewrite <- (proj1 (Hm12 r' Hr' _)), <- (proj1 (Hoth r' Hr' Hne _)). }
    apply (Hok page s3 l3 tabs3 _ Hvm3); try done.
    + split; try done; try apply Hext; [by auto| |by eauto].
      intros x Hx. apply (ve_free _ _ _ _ _ _ _ Hext), Hl1 in Hx. tauto.
    + intros x Hx. rewrite (ve_mem _ _ _ _ _ _ _ Hext).
      * by apply Hz.
      * split; [rewrite Hl1; tauto|]. by eapply (tab_same_page kend).
    + intros r' va Hr' Hva. destruct (Z.eqb_spec r' r) as [->|Hne]; simpl.
      * rewrite Hmap3 by done. by rewrite (proj1 (Hm12 r Hr va)).
      * rewrite (proj1 (Hoth r' Hr' Hne va)). by apply Hm12.
  - apply wp_bind. eapply wp_mono; [apply (vm_kfree kend Hkend s3 l3 tabs3 users page); try done; lia|].
    intros [] s4 (l4 & Hv4 & Hl4 & Hrc4 & Hmaps4 & Hmem4). rewrite Hrc3' in Hl4.
    assert (Hl4l : forall x, in_runs l4 x -> in_runs l x).
    { intros x [Hx|[_ Hx]]%Hl4; [apply (ve_free _ _ _ _ _ _ _ Hext), Hl1 in Hx; tauto|].
      by eapply (in_runs_whole_page s l); [apply Hv|apply Hm|..]. }
    assert (Hmap4 : forall r' va, is_root tabs r' -> 0 <= va < MAXVA ->
              mapping (phys s4) r' va = mapping (phys s) r' va).
    { intros r' va Hr' Hva. pose proof (proj2 (ve_root _ _ _ _ _ _ _ Hext r') Hr') as Hr3.
      rewrite (proj1 (Hmaps4 r' Hr3 va)). destruct (decide (r' = r)) as [->|Hne].
      - rewrite Hmap3 by done. apply Hm12, Hr.
      - rewrite (proj1 (Hoth r' Hr' Hne va)). by apply Hm12. }
    assert (Hvm4 : vm_ok kend s4 l4 tabs3 users).
    { split; [done| |apply Hvm|].
      - intros p Hne. destruct (set_choose_L _ Hne) as [[r' j] Hu].
        destruct (Hfree _ _ _ Hu) as [Hmp Hlp]. rewrite Hrc4 by done.
        destruct (Z.eqb_spec p page); [congruence|]. rewrite Hrc3 by done. by apply Hvm.
      - intros r' j e Hr'%(ve_root _ _ _ _ _ _ _ Hext) Hj. rewrite Hmap4 by (done || by apply upage_va).
        by apply Hvm. }
    apply (Hfail s4 l4 tabs3 Hvm4); [|done].
    split; try apply Hext; [|done|by eauto|].
    + intros p Hmp Htp Ht3p. unfold krefs. destruct (in_runs_dec l p) as [Hlp|Hlp].
        -- destruct (free_page _ _ _ _ _ Hvm Hmp Hlp) as (-> & -> & _).
           destruct (in_runs_dec l4 p) as [Hlp4|Hlp4].
           { by destruct (free_page _ _ _ _ _ Hvm4 Hmp Hlp4) as (_ & -> & _). }
           destruct (ve_taken _ _ _ _ _ _ _ Hext p Hmp); [apply Hl1|contradict Hlp4; apply Hl4; by left|done].
           split; [done|]. contradict Hlp4. apply Hl4. by right.
        -- rewrite Hrc4 by done. destruct (Z.eqb_spec p page); [congruence|]. by rewrite Hrc3.
    + intros x Hx. rewrite Hmem4; [by apply Hmem3|]. destruct Hx as [Hx _]. by intros ?%Hl4l.
Qed.

(** Releasing everything that was added restores the free pages. *)
Lemma vm_rel_restore s l tabs users s1 l1 tabs1 users1 s2 l2 users2 :
  vm_ok kend s l tabs users -> vm_rel s l tabs users s1 l1 tabs1 users1 ->
  vm_ok kend s2 l2 tabs1 users2 -> vm_shrink s1 l1 tabs1 users1 s2 l2 users2 ->
  (forall ri pa, ri ∈ users pa -> ri ∈ users2 pa) ->
  vm_rel s l tabs users s2 l2 tabs1 users2.
Proof.
  intros Hvm Hrel Hvm2 Hsh Hsub.
  assert (Hk : forall pa, managed kend pa -> tabs pa = None -> tabs1 pa = None ->
            krefs s2 users2 pa = krefs s users pa).
  { intros pa Hm Ht Ht1. by rewrite (vs_krefs _ _ _ _ _ _ _ Hsh), (vr_krefs _ _ _ _ _ _ _ _ Hrel). }
  assert (Hfree : forall x, in_runs l2 x -> in_runs l x).
  { intros x Hx. set (p := x / PGSIZE * PGSIZE).
    assert (Hpx : p <= x < p + PGSIZE) by (unfold p, PGSIZE; Z.to_euclidean_division_equations; lia).
    assert (Hpal : p mod PGSIZE = 0) by apply Z_mod_mult.
    pose proof (vi_kmem _ _ _ _ _ (vk_inv _ _ _ _ _ Hvm2)) as Hok2.
    assert (Hp2 : in_runs l2 p) by (by eapply in_runs_page; [apply Hok2|..]).
    assert (Hm : managed kend p).
    { destruct Hp2 as (a & k & Hin & Ha). destruct (runs_from_in _ _ _ _ (ko_runs _ _ _ Hok2) Hin) as (? & ? & ? & ?).
      unfold managed, PGSIZE in *. split; [done|]. Z.to_euclidean_division_equations. lia. }
    destruct (free_page _ _ _ _ _ Hvm2 Hm Hp2) as (Hu2 & _ & Hk2).
    assert (Ht1 : tabs1 p = None).
    { destruct (tabs1 p) eqn:E; [|done]. by destruct (tab_page kend _ _ _ _ _ _ (vk_inv _ _ _ _ _ Hvm2) E). }
    assert (Ht : tabs p = None).
    { destruct (tabs p) eqn:E; [|done]. apply (vr_tabs _ _ _ _ _ _ _ _ Hrel) in E. congruence. }
    destruct (in_runs_dec l p) as [Hl|Hl].
    { eapply (in_runs_whole_page s l); try done. apply Hvm. }
    pose proof (proj2 (allocated_ref kend s l p (vi_kmem _ _ _ _ _ (vk_inv _ _ _ _ _ Hvm)) Hm) Hl) as Hr.
    rewrite (Hk p Hm Ht Ht1) in Hk2. unfold krefs in Hk2.
    assert (users p <> ∅) as [ri Hu]%set_choose_L by (intros E; rewrite E, size_empty in Hk2; lia).
    apply Hsub in Hu. rewrite Hu2 in Hu. set_solver. }
  split; try done; try apply Hrel.
  intros x Hx. rewrite (vs_mem _ _ _ _ _ _ _ Hsh).
  - by apply (vr_mem _ _ _ _ _ _ _ _ Hrel).
  - destruct (vm_rel_data _ _ _ _ _ _ _ _ _ Hrel Hx) as [_ Ht]. split; [|done].
    destruct Hx as [Hx _]. by intros ?%Hfree.
Qed.

(** The pages [i0, i) of [r] are new, private and zero; nothing else
    changed. *)
Definition uvm_added (r i0 i perm : Z) (s : kmem_state) (l : list (Z * Z)) (tabs : tabmap)
    (s' : kmem_state) (users' : usermap) : Prop :=
  (forall j, i0 <= j < i -> exists page, in_runs l page /\ users' page = {[(r, j)]} /\
     (forall x, page <= x < page + PGSIZE -> phys s' x = 0) /\
     mapping (phys s') r (j * PGSIZE) = Some (Z.lor (Z.lor (PA2PTE page) perm) PTE_V)) /\
  (forall r' va, is_root tabs r' -> 0 <= va < MAXVA -> ~ (r' = r /\ i0 <= va / PGSIZE < i) ->
     mapping (phys s') r' va = mapping (phys s) r' va).

Lemma uvm_added_step r i0 i perm s l tabs users s1 l1 tabs1 users1 s2 l2 tabs2 users2 page :
  vm_ok kend s l tabs users -> vm_rel s l tabs users s1 l1 tabs1 users1 ->
  vm_ok kend s1 l1 tabs1 users1 -> vm_rel s1 l1 tabs1 users1 s2 l2 tabs2 users2 ->
  vm_ok kend s2 l2 tabs2 users2 -> is_root tabs r -> 0 <= i0 <= i -> i < UPAGES ->
  uvm_added r i0 i perm s l tabs s1 users1 ->
  in_runs l1 page -> users2 page = {[(r, i)]} -> (forall x, page <= x < page + PGSIZE -> phys s2 x = 0) ->
  (forall r' va, is_root tabs1 r' -> 0 <= va < MAXVA -> mapping (phys s2) r' va =
     if (r' =? r) && (va / PGSIZE =? i) then Some (Z.lor (Z.lor (PA2PTE page) perm) PTE_V)
     else mapping (phys s1) r' va) ->
  uvm_added r i0 (i + 1) perm s l tabs s2 users2.
Proof.
  intros Hvm Hrel1 Hvm1 Hrel2 Hvm2 Hr Hi0 Hi [Hnew Hold] Hpin Hpu Hpz Hmap. split.
  - intros j Hj. assert (Hjr : 0 <= j * PGSIZE < MAXVA) by (apply upage_va; lia).
    rewrite Hmap, page_index by (done || by apply (vr_root _ _ _ _ _ _ _ _ Hrel1)). rewrite Z.eqb_refl. simpl.
    destruct (Z.eqb_spec j i) as [->|Hne].
    { exists page. split_and!; try done. by apply (vr_free _ _ _ _ _ _ _ _ Hrel1). }
    destruct (Hnew j ltac:(lia)) as (q & Hq & Hqu & Hqz & Hqm). exists q.
    assert (Hqin : (r, j) ∈ users1 q) by set_solver.
    destruct (user_ref _ _ _ _ _ _ Hvm1 Hqin) as (Hqm1 & Hqt & Hql & Hqr & _).
    assert (Hdata : forall x, q <= x < q + PGSIZE -> data_byte tabs1 l1 x).
    { intros x Hx. split.
      - contradict Hql. eapply in_runs_page; [apply (vi_kmem _ _ _ _ _ (vk_inv _ _ _ _ _ Hvm1))|apply Hqm1|done|done].
      - by eapply (tab_same_page kend); [apply Hvm1|..]. }
    split_and!; try done.
    + apply set_eq. intros [r' j']. rewrite <- Hqu.
      pose proof (vi_users _ _ _ _ _ (vk_inv _ _ _ _ _ Hvm1) q r' j') as H1.
      pose proof (vi_users _ _ _ _ _ (vk_inv _ _ _ _ _ Hvm2) q r' j') as H2.
      rewrite H1, H2, (vr_root _ _ _ _ _ _ _ _ Hrel2). clear H1 H2.
      split; intros (Hr' & Hj' & e & He & Heq); split_and!; try done; try lia; exists e; split; try done.
      * rewrite Hmap, page_index in He by (done || by apply upage_va).
        destruct ((r' =? r) && (j' =? i)) eqn:E; [|done]. exfalso. cbool.
        assert ((r, i) ∈ users2 q) as Hx.
        { apply (vi_users _ _ _ _ _ (vk_inv _ _ _ _ _ Hvm2)). split; [|split; [lia|]].
          - by apply (vr_root _ _ _ _ _ _ _ _ Hrel2), (vr_root _ _ _ _ _ _ _ _ Hrel1).
          - exists e. rewrite Hmap, page_index, !Z.eqb_refl by (try (apply upage_va; lia); by apply (vr_root _ _ _ _ _ _ _ _ Hrel1)). done. }
        assert ((r, i) ∈ users2 page) as Hy by set_solver.
        pose proof (users_fun _ _ _ _ _ _ _ _ (vk_inv _ _ _ _ _ Hvm2) Hx Hy) as ->. done.
      * rewrite Hmap, page_index by (done || by apply upage_va).
        destruct ((r' =? r) && (j' =? i)) eqn:E; [|done]. exfalso.
        assert ((r', j') ∈ users1 q) as Hx by (apply (vi_users _ _ _ _ _ (vk_inv _ _ _ _ _ Hvm1)); eauto).
        rewrite Hqu in Hx. apply elem_of_singleton in Hx. simplify_eq. lia.
    + intros x Hx. rewrite (vr_mem _ _ _ _ _ _ _ _ Hrel2) by by apply Hdata. by apply Hqz.
  - intros r' va Hr' Hva Hne. rewrite Hmap by (done || by apply (vr_root _ _ _ _ _ _ _ _ Hrel1)).
    destruct (_ && _) eqn:E; [cbool; destruct Hne; lia|]. apply Hold; try done. lia.
Qed.

Lemma PGROUNDUP_aligned i : 0 <= i <= UPAGES -> PGROUNDUP (i * PGSIZE) = i * PGSIZE.
Proof.
  rewrite UPAGES_val. intros Hi. rewrite PGROUNDUP_spec by (unfold PGSIZE; lia). unfold PGSIZE.
  Z.to_euclidean_division_equations. lia.
Qed.

Section alloc_loop.
Context (s : kmem_state) (l : list (Z * Z)) (tabs : tabmap) (users : usermap) (r i0 perm newsz xperm : Z).
Context (Hvm : vm_ok kend s l tabs users) (Hr : is_root tabs r) (Hi0 : 0 <= i0)
  (Hx : 0 <= xperm < 1024) (Hperm : perm = Z.lor (Z.lor PTE_R PTE_U) xperm).

Definition alloc_post (i : Z) (res : Z) (s' : kmem_state) : Prop :=
  exists l' tabs' users', vm_ok kend s' l' tabs' users' /\ vm_rel s l tabs users s' l' tabs' users' /\
    ((res = newsz /\ uvm_added r i0 i perm s l tabs s' users') \/
     (res = 0 /\ forall r' va, is_root tabs r' -> 0 <= va < MAXVA ->
        mapping (phys s') r' va = mapping (phys s) r' va)).

(** Undoing a partial allocation. *)
Lemma uvmalloc_undo s1 l1 tabs1 users1 i j :
  vm_ok kend s1 l1 tabs1 users1 -> vm_rel s l tabs users s1 l1 tabs1 users1 ->
  i0 <= i <= UPAGES -> (forall j, i0 <= j < i -> mapping (phys s) r (j * PGSIZE) = None) ->
  (forall r' va, is_root tabs r' -> 0 <= va < MAXVA -> ~ (r' = r /\ i0 <= va / PGSIZE < i) ->
     mapping (phys s1) r' va = mapping (phys s) r' va) ->
  wp (let! _ := uvmdealloc kend r (i * PGSIZE) (i0 * PGSIZE) in kret 0) (alloc_post j) s1.
Proof.
  intros Hvm1 Hrel Hi Hnone Hold. apply wp_bind.
  eapply wp_mono; [apply (uvmdealloc_ok s1 l1 tabs1 users1 r)|].
  - done.
  - by apply (vr_root _ _ _ _ _ _ _ _ Hrel).
  - unfold PGSIZE; lia.
  - rewrite UPAGES_val in Hi. change TRAPFRAME with (67108862 * PGSIZE). unfold PGSIZE. lia.
  - intros res s2 (-> & l2 & users2 & Hvm2 & Hsh & Hmap2). apply wp_ret.
    replace (Z.min (i * PGSIZE) (i0 * PGSIZE)) with (i0 * PGSIZE) in Hmap2 by (unfold PGSIZE; lia).
    rewrite !PGROUNDUP_aligned in Hmap2 by lia.
    assert (Hm : forall r' va, is_root tabs r' -> 0 <= va < MAXVA ->
              mapping (phys s2) r' va = mapping (phys s) r' va).
    { intros r' va Hr' Hva. rewrite Hmap2 by (done || by apply (vr_root _ _ _ _ _ _ _ _ Hrel)).
      destruct (_ && _) eqn:E; cbool.
      - rewrite <- (Hnone (va / PGSIZE)) by (unfold PGSIZE in *; Z.to_euclidean_division_equations; lia).
        unfold mapping. replace r' with r by lia. pose proof (page_index (va / PGSIZE)).
        by rewrite !(PX_page va (va / PGSIZE * PGSIZE)) by (done || lia || (unfold PGSIZE; Z.to_euclidean_division_equations; lia)).
      - apply Hold; try done. unfold PGSIZE in *. Z.to_euclidean_division_equations. lia. }
    exists l2, tabs1, users2. split_and!; [done| |by right].
    eapply (vm_rel_restore s l tabs users s1); try done. intros [r' j'] pa Hu.
    apply (vi_users _ _ _ _ _ (vk_inv _ _ _ _ _ Hvm)) in Hu as (Hroot & Hj & e & He & Hpe).
    apply (vi_users _ _ _ _ _ (vk_inv _ _ _ _ _ Hvm2)).
    split; [by apply (vr_root _ _ _ _ _ _ _ _ Hrel)|]. split; [done|]. exists e.
    by rewrite Hm by (done || by apply upage_va).
Qed.

Lemma uvmalloc_loop_ok n s1 l1 tabs1 users1 i :
  vm_ok kend s1 l1 tabs1 users1 -> vm_rel s l tabs users s1 l1 tabs1 users1 ->
  i0 <= i -> 0 <= n -> i + n <= UPAGES ->
  (forall j, i0 <= j < i + n -> mapping (phys s) r (j * PGSIZE) = None) ->
  uvm_added r i0 i perm s l tabs s1 users1 ->
  wp (uvmalloc_loop kend ((fun j => (i + j) * PGSIZE) <$> seqZ 0 n) r (i0 * PGSIZE) newsz xperm)
     (alloc_post (i + n)) s1.
Proof.
  intros Hvm1 Hrel1 Hi Hn. revert s1 l1 tabs1 users1 i Hvm1 Hrel1 Hi.
  apply (Z_of_nat_complete) in Hn as [k ->]. induction k as [|k IH]; intros s1 l1 tabs1 users1 i Hvm1 Hrel1 Hi Hmax Hnone Hadd.
  { simpl. apply wp_ret. exists l1, tabs1, users1. split_and!; try done. left. by rewrite Z.add_0_r. }
  rewrite Nat2Z.inj_succ, seqZ_cons by lia. rewrite fmap_cons. simpl. rewrite Z.add_0_r.
  assert (Hmi : mapping (phys s1) r (i * PGSIZE) = None).
  { rewrite (proj2 Hadd), (Hnone i) by (done || lia || (apply upage_va; lia) || (rewrite page_index; lia)). done. }
  apply (map_fresh_ok s1 l1 tabs1 users1 r i (Z.lor (Z.lor PTE_R PTE_U) xperm)); try done; try lia.
  - by apply (vr_root _ _ _ _ _ _ _ _ Hrel1).
  - apply lor_flags; [done|lia].
  - intros s2 l2 tabs2 Hvm2 Hrel2 Hmap2. apply (uvmalloc_undo s2 l2 tabs2 users1 i); try done; try lia.
    + by eapply vm_rel_trans.
    + intros j Hj. apply Hnone. lia.
    + intros r' va Hr' Hva Hne. rewrite Hmap2 by (done || by apply (vr_root _ _ _ _ _ _ _ _ Hrel1)). by apply Hadd.
  - intros page s2 l2 tabs2 users2 Hvm2 Hrel2 Hpm Hpin Hpu Hpz Hmap2. rewrite <- Hperm in Hmap2.
    replace (i + Z.succ (Z.of_nat k)) with (i + 1 + Z.of_nat k) by lia.
    replace ((fun j => (i + j) * PGSIZE) <$> seqZ (Z.succ 0) (Z.pred (Z.succ (Z.of_nat k))))
      with ((fun j => (i + 1 + j) * PGSIZE) <$> seqZ 0 (Z.of_nat k)).
    2:{ rewrite Z.pred_succ. change (Z.succ 0) with (1 + 0). rewrite <- (fmap_add_seqZ 1 0), <- list_fmap_compose.
        apply list_fmap_ext. intros ? x _. simpl. lia. }
    apply (IH s2 l2 tabs2 users2 (i + 1)); try done; try lia.
    + by eapply vm_rel_trans.
    + intros j Hj. apply Hnone. lia.
    + eapply (uvm_added_step r i0 i perm s l tabs users s1 l1 tabs1 users1); try done; lia.
Qed.

End alloc_loop.

Lemma uvmalloc_ok s l tabs users r oldsz newsz xperm :
  vm_ok kend s l tabs users -> is_root tabs r -> 0 <= oldsz -> newsz <= TRAPFRAME -> 0 <= xperm < 1024 ->
  let i0 := (oldsz + PGSIZE - 1) / PGSIZE in
  let i1 := (newsz + PGSIZE - 1) / PGSIZE in
  (forall j, i0 <= j < i1 -> mapping (phys s) r (j * PGSIZE) = None) ->
  wp (uvmalloc kend r oldsz newsz xperm) (fun res s' =>
    if newsz <? oldsz then res = oldsz /\ s' = s
    else alloc_post s l tabs users r i0 (Z.lor (Z.lor PTE_R PTE_U) xperm) newsz (Z.max i0 i1) res s') s.
Proof.
  intros Hvm Hr Ho Hn Hx i0 i1 Hnone. change TRAPFRAME with (67108862 * PGSIZE) in Hn.
  unfold uvmalloc. destruct (Z.ltb_spec newsz oldsz) as [Hlt|Hge]; [by apply wp_ret|].
  rewrite PGROUNDUP_spec by (unfold PGSIZE in *; lia). fold i0.
  assert (0 <= i0 /\ i0 <= i1 /\ i1 <= 67108862) as (? & ? & ?)
    by (unfold i0, i1, PGSIZE in *; Z.to_euclidean_division_equations; lia).
  assert (page_range (i0 * PGSIZE) newsz = (fun j => (i0 + j) * PGSIZE) <$> seqZ 0 (i1 - i0)) as ->.
  { unfold page_range. replace ((newsz - i0 * PGSIZE + PGSIZE - 1) / PGSIZE) with (i1 - i0).
    - apply list_fmap_ext. intros ? x _. lia.
    - replace (newsz - i0 * PGSIZE + PGSIZE - 1) with (newsz + PGSIZE - 1 + (- i0) * PGSIZE) by lia.
      rewrite Z.div_add by (unfold PGSIZE; lia). fold i1. lia. }
  replace (Z.max i0 i1) with (i0 + (i1 - i0)) by lia.
  apply (uvmalloc_loop_ok s l tabs users r i0 _ newsz xperm Hvm Hr ltac:(lia) Hx eq_refl (i1 - i0) s l tabs users i0);
    try done; rewrite ?UPAGES_val; try lia.
  - apply vm_rel_refl.
  - intros j Hj. apply Hnone. lia.
  - split; [lia|done].
Qed.

End uvm.
