(* ===== verification/Cow.v ===== *)
(** * Copy-on-write: [uvmcopy] and [vmfault]

    [uvmcopy] shares every page of the parent with the child, read-only;
    [vmfault] gives a writer its own copy.  Over the invariant [vm_ok],
    which both keep, reads through any address space are unaffected by
    either, and a page that is writable is mapped once. *)

From stdpp Require Import gmap.
From S2P Require Import Prelude Memory StringC Kalloc Vm PageTable AddrSpace Uvm.

(** The byte a user reads at [va]. *)
Definition uread (m : mem) (pt va : Z) : option Z :=
  match mapping m pt va with
  | Some e => Some (m (PTE2PA e + va mod PGSIZE))
  | None => None
  end.

(** ** Flags *)

Definition cow_flags (fl : Z) : Z :=
  if has fl PTE_W then Z.lor (Z.land fl (Z.lnot PTE_W)) PTE_COW else fl.

Definition cow_entry (e : Z) : Z := Z.lor (PA2PTE (PTE2PA e)) (cow_flags (PTE_FLAGS e)).

Lemma has_land a b f : Z.land b f = f -> has (Z.land a b) f = has a f.
Proof. intros E. unfold has. by rewrite <- Z.land_assoc, E. Qed.

Lemma has_land_none a b f : Z.land b f = 0 -> has (Z.land a b) f = false.
Proof. intros E. unfold has. by rewrite <- Z.land_assoc, E, Z.land_0_r. Qed.

Lemma PTE_FLAGS_range e : 0 <= PTE_FLAGS e < 1024.
Proof. unfold PTE_FLAGS. change 1023 with (Z.ones 10). rewrite Z.land_ones by lia. apply Z.mod_pos_bound. lia. Qed.

Lemma cow_flags_V fl : has (cow_flags fl) PTE_V = has fl PTE_V.
Proof. unfold cow_flags. destruct (has fl PTE_W); [|done]. rewrite has_lor, has_land by done. apply orb_false_r. Qed.

Lemma cow_flags_U fl : has (cow_flags fl) PTE_U = has fl PTE_U.
Proof. unfold cow_flags. destruct (has fl PTE_W); [|done]. rewrite has_lor, has_land by done. apply orb_false_r. Qed.

Lemma cow_flags_W fl : has (cow_flags fl) PTE_W = false.
Proof.
  unfold cow_flags. destruct (has fl PTE_W) eqn:E; [|done]. by rewrite has_lor, has_land_none.
Qed.

Lemma land_flags a b : 0 <= a < 1024 -> 0 <= Z.land a b < 1024.
Proof.
  intros Ha. assert (Z.land a b = Z.land (Z.land a b) (Z.ones 10)) as ->.
  { rewrite <- Z.land_assoc, (Z.land_comm b), Z.land_assoc. f_equal.
    rewrite Z.land_ones by lia.
    rewrite Z.mod_small by lia. done. }
  rewrite Z.land_ones by lia. apply Z.mod_pos_bound. lia.
Qed.

Lemma cow_flags_range fl : 0 <= fl < 1024 -> 0 <= cow_flags fl < 1024.
Proof.
  intros Hf. unfold cow_flags. destruct (has fl PTE_W); [|done]. apply lor_flags; [|split; done].
  by apply land_flags.
Qed.

Lemma lor_bit0 fl : has fl PTE_V = true -> Z.lor fl PTE_V = fl.
Proof.
  unfold has, PTE_V. intros H. apply Z.bits_inj'. intros n Hn. rewrite Z.lor_spec.
  destruct (decide (n = 0)) as [->|Hne].
  - change (Z.testbit 1 0) with true. rewrite orb_true_r. symmetry.
    destruct (Z.testbit fl 0) eqn:E; [done|]. cbool.
    change 1 with (Z.ones 1) in H. rewrite Z.land_ones in H by lia. rewrite Z.testbit_eqb in E by done.
    rewrite Z.pow_0_r, Z.div_1_r in E. change (2 ^ 1) with 2 in H. pose proof (Z.mod_pos_bound fl 2 ltac:(lia)). lia.
  - rewrite (Z.bits_above_log2 1 n) by (simpl; lia). apply orb_false_r.
Qed.

Lemma has_flags e f : Z.land 1023 f = f -> has (PTE_FLAGS e) f = has e f.
Proof. apply has_land. Qed.

(** The entry [uvmcopy] leaves in the parent, or puts in the child. *)
Lemma cow_entry_spec kend e :
  KERNBASE <= kend <= PHYSTOP -> managed kend (PTE2PA e) -> has e PTE_V = true ->
  PTE2PA (cow_entry e) = PTE2PA e /\ PTE_FLAGS (cow_entry e) = cow_flags (PTE_FLAGS e) /\
  has (cow_entry e) PTE_V = true /\ has (cow_entry e) PTE_W = false /\
  0 <= cow_entry e < 2 ^ 54 /\ Z.lor (cow_entry e) PTE_V = cow_entry e.
Proof.
  intros Hkend Hm Hv. destruct (managed_range kend Hkend _ Hm) as (_ & Hr & Hal).
  pose proof (cow_flags_range _ (PTE_FLAGS_range e)) as Hf.
  assert (HfV : has (cow_flags (PTE_FLAGS e)) PTE_V = true) by (by rewrite cow_flags_V, has_flags).
  unfold cow_entry. split_and!; try (apply PA2PTE_range; done).
  - by apply PTE2PA_PA2PTE.
  - by apply PTE_FLAGS_PA2PTE.
  - by rewrite has_pte.
  - rewrite has_pte by done. apply cow_flags_W.
  - by rewrite <- Z.lor_assoc, lor_bit0.
Qed.

Lemma size_list_to_set_le (ps : list (Z * Z)) : (size (list_to_set ps : gset (Z * Z)) <= length ps)%nat.
Proof.
  induction ps as [|x ps IH]; [done|]. simpl. rewrite size_union_alt, size_singleton. simpl.
  apply le_n_S. etrans; [|exact IH]. apply subseteq_size. set_solver.
Qed.

Section cow.
Context (kend : Z) (Hkend : KERNBASE <= kend <= PHYSTOP).

(** A page is shared by at most as many address spaces as there are
    pages. *)
Lemma users_bound s l tabs users pa :
  vm_ok kend s l tabs users -> Z.of_nat (size (users pa)) <= NPAGES.
Proof.
  intros Hvm. destruct (decide (users pa = ∅)) as [->|[[r0 i0] H0]%set_choose_L]; [rewrite size_empty; done|].
  pose (pages := (fun k => (KERNBASE + k * PGSIZE, i0)) <$> seqZ 0 NPAGES).
  transitivity (Z.of_nat (size (list_to_set pages : gset (Z * Z)))).
  - apply Nat2Z.inj_le, subseteq_size. intros [r i] Hin. rewrite elem_of_list_to_set. unfold pages.
    rewrite (vk_index _ _ _ _ _ Hvm _ _ _ _ _ Hin H0).
    apply (vi_users _ _ _ _ _ (vk_inv _ _ _ _ _ Hvm)) in Hin as (Hr & _).
    destruct (tab_page kend _ _ _ _ _ _ (vk_inv _ _ _ _ _ Hvm) Hr) as [Hm _].
    destruct (managed_range kend Hkend r Hm) as (Hlo & _ & Hal). destruct Hm as (_ & _ & Hhi).
    apply list_elem_of_fmap. exists ((r - KERNBASE) / PGSIZE). unfold NPAGES, PHYSTOP, KERNBASE, PGSIZE in *. split.
    + f_equal. Z.to_euclidean_division_equations. lia.
    + apply elem_of_seqZ. Z.to_euclidean_division_equations. lia.
  - transitivity (Z.of_nat (length pages)).
    + apply Nat2Z.inj_le, size_list_to_set_le.
    + unfold pages. rewrite length_fmap, length_seqZ. assert (0 <= NPAGES) by done. lia.
Qed.

(** ** Sharing a page *)

Lemma vm_inv_users_ext s l tabs users users' :
  (forall pa, users' pa = users pa) -> vm_inv kend s l tabs users -> vm_inv kend s l tabs users'.
Proof.
  intros E [H1 H2 H3 H4 H5 H6]. split; try done.
  - intros pa. rewrite E. apply H4.
  - intros pa. rewrite E. apply H5.
  - intros p. rewrite E. apply H6.
Qed.

(** Counts of pages that do not become tables. *)
Lemma vm_ext_ref s l tabs s' l' tabs' pa :
  kmem_ok kend s l -> kmem_ok kend s' l' -> vm_ext kend s l tabs s' l' tabs' ->
  managed kend pa -> tabs' pa = None -> ref_count s' (PA2IDX pa) = ref_count s (PA2IDX pa).
Proof.
  intros Hok Hok' Hext Hm Ht. destruct (in_runs_dec l pa) as [Hl|Hl]; [|by apply (ve_ref _ _ _ _ _ _ _ Hext)].
  rewrite (proj2 (proj2 (ko_rc _ _ _ Hok pa Hm)) Hl).
  destruct (in_runs_dec l' pa) as [Hl'|Hl']; [by apply (ko_rc _ _ _ Hok' pa Hm)|].
  by destruct (ve_taken _ _ _ _ _ _ _ Hext pa Hm Hl Hl').
Qed.

Lemma vm_ext_new s l tabs s' l' tabs' users' p z :
  kmem_ok kend s l -> vm_inv kend s' l' tabs' users' -> vm_ext kend s l tabs s' l' tabs' ->
  tabs' p = Some z -> tabs p = Some z \/ forall x, p <= x < p + PGSIZE -> in_runs l x.
Proof.
  intros Hok Hv' Hext Hp. destruct (ve_new _ _ _ _ _ _ _ Hext p z Hp) as [?|Hin]; [by left|right].
  destruct (tab_page kend _ _ _ _ _ _ Hv' Hp) as [Hm _]. intros x Hx.
  by eapply (in_runs_whole_page kend s l); [|apply Hm|..].
Qed.

(** The parent's entry after [uvmcopy] has seen it. *)
Definition parent_entry (e : Z) : Z := if has e PTE_W then cow_entry e else e.

Lemma cow_mark s l tabs users old i p0 e :
  vm_ok kend s l tabs users -> is_root tabs old -> 0 <= i < UPAGES ->
  leaf_slot (phys s) old (i * PGSIZE) p0 -> mapping (phys s) old (i * PGSIZE) = Some e ->
  wp (if has (PTE_FLAGS e) PTE_W then set_pte (p0 + 8 * PX 0 (i * PGSIZE)) (cow_entry e) else kret tt)
    (fun _ s' => vm_ok kend s' l tabs users /\ ref_count s' = ref_count s /\
      (forall r va, is_root tabs r -> 0 <= va < MAXVA -> mapping (phys s') r va =
        if (r =? old) && (va / PGSIZE =? i) then Some (parent_entry e) else mapping (phys s) r va) /\
      (forall x, ~ in_tab tabs x -> phys s' x = phys s x)) s.
Proof.
  intros Hvm Hr Hi Hls He. pose proof Hvm as [Hv Hrf Hix Hex]. rewrite has_flags by done.
  pose proof (mapping_user kend _ _ _ _ _ _ _ Hv Hr Hi He) as Hin.
  destruct (user_ref kend Hkend _ _ _ _ _ _ Hvm Hin) as (Hm & Ht & _).
  destruct (mapping_leaf_slot _ _ _ _ He) as (_ & _ & _ & HV).
  unfold parent_entry. destruct (has e PTE_W) eqn:HW.
  - destruct (cow_entry_spec kend e Hkend Hm HV) as (Epa & _ & HV' & HW' & Hrange & _). apply wp_upd.
    change (set_phys _ s) with (store_leaf p0 (i * PGSIZE) (cow_entry e) s).
    destruct (vm_store kend Hkend s l tabs users old i p0 (cow_entry e)) as (Hv' & Hmap & Hmem & _); try done.
    { by apply upage_va. }
    { lia. }
    { by rewrite Epa. }
    rewrite HV' in Hmap. set (s' := store_leaf p0 (i * PGSIZE) (cow_entry e) s) in *.
    split_and!; try done. split; try done.
    + apply (vm_inv_users_ext _ _ _ (reassign users old i (cow_entry e))); [|done].
      intros pa. apply set_eq. intros [r j]. rewrite reassign_elem, Epa. split.
      * intros Hu. destruct (decide (r = old /\ j = i)) as [[-> ->]|Hne]; [left|right; split; [tauto|done]].
        split_and!; try done; [lia|]. exact (users_fun kend _ _ _ _ _ _ _ _ Hv Hin Hu).
      * by intros [(-> & -> & _ & _ & <-)|[_ ?]].
    + intros r j e' Hr' Hj. rewrite Hmap, page_index by (done || by apply upage_va).
      destruct (_ && _); [|by apply Hex]. intros [= <-]. congruence.
  - apply wp_ret. split_and!; try done. intros r va _ Hva. destruct (_ && _) eqn:E; [|done].
    rewrite <- He. cbool. unfold mapping. replace r with old by lia. pose proof (page_index i).
    by rewrite !(PX_page va (i * PGSIZE)) by (lia || (unfold PGSIZE in *; lia)).
Qed.

Lemma parent_entry_spec e :
  managed kend (PTE2PA e) -> has e PTE_V = true ->
  PTE2PA (parent_entry e) = PTE2PA e /\ has (parent_entry e) PTE_W = false /\
  cow_entry (parent_entry e) = cow_entry e.
Proof.
  intros Hm HV. unfold parent_entry. destruct (has e PTE_W) eqn:HW; [|done].
  destruct (cow_entry_spec kend e Hkend Hm HV) as (Epa & Efl & _ & HcW & _). split_and!; try done.
  unfold cow_entry at 1. rewrite Epa, Efl. unfold cow_entry. f_equal. unfold cow_flags at 1.
  by rewrite cow_flags_W.
Qed.

(** Mapping a page of [old] at the same place in [new] and counting it. *)
Lemma vm_ok_share s l tabs users s' l' tabs' old new i e :
  vm_ok kend s l tabs users -> is_root tabs old -> is_root tabs new -> old <> new -> 0 <= i < UPAGES ->
  mapping (phys s) old (i * PGSIZE) = Some e -> has e PTE_W = false ->
  mapping (phys s) new (i * PGSIZE) = None -> has (cow_entry e) PTE_W = false ->
  vm_ext kend s l tabs s' l' tabs' ->
  vm_inv kend s' l' tabs' (assign users (new, i) (Some (PTE2PA e))) ->
  (forall r va, is_root tabs r -> 0 <= va < MAXVA -> mapping (phys s') r va =
     if (r =? new) && (va / PGSIZE =? i) then Some (cow_entry e) else mapping (phys s) r va) ->
  wp (incref (PTE2PA e)) (fun _ s2 =>
    let users' := assign users (new, i) (Some (PTE2PA e)) in
    vm_ok kend s2 l' tabs' users' /\ vm_rel kend s l tabs users s2 l' tabs' users' /\ phys s2 = phys s') s'.
Proof.
  intros Hvm Hro Hrn Hne Hi He HW Hnone HW' Hext Hv' Hmap. pose proof Hvm as [Hv Hrf Hix Hex].
  set (pa := PTE2PA e) in *. set (users' := assign users (new, i) (Some pa)) in *.
  pose proof (mapping_user kend _ _ _ _ _ _ _ Hv Hro Hi He) as Hin. fold pa in Hin.
  destruct (user_ref kend Hkend _ _ _ _ _ _ Hvm Hin) as (Hm & Ht & Hl & Hr1 & Hrs).
  assert (Hnew : forall p, (new, i) ∉ users p).
  { intros p (_ & _ & e' & He' & _)%(vi_users _ _ _ _ _ Hv). congruence. }
  assert (Hup : forall p, p <> pa -> users' p = users p).
  { intros p Hp. unfold users', assign. rewrite decide_False by congruence. specialize (Hnew p). set_solver. }
  assert (Hupa : users' pa = {[(new, i)]} ∪ users pa) by (unfold users', assign; by rewrite decide_True).
  assert (Hsz : Z.of_nat (size (users' pa)) = Z.of_nat (size (users pa)) + 1).
  { rewrite Hupa, size_union by (apply disjoint_singleton_l, Hnew). rewrite size_singleton. lia. }
  pose proof (users_bound _ _ _ _ pa Hvm) as Hb. assert (NPAGES = 32768) as HNP by done.
  assert (Hrc : forall p, managed kend p -> tabs' p = None -> ref_count s' (PA2IDX p) = ref_count s (PA2IDX p)).
  { intros p. apply (vm_ext_ref s l tabs s' l' tabs' p); [apply Hv|apply Hv'|done]. }
  assert (Ht' : tabs' pa = None) by (apply (user_not_tab kend Hkend _ _ _ _ (new, i) _ Hv'); rewrite Hupa; set_solver).
  assert (Hl' : ~ in_runs l' pa) by (intros ?%(ve_free _ _ _ _ _ _ _ Hext); done).
  unfold incref. apply wp_upd. cbv beta. rewrite (Hrc pa Hm Ht'), s32_small by lia.
  set (s2 := set_ref_count (PA2IDX pa) (ref_count s (PA2IDX pa) + 1) s').
  assert (Hrc2 : forall p, managed kend p -> tabs' p = None -> ref_count s2 (PA2IDX p) =
            ref_count s (PA2IDX p) + if p =? pa then 1 else 0).
  { intros p Hmp Htp. simpl. destruct (Z.eqb_spec p pa) as [->|Hp]; [apply upd_eq|].
    rewrite upd_ne, Hrc by (done || (intros E; by apply (PA2IDX_inj kend) in E)). lia. }
  assert (Hv2 : vm_inv kend s2 l' tabs' users') by (apply vm_set_ref; try done; lia).
  split_and!; [|split|done].
  - split; [done|..].
    + intros p [ri Hri]%set_choose_L. destruct ri as [r j].
      rewrite Hrc2 by (by eapply (vi_managed _ _ _ _ _ Hv2) || by eapply (user_not_tab kend Hkend _ _ _ _ _ _ Hv2)).
      destruct (Z.eqb_spec p pa) as [->|Hp]; [lia|]. rewrite (Hup p Hp) in *. rewrite Hrf by set_solver. lia.
    + intros p r j r' j' H1 H2. destruct (decide (p = pa)) as [->|Hp].
      * assert (Hall : forall r j, (r, j) ∈ users' pa -> j = i).
        { intros r0 j0. rewrite Hupa. intros [[= -> ->]%elem_of_singleton|Hu]%elem_of_union; [done|]. by eapply Hix. }
        rewrite (Hall _ _ H1), (Hall _ _ H2). done.
      * rewrite (Hup p Hp) in *. by eapply Hix.
    + intros r j e' Hr Hj He' HWe. change (phys s2) with (phys s') in He'.
      apply (ve_root _ _ _ _ _ _ _ Hext) in Hr. rewrite Hmap, page_index in He' by (done || by apply upage_va).
      destruct (_ && _) eqn:E; [congruence|]. pose proof (Hex r j e' Hr Hj He' HWe) as Eu.
      destruct (decide (PTE2PA e' = pa)) as [Epa|Hp]; [|by rewrite Hup].
      rewrite Epa in Eu. rewrite Eu in Hin. apply elem_of_singleton in Hin. simplify_eq. congruence.
  - intros p Hmp Htp Htp'. unfold krefs. rewrite Hrc2 by done.
    destruct (Z.eqb_spec p pa) as [->|Hp]; [lia|]. rewrite (Hup p Hp). lia.
  - apply Hext.
  - apply Hext.
  - intros p z Hp. eapply (vm_ext_new s l tabs s' l' tabs' users'); try done. apply Hv.
  - apply Hext.
  - apply Hext.
Qed.

(** What one page of [uvmcopy] does to the translations. *)
Definition copied (old new i : Z) (ok : bool) (m m' : mem) (tabs : tabmap) : Prop :=
  forall r va, is_root tabs r -> 0 <= va < MAXVA -> mapping m' r va =
    if va / PGSIZE =? i then
      if r =? old then parent_entry <$> mapping m old va
      else if (r =? new) && ok then cow_entry <$> mapping m old va
      else mapping m r va
    else mapping m r va.

Lemma mapping_same_page m r va i :
  0 <= va -> 0 <= i -> va / PGSIZE = i -> mapping m r va = mapping m r (i * PGSIZE).
Proof.
  intros Hva Hi E. unfold mapping. pose proof (page_index i).
  by rewrite !(PX_page va (i * PGSIZE)) by (lia || (unfold PGSIZE in *; lia)).
Qed.

Lemma copied_none old new i ok m tabs :
  mapping m old (i * PGSIZE) = None -> mapping m new (i * PGSIZE) = None -> 0 <= i ->
  copied old new i ok m m tabs.
Proof.
  intros Ho Hn Hi r va _ Hva. destruct (Z.eqb_spec (va / PGSIZE) i) as [E|]; [|done].
  rewrite !(mapping_same_page _ _ va i) by lia. rewrite Ho.
  destruct (Z.eqb_spec r old) as [->|]; [done|]. destruct (Z.eqb_spec r new) as [->|]; [|done].
  rewrite Hn. by destruct ok.
Qed.

Lemma uvmcopy_page_ok s l tabs users old new i :
  vm_ok kend s l tabs users -> is_root tabs old -> is_root tabs new -> old <> new -> 0 <= i < UPAGES ->
  mapping (phys s) new (i * PGSIZE) = None ->
  wp (uvmcopy_page old new (i * PGSIZE)) (fun err s' => exists l' tabs' users',
    vm_ok kend s' l' tabs' users' /\ vm_rel kend s l tabs users s' l' tabs' users' /\
    copied old new i (negb err) (phys s) (phys s') tabs) s.
Proof.
  intros Hvm Hro Hrn Hne Hi Hnone. pose proof (vk_inv _ _ _ _ _ Hvm) as Hv. pose proof (upage_va i Hi) as Hva.
  pose proof (vi_pt _ _ _ _ _ Hv old Hro) as Hpt. unfold uvmcopy_page.
  assert (Hskip : mapping (phys s) old (i * PGSIZE) = None -> exists l' tabs' users',
    vm_ok kend s l' tabs' users' /\ vm_rel kend s l tabs users s l' tabs' users' /\
    copied old new i true (phys s) (phys s) tabs).
  { intros Ho. exists l, tabs, users. split_and!; [done|apply vm_rel_refl|apply copied_none; done || lia]. }
  apply wp_bind. eapply wp_mono; [by apply (walk_lookup kend Hkend s l old (pos_of tabs old)), Hva; [apply Hv|]|].
  intros a s0 [-> [[-> Ho]|(Ha & p0 & Hls & ->)]]; [by apply wp_ret, Hskip|].
  rewrite (proj2 (Z.eqb_neq _ 0)) by done. apply wp_bind, wp_get.
  change (ld64 (phys s) (p0 + 8 * PX 0 (i * PGSIZE))) with (entry (phys s) p0 (PX 0 (i * PGSIZE))).
  pose proof (leaf_slot_mapping _ _ _ _ Hls) as He. set (e := entry (phys s) p0 _) in *.
  destruct (has e PTE_V) eqn:HV; cbn [negb]; [|by apply wp_ret, Hskip].
  fold (cow_flags (PTE_FLAGS e)). fold (cow_entry e).
  apply wp_bind. eapply wp_mono; [by apply (cow_mark s l tabs users old i p0 e)|].
  intros [] s1 (Hvm1 & Erc1 & Hmap1 & Hmem1). pose proof (vk_inv _ _ _ _ _ Hvm1) as Hv1.
  destruct (user_ref kend Hkend _ _ _ _ _ _ Hvm (mapping_user kend _ _ _ _ _ _ _ Hv Hro Hi He))
    as (Hm & Ht & Hl & _ & _).
  assert (He1 : mapping (phys s1) old (i * PGSIZE) = Some (parent_entry e))
    by (by rewrite Hmap1, page_index, !Z.eqb_refl).
  assert (Hpe : PTE2PA (parent_entry e) = PTE2PA e /\ has (parent_entry e) PTE_W = false /\
            cow_entry (parent_entry e) = cow_entry e) by (by apply parent_entry_spec).
  destruct Hpe as (Epa & HpW & Ece).
  destruct (cow_entry_spec kend e Hkend Hm HV) as (_ & _ & _ & HcW & _ & HcV).
  assert (Hrel1 : vm_rel kend s l tabs users s1 l tabs users).
  { split; try done; [by intros; unfold krefs; rewrite Erc1|by left|]. intros x [_ Hx]. by apply Hmem1. }
  assert (Hn1 : mapping (phys s1) new (i * PGSIZE) = None).
  { rewrite Hmap1, (proj2 (Z.eqb_neq new old)) by done. done. }
  apply wp_bind. eapply wp_mono.
  { apply (vm_mappages kend Hkend s1 l tabs users new i (PTE2PA e) (cow_flags (PTE_FLAGS e))); try done.
    - apply cow_flags_range, PTE_FLAGS_range.
    - intros p r j Hu. by destruct (user_ref kend Hkend _ _ _ _ _ _ Hvm Hu) as (_ & _ & ? & _). }
  intros res s2 (l2 & tabs2 & Hext & Hoth & Hres).
  assert (Hroots : forall r, is_root tabs2 r <-> is_root tabs r) by apply Hext.
  destruct Hres as [(-> & Hv2 & Hmap2)|(-> & Hv2 & Hmap2)]; cbn [Z.eqb negb].
  - fold (cow_entry e) in Hmap2. rewrite HcV in Hmap2.
    assert (Hm2 : forall r va, is_root tabs r -> 0 <= va < MAXVA -> mapping (phys s2) r va =
       if (r =? new) && (va / PGSIZE =? i) then Some (cow_entry e) else mapping (phys s1) r va).
    { intros r va Hr Hva'. destruct (Z.eqb_spec r new) as [->|Hn]; [by apply Hmap2|by apply Hoth]. }
    apply wp_bind. rewrite <- Epa at 1. eapply wp_mono.
    { apply (vm_ok_share s1 l tabs users s2 l2 tabs2 old new i (parent_entry e)); try done; rewrite ?Ece, ?Epa; done. }
    rewrite Epa. intros [] s3 (Hvm3 & Hrel3 & Eph). apply wp_ret. exists l2, tabs2, (assign users (new, i) (Some (PTE2PA e))).
    split_and!; [done|by eapply vm_rel_trans|]. intros r va Hr Hva'. rewrite Eph, Hm2, Hmap1 by done.
    destruct (Z.eqb_spec (va / PGSIZE) i) as [Ei|]; [|by rewrite !andb_false_r]. rewrite !andb_true_r.
    rewrite (mapping_same_page _ old va i), He by lia. simpl.
    destruct (Z.eqb_spec r new) as [->|]; [by rewrite (proj2 (Z.eqb_neq new old))|]. done.
  - apply wp_ret. exists l2, tabs2, users.
    assert (Hm2 : forall r va, is_root tabs r -> 0 <= va < MAXVA -> mapping (phys s2) r va = mapping (phys s1) r va).
    { intros r va Hr Hva'. destruct (decide (r = new)) as [->|Hn]; [by apply Hmap2|by apply Hoth]. }
    assert (Hrc2 : forall p, managed kend p -> tabs2 p = None -> ref_count s2 (PA2IDX p) = ref_count s1 (PA2IDX p)).
    { intros p. apply (vm_ext_ref s1 l tabs s2 l2 tabs2 p); [apply Hv1|apply Hv2|done]. }
    split_and!.
    + split; [done| |apply Hvm|].
      * intros p Hu. pose proof (set_choose_L _ Hu) as [[r j] Hri].
        rewrite Hrc2, Erc1 by (by eapply (vi_managed _ _ _ _ _ Hv2) || by eapply (user_not_tab kend Hkend _ _ _ _ _ _ Hv2)).
        by apply Hvm.
      * intros r j e' Hr%Hroots Hj. rewrite Hm2 by (done || by apply upage_va). by apply Hvm1.
    + eapply vm_rel_trans; [exact Hrel1|]. split; try apply Hext.
      * intros p Hmp Htp Htp'. unfold krefs. by rewrite Hrc2.
      * intros p z Hp. eapply (vm_ext_new s1 l tabs s2 l2 tabs2 users); try done. apply Hv1.
    + intros r va Hr Hva'. rewrite Hm2, Hmap1 by done. rewrite andb_false_r.
      destruct (Z.eqb_spec (va / PGSIZE) i) as [Ei|]; [|by rewrite !andb_false_r]. rewrite !andb_true_r.
      rewrite (mapping_same_page _ old va i), He by lia. done.
Qed.

(** ** The whole copy *)

Section copy_loop.
Context (s : kmem_state) (l : list (Z * Z)) (tabs : tabmap) (users : usermap) (old new n : Z).
Context (Hvm : vm_ok kend s l tabs users) (Hro : is_root tabs old) (Hrn : is_root tabs new)
  (Hne : old <> new) (Hn : n <= UPAGES)
  (Hnone : forall j, 0 <= j < n -> mapping (phys s) new (j * PGSIZE) = None).

(** The translations after the first [i] pages. *)
Definition copied_upto (i : Z) (m' : mem) : Prop :=
  forall r va, is_root tabs r -> 0 <= va < MAXVA -> mapping m' r va =
    if va / PGSIZE <? i then
      if r =? old then parent_entry <$> mapping (phys s) old va
      else if r =? new then cow_entry <$> mapping (phys s) old va
      else mapping (phys s) r va
    else mapping (phys s) r va.

(** The outcomes of [uvmcopy]: the child has every page, or none and all
    that was allocated for it is free again. *)
Definition copy_post (res : Z) (s' : kmem_state) : Prop :=
  exists l' tabs' users', vm_ok kend s' l' tabs' users' /\ vm_rel kend s l tabs users s' l' tabs' users' /\
    ((res = 0 /\ copied_upto n (phys s')) \/
     (res = -1 /\ forall r va, is_root tabs r -> 0 <= va < MAXVA ->
        mapping (phys s') r va = mapping (phys s) r va \/
        r = old /\ mapping (phys s') r va = parent_entry <$> mapping (phys s) r va)).

Lemma copied_upto_step i ok s1 s2 tabs1 :
  0 <= i < n -> (forall r, is_root tabs1 r <-> is_root tabs r) ->
  copied_upto i (phys s1) -> copied old new i ok (phys s1) (phys s2) tabs1 ->
  (ok = true -> copied_upto (i + 1) (phys s2)) /\
  (ok = false -> forall r va, is_root tabs r -> 0 <= va < MAXVA -> mapping (phys s2) r va =
     if (va / PGSIZE =? i) && (r =? old) then parent_entry <$> mapping (phys s) old va
     else mapping (phys s1) r va).
Proof.
  intros Hi Hroots H1 H2. split; intros ->; intros r va Hr Hva; rewrite (H2 r va) by (done || by apply Hroots).
  - destruct (Z.eqb_spec (va / PGSIZE) i) as [E|E].
    + rewrite (H1 old), (H1 r) by done. rewrite (proj2 (Z.ltb_ge _ i)), (proj2 (Z.ltb_lt _ (i + 1))), andb_true_r by lia. done.
    + rewrite H1 by done. repeat cif; try done; lia.
  - destruct (Z.eqb_spec (va / PGSIZE) i) as [E|E]; [|done]. simpl. rewrite andb_false_r.
    destruct (Z.eqb_spec r old) as [->|]; [|done]. rewrite (H1 old) by done. by rewrite (proj2 (Z.ltb_ge _ _)) by lia.
Qed.

Lemma uvmcopy_undo s1 l1 tabs1 users1 i :
  vm_ok kend s1 l1 tabs1 users1 -> vm_rel kend s l tabs users s1 l1 tabs1 users1 -> 0 <= i < n ->
  (forall r va, is_root tabs r -> 0 <= va < MAXVA -> mapping (phys s1) r va =
     if (va / PGSIZE <? i + 1) && (r =? old) then parent_entry <$> mapping (phys s) old va
     else if (va / PGSIZE <? i) && (r =? new) then cow_entry <$> mapping (phys s) old va
     else mapping (phys s) r va) ->
  wp (do! uvmunmap kend new 0 i true; kret (-1)) copy_post s1.
Proof.
  intros Hvm1 Hrel1 Hi Hmap1. apply wp_bind. change 0 with (0 * PGSIZE).
  eapply wp_mono; [apply (uvmunmap_ok kend Hkend s1 l1 tabs1 users1 new 0 i); try lia; try done|].
  { by apply (vr_root _ _ _ _ _ _ _ _ _ Hrel1). }
  intros [] s2 (l2 & users2 & Hvm2 & Hsh & Hmap2). apply wp_ret.
  assert (Hmap : forall r va, is_root tabs r -> 0 <= va < MAXVA -> mapping (phys s2) r va =
     if (va / PGSIZE <? i + 1) && (r =? old) then parent_entry <$> mapping (phys s) old va
     else mapping (phys s) r va).
  { intros r va Hr Hva. rewrite Hmap2 by (done || by apply (vr_root _ _ _ _ _ _ _ _ _ Hrel1)). rewrite Hmap1 by done.
    assert (0 <= va / PGSIZE) by (apply Z.div_pos; [lia|unfold PGSIZE; lia]).
    destruct (Z.eqb_spec r new) as [->|Hrn'].
    - rewrite (proj2 (Z.eqb_neq new old)), !andb_false_r by done. simpl. rewrite (proj2 (Z.leb_le 0 _)) by done. simpl.
      destruct (Z.ltb_spec (va / PGSIZE) i); simpl; cif; try lia; [|done].
      rewrite (mapping_same_page _ _ va (va / PGSIZE)), Hnone by lia. done.
    - simpl. by rewrite !andb_false_r. }
  exists l2, tabs1, users2. split_and!; [done| |right; split; [done|]].
  - eapply (vm_rel_restore kend Hkend s l tabs users s1); try done. intros [r j] pa Hu.
    pose proof (vi_managed _ _ _ _ _ (vk_inv _ _ _ _ _ Hvm) _ _ _ Hu) as Hm.
    apply (vi_users _ _ _ _ _ (vk_inv _ _ _ _ _ Hvm)) in Hu as (Hr & Hj & e & He & <-).
    apply (vi_users _ _ _ _ _ (vk_inv _ _ _ _ _ Hvm2)).
    split; [by apply (vr_root _ _ _ _ _ _ _ _ _ Hrel1)|]. split; [done|].
    rewrite Hmap by (done || by apply upage_va). destruct (_ && _) eqn:E; [|by exists e].
    cbool. replace old with r by lia. rewrite He. exists (parent_entry e). split; [done|].
    destruct (mapping_leaf_slot _ _ _ _ He) as (_ & _ & _ & HV). by apply parent_entry_spec.
  - intros r va Hr Hva. rewrite Hmap by done. destruct (_ && _) eqn:E; [right|by left]. cbool.
    assert (r = old) as -> by lia. done.
Qed.

Lemma uvmcopy_loop_ok k s1 l1 tabs1 users1 i :
  vm_ok kend s1 l1 tabs1 users1 -> vm_rel kend s l tabs users s1 l1 tabs1 users1 ->
  0 <= i -> 0 <= k -> i + k = n -> copied_upto i (phys s1) ->
  wp (uvmcopy_loop kend ((fun j => (i + j) * PGSIZE) <$> seqZ 0 k) old new) copy_post s1.
Proof.
  intros Hvm1 Hrel1 Hi Hk. revert s1 l1 tabs1 users1 i Hvm1 Hrel1 Hi.
  apply Z_of_nat_complete in Hk as [m ->].
  induction m as [|m IH]; intros s1 l1 tabs1 users1 i Hvm1 Hrel1 Hi Hik Hc.
  { apply wp_ret. exists l1, tabs1, users1. split_and!; try done. left. split; [done|].
    by replace n with i by lia. }
  rewrite Nat2Z.inj_succ in *. rewrite seqZ_cons by lia. rewrite fmap_cons. cbn [uvmcopy_loop]. rewrite Z.add_0_r.
  pose proof (vr_root _ _ _ _ _ _ _ _ _ Hrel1) as Hroots. apply wp_bind.
  eapply wp_mono; [apply (uvmcopy_page_ok s1 l1 tabs1 users1 old new i)|].
  - done.
  - by apply Hroots.
  - by apply Hroots.
  - done.
  - lia.
  - rewrite Hc, page_index by (done || (apply upage_va; lia)). rewrite Z.ltb_irrefl. apply Hnone. lia.
  - intros err s2 (l2 & tabs2 & users2 & Hvm2 & Hrel2 & Hcp).
    destruct (copied_upto_step i (negb err) s1 s2 tabs1 ltac:(lia) Hroots Hc Hcp) as [Hok Herr].
    assert (Hrel : vm_rel kend s l tabs users s2 l2 tabs2 users2) by by eapply vm_rel_trans.
    destruct err; simpl in *.
    + rewrite page_index. apply (uvmcopy_undo s2 l2 tabs2 users2 i Hvm2 Hrel); [lia|].
      intros r va Hr Hva. rewrite (Herr eq_refl r va Hr Hva), Hc by done.
      destruct (Z.eqb_spec r old) as [->|]; [rewrite !andb_true_r|rewrite !andb_false_r];
        repeat cif; try done; lia.
    + replace ((fun j => (i + j) * PGSIZE) <$> seqZ (Z.succ 0) (Z.pred (Z.succ (Z.of_nat m))))
        with ((fun j => (i + 1 + j) * PGSIZE) <$> seqZ 0 (Z.of_nat m)).
      * apply (IH s2 l2 tabs2 users2 (i + 1)); try done; try lia. by apply Hok.
      * rewrite Z.pred_succ. change (Z.succ 0) with (1 + 0). rewrite <- (fmap_add_seqZ 1 0), <- list_fmap_compose.
        apply list_fmap_ext. intros ? x _. simpl. lia.
Qed.

End copy_loop.

Lemma uvmcopy_ok s l tabs users old new sz :
  vm_ok kend s l tabs users -> is_root tabs old -> is_root tabs new -> old <> new -> 0 <= sz <= TRAPFRAME ->
  let n := (sz + PGSIZE - 1) / PGSIZE in
  (forall j, 0 <= j < n -> mapping (phys s) new (j * PGSIZE) = None) ->
  wp (uvmcopy kend old new sz) (copy_post s l tabs users old new n) s.
Proof.
  intros Hvm Hro Hrn Hne Hsz n Hnone. unfold uvmcopy.
  change TRAPFRAME with (67108862 * PGSIZE) in Hsz.
  assert (0 <= n <= UPAGES) as Hn
    by (rewrite UPAGES_val; unfold n, PGSIZE in *; Z.to_euclidean_division_equations; lia).
  assert (page_range 0 sz = (fun j => (0 + j) * PGSIZE) <$> seqZ 0 n) as ->.
  { unfold page_range. replace (sz - 0 + PGSIZE - 1) with (sz + PGSIZE - 1) by lia.
    apply list_fmap_ext. intros ? x _. lia. }
  apply (uvmcopy_loop_ok s l tabs users old new n Hvm Hro Hrn Hne (proj2 Hn) Hnone n s l tabs users 0); try done; try lia.
  - apply vm_rel_refl.
  - intros r va Hr Hva. cif; [|done].
    assert (0 <= va / PGSIZE) by (apply Z.div_pos; [lia|unfold PGSIZE; lia]). lia.
Qed.

(** ** Faults *)

Lemma lor_range n a b : 0 <= n -> 0 <= a < 2 ^ n -> 0 <= b < 2 ^ n -> 0 <= Z.lor a b < 2 ^ n.
Proof.
  intros Hn Ha Hb. rewrite <- (Z.mod_small a (2 ^ n)), <- (Z.mod_small b (2 ^ n)), <- !Z.land_ones by lia.
  rewrite <- Z.land_lor_distr_l, Z.land_ones by lia. apply Z.mod_pos_bound. lia.
Qed.

Lemma land_range n a b : 0 <= n -> 0 <= a < 2 ^ n -> 0 <= Z.land a b < 2 ^ n.
Proof.
  intros Hn Ha. assert (Z.land a b = Z.land (Z.land a b) (Z.ones n)) as ->.
  { rewrite <- Z.land_assoc, (Z.land_comm b), Z.land_assoc. f_equal. rewrite Z.land_ones, Z.mod_small by lia. done. }
  rewrite Z.land_ones by lia. apply Z.mod_pos_bound. lia.
Qed.

(** The last sharer's entry, made writable in place. *)
Definition promoted (e : Z) : Z := Z.land (Z.lor e PTE_W) (Z.lnot PTE_COW).

Lemma promoted_spec e :
  0 <= e < 2 ^ 64 -> has e PTE_V = true ->
  PTE2PA (promoted e) = PTE2PA e /\ has (promoted e) PTE_V = true /\ has (promoted e) PTE_W = true /\
  0 <= Z.lor e PTE_W < 2 ^ 64 /\ 0 <= promoted e < 2 ^ 64 /\ PTE2PA (Z.lor e PTE_W) = PTE2PA e.
Proof.
  intros He HV. assert (0 <= Z.lor e PTE_W < 2 ^ 64) as Hl by (apply lor_range; unfold PTE_W; lia).
  assert (PTE2PA (Z.lor e PTE_W) = PTE2PA e) as Ep.
  { unfold PTE2PA. rewrite Z.shiftr_lor. change (Z.shiftr PTE_W 10) with 0. by rewrite Z.lor_0_r. }
  pose proof (land_range 64 (Z.lor e PTE_W) (Z.lnot PTE_COW) ltac:(lia) Hl).
  unfold promoted. split_and!; try done; try lia.
  - rewrite <- Ep. unfold PTE2PA. rewrite Z.shiftr_land. change (Z.shiftr (Z.lnot PTE_COW) 10) with (-1).
    by rewrite Z.land_m1_r.
  - by rewrite has_land, has_lor, HV.
  - rewrite has_land, has_lor by done. by rewrite orb_true_r.
Qed.

(** A fault at page [i] of [r] that succeeded: the page is now private
    and writable, with the contents it had; nothing else moved. *)
Definition fault_done (s : kmem_state) (tabs : tabmap) (r i : Z) (src : Z -> Z)
    (res : Z) (s' : kmem_state) (users' : usermap) : Prop :=
  exists e', PTE2PA e' = res /\ has e' PTE_V = true /\ has e' PTE_W = true /\ users' res = {[(r, i)]} /\
    (forall r' va, is_root tabs r' -> 0 <= va < MAXVA -> mapping (phys s') r' va =
       if (r' =? r) && (va / PGSIZE =? i) then Some e' else mapping (phys s) r' va) /\
    (forall k, 0 <= k < PGSIZE -> phys s' (res + k) = src k).

Lemma promote_ok s l tabs users r i p0 e :
  vm_ok kend s l tabs users -> is_root tabs r -> 0 <= i < UPAGES ->
  leaf_slot (phys s) r (i * PGSIZE) p0 -> mapping (phys s) r (i * PGSIZE) = Some e ->
  ref_count s (PA2IDX (PTE2PA e)) <= 1 -> 0 <= e < 2 ^ 64 ->
  let s' := store_leaf p0 (i * PGSIZE) (promoted e) (store_leaf p0 (i * PGSIZE) (Z.lor e PTE_W) s) in
  vm_ok kend s' l tabs users /\ vm_rel kend s l tabs users s' l tabs users /\
  fault_done s tabs r i (fun k => phys s (PTE2PA e + k)) (PTE2PA e) s' users.
Proof.
  intros Hvm Hr Hi Hls He Href Her s'. pose proof Hvm as [Hv Hrf Hix Hex].
  pose proof (mapping_user kend _ _ _ _ _ _ _ Hv Hr Hi He) as Hin.
  destruct (user_ref kend Hkend _ _ _ _ _ _ Hvm Hin) as (Hm & Ht & Hl & Hr1 & Hrs).
  destruct (mapping_leaf_slot _ _ _ _ He) as (_ & _ & _ & HV).
  destruct (promoted_spec e Her HV) as (Epa & HV' & HW' & Hlr & Hpr & Elw).
  assert (Hone : users (PTE2PA e) = {[(r, i)]}).
  { apply set_eq. intros ri. rewrite elem_of_singleton. split; [|by intros ->].
    intros Hri. apply (size_singleton_inv (users (PTE2PA e)) ri (r, i)); [lia|done..]. }
  destruct (vm_store kend Hkend s l tabs users r i p0 (Z.lor e PTE_W)) as (Hv1 & Hmap1 & Hmem1 & Hsl1); try done;
    [by apply upage_va|by rewrite Elw|].
  set (s1 := store_leaf p0 (i * PGSIZE) (Z.lor e PTE_W) s) in *.
  destruct (vm_store kend Hkend s1 l tabs (reassign users r i (Z.lor e PTE_W)) r i p0 (promoted e))
    as (Hv2 & Hmap2 & Hmem2 & _); try done; [by apply upage_va|by apply Hsl1|by rewrite Epa|].
  fold s' in Hv2, Hmap2, Hmem2. rewrite HV' in Hmap2.
  assert (Hmap : forall r' va, is_root tabs r' -> 0 <= va < MAXVA -> mapping (phys s') r' va =
     if (r' =? r) && (va / PGSIZE =? i) then Some (promoted e) else mapping (phys s) r' va).
  { intros r' va Hr' Hva. rewrite Hmap2 by done. destruct (_ && _) eqn:E; [done|]. by rewrite Hmap1, E. }
  assert (Hmem : forall x, ~ in_tab tabs x -> phys s' x = phys s x) by (intros; rewrite Hmem2, Hmem1; done).
  assert (Hv' : vm_inv kend s' l tabs users).
  { eapply vm_inv_users_ext; [|exact Hv2]. intros pa. apply set_eq. intros [r' j].
    rewrite !reassign_elem, Epa, Elw. destruct (decide (r' = r /\ j = i)) as [[-> ->]|Hne].
    - split.
      + intros Hu. left. split_and!; try done; [lia|]. exact (users_fun kend _ _ _ _ _ _ _ _ Hv Hin Hu).
      + intros [(_ & _ & _ & _ & <-)|[Hx _]]; [done|]. destruct Hx. split_and!; lia || done.
    - naive_solver. }
  split_and!.
  - split; try done. intros r' j e' Hr' Hj. rewrite Hmap, page_index by (done || by apply upage_va).
    destruct (_ && _) eqn:E; [|by apply Hex]. intros [= <-] _. rewrite Epa, Hone. cbool. f_equal. f_equal; lia.
  - split; try done; [by left|]. intros x [_ Hx]. by apply Hmem.
  - exists (promoted e). split_and!; try done. intros k Hk. apply Hmem.
    by eapply (tab_same_page kend _ _ _ _ _ _ Hv Hm Ht); lia.
Qed.

End cow.
