(* ===== verification/Fault.v ===== *)
(** * Page faults and copies between kernel and user memory

    [vmfault] over the invariant of address spaces: lazy allocation and
    the two copy-on-write cases. *)

From stdpp Require Import gmap.
From S2P Require Import Prelude Memory StringC Kalloc Vm PageTable AddrSpace Uvm Cow.

Section fault.
Context (kend : Z) (Hkend : KERNBASE <= kend <= PHYSTOP).

(** The entry of a private copy. *)
Definition copy_entry (page : Z) : Z :=
  Z.lor (Z.lor (Z.lor (Z.lor (Z.lor (PA2PTE page) PTE_W) PTE_U) PTE_R) PTE_V) PTE_U.

Lemma copy_entry_spec page :
  managed kend page ->
  PTE2PA (copy_entry page) = page /\ has (copy_entry page) PTE_V = true /\
  has (copy_entry page) PTE_W = true /\ 0 <= copy_entry page < 2 ^ 54 /\ PTE_FLAGS (copy_entry page) = 23.
Proof.
  intros Hm. destruct (managed_range kend Hkend page Hm) as (_ & Hr & Hal).
  assert (copy_entry page = Z.lor (PA2PTE page) 23) as -> by (unfold copy_entry; by rewrite <- !Z.lor_assoc).
  split_and!; try (apply PA2PTE_range; done || lia).
  - by apply PTE2PA_PA2PTE.
  - by rewrite has_pte.
  - by rewrite has_pte.
  - by apply PTE_FLAGS_PA2PTE.
Qed.

(** Moving the mapping [(r, i)] from a shared page to a new one. *)
Lemma vm_ok_move s l tabs users s' l' r i pa page e' :
  vm_ok kend s l tabs users -> (r, i) ∈ users pa -> 1 < ref_count s (PA2IDX pa) ->
  managed kend page -> in_runs l page ->
  vm_inv kend s' l' tabs (assign users (r, i) (Some page)) ->
  (forall p, managed kend p -> ref_count s' (PA2IDX p) =
     if p =? page then 1 else if p =? pa then ref_count s (PA2IDX pa) - 1 else ref_count s (PA2IDX p)) ->
  (forall r' va, is_root tabs r' -> 0 <= va < MAXVA -> mapping (phys s') r' va =
     if (r' =? r) && (va / PGSIZE =? i) then Some e' else mapping (phys s) r' va) -> PTE2PA e' = page ->
  let users' := assign users (r, i) (Some page) in
  vm_ok kend s' l' tabs users' /\ users' page = {[(r, i)]} /\
  (forall p, managed kend p -> krefs s' users' p = krefs s users p).
Proof.
  intros Hvm Hin Href Hm Hl Hv' Hrc Hmap Epage users'. pose proof Hvm as [Hv Hrf Hix Hex].
  destruct (free_page kend Hkend _ _ _ _ _ Hvm Hm Hl) as (Hu0 & Hr0 & Hk0).
  destruct (user_ref kend Hkend _ _ _ _ _ _ Hvm Hin) as (Hmp & _ & Hlp & _ & Hrs).
  assert (Hne : page <> pa) by (intros ->; done).
  assert (Hupage : users' page = {[(r, i)]}).
  { unfold users', assign. rewrite decide_True by done. rewrite Hu0. set_solver. }
  assert (Hu : forall p, p <> page -> users' p = users p ∖ {[(r, i)]}).
  { intros p Hp. unfold users', assign. by rewrite decide_False by congruence. }
  assert (Hsz : forall p, p <> page -> Z.of_nat (size (users' p)) = Z.of_nat (size (users p)) - if p =? pa then 1 else 0).
  { intros p Hp. rewrite (Hu p Hp). destruct (Z.eqb_spec p pa) as [->|Hpp].
    - rewrite size_difference, size_singleton by set_solver. pose proof (size_pos _ _ Hin). lia.
    - rewrite difference_disjoint_L; [lia|]. apply disjoint_singleton_r. intros Hin'. destruct Hpp.
      exact (users_fun kend _ _ _ _ _ _ _ _ Hv Hin' Hin). }
  split_and!; try done.
  - split; [done|..].
    + intros p Hp. destruct (set_choose_L _ Hp) as [[r' j] Hri].
      rewrite Hrc by by eapply (vi_managed _ _ _ _ _ Hv').
      destruct (Z.eqb_spec p page) as [->|Hpp]; [by rewrite Hupage, size_singleton|].
      rewrite Hsz by done. rewrite (Hu p Hpp) in Hri. assert (users p <> ∅) as Hup by set_solver.
      destruct (Z.eqb_spec p pa) as [->|]; [lia|]. rewrite Hrf by done. lia.
    + intros p r1 j1 r2 j2. destruct (decide (p = page)) as [->|Hpp]; [rewrite Hupage; set_solver|].
      rewrite (Hu p Hpp). intros H1 H2. apply (Hix p r1 j1 r2 j2); set_solver.
    + intros r' j e'' Hr' Hj. rewrite Hmap, page_index by (done || by apply upage_va).
      destruct (_ && _) eqn:E.
      * intros [= <-] _. rewrite Epage, Hupage. cbool. f_equal. f_equal; lia.
      * intros He HW. pose proof (Hex r' j e'' Hr' Hj He HW) as Eu.
        assert (PTE2PA e'' <> page) as Hpp by (intros Ep; rewrite Ep, Hu0 in Eu; set_solver).
        rewrite (Hu _ Hpp), Eu. assert ((r', j) <> (r, i)) by (intros [= -> ->]; lia). set_solver.
  - intros p Hmp'. unfold krefs. rewrite Hrc by done. destruct (Z.eqb_spec p page) as [->|Hpp].
    + rewrite Hupage, Hu0, Hr0, size_singleton, size_empty. done.
    + rewrite Hsz by done. destruct (Z.eqb_spec p pa) as [->|]; lia.
Qed.

Lemma record_rmap_vm s l tabs users pa pt vaddr :
  vm_ok kend s l tabs users ->
  wp (record_rmap pa pt vaddr) (fun _ s' => vm_ok kend s' l tabs users /\
    phys s' = phys s /\ ref_count s' = ref_count s) s.
Proof.
  intros [Hv Hrf Hix Hex]. eapply wp_mono; [apply record_rmap_ok|]. intros [] s' E.
  assert (phys s' = phys s /\ ref_count s' = ref_count s /\ freelist s' = freelist s)
    as (E1 & E2 & E3) by (by rewrite E). split_and!; try done.
  destruct (vm_inv_frame kend s s' l l tabs users Hv) as [Hv' _].
  - apply (kmem_ok_ext kend s); try done; [by rewrite E1|apply Hv].
  - by rewrite E1.
  - intros p z Hp. destruct (tab_page kend _ _ _ _ _ _ Hv Hp). by rewrite E2.
  - split; rewrite ?E1, ?E2; done.
Qed.

(** The two ways a copy-on-write fault ends. *)
Definition cow_post (s : kmem_state) (l : list (Z * Z)) (tabs : tabmap) (users : usermap) (r i e : Z)
    (res : Z) (s' : kmem_state) : Prop :=
  (res = 0 /\ s' = s /\ 1 < ref_count s (PA2IDX (PTE2PA e))) \/
  exists l' users', vm_ok kend s' l' tabs users' /\ vm_rel kend s l tabs users s' l' tabs users' /\
    fault_done s tabs r i (fun k => phys s (PTE2PA e + k)) res s' users' /\
    (res <> PTE2PA e -> forall e', mapping (phys s') r (i * PGSIZE) = Some e' -> PTE_FLAGS e' = 23).

(** The end of [cow_fault]: refresh the reverse map, return the page. *)
Lemma cow_finish s l tabs users s1 l1 users1 r i p0 e e1 :
  vm_ok kend s1 l1 tabs users1 -> vm_rel kend s l tabs users s1 l1 tabs users1 -> is_root tabs r ->
  entry (phys s1) p0 (PX 0 (i * PGSIZE)) = e1 ->
  fault_done s tabs r i (fun k => phys s (PTE2PA e + k)) (PTE2PA e1) s1 users1 ->
  (PTE2PA e1 <> PTE2PA e -> forall e', mapping (phys s1) r (i * PGSIZE) = Some e' -> PTE_FLAGS e' = 23) ->
  wp (let! m' := kget phys in
      do! record_rmap (PTE2PA (ld64 m' (p0 + 8 * PX 0 (i * PGSIZE)))) r (i * PGSIZE);
      kret (PTE2PA (ld64 m' (p0 + 8 * PX 0 (i * PGSIZE))))) (cow_post s l tabs users r i e) s1.
Proof.
  intros Hvm1 Hrel1 Hr He1 Hdone Hflags. apply wp_bind, wp_get.
  change (ld64 (phys s1) (p0 + 8 * PX 0 (i * PGSIZE))) with (entry (phys s1) p0 (PX 0 (i * PGSIZE))).
  rewrite He1. apply wp_bind. eapply wp_mono; [by apply (record_rmap_vm s1 l1 tabs users1)|].
  intros [] s2 (Hvm2 & Eph & Erc). apply wp_ret. right. exists l1, users1. split_and!; [done| | |by rewrite Eph].
  - destruct Hrel1 as [H1 H2 H3 H4 H5 H6]. split; try done.
    + intros pa. unfold krefs. rewrite Erc. apply H1.
    + intros x. rewrite Eph. apply H6.
  - destruct Hdone as (e' & H1 & H2 & H3 & H4 & H5 & H6). exists e'. rewrite Eph. done.
Qed.

Lemma cow_fault_ok s l tabs users r i p0 e :
  vm_ok kend s l tabs users -> is_root tabs r -> 0 <= i < UPAGES ->
  leaf_slot (phys s) r (i * PGSIZE) p0 -> mapping (phys s) r (i * PGSIZE) = Some e ->
  entry (phys s) p0 (PX 0 (i * PGSIZE)) = e ->
  wp (cow_fault r (i * PGSIZE) (p0 + 8 * PX 0 (i * PGSIZE))) (cow_post s l tabs users r i e) s.
Proof.
  intros Hvm Hr Hi Hls He Hent. pose proof (vk_inv _ _ _ _ _ Hvm) as Hv.
  pose proof (mapping_user kend _ _ _ _ _ _ _ Hv Hr Hi He) as Hin.
  destruct (user_ref kend Hkend _ _ _ _ _ _ Hvm Hin) as (Hm & Ht & Hl & Hr1 & Hrs).
  pose proof (upage_va i Hi) as Hva. unfold cow_fault. apply wp_bind, wp_get.
  change (ld64 (phys s) (p0 + 8 * PX 0 (i * PGSIZE))) with (entry (phys s) p0 (PX 0 (i * PGSIZE))).
  rewrite Hent. set (pa := PTE2PA e) in *. apply wp_bind. unfold getref. apply wp_bind, wp_get, wp_ret. apply wp_bind.
  rewrite Z.gtb_ltb. destruct (Z.ltb_spec 1 (ref_count s (PA2IDX pa))) as [Hgt|Hle].
  - apply wp_bind. eapply wp_mono; [by apply (vm_kalloc kend Hkend s l tabs users)|].
    intros page s1 [[-> ->]|(Hp0 & Hpm & Hpl & Hpt & l1 & Hv1 & Hl1 & Hrc1 & Hmaps1 & Hmem1)].
    { apply wp_ret. by left. }
    rewrite (proj2 (Z.eqb_neq page 0)) by done. apply wp_bind, wp_upd.
    set (f := fun m : mem => memmove m page pa PGSIZE).
    assert (Hfin : forall m k, 0 <= k < PGSIZE -> f m (page + k) = m (pa + k)).
    { intros m k Hk. unfold f. by rewrite memmove_in by (unfold PGSIZE in *; lia). }
    assert (Hfout : forall m x, ~ (page <= x < page + PGSIZE) -> f m x = m x).
    { intros m x Hx. unfold f. by rewrite memmove_out by (unfold PGSIZE in *; lia). }
    assert (Hnin1 : ~ in_runs l1 page) by (rewrite Hl1; unfold PGSIZE; lia).
    clearbody f. destruct (vm_write kend s1 l1 tabs users page f Hv1 Hpm Hpt Hnin1 (Hfout _)) as [Hv2 Hmaps2].
    set (s2 := set_phys f s1) in *. apply wp_bind, wp_upd.
    destruct (copy_entry_spec page Hpm) as (Ece & HcV & HcW & Hcr & Hc23).
    destruct (vm_store kend Hkend s2 l1 tabs users r i p0 (copy_entry page)) as (Hv3 & Hmap3 & Hmem3 & _); try done.
    { apply (Hmaps2 r Hr), (Hmaps1 r Hr), Hls. }
    { lia. }
    { by rewrite Ece. }
    fold (copy_entry page). change (set_phys _ s2) with (store_leaf p0 (i * PGSIZE) (copy_entry page) s2).
    rewrite HcV in Hmap3. unfold reassign in Hv3. rewrite (proj2 (Z.ltb_lt _ _)), HcV, Ece in Hv3 by lia.
    set (s3 := store_leaf p0 (i * PGSIZE) (copy_entry page) s2) in *.
    assert (Hpp : page <> pa) by congruence.
    assert (Hl1pa : ~ in_runs l1 pa) by (rewrite Hl1; tauto).
    assert (Hrc3 : forall p, managed kend p -> ref_count s3 (PA2IDX p) = if p =? page then 1 else ref_count s (PA2IDX p))
      by (intros p Hmp; by apply Hrc1).
    apply wp_bind. eapply wp_mono.
    { apply (decref_ok kend s3 l1 pa); [apply Hv3|done|]. rewrite Hrc3 by done.
      by rewrite (proj2 (Z.eqb_neq pa page)) by done. }
    intros res s4 (_ & _ & ->). apply wp_ret. cbv beta iota.
    rewrite Hrc3, (proj2 (Z.eqb_neq pa page)) by done.
    set (s4 := set_ref_count (PA2IDX pa) (ref_count s (PA2IDX pa) - 1) s3).
    assert (Hv4 : vm_inv kend s4 l1 tabs (assign users (r, i) (Some page))).
    { apply vm_set_ref; try done. destruct (ko_rc _ _ _ (vi_kmem _ _ _ _ _ Hv) pa Hm) as [Hb _]. lia. }
    assert (Hmap4 : forall r' va, is_root tabs r' -> 0 <= va < MAXVA -> mapping (phys s4) r' va =
       if (r' =? r) && (va / PGSIZE =? i) then Some (copy_entry page) else mapping (phys s) r' va).
    { intros r' va Hr' Hva'. change (phys s4) with (phys s3). rewrite Hmap3 by done. cif; [done|].
      etrans; [apply (Hmaps2 r' Hr' va)|apply (Hmaps1 r' Hr' va)]. }
    assert (Hrc4 : forall p, managed kend p -> ref_count s4 (PA2IDX p) =
      if p =? page then 1 else if p =? pa then ref_count s (PA2IDX pa) - 1 else ref_count s (PA2IDX p)).
    { intros p Hmp. simpl. destruct (Z.eqb_spec p pa) as [->|Hp].
      - rewrite upd_eq. by rewrite (proj2 (Z.eqb_neq pa page)).
      - rewrite upd_ne by (intros E; by apply (PA2IDX_inj kend) in E). by apply Hrc3. }
    destruct (vm_ok_move s l tabs users s4 l1 r i pa page (copy_entry page)) as (Hvm4 & Hup & Hk); try done.
    assert (Hmem4 : forall x, data_byte tabs l x -> phys s4 x = phys s x).
    { intros x [Hx Hxt]. change (phys s4) with (phys s3). rewrite Hmem3 by done. unfold s2. simpl. rewrite Hfout.
      - by apply Hmem1.
      - contradict Hx. by eapply (in_runs_whole_page kend s l); [apply Hv|apply Hpm|..]. }
    apply (cow_finish s l tabs users s4 l1 (assign users (r, i) (Some page)) r i p0 e (copy_entry page)); try done.
    + split; try done; [intros; by apply Hk|intros x Hx; apply Hl1 in Hx; tauto|by left].
    + change (phys s4) with (phys s3). unfold s3, store_leaf. simpl. rewrite u64_small by lia.
      apply entry_st64_same. lia.
    + exists (copy_entry page). rewrite !Ece. split_and!; try done. intros k Hk'.
      change (phys s4) with (phys s3). rewrite Hmem3; [unfold s2; simpl; rewrite Hfin by done; apply Hmem1|].
      * contradict Hl. eapply (in_runs_page l _ pa); [apply Hv|apply Hm| |exact Hl]. lia.
      * eapply (tab_same_page kend _ _ _ _ page _ Hv); try done. lia.
    + intros _ e'. rewrite Hmap4, page_index, !Z.eqb_refl by done. by intros [= <-].
  - apply wp_bind, wp_upd, wp_bind, wp_get, wp_bind, wp_upd, wp_ret. cbv beta iota.
    pose proof (ld64_range (phys s) (p0 + 8 * PX 0 (i * PGSIZE))) as Her.
    change (ld64 (phys s) (p0 + 8 * PX 0 (i * PGSIZE))) with (entry (phys s) p0 (PX 0 (i * PGSIZE))) in Her.
    rewrite Hent in Her. destruct (mapping_leaf_slot _ _ _ _ He) as (_ & _ & _ & HV).
    destruct (promoted_spec e Her HV) as (Epa & _ & _ & Hlr & Hpr & _).
    change (set_phys (fun m : mem => st64 m (p0 + 8 * PX 0 (i * PGSIZE)) (u64 (Z.lor e PTE_W))) s)
      with (store_leaf p0 (i * PGSIZE) (Z.lor e PTE_W) s).
    set (s1 := store_leaf p0 (i * PGSIZE) (Z.lor e PTE_W) s).
    assert (ld64 (phys s1) (p0 + 8 * PX 0 (i * PGSIZE)) = Z.lor e PTE_W) as ->.
    { unfold s1, store_leaf. simpl. rewrite u64_small by done. by apply ld64_st64_same. }
    fold (promoted e). change (set_phys _ s1) with (store_leaf p0 (i * PGSIZE) (promoted e) s1).
    destruct (promote_ok kend Hkend s l tabs users r i p0 e) as (Hvm' & Hrel' & Hdone); try done.
    fold s1 in Hvm', Hrel', Hdone.
    apply (cow_finish s l tabs users _ l users r i p0 e (promoted e)); try done.
    + unfold store_leaf. simpl. rewrite (u64_small (promoted e)) by done. apply entry_st64_same. done.
    + by rewrite Epa.
Qed.

Definition fault_source (s : kmem_state) (r va k : Z) : Z :=
  match mapping (phys s) r va with
  | Some e => phys s (PTE2PA e + k)
  | None => 0
  end.

(** The outcomes of [vmfault]: failure without effect on any translation,
    or a private writable page with the contents seen before (zeros for a
    page that was not there). *)
Definition fault_post (s : kmem_state) (l : list (Z * Z)) (tabs : tabmap) (users : usermap) (psz r va : Z)
    (res : Z) (s' : kmem_state) : Prop :=
  exists l' tabs' users', vm_ok kend s' l' tabs' users' /\ vm_rel kend s l tabs users s' l' tabs' users' /\
    ((res = 0 /\ forall r' va', is_root tabs r' -> 0 <= va' < MAXVA ->
        mapping (phys s') r' va' = mapping (phys s) r' va') \/
     (va < psz /\ (forall e, mapping (phys s) r va = Some e -> has e PTE_COW = true /\ has e PTE_W = false) /\
      fault_done s tabs r (va / PGSIZE) (fault_source s r va) res s' users' /\
      (forall e e', mapping (phys s) r va = Some e -> res <> PTE2PA e ->
         mapping (phys s') r va = Some e' -> PTE_FLAGS e' = 23))).

Lemma fault_done_ext s tabs r i src src' res s' users' :
  (forall k, 0 <= k < PGSIZE -> src k = src' k) ->
  fault_done s tabs r i src res s' users' -> fault_done s tabs r i src' res s' users'.
Proof.
  intros E (e' & H1 & H2 & H3 & H4 & H5 & H6). exists e'. split_and!; try done.
  intros k Hk. by rewrite H6, E.
Qed.

Lemma vmfault_ok s l tabs users psz r va :
  vm_ok kend s l tabs users -> is_root tabs r -> 0 <= va -> psz <= TRAPFRAME ->
  wp (vmfault kend psz r va) (fault_post s l tabs users psz r va) s.
Proof.
  intros Hvm Hr Hva Hpsz. pose proof (vk_inv _ _ _ _ _ Hvm) as Hv.
  assert (Hnoop : fault_post s l tabs users psz r va 0 s).
  { exists l, tabs, users. split_and!; [done|apply vm_rel_refl|by left]. }
  unfold vmfault. rewrite Z.geb_leb. destruct (Z.leb_spec psz va) as [Hge|Hlt]; [by apply wp_ret|].
  change TRAPFRAME with (67108862 * PGSIZE) in Hpsz. rewrite PGROUNDDOWN_spec. set (i := va / PGSIZE) in *.
  assert (Hi : 0 <= i < UPAGES)
    by (rewrite UPAGES_val; unfold i, PGSIZE in *; Z.to_euclidean_division_equations; lia).
  pose proof (upage_va i Hi) as Hiva.
  assert (Emap : mapping (phys s) r va = mapping (phys s) r (i * PGSIZE)) by (apply mapping_same_page; lia).
  apply wp_bind. eapply wp_mono.
  { apply (walk_lookup kend Hkend s l r (pos_of tabs r) (i * PGSIZE)); [apply Hv|by apply Hv|done]. }
  intros a s0 (-> & Hw). apply wp_bind, wp_get.
  assert (Hlazy : mapping (phys s) r (i * PGSIZE) = None ->
    wp (let! page := kalloc in
        if page =? 0 then kret 0 else
        do! kupd (set_phys (fun m' => memset m' page 0 PGSIZE));
        let! res := mappages r (i * PGSIZE) PGSIZE page (Z.lor (Z.lor PTE_W PTE_U) PTE_R) in
        if negb (res =? 0) then do! kfree kend page; kret 0
        else kret page) (fault_post s l tabs users psz r va) s).
  { intros Hnone. apply (map_fresh_ok kend Hkend s l tabs users r i); try done.
    - intros s1 l1 tabs1 Hvm1 Hrel1 Hm1. apply wp_ret. exists l1, tabs1, users. split_and!; [done..|by left].
    - intros page s1 l1 tabs1 users1 Hvm1 Hrel1 Hpm Hpl Hpu Hpz Hm1. apply wp_ret. exists l1, tabs1, users1.
      split_and!; [done..|right]. rewrite Emap, Hnone. split; [done|]. split; [done|].
      destruct (managed_range kend Hkend page Hpm) as (_ & Hpr & Hpal).
      split; [|done].
      exists (Z.lor (Z.lor (PA2PTE page) (Z.lor (Z.lor PTE_W PTE_U) PTE_R)) PTE_V).
      rewrite <- !(Z.lor_assoc (PA2PTE page)) in *. split_and!; try done.
      + by apply PTE2PA_PA2PTE.
      + by rewrite has_pte.
      + by rewrite has_pte.
      + intros k Hk. unfold fault_source. rewrite Emap, Hnone. apply Hpz. lia. }
  destruct Hw as [[-> Hnone]|(Ha & p0 & Hls & ->)]; [by apply Hlazy|].
  rewrite (proj2 (Z.eqb_neq _ 0)) by done. rewrite orb_false_l.
  change (ld64 (phys s) (p0 + 8 * PX 0 (i * PGSIZE))) with (entry (phys s) p0 (PX 0 (i * PGSIZE))).
  pose proof (leaf_slot_mapping _ _ _ _ Hls) as Hmap. set (e := entry (phys s) p0 _) in *.
  destruct (has e PTE_V) eqn:HV; cbn [negb]; [|by apply Hlazy].
  destruct (has e PTE_COW) eqn:HC; cbn [andb]; [|by apply wp_ret].
  destruct (has e PTE_W) eqn:HW; cbn [negb]; [by apply wp_ret|].
  eapply wp_mono; [by apply (cow_fault_ok s l tabs users r i p0 e)|].
  intros res s1 [(-> & -> & _)|(l1 & users1 & Hvm1 & Hrel1 & Hdone & Hflags)]; [done|].
  exists l1, tabs, users1. split_and!; [done..|right]. split; [done|]. split.
  - rewrite Emap, Hmap. by intros e' [= <-].
  - split; [eapply fault_done_ext; [|exact Hdone]; intros k Hk; unfold fault_source; by rewrite Emap, Hmap|].
    rewrite Emap, Hmap, (mapping_same_page (phys s1) r va i) by lia. intros e0 e' [= <-] Hgt. by apply Hflags.
Qed.

End fault.
