(* ===== verification/VmSpec.v ===== *)
(** * Virtual memory: the properties

    The theorems about vm.c that other parts of the kernel rely on, stated
    over the invariant of address spaces, each instantiated at the small
    system of Demo. *)

From stdpp Require Import gmap.
From S2P Require Import Prelude Memory StringC Kalloc Vm PageTable AddrSpace Demo Uvm Cow Fault.

(** ** Reads through address spaces *)

Section reads.
Context (kend : Z) (Hkend : KERNBASE <= kend <= PHYSTOP).

Lemma user_page_va va : 0 <= va < TRAPFRAME -> 0 <= va / PGSIZE < UPAGES /\ 0 <= va < MAXVA.
Proof.
  change TRAPFRAME with (67108862 * PGSIZE). rewrite UPAGES_val, MAXVA_small. unfold PGSIZE. intros.
  Z.to_euclidean_division_equations. lia.
Qed.

Lemma mapped_user s l tabs users r va e :
  vm_ok kend s l tabs users -> is_root tabs r -> 0 <= va < TRAPFRAME -> mapping (phys s) r va = Some e ->
  (r, va / PGSIZE) ∈ users (PTE2PA e).
Proof.
  intros Hvm Hr Hva He. destruct (user_page_va va Hva) as [Hi Hm].
  apply (mapping_user kend s l tabs); try done; [apply Hvm|]. by rewrite <- (mapping_same_page _ _ va) by lia.
Qed.

(** The bytes of a mapped page are neither free nor table bytes. *)
Lemma user_data s l tabs users ri pa x :
  vm_ok kend s l tabs users -> ri ∈ users pa -> pa <= x < pa + PGSIZE -> data_byte tabs l x.
Proof.
  intros Hvm Hu Hx. destruct (user_ref kend Hkend _ _ _ _ _ _ Hvm Hu) as (Hm & Ht & Hl & _). split.
  - contradict Hl. eapply (in_runs_page l _ pa); [apply Hvm|apply Hm|done|done].
  - by apply (tab_same_page kend s l tabs users pa); [apply Hvm|..].
Qed.

Lemma page_offset va : 0 <= va mod PGSIZE < PGSIZE.
Proof. apply Z.mod_pos_bound. unfold PGSIZE. lia. Qed.

(** A translation to the same page reads the same byte. *)
Lemma uread_rel s l tabs users s' l' tabs' users' r va :
  vm_ok kend s l tabs users -> vm_rel kend s l tabs users s' l' tabs' users' ->
  is_root tabs r -> 0 <= va < TRAPFRAME ->
  PTE2PA <$> mapping (phys s') r va = PTE2PA <$> mapping (phys s) r va ->
  uread (phys s') r va = uread (phys s) r va.
Proof.
  intros Hvm Hrel Hr Hva E. unfold uread.
  destruct (mapping (phys s) r va) as [e|] eqn:He; destruct (mapping (phys s') r va) as [e'|]; try done.
  simpl in E. injection E as ->. f_equal. apply (vr_mem _ _ _ _ _ _ _ _ _ Hrel).
  eapply user_data; [done|by apply (mapped_user s l tabs users r va e)|]. pose proof (page_offset va). lia.
Qed.

End reads.

(** C15. Fork's copy: after a successful [uvmcopy] the child reads, at every
    address below the size, the byte the parent reads; the parent and every
    other process read what they read before; neither parent nor child can
    write the shared pages; and reference counts are exact.  After a failure
    the child maps what it mapped before and all reads are unchanged. *)
Theorem uvmcopy_shares_memory kend s l tabs users old new sz :
  KERNBASE <= kend <= PHYSTOP -> vm_ok kend s l tabs users ->
  is_root tabs old -> is_root tabs new -> old <> new -> 0 <= sz <= TRAPFRAME ->
  (forall j, 0 <= j < (sz + PGSIZE - 1) / PGSIZE -> mapping (phys s) new (j * PGSIZE) = None) ->
  wp (uvmcopy kend old new sz) (fun res s' => exists l' tabs' users', vm_ok kend s' l' tabs' users' /\
    (forall r va, is_root tabs r -> r <> new -> 0 <= va < TRAPFRAME -> uread (phys s') r va = uread (phys s) r va) /\
    ((res = 0 /\ forall va, 0 <= va < sz ->
        uread (phys s') new va = uread (phys s) old va /\
        forall e, mapping (phys s') new va = Some e \/ mapping (phys s') old va = Some e -> has e PTE_W = false) \/
     (res = -1 /\ forall va, 0 <= va < MAXVA -> mapping (phys s') new va = mapping (phys s) new va))) s.
Proof.
  intros Hkend Hvm Hro Hrn Hne Hsz Hnone.
  eapply wp_mono; [by apply (uvmcopy_ok kend Hkend s l tabs users old new sz)|].
  intros res s' (l' & tabs' & users' & Hvm' & Hrel & Hres). exists l', tabs', users'.
  assert (Hpe : forall va e, 0 <= va < TRAPFRAME -> mapping (phys s) old va = Some e ->
            PTE2PA (parent_entry e) = PTE2PA e /\ has (parent_entry e) PTE_W = false /\
            PTE2PA (cow_entry e) = PTE2PA e /\ has (cow_entry e) PTE_W = false).
  { intros va e Hva He. pose proof (mapped_user kend s l tabs users old va e Hvm Hro Hva He) as Hu.
    destruct (mapping_leaf_slot _ _ _ _ He) as (_ & _ & _ & HV).
    pose proof (vi_managed _ _ _ _ _ (vk_inv _ _ _ _ _ Hvm) _ _ _ Hu) as Hm.
    destruct (parent_entry_spec kend Hkend e Hm HV) as (? & ? & _).
    destruct (cow_entry_spec kend e Hkend Hm HV) as (? & _ & _ & ? & _). done. }
  split_and!; [done| |].
  - intros r va Hr Hrne Hva. destruct (user_page_va va Hva) as [Hi Hmax].
    apply (uread_rel kend Hkend s l tabs users s' l' tabs' users'); try done.
    assert (mapping (phys s') r va = mapping (phys s) r va \/
            r = old /\ mapping (phys s') r va = parent_entry <$> mapping (phys s) r va) as [->|[-> ->]].
    { destruct Hres as [[_ Hc]|[_ Hc]]; [|by apply Hc]. rewrite (Hc r va Hr Hmax).
      rewrite (proj2 (Z.eqb_neq r new)) by done. destruct (Z.eqb_spec r old) as [->|]; repeat cif; tauto. }
    + done.
    + destruct (mapping (phys s) old va) as [e|] eqn:He; [|done]. simpl. f_equal. by apply (Hpe va e).
  - destruct Hres as [[-> Hc]|[-> Hc]]; [left|right]; (split; [done|]).
    + intros va Hva. destruct (user_page_va va ltac:(lia)) as [Hi Hmax].
      assert (va / PGSIZE < (sz + PGSIZE - 1) / PGSIZE) as Hlt
        by (unfold PGSIZE; Z.to_euclidean_division_equations; lia).
      pose proof (Hc new va Hrn Hmax) as Hn. pose proof (Hc old va Hro Hmax) as Ho.
      rewrite (proj2 (Z.ltb_lt _ _) Hlt), Z.eqb_refl in Ho.
      rewrite (proj2 (Z.ltb_lt _ _) Hlt), Z.eqb_refl, (proj2 (Z.eqb_neq new old)) in Hn by done.
      unfold uread. rewrite Hn, Ho. destruct (mapping (phys s) old va) as [e|] eqn:He; simpl; [|naive_solver].
      destruct (Hpe va e ltac:(lia) He) as (_ & Hw1 & E2 & Hw2). rewrite E2. split; [|naive_solver].
      f_equal. apply (vr_mem _ _ _ _ _ _ _ _ _ Hrel).
      eapply (user_data kend Hkend s l tabs users); [done|apply (mapped_user kend s l tabs users old va e); try done; lia|].
      pose proof (page_offset va). lia.
    + intros va Hva. destruct (Hc new va Hrn Hva) as [?|[? _]]; [done|congruence].
Qed.

Lemma uvmcopy_shares_memory_witness :
  exists res s', uvmcopy kend8 (page8 0) (page8 4) 4096 (demo 23) = Ret res s' /\
    uread (phys s') (page8 0) 0 = uread (phys (demo 23)) (page8 0) 0.
Proof.
  destruct (proj1 (wp_ex _ _ _) (uvmcopy_shares_memory kend8 (demo 23) _ demo_tabs demo_users (page8 0) (page8 4) 4096
    kend8_range (demo_vm 23 ltac:(done) eq_refl) demo_root0 demo_root4 demo_roots_ne ltac:(done)
    (fun j Hj => demo_child_none 23 _ j ltac:(done) eq_refl Hj ltac:(done))))
    as (res & s' & E & l' & tabs' & users' & _ & Hread & _).
  exists res, s'. split; [exact E|]. assert (0 <= 0 < TRAPFRAME) as H0 by (split; [lia|reflexivity]).
  specialize (Hread (page8 0) 0 demo_root0).
  specialize (Hread demo_roots_ne H0).
  exact Hread.
Defined.

(** A user store through the translation [e] of [va]. *)
Definition ustore (m : mem) (e va v : Z) : mem := upd m (PTE2PA e + va mod PGSIZE) v.



(** C17. Page faults: [vmfault] keeps the invariant (so exact reference counts
    and isolation) and every byte any process could read; if it returns a page,
    the faulting address is below the size, was unmapped or marked
    copy-on-write, and is now mapped writable to that page, which no other
    address maps and which holds what was readable there before (zeros if
    nothing was). *)
Theorem vmfault_private kend s l tabs users psz r va :
  KERNBASE <= kend <= PHYSTOP -> vm_ok kend s l tabs users -> is_root tabs r -> 0 <= va -> psz <= TRAPFRAME ->
  wp (vmfault kend psz r va) (fun res s' => exists l' tabs' users', vm_ok kend s' l' tabs' users' /\
    (forall r' va', is_root tabs r' -> 0 <= va' < TRAPFRAME -> mapping (phys s) r' va' <> None ->
       uread (phys s') r' va' = uread (phys s) r' va') /\
    (res <> 0 -> va < psz /\
       (forall e, mapping (phys s) r va = Some e -> has e PTE_COW = true /\ has e PTE_W = false) /\
       users' res = {[(r, va / PGSIZE)]} /\
       exists e', mapping (phys s') r va = Some e' /\ PTE2PA e' = res /\ has e' PTE_W = true /\
         forall k, 0 <= k < PGSIZE -> phys s' (res + k) = fault_source s r va k)) s.
Proof.
  intros Hkend Hvm Hr Hva Hpsz. eapply wp_mono; [by apply (vmfault_ok kend Hkend s l tabs users psz r va)|].
  intros res s' (l' & tabs' & users' & Hvm' & Hrel & Hres). exists l', tabs', users'. split; [done|].
  destruct Hres as [[-> Hsame]|(Hlt & Hcow & (e' & <- & HV' & HW' & Hu' & Hmap & Hcont) & _)].
  { split; [|done]. intros r' va' Hr' Hva' _. apply (uread_rel kend Hkend s l tabs users s' l' tabs' users'); try done.
    by rewrite Hsame by (done || by apply user_page_va). }
  split; [|intros _; split_and!; try done].
  - intros r' va' Hr' Hva' Hn. destruct (user_page_va va' Hva') as [Hi' Hmax'].
    destruct ((r' =? r) && (va' / PGSIZE =? va / PGSIZE)) eqn:E.
    + cbool. assert (r' = r) as -> by lia. unfold uread. rewrite Hmap, Z.eqb_refl by done.
      rewrite (proj2 (Z.eqb_eq _ _)) by lia. simpl.
      rewrite Hcont by apply page_offset. unfold fault_source.
      rewrite (mapping_same_page _ r va (va / PGSIZE)), <- (mapping_same_page _ r va' (va / PGSIZE)) by lia.
      by destruct (mapping (phys s) r va').
    + apply (uread_rel kend Hkend s l tabs users s' l' tabs' users'); try done. by rewrite Hmap, E.
  - exists e'. split_and!; try done. destruct (user_page_va va ltac:(lia)) as [_ Hmax].
    by rewrite Hmap, !Z.eqb_refl.
Qed.

Lemma vmfault_private_witness :
  exists res s', vmfault kend8 4096 (page8 0) 0 (demo 275) = Ret res s' /\
    (res <> 0 -> exists e', mapping (phys s') (page8 0) 0 = Some e' /\ has e' PTE_W = true).
Proof.
  destruct (proj1 (wp_ex _ _ _) (vmfault_private kend8 (demo 275) _ demo_tabs demo_users 4096 (page8 0) 0
    kend8_range (demo_vm 275 ltac:(done) eq_refl) demo_root0 ltac:(done) ltac:(done)))
    as (res & s' & E & l' & tabs' & users' & _ & _ & H).
  exists res, s'. split; [exact E|]. intros Hne. destruct (H Hne) as (_ & _ & _ & e' & H1 & _ & H2 & _).
  exists e'. split; [exact H1|exact H2].
Defined.

(** C18. Growing a process: [uvmalloc] either maps every page of the new range
    to a page of its own, taken from the free list and filled with zeros, with
    the requested permissions, and returns the new size; or it returns 0, every
    translation is as before and what it allocated is free again.  In both
    cases no byte any process reads changes and reference counts stay exact. *)
Theorem uvmalloc_grows kend s l tabs users r oldsz newsz xperm :
  KERNBASE <= kend <= PHYSTOP -> vm_ok kend s l tabs users -> is_root tabs r ->
  0 <= oldsz <= newsz -> newsz <= TRAPFRAME -> 0 <= xperm < 1024 ->
  let i0 := (oldsz + PGSIZE - 1) / PGSIZE in
  let i1 := (newsz + PGSIZE - 1) / PGSIZE in
  (forall j, i0 <= j < i1 -> mapping (phys s) r (j * PGSIZE) = None) ->
  wp (uvmalloc kend r oldsz newsz xperm) (fun res s' => exists l' tabs' users', vm_ok kend s' l' tabs' users' /\
    (forall r' va, is_root tabs r' -> 0 <= va < TRAPFRAME -> mapping (phys s) r' va <> None ->
       uread (phys s') r' va = uread (phys s) r' va) /\
    ((res = newsz /\ forall j, i0 <= j < i1 -> exists page, in_runs l page /\ users' page = {[(r, j)]} /\
        (forall x, page <= x < page + PGSIZE -> phys s' x = 0) /\
        mapping (phys s') r (j * PGSIZE) =
          Some (Z.lor (Z.lor (PA2PTE page) (Z.lor (Z.lor PTE_R PTE_U) xperm)) PTE_V)) \/
     (res = 0 /\ (forall x, in_runs l' x -> in_runs l x) /\
      forall r' va, is_root tabs r' -> 0 <= va < MAXVA -> mapping (phys s') r' va = mapping (phys s) r' va))) s.
Proof.
  intros Hkend Hvm Hr Ho Hn Hx i0 i1 Hnone.
  eapply wp_mono; [apply (uvmalloc_ok kend Hkend s l tabs users r oldsz newsz xperm); try done; lia|].
  intros res s'. rewrite (proj2 (Z.ltb_ge _ _)) by lia. fold i0 i1.
  intros (l' & tabs' & users' & Hvm' & Hrel & Hres). exists l', tabs', users'. split; [done|]. split.
  - intros r' va Hr' Hva Hm. destruct (user_page_va va Hva) as [Hi Hmax].
    apply (uread_rel kend Hkend s l tabs users s' l' tabs' users'); try done. f_equal.
    destruct Hres as [[_ [_ Hold]]|[_ Hsame]]; [|by apply Hsame]. apply Hold; try done. intros [-> Hj].
    apply Hm. rewrite (mapping_same_page _ _ va (va / PGSIZE)) by lia. apply Hnone. lia.
  - destruct Hres as [[-> [Hnew _]]|[-> Hsame]]; [left|right]; (split; [done|]).
    + intros j Hj. apply Hnew. lia.
    + split; [apply Hrel|done].
Qed.

Lemma uvmalloc_grows_witness :
  exists res s', uvmalloc kend8 (page8 4) 0 4096 PTE_W (demo 23) = Ret res s' /\
    uread (phys s') (page8 0) 9 = uread (phys (demo 23)) (page8 0) 9.
Proof.
  destruct (proj1 (wp_ex _ _ _) (uvmalloc_grows kend8 (demo 23) _ demo_tabs demo_users (page8 4) 0 4096 PTE_W
    kend8_range (demo_vm 23 ltac:(done) eq_refl) demo_root4 ltac:(lia) ltac:(done) ltac:(done)
    (fun j Hj => demo_child_none 23 1 j ltac:(done) eq_refl Hj ltac:(done))))
    as (res & s' & E & l' & tabs' & users' & _ & Hread & _).
  exists res, s'. split; [exact E|].
  specialize (Hread (page8 0) 9 demo_root0 ltac:(split; [lia|reflexivity])). apply Hread.
  rewrite (demo_parent 23 9); [discriminate|split; [lia|reflexivity]..|reflexivity|split; [lia|reflexivity]].
Defined.

(** Shrinking a process: [uvmdealloc] returns the smaller size, unmaps
    exactly the pages between the two rounded sizes, keeps every other
    translation and every byte read through one, and gives back what was
    unmapped: a page whose last mapping went, and that had no other reference,
    is on the free list. *)
Theorem uvmdealloc_shrinks kend s l tabs users r oldsz newsz :
  KERNBASE <= kend <= PHYSTOP -> vm_ok kend s l tabs users -> is_root tabs r ->
  0 <= newsz -> 0 <= oldsz <= TRAPFRAME ->
  wp (uvmdealloc kend r oldsz newsz) (fun res s' => res = Z.min oldsz newsz /\
    exists l' users', vm_ok kend s' l' tabs users' /\
    (forall r' va, is_root tabs r' -> 0 <= va < MAXVA -> mapping (phys s') r' va =
       if (r' =? r) && (PGROUNDUP res <=? va) && (va <? PGROUNDUP oldsz) then None else mapping (phys s) r' va) /\
    (forall r' va, is_root tabs r' -> 0 <= va < TRAPFRAME -> mapping (phys s') r' va <> None ->
       uread (phys s') r' va = uread (phys s) r' va) /\
    (forall pa, managed kend pa -> users pa <> ∅ -> users' pa = ∅ -> in_runs l' pa)) s.
Proof.
  intros Hkend Hvm Hr Hn Ho. eapply wp_mono; [by apply (uvmdealloc_ok kend Hkend s l tabs users r oldsz newsz)|].
  intros res s' (-> & l' & users' & Hvm' & Hsh & Hmap). split; [done|]. exists l', users'. split_and!; try done.
  - intros r' va Hr' Hva Hm. destruct (user_page_va va Hva) as [Hi Hmax]. pose proof (Hmap r' va Hr' Hmax) as E.
    destruct (_ && _); [congruence|]. unfold uread. rewrite E. destruct (mapping (phys s) r' va) as [e|] eqn:He; [|done].
    f_equal. apply (vs_mem _ _ _ _ _ _ _ _ Hsh).
    eapply (user_data kend Hkend s' l' tabs users'); [done|by apply (mapped_user kend s' l' tabs users' r' va e)|].
    pose proof (page_offset va). lia.
  - intros pa Hm Hu Hu'. destruct (set_choose_L _ Hu) as [ri Hri].
    destruct (user_ref kend Hkend _ _ _ _ _ _ Hvm Hri) as (_ & Ht & _ & _ & Hrs).
    pose proof (vs_krefs _ _ _ _ _ _ _ _ Hsh pa Hm Ht) as Hk. unfold krefs in Hk.
    rewrite Hu', size_empty, Hrs in Hk.
    apply (ko_rc _ _ _ (vi_kmem _ _ _ _ _ (vk_inv _ _ _ _ _ Hvm')) pa Hm). lia.
Qed.

Lemma uvmdealloc_shrinks_witness :
  exists s', uvmdealloc kend8 (page8 0) 4096 0 (demo 23) = Ret 0 s' /\ mapping (phys s') (page8 0) 0 = None.
Proof.
  destruct (proj1 (wp_ex _ _ _) (uvmdealloc_shrinks kend8 (demo 23) _ demo_tabs demo_users (page8 0) 4096 0
    kend8_range (demo_vm 23 ltac:(done) eq_refl) demo_root0 ltac:(lia) ltac:(done)))
    as (res & s' & E & -> & l' & users' & _ & Hmap & _).
  exists s'. split; [exact E|]. rewrite (Hmap (page8 0) 0 demo_root0) by (split; [lia|reflexivity]).
  rewrite Z.eqb_refl. reflexivity.
Defined.

(** Building translations: [mappages] on unmapped pages returns 0 with
    every page of the range mapped to consecutive physical pages with the given
    permissions, or -1 with a proper prefix of them mapped; all other
    translations, all memory outside this page table and the free list, and the
    reference counts of allocated pages are untouched.  Mapping a page that is
    already mapped panics. *)
Theorem mappages_maps kend s l pt pos vaddr n pa perm :
  KERNBASE <= kend <= PHYSTOP -> kmem_ok kend s l -> pt_ok kend s l pt pos -> 1 <= n ->
  0 <= vaddr -> vaddr + n * PGSIZE <= MAXVA -> vaddr mod PGSIZE = 0 ->
  pa mod PGSIZE = 0 -> 0 <= pa -> pa + n * PGSIZE <= 2 ^ 56 -> 0 <= perm < 1024 ->
  ((forall i, 0 <= i < n -> mapping (phys s) pt (vaddr + i * PGSIZE) = None) ->
   wp (mappages pt vaddr (n * PGSIZE) pa perm) (fun r s' => exists l' pos' k,
     kmem_ok kend s' l' /\ pt_ok kend s' l' pt pos' /\ pt_ext kend s l pos s' l' pos' /\
     (r = 0 /\ k = n \/ r = -1 /\ 0 <= k < n) /\
     forall va, 0 <= va < MAXVA -> mapping (phys s') pt va =
       if (vaddr <=? va) && (va <? vaddr + k * PGSIZE)
       then Some (Z.lor (Z.lor (PA2PTE (pa + (va - vaddr) / PGSIZE * PGSIZE)) perm) PTE_V)
       else mapping (phys s) pt va) s) /\
  (forall e, mapping (phys s) pt vaddr = Some e ->
   mappages pt vaddr (n * PGSIZE) pa perm s = Panic "mappages: remap").
Proof.
  intros Hkend Hok Hpt Hn Hv0 Hv1 Hal Hpal Hp0 Hp1 Hperm. split.
  - intros Hnone. eapply wp_mono; [by apply (mappages_ok kend Hkend s l pt pos vaddr n pa perm)|].
    intros r s' (l' & pos' & k & H1 & H2 & H3 & H4 & H5). by exists l', pos', k.
  - intros e He. apply (mappages_remap_panics kend Hkend s l pt pos vaddr _ pa perm e); try done.
    + unfold PGSIZE in *. lia.
    + apply Z_mod_mult.
    + unfold PGSIZE. lia.
Qed.

Lemma mappages_maps_witness :
  mappages (page8 0) 0 (1 * PGSIZE) (page8 3) 23 (demo 23) = Panic "mappages: remap".
Proof.
  refine (proj2 (mappages_maps kend8 (demo 23) _ (page8 0) _ 0 1 (page8 3) 23 kend8_range
    (demo_kmem 23 ltac:(done)) (demo_pt 23 _ ltac:(done) demo_root0) ltac:(lia) ltac:(lia) ltac:(done) ltac:(done)
    (page8_mod 3) ltac:(apply page8_range; lia) ltac:(done) ltac:(done)) _ _).
  apply (demo_parent 23 0); [split; [lia|reflexivity]|reflexivity|split; [lia|reflexivity]].
Defined.

(** C19. Copies to user memory and copy-on-write: a user page that is mapped
    read-only, as fork leaves every writable page of parent and child, makes
    [copyout] fail at once with -1 and no effect; the copy-on-write fault is not
    taken. *)
Theorem copyout_read_only_fails kend s l tabs users psz r dstva src len e :
  KERNBASE <= kend <= PHYSTOP -> vm_ok kend s l tabs users -> is_root tabs r -> 0 <= dstva < TRAPFRAME ->
  0 < len -> mapping (phys s) r dstva = Some e -> has e PTE_U = true -> has e PTE_W = false ->
  copyout kend psz r dstva src len s = Ret (-1) s.
Proof.
  intros Hkend Hvm Hr Hva Hlen He HU HW. pose proof (vk_inv _ _ _ _ _ Hvm) as Hv.
  destruct (user_page_va dstva Hva) as [Hi Hmax]. pose proof (upage_va _ Hi) as Hpva.
  set (i := dstva / PGSIZE) in *.
  assert (Hei : mapping (phys s) r (i * PGSIZE) = Some e) by (by rewrite <- (mapping_same_page _ _ dstva) by lia).
  assert (Hwalk : exists a, walk r (i * PGSIZE) false s = Ret a s /\ a <> 0 /\ ld64 (phys s) a = e).
  { destruct (proj1 (wp_ex _ _ _) (walk_lookup kend Hkend s l r (pos_of tabs r) (i * PGSIZE)
      (vi_kmem _ _ _ _ _ Hv) (vi_pt _ _ _ _ _ Hv r Hr) Hpva)) as (a & s' & E & -> & [[_ Hn]|(Ha & p0 & Hls & ->)]).
    - congruence.
    - eexists. split; [exact E|]. split; [done|]. pose proof (leaf_slot_mapping _ _ _ _ Hls) as Hm. rewrite Hei in Hm.
      destruct (has (entry (phys s) p0 (PX 0 (i * PGSIZE))) PTE_V); [|done]. by injection Hm as ->. }
  destruct Hwalk as (a & Ew & Ha & Ea). destruct (mapping_leaf_slot _ _ _ _ He) as (_ & _ & _ & HV).
  destruct (user_ref kend Hkend _ _ _ _ _ _ Hvm (mapped_user kend s l tabs users r dstva e Hvm Hr Hva He)) as (Hm & _).
  destruct (managed_range kend Hkend _ Hm) as (Hlo & _).
  assert (Ewa : walkaddr r (i * PGSIZE) s = Ret (PTE2PA e) s).
  { unfold walkaddr. rewrite Z.geb_leb, (proj2 (Z.leb_gt _ _)) by lia. unfold kbind. rewrite Ew.
    rewrite (proj2 (Z.eqb_neq a 0)) by done. unfold kget. by rewrite Ea, HV, HU. }
  unfold copyout, copy_fuel. simpl copyout_loop. rewrite (proj2 (Z.leb_gt _ _)) by lia.
  rewrite PGROUNDDOWN_spec. fold i. rewrite Z.geb_leb, (proj2 (Z.leb_gt _ _)) by lia.
  unfold kbind. rewrite Ewa, (proj2 (Z.eqb_neq (PTE2PA e) 0)) by (unfold KERNBASE in *; lia).
  unfold kret. rewrite (proj2 (Z.eqb_neq (PTE2PA e) 0)) by (unfold KERNBASE in *; lia).
  rewrite Ew. unfold kget. by rewrite Ea, HW.
Qed.

Lemma copyout_read_only_fails_witness :
  copyout kend8 4096 (page8 0) 0 (page8 3) 4 (demo 275) = Ret (-1) (demo 275).
Proof.
  refine (copyout_read_only_fails kend8 (demo 275) _ demo_tabs demo_users 4096 (page8 0) 0 (page8 3) 4 _
    kend8_range (demo_vm 275 ltac:(done) eq_refl) demo_root0 ltac:(split; [lia|reflexivity]) ltac:(lia)
    (demo_parent 275 0 ltac:(done) eq_refl ltac:(split; [lia|reflexivity])) _ _);
    (rewrite has_pte; [reflexivity|apply page8_mod|apply page8_range; lia|split; done]).
Defined.


