(* ===== verification/Spinlock.v ===== *)
(** * kernel/spinlock.c: spinlocks and the nesting of interrupt disabling

    The routines run on a hart [c] against the memory all harts share.
    [acquire] and [release] are also split at their memory accesses into
    the steps of a transition system, so that the steps of different
    harts interleave; the theorems are about every reachable state of it. *)

From S2P Require Import Prelude Memory.

(** ** State *)

Record spinlock := Spinlock {
  locked : Z;
  name : string;
  cpu : option Z                (* struct cpu *cpu, None for 0 *)
}.

(** The fields of [struct cpu] the lock code uses. *)
Record cpu_state := Cpu { noff : Z; intena : bool }.

Record machine := Machine {
  locks : Z -> spinlock;        (* by address *)
  cpus : Z -> cpu_state;        (* struct cpu cpus[NCPU] *)
  sie : Z -> bool               (* SSTATUS_SIE of each hart *)
}.

Definition set_lock (lk : Z) (l : spinlock) (m : machine) : machine :=
  Machine (upd (locks m) lk l) (cpus m) (sie m).
Definition set_cpu (c : Z) (k : cpu_state) (m : machine) : machine :=
  Machine (locks m) (upd (cpus m) c k) (sie m).
Definition set_sie (c : Z) (b : bool) (m : machine) : machine :=
  Machine (locks m) (cpus m) (upd (sie m) c b).

(** ** Operations on hart [c] *)

Definition intr_on (c : Z) : M machine unit := kupd (set_sie c true).
Definition intr_off (c : Z) : M machine unit := kupd (set_sie c false).
Definition intr_get (c : Z) : M machine bool := kget (fun m => sie m c).

Definition initlock (lk : Z) (nm : string) : M machine unit :=
  kupd (set_lock lk (Spinlock 0 nm None)).

Definition push_off (c : Z) : M machine unit :=
  let! old := intr_get c in
  do! intr_off c;
  let! k := kget (fun m => cpus m c) in
  do! (if noff k =? 0 then kupd (set_cpu c (Cpu (noff k) old)) else kret tt);
  let! k' := kget (fun m => cpus m c) in
  kupd (set_cpu c (Cpu (noff k' + 1) (intena k'))).

Definition pop_off (c : Z) : M machine unit :=
  let! i := intr_get c in
  if i then kpanic "pop_off - interruptible" else
  let! k := kget (fun m => cpus m c) in
  if noff k <? 1 then kpanic "pop_off" else
  do! kupd (set_cpu c (Cpu (noff k - 1) (intena k)));
  if (noff k - 1 =? 0) && intena k then intr_on c else kret tt.

Definition holding (c lk : Z) : M machine bool :=
  let! l := kget (fun m => locks m lk) in
  kret (negb (locked l =? 0) && bool_decide (cpu l = Some c)).

(** [acquire] up to its loop. *)
Definition acquire_enter (c lk : Z) : M machine unit :=
  do! push_off c;
  let! h := holding c lk in
  if h then kpanic "acquire" else kret tt.

(** [__sync_lock_test_and_set(&lk->locked, 1)], an atomic swap. *)
Definition test_and_set (lk : Z) : M machine Z :=
  let! l := kget (fun m => locks m lk) in
  do! kupd (set_lock lk (Spinlock 1 (name l) (cpu l)));
  kret (locked l).

Definition record_cpu (lk : Z) (o : option Z) : M machine unit :=
  let! l := kget (fun m => locks m lk) in
  kupd (set_lock lk (Spinlock (locked l) (name l) o)).

(** [__sync_lock_release(&lk->locked)]. *)
Definition sync_lock_release (lk : Z) : M machine unit :=
  let! l := kget (fun m => locks m lk) in
  kupd (set_lock lk (Spinlock 0 (name l) (cpu l))).

(** [fuel] bounds the spins: run alone, a hart that finds the lock taken
    spins for ever. *)
Fixpoint spin (fuel : nat) (lk : Z) : M machine unit :=
  match fuel with
  | O => khang
  | S f => let! old := test_and_set lk in if negb (old =? 0) then spin f lk else kret tt
  end.

Definition acquire (fuel : nat) (c lk : Z) : M machine unit :=
  do! acquire_enter c lk;
  do! spin fuel lk;
  record_cpu lk (Some c).

(** [release] up to the clearing of the owner. *)
Definition release_enter (c lk : Z) : M machine unit :=
  let! h := holding c lk in
  if negb h then kpanic "release" else record_cpu lk None.

Definition release (c lk : Z) : M machine unit :=
  do! release_enter c lk;
  do! sync_lock_release lk;
  pop_off c.

(** ** Interleaved execution

    Where a hart is: running its own code, or inside [acquire] or
    [release] at one of their memory accesses. *)

Inductive pc := Run | Spin (lk : Z) | Got (lk : Z) | Drop (lk : Z) | Pop.

(** [own c] are the locks whose [acquire] has returned on [c] and whose
    [release] has not begun, [pushes c] the [push_off]s of [c] outside
    the lock code not yet undone, [base c] the interrupt setting the hart
    chose while it was not inside any of them. *)
Record config := Config {
  mach : machine;
  at_pc : Z -> pc;
  own : Z -> list Z;
  pushes : Z -> nat;
  base : Z -> bool
}.

Inductive step : config -> config -> Prop :=
| step_enter c lk m m' p o x b :
    p c = Run -> acquire_enter c lk m = Ret tt m' ->
    step (Config m p o x b) (Config m' (upd p c (Spin lk)) o x b)
| step_spin c lk v m m' p o x b :
    p c = Spin lk -> test_and_set lk m = Ret v m' ->
    step (Config m p o x b) (Config m' (upd p c (if negb (v =? 0) then Spin lk else Got lk)) o x b)
| step_got c lk m m' p o x b :
    p c = Got lk -> record_cpu lk (Some c) m = Ret tt m' ->
    step (Config m p o x b) (Config m' (upd p c Run) (upd o c (lk :: o c)) x b)
| step_release c lk m m' p o x b :
    p c = Run -> release_enter c lk m = Ret tt m' ->
    step (Config m p o x b)
         (Config m' (upd p c (Drop lk)) (upd o c (filter (fun l => l <> lk) (o c))) x b)
| step_unlock c lk m m' p o x b :
    p c = Drop lk -> sync_lock_release lk m = Ret tt m' ->
    step (Config m p o x b) (Config m' (upd p c Pop) o x b)
| step_pop c m m' p o x b :
    p c = Pop -> pop_off c m = Ret tt m' ->
    step (Config m p o x b) (Config m' (upd p c Run) o x b)
| step_push c m m' p o x b :
    p c = Run -> push_off c m = Ret tt m' ->
    step (Config m p o x b) (Config m' p o (upd x c (S (x c))) b)
| step_unpush c n m m' p o x b :
    p c = Run -> x c = S n -> pop_off c m = Ret tt m' ->
    step (Config m p o x b) (Config m' p o (upd x c n) b)
| step_intr c v m p o x b :
    p c = Run -> noff (cpus m c) = 0 ->
    step (Config m p o x b) (Config (set_sie c v m) p o x (upd b c v)).

(** The state after [initlock] of every lock, [boot c] the interrupt
    setting of hart [c]. *)
Definition start (nm : Z -> string) (boot : Z -> bool) : config :=
  Config (Machine (fun lk => Spinlock 0 (nm lk) None) (fun _ => Cpu 0 false) boot)
         (fun _ => Run) (fun _ => []) (fun _ => O) boot.

Definition reachable (s : config) : Prop := exists nm boot, rtc step (start nm boot) s.

(** ** The invariant *)

Definition inside (p : pc) : Z := match p with Run => 0 | _ => 1 end.

Definition holds (s : config) (c lk : Z) : Prop :=
  lk ∈ own s c \/ at_pc s c = Got lk \/ at_pc s c = Drop lk.

(** Interrupts on a hart nested [n] deep whose own setting is [b]. *)
Definition intr_ok (k : cpu_state) (i b : bool) (n : Z) : Prop :=
  noff k = n /\ (0 < n -> i = false /\ intena k = b) /\ (n = 0 -> i = b).

Definition depth (s : config) (c : Z) : Z :=
  Z.of_nat (length (own s c)) + Z.of_nat (pushes s c) + inside (at_pc s c).

Record lock_inv (s : config) : Prop := {
  li_excl : forall c c' lk, holds s c lk -> holds s c' lk -> c = c';
  li_locked : forall c lk, holds s c lk -> locked (locks (mach s) lk) <> 0;
  li_cpu : forall c lk, cpu (locks (mach s) lk) = Some c <-> lk ∈ own s c;
  li_once : forall c lk, at_pc s c = Got lk \/ at_pc s c = Drop lk -> lk ∉ own s c;
  li_nodup : forall c, NoDup (own s c);
  li_intr : forall c, intr_ok (cpus (mach s) c) (sie (mach s) c) (base s c) (depth s c)
}.

(** What the interrupt routines do, and that they keep [intr_ok]. *)

Lemma push_off_eq c m :
  exists m', push_off c m = Ret tt m' /\ locks m' = locks m /\
    (forall d, cpus m' d = upd (cpus m) c (Cpu (noff (cpus m c) + 1)
        (if noff (cpus m c) =? 0 then sie m c else intena (cpus m c))) d) /\
    (forall d, sie m' d = upd (sie m) c false d).
Proof.
  unfold push_off, kbind, intr_get, intr_off, kget, kupd. simpl.
  destruct (noff (cpus m c) =? 0) eqn:E; eexists; (split; [reflexivity|]); simpl.
  - split_and!; [done| |done]. intros d. unfold upd. destruct (d =? c); [|done].
    rewrite Z.eqb_refl. done.
  - by split_and!.
Qed.

Lemma pop_off_eq c m m' :
  pop_off c m = Ret tt m' ->
  locks m' = locks m /\
  (forall d, cpus m' d = upd (cpus m) c (Cpu (noff (cpus m c) - 1) (intena (cpus m c))) d) /\
  (forall d, sie m' d = upd (sie m) c ((noff (cpus m c) - 1 =? 0) && intena (cpus m c)) d).
Proof.
  unfold pop_off, kbind, intr_get, intr_on, kget, kupd, kret. simpl.
  destruct (sie m c) eqn:Es; [done|]. destruct (noff (cpus m c) <? 1); [done|].
  destruct (_ && _); intros [= <-]; simpl; split_and!; try done.
  intros d. unfold upd. destruct (Z.eqb_spec d c); congruence.
Qed.

Lemma intr_ok_push k i b n :
  0 <= n -> intr_ok k i b n ->
  intr_ok (Cpu (noff k + 1) (if noff k =? 0 then i else intena k)) false b (n + 1).
Proof.
  intros Hn (<- & H1 & H0). split_and!; simpl; [done| |lia]. intros _. split; [done|].
  destruct (Z.eqb_spec (noff k) 0); [by apply H0|apply H1; lia].
Qed.

Lemma intr_ok_pop k i b n :
  0 <= n -> intr_ok k i b (n + 1) ->
  intr_ok (Cpu (noff k - 1) (intena k)) ((noff k - 1 =? 0) && intena k) b n.
Proof.
  intros Hn (E & H1 & _). destruct (H1 ltac:(lia)) as [_ <-].
  split_and!; simpl; [lia| |]; intros; destruct (Z.eqb_spec (noff k - 1) 0); try lia; done.
Qed.

Lemma holding_true c lk m m' : holding c lk m = Ret true m' -> m' = m /\ cpu (locks m lk) = Some c.
Proof.
  unfold holding, kbind, kget, kret. intros [= E <-].
  apply andb_prop in E as [_ E]. by apply bool_decide_eq_true in E.
Qed.

Ltac upds := repeat (rewrite ?upd_eq in *; match goal with
  | H : context [upd _ ?a _ ?b] |- _ => destruct (Z.eq_dec b a) as [->|]; [|rewrite (upd_ne _ a _ b) in * by done]
  | |- context [upd _ ?a _ ?b] => destruct (Z.eq_dec b a) as [->|]; [|rewrite (upd_ne _ a _ b) in * by done]
  end); rewrite ?upd_eq in *.

(** A step that only moves the interrupt nesting of [c]. *)
Lemma lock_inv_intr s c m' p' x' b' :
  lock_inv s ->
  (forall lk, locks m' lk = locks (mach s) lk) ->
  (forall d lk, p' d = Got lk \/ p' d = Drop lk -> at_pc s d = Got lk \/ at_pc s d = Drop lk) ->
  (forall d, d <> c -> cpus m' d = cpus (mach s) d /\ sie m' d = sie (mach s) d /\
     p' d = at_pc s d /\ x' d = pushes s d /\ b' d = base s d) ->
  intr_ok (cpus m' c) (sie m' c) (b' c)
    (Z.of_nat (length (own s c)) + Z.of_nat (x' c) + inside (p' c)) ->
  lock_inv (Config m' p' (own s) x' b').
Proof.
  intros [Hx Hl Hc Ho Hn Hi] Elk Ep Eo Hok. unfold holds in *.
  split; unfold holds; simpl.
  - intros d d' lk Hd Hd'. eapply Hx; [destruct Hd|destruct Hd']; eauto.
  - intros d lk Hd. rewrite Elk. eapply Hl. destruct Hd; eauto.
  - intros. rewrite Elk. apply Hc.
  - eauto.
  - done.
  - intros d. destruct (Z.eq_dec d c) as [->|Hd]; [done|]. destruct (Eo d Hd) as (-> & -> & E1 & E2 & ->).
    specialize (Hi d). unfold depth in *. simpl. by rewrite E1, E2.
Qed.

Lemma depth_nonneg s c : 0 <= depth s c.
Proof. unfold depth, inside. destruct (at_pc s c); lia. Qed.

(** A step of the lock word and owner, with the interrupt state left alone
    and the nesting of every hart unchanged. *)
Lemma lock_inv_spin m p o x b c lk v m' :
  lock_inv (Config m p o x b) -> p c = Spin lk -> test_and_set lk m = Ret v m' ->
  lock_inv (Config m' (upd p c (if negb (v =? 0) then Spin lk else Got lk)) o x b).
Proof.
  intros [Hx Hl Hc Ho Hn Hi] Hp. unfold test_and_set, kbind, kget, kupd, kret. intros [= Hv <-].
  unfold holds, depth in *; simpl in *.
  assert (Hh : forall d l, (l ∈ o d \/ upd p c (if negb (v =? 0) then Spin lk else Got lk) d = Got l \/
               upd p c (if negb (v =? 0) then Spin lk else Got lk) d = Drop l) ->
             (l ∈ o d \/ p d = Got l \/ p d = Drop l) \/ (v = 0 /\ d = c /\ l = lk)).
  { intros d l [H|H]; [by left; left|]. destruct (Z.eq_dec d c) as [->|]; [|rewrite upd_ne in H by done; auto].
    rewrite upd_eq in H. destruct (Z.eqb_spec v 0); simpl in H; destruct H; try done. right. naive_solver. }
  split; unfold holds, depth; simpl.
  - intros d d' l H1 H2. apply Hh in H1, H2. destruct H1 as [H1|(E & ? & ?)], H2 as [H2|(E' & ? & ?)]; subst; eauto.
    + exfalso. apply Hl in H1. congruence.
    + exfalso. apply Hl in H2. congruence.
  - intros d l H1. unfold upd at 1. destruct (Z.eqb_spec l lk); [done|].
    apply Hh in H1. destruct H1 as [H1|(? & ? & ?)]; [by apply (Hl d)|done].
  - intros d l. rewrite <- Hc. unfold upd. destruct (Z.eqb_spec l lk) as [->|]; done.
  - intros d l H1 H2. destruct (Hh d l (or_intror H1)) as [H3|(E & -> & ->)].
    + destruct (Z.eq_dec d c) as [->|]; [|rewrite upd_ne in H1 by done; by eapply Ho].
      rewrite upd_eq in H1. destruct (negb (v =? 0)) eqn:Ev; [naive_solver|]. cbool.
      assert (l = lk) as -> by naive_solver. by apply (Hl c lk); [left|congruence].
    + apply (Hl c lk); [by left|congruence].
  - done.
  - intros d. specialize (Hi d). destruct (Z.eq_dec d c) as [->|]; [|by rewrite upd_ne by done].
    rewrite upd_eq. rewrite Hp in Hi. by destruct (negb (v =? 0)).
Qed.

Lemma lock_inv_got m p o x b c lk m' :
  lock_inv (Config m p o x b) -> p c = Got lk -> record_cpu lk (Some c) m = Ret tt m' ->
  lock_inv (Config m' (upd p c Run) (upd o c (lk :: o c)) x b).
Proof.
  intros [Hx Hl Hc Ho Hn Hi] Hp. unfold record_cpu, kbind, kget, kupd, kret. intros [= <-].
  unfold holds, depth in *; simpl in *.
  assert (Hh : forall d l, (l ∈ upd o c (lk :: o c) d \/ upd p c Run d = Got l \/ upd p c Run d = Drop l) ->
             l ∈ o d \/ p d = Got l \/ p d = Drop l).
  { intros d l H. destruct (Z.eq_dec d c) as [->|]; [|rewrite !upd_ne in H by done; done].
    rewrite !upd_eq, elem_of_cons in H. naive_solver. }
  split; unfold holds, depth; simpl.
  - intros d d' l H1 H2. eauto.
  - intros d l H. apply Hh in H. specialize (Hl d l H). unfold upd. destruct (Z.eqb_spec l lk) as [->|]; done.
  - intros d l. destruct (Z.eq_dec l lk) as [->|].
    + rewrite upd_eq. simpl. destruct (Z.eq_dec d c) as [->|].
      * rewrite upd_eq, elem_of_cons. naive_solver.
      * rewrite upd_ne by done. split; [congruence|]. intros H. destruct n. eauto.
    + rewrite (upd_ne (locks m)), Hc by done.
      destruct (Z.eq_dec d c) as [->|]; [rewrite upd_eq, elem_of_cons; naive_solver|by rewrite upd_ne].
  - intros d l H. destruct (Z.eq_dec d c) as [->|]; [rewrite upd_eq in H; naive_solver|].
    rewrite !upd_ne in * by done. eauto.
  - intros d. destruct (Z.eq_dec d c) as [->|]; [|by rewrite upd_ne]. rewrite upd_eq.
    apply NoDup_cons. eauto.
  - intros d. specialize (Hi d). destruct (Z.eq_dec d c) as [->|]; [|by rewrite !upd_ne].
    rewrite !upd_eq. rewrite Hp in Hi. simpl in *.
    replace (Z.of_nat (S (length (o c))) + Z.of_nat (x c) + 0)
      with (Z.of_nat (length (o c)) + Z.of_nat (x c) + 1) by lia. done.
Qed.

Lemma length_filter_ne (lk : Z) l :
  NoDup l -> lk ∈ l -> length l = S (length (filter (fun y => y <> lk) l)).
Proof.
  induction 1 as [|y l Hy Hnd IH]; [by intros ?%elem_of_nil|]. rewrite elem_of_cons. intros [->|H].
  - rewrite filter_cons_False by tauto. simpl. f_equal. f_equal. clear IH Hnd. induction l as [|z l IH]; [done|].
    rewrite not_elem_of_cons in Hy. rewrite filter_cons_True by naive_solver. f_equal. naive_solver.
  - rewrite filter_cons_True by congruence. simpl. auto.
Qed.

Lemma lock_inv_release m p o x b c lk m' :
  lock_inv (Config m p o x b) -> p c = Run -> release_enter c lk m = Ret tt m' ->
  lock_inv (Config m' (upd p c (Drop lk)) (upd o c (filter (fun l => l <> lk) (o c))) x b).
Proof.
  intros [Hx Hl Hc Ho Hn Hi] Hp. unfold release_enter, kbind.
  destruct (holding c lk m) as [h m0| |] eqn:Eh; try done.
  destruct h; [|done]. apply holding_true in Eh as [-> Eh]. simpl. intros [= <-].
  unfold holds, depth in *; simpl in *. apply Hc in Eh.
  assert (Hh : forall d l, (l ∈ upd o c (filter (fun l => l <> lk) (o c)) d \/ upd p c (Drop lk) d = Got l \/
               upd p c (Drop lk) d = Drop l) -> l ∈ o d \/ p d = Got l \/ p d = Drop l).
  { intros d l H. destruct (Z.eq_dec d c) as [->|]; [|rewrite !upd_ne in H by done; done].
    rewrite !upd_eq, list_elem_of_filter in H. naive_solver. }
  split; unfold holds, depth; simpl.
  - intros d d' l H1 H2. eauto.
  - intros d l H. apply Hh in H. specialize (Hl d l H). unfold upd. destruct (Z.eqb_spec l lk) as [->|]; done.
  - intros d l. destruct (Z.eq_dec l lk) as [->|].
    + rewrite upd_eq. simpl. split; [done|]. destruct (Z.eq_dec d c) as [->|].
      * rewrite upd_eq, list_elem_of_filter. tauto.
      * rewrite upd_ne by done. intros H. destruct n. eauto.
    + rewrite (upd_ne (locks m)), Hc by done.
      destruct (Z.eq_dec d c) as [->|]; [rewrite upd_eq, list_elem_of_filter; tauto|by rewrite upd_ne].
  - intros d l H. destruct (Z.eq_dec d c) as [->|].
    + rewrite upd_eq, list_elem_of_filter. rewrite upd_eq in H. destruct H as [|[= ->]]; [done|tauto].
    + rewrite !upd_ne in * by done. eauto.
  - intros d. destruct (Z.eq_dec d c) as [->|]; [|by rewrite upd_ne]. rewrite upd_eq. by apply NoDup_filter.
  - intros d. specialize (Hi d). destruct (Z.eq_dec d c) as [->|]; [|by rewrite !upd_ne].
    rewrite !upd_eq. rewrite Hp, (length_filter_ne lk) in Hi by done. simpl in *.
    match goal with |- intr_ok _ _ _ ?n => match type of Hi with intr_ok _ _ _ ?n' => by replace n with n' by lia end end.
Qed.

Lemma lock_inv_unlock m p o x b c lk m' :
  lock_inv (Config m p o x b) -> p c = Drop lk -> sync_lock_release lk m = Ret tt m' ->
  lock_inv (Config m' (upd p c Pop) o x b).
Proof.
  intros [Hx Hl Hc Ho Hn Hi] Hp. unfold sync_lock_release, kbind, kget, kupd. intros [= <-].
  unfold holds, depth in *; simpl in *.
  assert (Hh : forall d l, (l ∈ o d \/ upd p c Pop d = Got l \/ upd p c Pop d = Drop l) ->
             (l ∈ o d \/ p d = Got l \/ p d = Drop l) /\ l <> lk).
  { intros d l H. destruct (Z.eq_dec d c) as [->|].
    - rewrite upd_eq in H. destruct H as [H|[|]]; try done. split; [by left|]. intros ->. eapply Ho; eauto.
    - rewrite upd_ne in H by done. split; [done|]. intros ->. destruct n. eauto. }
  split; unfold holds, depth; simpl.
  - intros d d' l H1 H2. apply Hh in H1, H2. naive_solver.
  - intros d l H. apply Hh in H as [H ?]. rewrite upd_ne by done. eauto.
  - intros d l. rewrite <- Hc. unfold upd. destruct (Z.eqb_spec l lk) as [->|]; done.
  - intros d l H. destruct (Z.eq_dec d c) as [->|]; [rewrite upd_eq in H; naive_solver|].
    rewrite !upd_ne in * by done. eauto.
  - done.
  - intros d. specialize (Hi d). destruct (Z.eq_dec d c) as [->|]; [|by rewrite !upd_ne].
    rewrite !upd_eq. by rewrite Hp in Hi.
Qed.

Lemma lock_inv_step s s' : lock_inv s -> step s s' -> lock_inv s'.
Proof.
  intros HI Hs. pose proof (li_intr _ HI) as Hi. unfold depth in Hi.
  destruct Hs as [c lk m m' p o x b Hp E|c lk v m m' p o x b Hp E|c lk m m' p o x b Hp E|
    c lk m m' p o x b Hp E|c lk m m' p o x b Hp E|c m m' p o x b Hp E|c m m' p o x b Hp E|
    c n m m' p o x b Hp Hn E|c v m p o x b Hp E];
    [|eauto using lock_inv_spin, lock_inv_got, lock_inv_release, lock_inv_unlock..| | | |];
    specialize (Hi c); simpl in Hi; rewrite Hp in Hi; simpl in Hi.
  - unfold acquire_enter, kbind in E. destruct (push_off_eq c m) as (m1 & E1 & El & Ec & Es).
    rewrite E1 in E. destruct (holding c lk m1) as [h m2| |] eqn:Eh; try done. destruct h; [done|].
    unfold holding, kbind, kget, kret in Eh. injection Eh as _ <-. injection E as <-.
    apply (lock_inv_intr (Config m p o x b) c); [exact HI|..]; simpl; intros.
    + by rewrite El.
    + upds; naive_solver.
    + rewrite Ec, Es, !upd_ne by done. done.
    + rewrite Ec, Es, !upd_eq. simpl. replace (_ + _ + 1) with
        (Z.of_nat (length (o c)) + Z.of_nat (x c) + 0 + 1) by lia. apply intr_ok_push; [lia|done].
  - apply pop_off_eq in E as (El & Ec & Es).
    apply (lock_inv_intr (Config m p o x b) c); [exact HI|..]; simpl; intros.
    + by rewrite El.
    + upds; naive_solver.
    + rewrite Ec, Es, !upd_ne by done. done.
    + rewrite Ec, Es, !upd_eq. simpl. rewrite Z.add_0_r. eapply intr_ok_pop; [lia|done].
  - destruct (push_off_eq c m) as (m1 & E1 & El & Ec & Es). rewrite E1 in E. injection E as <-.
    apply (lock_inv_intr (Config m p o x b) c); [exact HI|..]; simpl; intros.
    + by rewrite El.
    + done.
    + rewrite Ec, Es, !upd_ne by done. done.
    + rewrite Ec, Es, !upd_eq, Hp. simpl. replace (_ + _ + 0) with
        (Z.of_nat (length (o c)) + Z.of_nat (x c) + 0 + 1) by lia. apply intr_ok_push; [lia|done].
  - apply pop_off_eq in E as (El & Ec & Es).
    apply (lock_inv_intr (Config m p o x b) c); [exact HI|..]; simpl; intros.
    + by rewrite El.
    + done.
    + rewrite Ec, Es, !upd_ne by done. done.
    + rewrite Ec, Es, !upd_eq, Hp. simpl. eapply intr_ok_pop; [lia|].
      rewrite Hn in Hi. by replace (_ + _ + 0 + 1) with (Z.of_nat (length (o c)) + Z.of_nat (S n) + 0) by lia.
  - apply (lock_inv_intr (Config m p o x b) c); [exact HI|..]; simpl; intros.
    + done.
    + done.
    + rewrite !upd_ne by done. done.
    + rewrite !upd_eq, Hp. simpl. destruct Hi as (E1 & _ & _). split_and!; [done| |done]. lia.
Qed.

Lemma reachable_inv s : reachable s -> lock_inv s.
Proof.
  intros (nm & boot & H). assert (H0 : lock_inv (start nm boot)).
  { split; unfold holds, depth, intr_ok; simpl.
    - intros ??? [?%elem_of_nil|[|]]; done.
    - intros ?? [?%elem_of_nil|[|]]; done.
    - intros ??. rewrite elem_of_nil. by split.
    - intros ?? _. apply not_elem_of_nil.
    - intros ?. constructor.
    - intros c. split_and!; [done|lia|done]. }
  induction H; eauto using lock_inv_step.
Qed.

(** C22. Spinlocks exclude: however the harts' instructions interleave, no
    two harts are between [acquire] and [release] of the same lock, the hart
    that is has interrupts off and is the one [holding] reports; and a hart
    outside all [acquire]/[release] and [push_off]/[pop_off] pairs has its
    interrupts as it set them itself. *)
Theorem spinlock_excludes s :
  reachable s ->
  (forall c c' lk, lk ∈ own s c -> lk ∈ own s c' -> c = c') /\
  (forall c lk, lk ∈ own s c -> sie (mach s) c = false) /\
  (forall c lk, at_pc s c = Run -> holding c lk (mach s) = Ret (bool_decide (lk ∈ own s c)) (mach s)) /\
  (forall c, own s c = [] -> pushes s c = O -> at_pc s c = Run -> sie (mach s) c = base s c).
Proof.
  intros Hr%reachable_inv. pose proof (li_intr _ Hr) as Hi. unfold depth in Hi. split_and!.
  - intros c c' lk H1 H2. eapply (li_excl _ Hr); by left.
  - intros c lk H. destruct (Hi c) as (_ & H1 & _). apply H1.
    destruct (own s c); [by apply elem_of_nil in H|]. simpl. destruct (at_pc s c); simpl; lia.
  - intros c lk _. unfold holding, kbind, kget, kret. f_equal.
    rewrite (bool_decide_ext _ _ (li_cpu _ Hr c lk)). case_bool_decide as H; [|apply andb_false_r].
    pose proof (li_locked _ Hr c lk (or_introl H)). rewrite andb_true_r. lia.
  - intros c E1 E2 E3. destruct (Hi c) as (_ & _ & H). apply H. by rewrite E1, E2, E3.
Qed.

(** Two harts, both after lock 7; hart 0 has it. *)
Lemma spinlock_excludes_witness :
  exists s, reachable s /\ 7 ∈ own s 0 /\ at_pc s 1 = Spin 7 /\ sie (mach s) 0 = false.
Proof.
  assert (exists s, reachable s /\ 7 ∈ own s 0 /\ at_pc s 1 = Spin 7) as (s & Hr & H0 & H1).
  { eexists. split_and!.
    - exists (fun _ => "lk"%string), (fun _ => true).
      eapply rtc_l; [eapply (step_enter 0 7); reflexivity|].
      eapply rtc_l; [eapply (step_spin 0 7); reflexivity|].
      eapply rtc_l; [eapply (step_got 0 7); reflexivity|].
      eapply rtc_l; [eapply (step_enter 1 7); reflexivity|].
      eapply rtc_l; [eapply (step_spin 1 7); reflexivity|]. apply rtc_refl.
    - simpl. by left.
    - reflexivity. }
  exists s. split_and!; [done..|]. by apply (proj1 (proj2 (spinlock_excludes s Hr)) 0 7).
Defined.
