(* ===== verification/Proc.v ===== *)
(** * kernel/proc.c: processes

    The process table and the life of a process: allocation of a slot,
    fork, exit, wait, sleep and wakeup, kill.  The state of the kernel is a
    record with the allocator's state, the process table, the scheduler's
    static variables and the state of the file layer, whose type is a
    parameter: the process code uses that layer only through the class
    [FileLayer].  A critical section, from [acquire] to [release], is one
    step; a routine that sleeps is cut at [sleep], which returns to the
    scheduler. *)

From S2P Require Import Prelude Memory StringC Kalloc Vm.

(** ** Data *)

(** The addresses processes sleep on, [NoChan] for 0. *)
Inductive channel :=
| NoChan
| ChanProc (i : Z)              (* &proc[i] *)
| ChanTicks                     (* &ticks *)
| ChanPipeRead (pi : Z)         (* &pi->nread *)
| ChanPipeWrite (pi : Z)        (* &pi->nwrite *)
| ChanLock (lk : Z)             (* a sleeplock *)
| ChanLog                       (* &log *)
| ChanCons                      (* &cons.r *)
| ChanUart                      (* &tx_chan *)
| ChanDisk (b : Z).             (* a buffer, or a disk's descriptors *)

#[export] Instance channel_eq_dec : EqDecision channel.
Proof. solve_decision. Defined.

Inductive procstate := UNUSED | USED | SLEEPING | RUNNABLE | RUNNING | ZOMBIE.

#[export] Instance procstate_eq_dec : EqDecision procstate.
Proof. solve_decision. Defined.

Definition NOFILE : Z := 16.
Definition SCHED_DEFAULT : Z := 60.

(** [struct context]: [s0] to [s11] are [callee 0] to [callee 11]. *)
Record context := Context { ra : Z; sp : Z; callee : Z -> Z }.

Record proc := Proc {
  state : procstate;      (* enum procstate state *)
  chan : channel;         (* void *chan *)
  killed : Z;             (* int killed *)
  xstate : Z;             (* int xstate *)
  pid : Z;                (* int pid *)
  parent : option Z;      (* struct proc *parent, a slot index *)
  kstack : Z;             (* uint64 kstack *)
  sz : Z;                 (* uint64 sz *)
  pgtbl : Z;              (* pagetable_t pagetable *)
  trapframe : Z;          (* struct trapframe *trapframe *)
  ctx : context;          (* struct context context *)
  ofile : Z -> option Z;  (* struct file *ofile[NOFILE], file table indices *)
  cwd : option Z;         (* struct inode *cwd, an inode table index *)
  pname : mem;            (* char name[16] *)
  priority : Z;           (* int priority *)
  wait_ticks : Z;         (* int wait_ticks *)
  cpu_ticks : Z           (* int cpu_ticks *)
}.

Definition set_state (v : procstate) (p : proc) : proc :=
  Proc v (chan p) (killed p) (xstate p) (pid p) (parent p) (kstack p) (sz p) (pgtbl p) (trapframe p) (ctx p) (ofile p) (cwd p) (pname p) (priority p) (wait_ticks p) (cpu_ticks p).
Definition set_chan (v : channel) (p : proc) : proc :=
  Proc (state p) v (killed p) (xstate p) (pid p) (parent p) (kstack p) (sz p) (pgtbl p) (trapframe p) (ctx p) (ofile p) (cwd p) (pname p) (priority p) (wait_ticks p) (cpu_ticks p).
Definition set_killed (v : Z) (p : proc) : proc :=
  Proc (state p) (chan p) v (xstate p) (pid p) (parent p) (kstack p) (sz p) (pgtbl p) (trapframe p) (ctx p) (ofile p) (cwd p) (pname p) (priority p) (wait_ticks p) (cpu_ticks p).
Definition set_xstate (v : Z) (p : proc) : proc :=
  Proc (state p) (chan p) (killed p) v (pid p) (parent p) (kstack p) (sz p) (pgtbl p) (trapframe p) (ctx p) (ofile p) (cwd p) (pname p) (priority p) (wait_ticks p) (cpu_ticks p).
Definition set_pid (v : Z) (p : proc) : proc :=
  Proc (state p) (chan p) (killed p) (xstate p) v (parent p) (kstack p) (sz p) (pgtbl p) (trapframe p) (ctx p) (ofile p) (cwd p) (pname p) (priority p) (wait_ticks p) (cpu_ticks p).
Definition set_parent (v : option Z) (p : proc) : proc :=
  Proc (state p) (chan p) (killed p) (xstate p) (pid p) v (kstack p) (sz p) (pgtbl p) (trapframe p) (ctx p) (ofile p) (cwd p) (pname p) (priority p) (wait_ticks p) (cpu_ticks p).
Definition set_kstack (v : Z) (p : proc) : proc :=
  Proc (state p) (chan p) (killed p) (xstate p) (pid p) (parent p) v (sz p) (pgtbl p) (trapframe p) (ctx p) (ofile p) (cwd p) (pname p) (priority p) (wait_ticks p) (cpu_ticks p).
Definition set_sz (v : Z) (p : proc) : proc :=
  Proc (state p) (chan p) (killed p) (xstate p) (pid p) (parent p) (kstack p) v (pgtbl p) (trapframe p) (ctx p) (ofile p) (cwd p) (pname p) (priority p) (wait_ticks p) (cpu_ticks p).
Definition set_pgtbl (v : Z) (p : proc) : proc :=
  Proc (state p) (chan p) (killed p) (xstate p) (pid p) (parent p) (kstack p) (sz p) v (trapframe p) (ctx p) (ofile p) (cwd p) (pname p) (priority p) (wait_ticks p) (cpu_ticks p).
Definition set_trapframe (v : Z) (p : proc) : proc :=
  Proc (state p) (chan p) (killed p) (xstate p) (pid p) (parent p) (kstack p) (sz p) (pgtbl p) v (ctx p) (ofile p) (cwd p) (pname p) (priority p) (wait_ticks p) (cpu_ticks p).
Definition set_ctx (v : context) (p : proc) : proc :=
  Proc (state p) (chan p) (killed p) (xstate p) (pid p) (parent p) (kstack p) (sz p) (pgtbl p) (trapframe p) v (ofile p) (cwd p) (pname p) (priority p) (wait_ticks p) (cpu_ticks p).
Definition set_ofile (v : Z -> option Z) (p : proc) : proc :=
  Proc (state p) (chan p) (killed p) (xstate p) (pid p) (parent p) (kstack p) (sz p) (pgtbl p) (trapframe p) (ctx p) v (cwd p) (pname p) (priority p) (wait_ticks p) (cpu_ticks p).
Definition set_cwd (v : option Z) (p : proc) : proc :=
  Proc (state p) (chan p) (killed p) (xstate p) (pid p) (parent p) (kstack p) (sz p) (pgtbl p) (trapframe p) (ctx p) (ofile p) v (pname p) (priority p) (wait_ticks p) (cpu_ticks p).
Definition set_pname (v : mem) (p : proc) : proc :=
  Proc (state p) (chan p) (killed p) (xstate p) (pid p) (parent p) (kstack p) (sz p) (pgtbl p) (trapframe p) (ctx p) (ofile p) (cwd p) v (priority p) (wait_ticks p) (cpu_ticks p).
Definition set_priority (v : Z) (p : proc) : proc :=
  Proc (state p) (chan p) (killed p) (xstate p) (pid p) (parent p) (kstack p) (sz p) (pgtbl p) (trapframe p) (ctx p) (ofile p) (cwd p) (pname p) v (wait_ticks p) (cpu_ticks p).
Definition set_wait_ticks (v : Z) (p : proc) : proc :=
  Proc (state p) (chan p) (killed p) (xstate p) (pid p) (parent p) (kstack p) (sz p) (pgtbl p) (trapframe p) (ctx p) (ofile p) (cwd p) (pname p) (priority p) v (cpu_ticks p).
Definition set_cpu_ticks (v : Z) (p : proc) : proc :=
  Proc (state p) (chan p) (killed p) (xstate p) (pid p) (parent p) (kstack p) (sz p) (pgtbl p) (trapframe p) (ctx p) (ofile p) (cwd p) (pname p) (priority p) (wait_ticks p) v.

Record kernel (F : Type) := Kernel {
  kmem : kmem_state;         (* kernel/kalloc.c's data and all of physical memory *)
  procs : Z -> proc;         (* struct proc proc[NPROC] *)
  nextpid : Z;               (* int nextpid *)
  initproc : option Z;       (* struct proc *initproc *)
  cpu_proc : Z -> option Z;  (* cpus[i].proc *)
  window_tick : Z;           (* static int window_tick *)
  idle_start_tick : Z;       (* static uint idle_start_tick *)
  ticks : Z;                 (* uint ticks, of kernel/trap.c *)
  files : F                  (* the state of the file layer *)
}.

Arguments Kernel {F} _ _ _ _ _ _ _ _ _.
Arguments kmem {F} _.
Arguments procs {F} _.
Arguments nextpid {F} _.
Arguments initproc {F} _.
Arguments cpu_proc {F} _.
Arguments window_tick {F} _.
Arguments idle_start_tick {F} _.
Arguments ticks {F} _.
Arguments files {F} _.

Section setters.
Context {F : Type}.
Definition set_kmem (v : kmem_state) (s : kernel F) : kernel F :=
  Kernel v (procs s) (nextpid s) (initproc s) (cpu_proc s) (window_tick s) (idle_start_tick s) (ticks s) (files s).
Definition set_procs (v : Z -> proc) (s : kernel F) : kernel F :=
  Kernel (kmem s) v (nextpid s) (initproc s) (cpu_proc s) (window_tick s) (idle_start_tick s) (ticks s) (files s).
Definition set_nextpid (v : Z) (s : kernel F) : kernel F :=
  Kernel (kmem s) (procs s) v (initproc s) (cpu_proc s) (window_tick s) (idle_start_tick s) (ticks s) (files s).
Definition set_initproc (v : option Z) (s : kernel F) : kernel F :=
  Kernel (kmem s) (procs s) (nextpid s) v (cpu_proc s) (window_tick s) (idle_start_tick s) (ticks s) (files s).
Definition set_cpu_proc (v : Z -> option Z) (s : kernel F) : kernel F :=
  Kernel (kmem s) (procs s) (nextpid s) (initproc s) v (window_tick s) (idle_start_tick s) (ticks s) (files s).
Definition set_window_tick (v : Z) (s : kernel F) : kernel F :=
  Kernel (kmem s) (procs s) (nextpid s) (initproc s) (cpu_proc s) v (idle_start_tick s) (ticks s) (files s).
Definition set_idle_start_tick (v : Z) (s : kernel F) : kernel F :=
  Kernel (kmem s) (procs s) (nextpid s) (initproc s) (cpu_proc s) (window_tick s) v (ticks s) (files s).
Definition set_ticks (v : Z) (s : kernel F) : kernel F :=
  Kernel (kmem s) (procs s) (nextpid s) (initproc s) (cpu_proc s) (window_tick s) (idle_start_tick s) v (files s).
Definition set_files (v : F) (s : kernel F) : kernel F :=
  Kernel (kmem s) (procs s) (nextpid s) (initproc s) (cpu_proc s) (window_tick s) (idle_start_tick s) (ticks s) v.
End setters.

(** ** The file layer, as processes use it

    [filedup] and [idup] take a reference; [fileclose] drops one, on
    behalf of process [p]; [put_cwd] is [begin_op(); iput(ip); end_op()];
    [root_dir] is [namei] of the root; [garbage_collect] is gc.c's. *)
Class FileLayer (F : Type) := {
  filedup : Z -> M F unit;
  idup : Z -> M F unit;
  fileclose : Z -> Z -> M (kernel F) unit;
  put_cwd : Z -> Z -> M (kernel F) unit;
  root_dir : M (kernel F) Z;
  garbage_collect : M (kernel F) unit
}.

(** ** Operations *)

Section proc.
Context {F : Type} `{!FileLayer F}.
(** [end], [trampoline] and [forkret] are addresses of the kernel image,
    [xstate_at i] the address of [proc[i].xstate]. *)
Variables (kend trampoline forkret : Z) (xstate_at : Z -> Z).

#[local] Abbreviation K := (M (kernel F)).

Definition in_mem {A} (c : M kmem_state A) : K A := fun s =>
  match c (kmem s) with
  | Ret a m => Ret a (set_kmem m s)
  | Panic e => Panic e
  | Hang => Hang
  end.

Definition in_files {A} (c : M F A) : K A := fun s =>
  match c (files s) with
  | Ret a f => Ret a (set_files f s)
  | Panic e => Panic e
  | Hang => Hang
  end.

Definition get_proc (i : Z) : K proc := kget (fun s => procs s i).
Definition upd_proc (i : Z) (f : proc -> proc) : K unit :=
  kupd (fun s => set_procs (upd (procs s) i (f (procs s i))) s).

(** [for(p = proc; p < &proc[NPROC]; p++)] *)
Definition slots : list Z := seqZ 0 NPROC.

Definition procinit : K unit :=
  for_each slots (fun i => do! upd_proc i (set_state UNUSED); upd_proc i (set_kstack (KSTACK i))).

Definition allocpid : K Z :=
  let! n := kget nextpid in
  do! kupd (set_nextpid (s32 (n + 1)));
  kret n.

Definition freeproc (i : Z) : K unit :=
  let! p := get_proc i in
  do! (if negb (trapframe p =? 0) then in_mem (kfree kend (trapframe p)) else kret tt);
  do! upd_proc i (set_trapframe 0);
  do! (if negb (pgtbl p =? 0) then in_mem (proc_freepagetable kend (pgtbl p) (sz p)) else kret tt);
  do! upd_proc i (set_pgtbl 0);
  do! upd_proc i (set_sz 0);
  do! upd_proc i (set_pid 0);
  do! upd_proc i (set_parent None);
  do! upd_proc i (fun q => set_pname (upd (pname q) 0 0) q);
  do! upd_proc i (set_chan NoChan);
  do! upd_proc i (set_killed 0);
  do! upd_proc i (set_xstate 0);
  upd_proc i (set_state UNUSED).

(** The scan of [allocproc] for an unused slot. *)
Definition find_unused (t : Z -> proc) : option Z :=
  snd <$> list_find (fun i => state (t i) = UNUSED) slots.

Definition allocproc : K (option Z) :=
  let! t := kget procs in
  match find_unused t with
  | None => kret None
  | Some i =>
      let! n := allocpid in
      do! upd_proc i (set_pid n);
      do! upd_proc i (set_state USED);
      let! tf := in_mem kalloc in
      do! upd_proc i (set_trapframe tf);
      if tf =? 0 then do! freeproc i; kret None else
      let! pt := in_mem (proc_pagetable kend trampoline tf) in
      do! upd_proc i (set_pgtbl pt);
      if pt =? 0 then do! freeproc i; kret None else
      do! upd_proc i (fun q => set_ctx (Context forkret (u64 (kstack q + PGSIZE)) (fun _ => 0)) q);
      do! upd_proc i (set_priority SCHED_DEFAULT);
      do! upd_proc i (set_wait_ticks 0);
      do! upd_proc i (set_cpu_ticks 0);
      kret (Some i)
  end.

Definition userinit : K unit :=
  let! o := allocproc in
  do! kupd (set_initproc o);
  match o with
  | None => kpanic "kerneltrap"
  | Some i =>
      let! ip := root_dir in
      do! upd_proc i (set_cwd (Some ip));
      upd_proc i (set_state RUNNABLE)
  end.

(** [growproc] of the current process [p]. *)
Definition kgrowproc (p n : Z) : K Z :=
  let! q := get_proc p in
  let! o := in_mem (growproc kend (sz q) (pgtbl q) n) in
  match o with
  | None => kret (-1)
  | Some z => do! upd_proc p (set_sz z); kret 0
  end.

(** [safestrcpy(np->name, p->name, sizeof(p->name))]: the two arrays side
    by side, the destination first. *)
Definition name_pair (dst src : mem) : mem := fun a => if a <? 16 then dst a else src (a - 16).
Definition copy_name (dst src : mem) : mem := safestrcpy (name_pair dst src) 0 16 16.

Definition sizeof_trapframe : Z := 288.

(** The loop of [kfork] over the open files. *)
Definition dup_files (p np : Z) : K unit :=
  for_each (seqZ 0 NOFILE) (fun fd =>
    let! q := get_proc p in
    match ofile q fd with
    | Some f => do! in_files (filedup f); upd_proc np (fun c => set_ofile (upd (ofile c) fd (Some f)) c)
    | None => kret tt
    end).

Definition kfork (p : Z) : K Z :=
  let! o := allocproc in
  match o with
  | None => kret (-1)
  | Some np =>
      let! q := get_proc p in
      let! c := get_proc np in
      let! r := in_mem (uvmcopy kend (pgtbl q) (pgtbl c) (sz q)) in
      if r <? 0 then do! freeproc np; kret (-1) else
      do! upd_proc np (set_sz (sz q));
      do! in_mem (kupd (set_phys (fun m => memmove m (trapframe c) (trapframe q) sizeof_trapframe)));
      do! in_mem (kupd (set_phys (fun m => st64 m (trapframe c + 112) 0)));
      do! dup_files p np;
      match cwd q with
      | None => kpanic "kerneltrap"
      | Some ip =>
          do! in_files (idup ip);
          do! upd_proc np (set_cwd (Some ip));
          do! upd_proc np (fun x => set_pname (copy_name (pname x) (pname q)) x);
          do! upd_proc np (set_priority (priority q));
          do! upd_proc np (set_wait_ticks 0);
          do! upd_proc np (set_cpu_ticks 0);
          do! upd_proc np (set_parent (Some p));
          do! upd_proc np (set_state RUNNABLE);
          kret (pid c)
      end
  end.

(** [cur] is [myproc()]. *)
Definition wakeup (cur : option Z) (ch : channel) : K unit :=
  for_each slots (fun i =>
    if bool_decide (Some i = cur) then kret tt else
    let! p := get_proc i in
    if bool_decide (state p = SLEEPING) && bool_decide (chan p = ch)
    then upd_proc i (set_state RUNNABLE) else kret tt).

Definition proc_chan (o : option Z) : channel := match o with Some i => ChanProc i | None => NoChan end.

Definition reparent (p : Z) : K unit :=
  for_each slots (fun i =>
    let! q := get_proc i in
    if bool_decide (parent q = Some p) then
      let! ip := kget initproc in
      do! upd_proc i (set_parent ip);
      wakeup (Some p) (proc_chan ip)
    else kret tt).

Definition close_files (p : Z) : K unit :=
  for_each (seqZ 0 NOFILE) (fun fd =>
    let! q := get_proc p in
    match ofile q fd with
    | Some f => do! fileclose p f; upd_proc p (fun x => set_ofile (upd (ofile x) fd None) x)
    | None => kret tt
    end).

(** [sched]'s check of the state; its checks of the locks and of
    interrupts are with the spinlocks. *)
Definition sched (p : Z) : K unit :=
  let! q := get_proc p in
  if bool_decide (state q = RUNNING) then kpanic "sched RUNNING" else kret tt.

(** [kexit] up to the switch to the scheduler, from which it does not
    return. *)
Definition kexit (p status : Z) : K unit :=
  let! ip := kget initproc in
  if bool_decide (ip = Some p) then kpanic "init exiting" else
  do! close_files p;
  let! q := get_proc p in
  match cwd q with
  | None => kpanic "kerneltrap"
  | Some d =>
      do! put_cwd p d;
      do! upd_proc p (set_cwd None);
      do! reparent p;
      let! q' := get_proc p in
      do! wakeup (Some p) (proc_chan (parent q'));
      do! upd_proc p (set_xstate status);
      do! upd_proc p (set_state ZOMBIE);
      sched p
  end.

(** [sleep] up to the switch to the scheduler, and after it. *)
Definition sleep (p : Z) (ch : channel) : K unit :=
  do! upd_proc p (set_chan ch);
  do! upd_proc p (set_state SLEEPING);
  sched p.

Definition sleep_return (p : Z) : K unit := upd_proc p (set_chan NoChan).

Definition yield (p : Z) : K unit :=
  do! upd_proc p (set_state RUNNABLE);
  sched p.

Definition setkilled (i : Z) : K unit := upd_proc i (set_killed 1).
Definition get_killed (i : Z) : K Z := let! p := get_proc i in kret (killed p).

(** The scan of [kwait]: [inl r] to return [r], [inr havekids] at its end. *)
Fixpoint kwait_scan (l : list Z) (p addr : Z) (havekids : bool) : K (Z + bool) :=
  match l with
  | [] => kret (inr havekids)
  | i :: l' =>
      let! q := get_proc i in
      if bool_decide (parent q = Some p) then
        if bool_decide (state q = ZOMBIE) then
          let! me := get_proc p in
          let! r := (if negb (addr =? 0) then
                       do! in_mem (kupd (set_phys (fun m => st32 m (xstate_at i) (u32 (xstate q)))));
                       in_mem (copyout kend (sz me) (pgtbl me) addr (xstate_at i) 4)
                     else kret 0) in
          if r <? 0 then kret (inl (-1)) else
          do! freeproc i;
          kret (inl (pid q))
        else kwait_scan l' p addr true
      else kwait_scan l' p addr havekids
  end.

(** One pass of [kwait]'s loop: the value it returns, or [None] when it
    goes to sleep, to run again after [sleep_return]. *)
Definition kwait (p addr : Z) : K (option Z) :=
  let! r := kwait_scan slots p addr false in
  match r with
  | inl v => kret (Some v)
  | inr havekids =>
      let! k := get_killed p in
      if negb havekids || negb (k =? 0) then kret (Some (-1)) else
      do! sleep p (ChanProc p);
      kret None
  end.

Definition kkill (n : Z) : K Z :=
  let! t := kget procs in
  match snd <$> list_find (fun i => pid (t i) = n) slots with
  | None => kret (-1)
  | Some i =>
      do! upd_proc i (set_killed 1);
      do! (if bool_decide (state (t i) = SLEEPING) then upd_proc i (set_state RUNNABLE) else kret tt);
      kret 0
  end.

Definition either_copyout (p : Z) (user_dst : bool) (dst src len : Z) : K Z :=
  let! q := get_proc p in
  if user_dst then in_mem (copyout kend (sz q) (pgtbl q) dst src len)
  else do! in_mem (kupd (set_phys (fun m => memmove m dst src (u32 len)))); kret 0.

Definition either_copyin (p : Z) (dst : Z) (user_src : bool) (src len : Z) : K Z :=
  let! q := get_proc p in
  if user_src then in_mem (copyin kend (sz q) (pgtbl q) dst src len)
  else do! in_mem (kupd (set_phys (fun m => memmove m dst src (u32 len)))); kret 0.

End proc.

(** ** Loops over the table *)

Section table.
Context {F : Type}.
Implicit Types s : kernel F.

Lemma set_procs_id s : set_procs (procs s) s = s.
Proof. by destruct s. Qed.

(** A loop whose iteration [i] rewrites slot [i] alone, as a map over the
    table. *)
Lemma for_each_table (l : list Z) (f : Z -> M (kernel F) unit) (g : Z -> proc -> proc) s :
  NoDup l ->
  (forall i s1, i ∈ l -> exists t1, f i s1 = Ret tt (set_procs t1 s1) /\
     forall j, t1 j = if j =? i then g i (procs s1 i) else procs s1 j) ->
  exists t, for_each l f s = Ret tt (set_procs t s) /\
    forall j, t j = if bool_decide (j ∈ l) then g j (procs s j) else procs s j.
Proof.
  revert s. induction l as [|i l IH]; intros s Hnd Hf.
  { exists (procs s). by rewrite set_procs_id. }
  apply NoDup_cons in Hnd as [Hni Hnd]. simpl.
  destruct (Hf i s) as (t1 & E1 & Ht1); [by left|].
  destruct (IH (set_procs t1 s)) as (t & Et & Ht); [done|intros; apply Hf; by right|].
  exists t. split; [unfold kbind; by rewrite E1, Et|]. intros j. rewrite Ht, Ht1. simpl.
  destruct (Z.eqb_spec j i) as [->|Hne].
  - rewrite bool_decide_eq_false_2, bool_decide_eq_true_2 by (done || by left). done.
  - by rewrite (bool_decide_ext (j ∈ i :: l) (j ∈ l)) by set_solver.
Qed.

Lemma slots_spec i : i ∈ slots <-> 0 <= i < NPROC.
Proof. unfold slots, NPROC. rewrite elem_of_seqZ. lia. Qed.

Lemma slots_NoDup : NoDup slots.
Proof. apply NoDup_seqZ. Qed.

Definition wake (cur : option Z) (ch : channel) (i : Z) (p : proc) : proc :=
  if bool_decide (Some i = cur) then p
  else if bool_decide (state p = SLEEPING) && bool_decide (chan p = ch) then set_state RUNNABLE p else p.

Lemma wakeup_eq cur ch s :
  exists t, wakeup cur ch s = Ret tt (set_procs t s) /\
    forall j, t j = if bool_decide (j ∈ slots) then wake cur ch j (procs s j) else procs s j.
Proof.
  apply for_each_table; [apply slots_NoDup|]. intros i s1 _. unfold wake.
  destruct (bool_decide (Some i = cur)).
  { exists (procs s1). rewrite set_procs_id. split; [done|]. intros j.
    destruct (Z.eqb_spec j i); congruence. }
  unfold kbind, get_proc, kget. destruct (_ && _).
  - eexists. split; [reflexivity|]. done.
  - exists (procs s1). rewrite set_procs_id. split; [done|]. intros j.
    destruct (Z.eqb_spec j i); congruence.
Qed.
End table.

(** ** What the operations do to the table *)

Section effects.
Context {F : Type} `{!FileLayer F}.
Implicit Types s : kernel F.

(** The counters, the current processes and the other slots are kept, and
    slot [i] becomes [p]. *)
Definition keeps s s' : Prop :=
  nextpid s' = nextpid s /\ initproc s' = initproc s /\ cpu_proc s' = cpu_proc s.
Definition becomes s s' (i : Z) (p : proc) : Prop :=
  keeps s s' /\ forall j, procs s' j = if j =? i then p else procs s j.

(** Every process is as it was, or has been woken. *)
Definition woken s s' : Prop :=
  keeps s s' /\
  forall i, procs s' i = procs s i \/
            (state (procs s i) = SLEEPING /\ procs s' i = set_state RUNNABLE (procs s i)).

Lemma in_mem_inv {A} (c : M kmem_state A) s a s' :
  in_mem c s = Ret a s' -> exists m, c (kmem s) = Ret a m /\ s' = set_kmem m s.
Proof. unfold in_mem. destruct (c (kmem s)); naive_solver. Qed.

Lemma in_files_inv {A} (c : M F A) s a s' :
  in_files c s = Ret a s' -> exists f, c (files s) = Ret a f /\ s' = set_files f s.
Proof. unfold in_files. destruct (c (files s)); naive_solver. Qed.

Lemma becomes_refl s i : becomes s s i (procs s i).
Proof. split; [done|]. intros j. destruct (Z.eqb_spec j i); congruence. Qed.

Lemma becomes_upd s s1 s2 i p f :
  becomes s s1 i p -> upd_proc i f s1 = Ret tt s2 -> becomes s s2 i (f p).
Proof.
  unfold upd_proc, kupd. intros [Hk Hp] [= <-]. split; [done|]. intros j. simpl.
  unfold upd. rewrite !Hp, Z.eqb_refl. by destruct (j =? i).
Qed.

Lemma becomes_mem {A} s s1 s2 i p (c : M kmem_state A) a :
  becomes s s1 i p -> in_mem c s1 = Ret a s2 -> becomes s s2 i p.
Proof. intros H (m & _ & ->)%in_mem_inv. exact H. Qed.

Lemma becomes_files {A} s s1 s2 i p (c : M F A) a :
  becomes s s1 i p -> in_files c s1 = Ret a s2 -> becomes s s2 i p.
Proof. intros H (m & _ & ->)%in_files_inv. exact H. Qed.

Lemma becomes_opt s s1 s2 i p (b : bool) (c : M kmem_state unit) :
  becomes s s1 i p -> (if b then in_mem c else kret tt) s1 = Ret tt s2 -> becomes s s2 i p.
Proof. destruct b; [apply becomes_mem|]. intros H [= <-]. exact H. Qed.

Lemma becomes_trans s s1 s2 i p q : becomes s s1 i p -> becomes s1 s2 i q -> becomes s s2 i q.
Proof.
  intros [(E1 & E2 & E3) H1] [(E4 & E5 & E6) H2]. split; [unfold keeps; split_and!; congruence|].
  intros j. rewrite H2, H1. by destruct (j =? i).
Qed.

Lemma becomes_self s s1 i p : becomes s s1 i p -> procs s1 i = p.
Proof. intros [_ H]. by rewrite H, Z.eqb_refl. Qed.

Lemma becomes_other s s1 i p j : becomes s s1 i p -> j <> i -> procs s1 j = procs s j.
Proof. intros [_ H] Hj. rewrite H. destruct (Z.eqb_spec j i); congruence. Qed.

Definition freed (p : proc) : proc :=
  Proc UNUSED NoChan 0 0 0 None (kstack p) 0 0 0 (ctx p) (ofile p) (cwd p) (upd (pname p) 0 0)
    (priority p) (wait_ticks p) (cpu_ticks p).

(** Steps the hypotheses of a run, tracking slot [i] of [s]. *)
Ltac track HB :=
  repeat match type of HB with becomes _ ?s1 _ _ =>
    match goal with
    | H : upd_proc _ _ s1 = Ret _ _ |- _ => apply (becomes_upd _ _ _ _ _ _ HB) in H
    | H : in_mem _ s1 = Ret _ _ |- _ => apply (becomes_mem _ _ _ _ _ _ _ HB) in H
    | H : in_files _ s1 = Ret _ _ |- _ => apply (becomes_files _ _ _ _ _ _ _ HB) in H
    | H : (if _ then in_mem _ else kret tt) s1 = Ret _ _ |- _ => apply (becomes_opt _ _ _ _ _ _ _ HB) in H
    | H : get_proc _ s1 = Ret _ _ |- _ => unfold get_proc, kget in H; injection H as ? ?; subst
    | H : becomes _ _ _ _ |- _ => assert_fails (constr_eq H HB); clear HB; rename H into HB
    end
  end.

Lemma freeproc_becomes kend i s s' :
  freeproc kend i s = Ret tt s' -> becomes s s' i (freed (procs s i)).
Proof.
  unfold freeproc. intros H. pose proof (becomes_refl s i) as HB. kinv. track HB. exact HB.
Qed.

Lemma becomes_free kend s s1 s2 i p :
  becomes s s1 i p -> freeproc kend i s1 = Ret tt s2 -> becomes s s2 i (freed p).
Proof.
  intros HB H%freeproc_becomes. rewrite (becomes_self _ _ _ _ HB) in H. by eapply becomes_trans.
Qed.
Lemma sched_inv p s s' : sched p s = Ret tt s' -> s' = s.
Proof. unfold sched. intros H. kinv. injection E as <- <-. case_bool_decide; [done|]. by injection H. Qed.

Lemma find_unused_spec t :
  match find_unused t with
  | Some i => i ∈ slots /\ state (t i) = UNUSED
  | None => forall i, i ∈ slots -> state (t i) <> UNUSED
  end.
Proof.
  unfold find_unused. destruct (list_find _ _) as [[k i]|] eqn:E; simpl.
  - apply list_find_Some in E as (E & Hs & _). split; [by eapply list_elem_of_lookup_2|done].
  - apply list_find_None in E. by rewrite Forall_forall in E.
Qed.

(** The slot [allocproc] hands out. *)
Definition fresh_proc (forkret n tf pt : Z) (p : proc) : proc :=
  Proc USED (chan p) (killed p) (xstate p) n (parent p) (kstack p) (sz p) pt tf
    (Context forkret (u64 (kstack p + PGSIZE)) (fun _ => 0)) (ofile p) (cwd p) (pname p) SCHED_DEFAULT 0 0.

Lemma allocproc_becomes kend trampoline forkret s o s' :
  allocproc kend trampoline forkret s = Ret o s' ->
  match find_unused (procs s) with
  | None => o = None /\ s' = s
  | Some i => exists q, becomes (set_nextpid (s32 (nextpid s + 1)) s) s' i q /\
      ((o = None /\ exists p, q = freed p /\ priority p = priority (procs s i) /\
          wait_ticks p = wait_ticks (procs s i)) \/
       (o = Some i /\ exists tf pt, tf <> 0 /\ pt <> 0 /\
          q = fresh_proc forkret (nextpid s) tf pt (procs s i)))
  end.
Proof.
  unfold allocproc. intros H. apply kbind_inv in H as (t & s0 & E0 & H). injection E0 as <- <-.
  destruct (find_unused (procs s)) as [i|]; [|by injection H as <- <-].
  apply kbind_inv in H as (n & s1 & E1 & H).
  unfold allocpid, kbind, kget, kupd, kret in E1. injection E1 as <- <-.
  set (s1 := set_nextpid _ s) in *.
  pose proof (becomes_refl s1 i) as HB. change (procs s1 i) with (procs s i) in HB.
  kinv. track HB. rename v1 into tf.
  destruct (Z.eqb_spec tf 0) as [->|Htf].
  { kinv. eapply becomes_free in HB; [|eassumption].
    eexists. split; [exact HB|]. left. split; [done|]. by eexists. }
  kinv. track HB. rename v into pt.
  destruct (Z.eqb_spec pt 0) as [->|Hpt].
  { kinv. eapply becomes_free in HB; [|eassumption].
    eexists. split; [exact HB|]. left. split; [done|]. by eexists. }
  kinv. track HB. eexists. split; [exact HB|]. right. split; [done|]. by exists tf, pt.
Qed.
Lemma dup_files_becomes p np s s' :
  p <> np -> dup_files p np s = Ret tt s' ->
  exists o, becomes s s' np (set_ofile o (procs s np)) /\
    forall fd, o fd = if bool_decide (0 <= fd < NOFILE)
                      then match ofile (procs s p) fd with Some f => Some f | None => ofile (procs s np) fd end
                      else ofile (procs s np) fd.
Proof.
  intros Hne. unfold dup_files.
  cut (forall l s0, NoDup l -> for_each l (fun fd =>
    let! q := get_proc p in
    match ofile q fd with
    | Some f => do! in_files (filedup f); upd_proc np (fun c => set_ofile (upd (ofile c) fd (Some f)) c)
    | None => kret tt
    end) s0 = Ret tt s' ->
    exists o, becomes s0 s' np (set_ofile o (procs s0 np)) /\
      forall fd, o fd = if bool_decide (fd ∈ l)
        then match ofile (procs s0 p) fd with Some f => Some f | None => ofile (procs s0 np) fd end
        else ofile (procs s0 np) fd).
  { intros Hl H%Hl; [|apply NoDup_seqZ]. destruct H as (o & HB & Ho). exists o. split; [done|].
    intros fd. rewrite Ho. erewrite bool_decide_ext; [done|]. rewrite elem_of_seqZ. lia. }
  induction l as [|fd l IH]; intros s0 Hnd H; simpl in H.
  { injection H as <-. exists (ofile (procs s0 np)). split; [|done].
    replace (set_ofile _ _) with (procs s0 np) by (by destruct (procs s0 np)). apply becomes_refl. }
  apply NoDup_cons in Hnd as [Hni Hnd]. apply kbind_inv in H as ([] & s1 & E1 & H).
  apply kbind_inv in E1 as (q & s2 & E2 & E1). injection E2 as <- <-.
  destruct (IH _ Hnd H) as (o & HB & Ho). clear IH H.
  assert (exists o1, becomes s0 s1 np (set_ofile o1 (procs s0 np)) /\
    forall j, o1 j = if j =? fd then match ofile (procs s0 p) fd with Some f => Some f | None => ofile (procs s0 np) fd end
                     else ofile (procs s0 np) j) as (o1 & HB1 & Ho1).
  { pose proof (becomes_refl s0 np) as HB0. destruct (ofile (procs s0 p) fd) as [f|].
    - kinv. track HB0. eexists. split; [exact HB0|]. intros j. unfold upd. by destruct (j =? fd).
    - injection E1 as <-. exists (ofile (procs s0 np)). split; [|intros j; by destruct (Z.eqb_spec j fd) as [->|]].
      by replace (set_ofile _ _) with (procs s0 np) by (by destruct (procs s0 np)). }
  exists o. pose proof (becomes_self _ _ _ _ HB1) as E1'. pose proof (becomes_other _ _ _ _ p HB1 Hne) as E2'.
  rewrite E1' in *. rewrite E2' in *. split; [by eapply becomes_trans|].
  intros j. rewrite Ho. simpl. rewrite Ho1. destruct (Z.eqb_spec j fd) as [->|Hj].
  - rewrite bool_decide_eq_false_2, bool_decide_eq_true_2 by (done || by left). done.
  - by rewrite (bool_decide_ext (j ∈ fd :: l) (j ∈ l)) by set_solver.
Qed.

(** The child of a successful [kfork]: the slot [q] it was given, the
    parent [p], its slot number [i]. *)
Definition forked (forkret i n tf pt : Z) (p q : proc) (child : proc) : Prop :=
  exists o, child = Proc RUNNABLE (chan q) (killed q) (xstate q) n (Some i) (kstack q) (sz p) pt tf
    (Context forkret (u64 (kstack q + PGSIZE)) (fun _ => 0)) o (cwd p) (copy_name (pname q) (pname p))
    (priority p) 0 0 /\
  forall fd, o fd = if bool_decide (0 <= fd < NOFILE)
                    then match ofile p fd with Some f => Some f | None => ofile q fd end
                    else ofile q fd.

Lemma kfork_becomes kend trampoline forkret p s r s' :
  state (procs s p) <> UNUSED -> kfork kend trampoline forkret p s = Ret r s' ->
  (r = -1 /\ (s' = s \/ exists i q, i ∈ slots /\ state (procs s i) = UNUSED /\
      becomes (set_nextpid (s32 (nextpid s + 1)) s) s' i (freed q) /\
      ((priority q = SCHED_DEFAULT /\ wait_ticks q = 0) \/
       (priority q = priority (procs s i) /\ wait_ticks q = wait_ticks (procs s i))))) \/
  (r = nextpid s /\ exists i tf pt child, find_unused (procs s) = Some i /\ tf <> 0 /\ pt <> 0 /\
     forked forkret p (nextpid s) tf pt (procs s p) (procs s i) child /\
     becomes (set_nextpid (s32 (nextpid s + 1)) s) s' i child).
Proof.
  intros Hp. unfold kfork. intros H. apply kbind_inv in H as (o & s1 & E1 & H).
  apply allocproc_becomes in E1. pose proof (find_unused_spec (procs s)) as Hf.
  destruct (find_unused (procs s)) as [i|]; [|destruct E1 as [-> ->]; kinv; left; auto].
  destruct Hf as [Hi Hun]. destruct E1 as (q & HB & [(-> & q0 & -> & E1 & E2)|(-> & tf & pt & Htf & Hpt & ->)]).
  { kinv. left. split; [done|]. right. exists i, q0. split_and!; auto. }
  assert (Hne : p <> i) by congruence.
  apply kbind_inv in H as (q & s2 & E2 & H). injection E2 as <- <-.
  apply kbind_inv in H as (c & s2 & E2 & H). injection E2 as <- <-.
  pose proof (becomes_other _ _ _ _ p HB Hne) as Ep. simpl in Ep. rewrite Ep in H.
  rewrite (becomes_self _ _ _ _ HB) in H.
  apply kbind_inv in H as (r0 & s2 & E2 & H). eapply becomes_mem in HB; [|exact E2].
  destruct (r0 <? 0).
  { kinv. eapply becomes_free in HB; [|eassumption]. left. split; [done|]. right.
    eexists i, _. split_and!; [done..|exact HB|by left]. }
  kinv. track HB.
  match goal with H : dup_files _ _ _ = _ |- _ => apply dup_files_becomes in H as (o & HB2 & Ho); [|done] end.
  rewrite (becomes_self _ _ _ _ HB) in *. rewrite (becomes_other _ _ _ _ p HB Hne) in *.
  eapply becomes_trans in HB2; [|exact HB]. clear HB. rename HB2 into HB.
  destruct (cwd (procs s p)) as [ip|] eqn:Ecwd; [|done].
  kinv. track HB. right. split; [done|]. exists i, tf, pt. eexists. split_and!; [done..| |exact HB].
  exists o. split; [|exact Ho]. unfold forked, fresh_proc. simpl. by rewrite Ecwd.
Qed.
End effects.
