(* ===== verification/Sched.v ===== *)
(** * kernel/proc.c: the scheduler

    [scheduler] cut at its context switch: [scheduler_pick] chooses a
    process and leaves it running on hart [c], [scheduler_return] is what
    follows when the process comes back.  A process holds its own lock from
    before it gives up the processor until [scheduler_return] releases it,
    so the two ends of a switch make one step of the system. *)

From stdpp Require Import sorting.
From S2P Require Import Prelude Memory Kalloc Compact Vm Proc.

(** ** Operations *)

Definition SCHED_ALPHA : Z := 5.
Definition SCHED_BETA : Z := 10.
Definition SCHED_MAX : Z := 100.
Definition SCHED_MIN : Z := 0.
Definition SCHED_WMAX : Z := 50.
Definition SCHED_TCPU_MAX : Z := 1.
Definition SCHED_W : Z := 50.

(** Phase 1: the scan for the process to run, [best] the best so far. *)
Fixpoint pick_from (t : Z -> proc) (l : list Z) (best : option Z) : option Z :=
  match l with
  | [] => best
  | i :: l' =>
      if bool_decide (state (t i) = RUNNABLE) then
        if wait_ticks (t i) >=? SCHED_WMAX then Some i
        else match best with
             | None => pick_from t l' (Some i)
             | Some b => if priority (t i) >? priority (t b) then pick_from t l' (Some i)
                         else pick_from t l' best
             end
      else pick_from t l' best
  end.

Definition pick (t : Z -> proc) : option Z := pick_from t slots None.

(** Phase 2, for one process. *)
Definition age (p : proc) : proc :=
  if bool_decide (state p = RUNNABLE) then
    let p1 := set_wait_ticks (s32 (wait_ticks p + 1)) p in
    let p2 := set_priority (s32 (priority p1 + SCHED_ALPHA)) p1 in
    if priority p2 >? SCHED_MAX then set_priority SCHED_MAX p2 else p2
  else p.

(** The penalty for using the processor. *)
Definition penalize (p : proc) : proc :=
  let p1 := set_cpu_ticks (s32 (cpu_ticks p + 1)) p in
  if cpu_ticks p1 >? SCHED_TCPU_MAX then
    let p2 := set_priority (s32 (priority p1 - SCHED_BETA)) p1 in
    if priority p2 <? SCHED_MIN then set_priority SCHED_MIN p2 else p2
  else p1.

Section scheduler.
Context {F : Type} `{!FileLayer F}.
#[local] Abbreviation K := (M (kernel F)).

(** The branch of a hart that finds nothing to run; [fuel] is that of
    [compact_memory]. *)
Definition scheduler_idle (fuel : nat) : K unit :=
  let! current := kget ticks in
  let! start := kget idle_start_tick in
  if start =? 0 then kupd (set_idle_start_tick current) else
  do! (if u32 (current - start) >=? 5 then garbage_collect else kret tt);
  let! start' := kget idle_start_tick in
  if u32 (current - start') >=? 10 then
    do! in_mem (compact_memory fuel);
    kupd (set_idle_start_tick current)
  else kret tt.

Definition scheduler_pick (c : Z) : K (option Z) :=
  let! t := kget procs in
  match pick t with
  | None => kret None
  | Some best =>
      do! for_each slots (fun i => if i =? best then kret tt else upd_proc i age);
      do! upd_proc best (set_state RUNNING);
      do! kupd (fun s => set_cpu_proc (upd (cpu_proc s) c (Some best)) s);
      do! upd_proc best (set_wait_ticks 0);
      do! kupd (set_idle_start_tick 0);
      kret (Some best)
  end.

(** One turn of [scheduler]'s loop up to the switch. *)
Definition scheduler (fuel : nat) (c : Z) : K (option Z) :=
  let! o := scheduler_pick c in
  match o with
  | Some b => kret (Some b)
  | None => do! scheduler_idle fuel; kret None
  end.

Definition reset_window : K unit :=
  let! w := kget window_tick in
  if w >=? SCHED_W then
    do! kupd (set_window_tick 0);
    for_each slots (fun i => upd_proc i (set_cpu_ticks 0))
  else kret tt.

Definition scheduler_return (c best : Z) : K unit :=
  do! upd_proc best penalize;
  do! kupd (fun s => set_window_tick (s32 (window_tick s + 1)) s);
  do! kupd (fun s => set_cpu_proc (upd (cpu_proc s) c None) s);
  reset_window.

End scheduler.

(** ** What the scan selects *)

Definition runnable (t : Z -> proc) (i : Z) : Prop := state (t i) = RUNNABLE.
Definition overdue (t : Z -> proc) (i : Z) : Prop := runnable t i /\ SCHED_WMAX <= wait_ticks (t i).

(** [b] is the choice among the slots of [l]. *)
Definition best_of (t : Z -> proc) (l : list Z) (b : Z) : Prop :=
  b ∈ l /\ runnable t b /\ ~ overdue t b /\
  forall i, i ∈ l -> runnable t i ->
    priority (t i) < priority (t b) \/ (priority (t i) = priority (t b) /\ b <= i).

Lemma pick_from_spec t l pre best :
  StronglySorted Z.lt (pre ++ l) -> (forall i, i ∈ pre -> ~ overdue t i) ->
  match best with None => forall i, i ∈ pre -> ~ runnable t i | Some b => best_of t pre b end ->
  match pick_from t l best with
  | None => forall i, i ∈ pre ++ l -> ~ runnable t i
  | Some b => b ∈ pre ++ l /\ runnable t b /\
      ((overdue t b /\ forall i, i ∈ pre ++ l -> overdue t i -> b <= i) \/
       ((forall i, i ∈ pre ++ l -> ~ overdue t i) /\ best_of t (pre ++ l) b))
  end.
Proof.
  revert pre best. induction l as [|i l IH]; intros pre best Hs Ho Hb; simpl.
  { rewrite app_nil_r. destruct best as [b|]; [|done]. pose proof Hb as (? & ? & _). auto. }
  replace (pre ++ i :: l) with ((pre ++ [i]) ++ l) in * by (by rewrite <- app_assoc).
  assert (Hlt : forall j, j ∈ pre -> j < i).
  { intros j Hj. rewrite <- app_assoc in Hs. eapply StronglySorted_app_1_elem_of; [exact Hs|done|by left]. }
  assert (Hgt : forall j, j ∈ l -> i < j).
  { intros j Hj. eapply StronglySorted_app_1_elem_of; [exact Hs| |done]. set_solver. }
  case_bool_decide as Hr; [rewrite Z.geb_leb; destruct (Z.leb_spec SCHED_WMAX (wait_ticks (t i)))|].
  - split_and!; [set_solver|done|]. left. split; [by split|]. intros j Hj Hov.
    apply elem_of_app in Hj as [Hj|Hj]; [|specialize (Hgt j Hj); lia].
    apply elem_of_app in Hj as [Hj|Hj]; [by destruct (Ho j Hj)|]. apply list_elem_of_singleton in Hj. lia.
  - assert (Ho' : forall j, j ∈ pre ++ [i] -> ~ overdue t j).
    { intros j [Hj|Hj%list_elem_of_singleton]%elem_of_app; [auto|]. subst. unfold overdue. lia. }
    assert (Hsing : forall j, j ∈ pre ++ [i] -> j ∈ pre \/ j = i) by set_solver.
    destruct best as [b|]; [destruct (Z.gtb_spec (priority (t i)) (priority (t b)))|]; apply IH; try done.
    + destruct Hb as (Hb1 & Hb2 & Hb3 & Hb4). split_and!; [set_solver|done|apply Ho'; set_solver|].
      intros j [Hj| ->]%Hsing Hrj; [|lia]. destruct (Hb4 j Hj Hrj); lia.
    + destruct Hb as (Hb1 & Hb2 & Hb3 & Hb4). split_and!; [set_solver|done|done|].
      intros j [Hj| ->]%Hsing Hrj; [by apply Hb4|]. specialize (Hlt b Hb1). lia.
    + split_and!; [set_solver|done|apply Ho'; set_solver|].
      intros j [Hj| ->]%Hsing Hrj; [by destruct (Hb j Hj)|lia].
  - assert (Ho' : forall j, j ∈ pre ++ [i] -> ~ overdue t j).
    { intros j [Hj|Hj%list_elem_of_singleton]%elem_of_app; [auto|]. subst. intros [? _]. done. }
    assert (Hsing : forall j, j ∈ pre ++ [i] -> j ∈ pre \/ j = i) by set_solver.
    apply IH; try done. destruct best as [b|].
    + destruct Hb as (Hb1 & Hb2 & Hb3 & Hb4). split_and!; [set_solver|done|done|].
      intros j [Hj| ->]%Hsing Hrj; [by apply Hb4|done].
    + intros j [Hj| ->]%Hsing; [by apply Hb|done].
Qed.

Lemma seqZ_sorted m n : StronglySorted Z.lt (seqZ m n).
Proof.
  assert (Hn : forall k z, StronglySorted Z.lt (seqZ z (Z.of_nat k))).
  { induction k as [|k IH]; intros z; [rewrite seqZ_nil by lia; constructor|].
    rewrite seqZ_cons by lia. replace (Z.pred (Z.of_nat (S k))) with (Z.of_nat k) by lia.
    constructor; [apply IH|]. apply Forall_forall. intros y. rewrite elem_of_seqZ. lia. }
  destruct (Z_lt_le_dec n 0); [rewrite seqZ_nil by lia; constructor|].
  rewrite <- (Z2Nat.id n) by lia. apply Hn.
Qed.

Lemma pick_ok t :
  match pick t with
  | None => forall i, i ∈ slots -> ~ runnable t i
  | Some b => b ∈ slots /\ runnable t b /\
      ((overdue t b /\ forall i, i ∈ slots -> overdue t i -> b <= i) \/
       ((forall i, i ∈ slots -> ~ overdue t i) /\ best_of t slots b))
  end.
Proof.
  apply (pick_from_spec t slots [] None); [apply seqZ_sorted|by intros ? ?%elem_of_nil..].
Qed.

Lemma scheduler_pick_eq {F : Type} c (s : kernel F) :
  exists s', scheduler_pick c s = Ret (pick (procs s)) s' /\
  match pick (procs s) with
  | None => s' = s
  | Some b =>
      nextpid s' = nextpid s /\ initproc s' = initproc s /\ kmem s' = kmem s /\ files s' = files s /\
      window_tick s' = window_tick s /\ cpu_proc s' = upd (cpu_proc s) c (Some b) /\
      forall i, procs s' i = if i =? b then set_wait_ticks 0 (set_state RUNNING (procs s b))
                             else if bool_decide (i ∈ slots) then age (procs s i) else procs s i
  end.
Proof.
  unfold scheduler_pick, kbind at 1, kget. destruct (pick (procs s)) as [b|]; [|by eexists].
  destruct (for_each_table slots (fun i => if i =? b then kret tt else @upd_proc F i age)
    (fun i p => if i =? b then p else age p) s) as (t & E & Ht).
  { apply slots_NoDup. }
  { intros i s1 _. destruct (Z.eqb_spec i b) as [->|].
    - exists (procs s1). rewrite set_procs_id. split; [done|]. intros j. by destruct (Z.eqb_spec j b) as [->|].
    - eexists. split; [reflexivity|]. done. }
  unfold kbind at 1. rewrite E. eexists. split; [reflexivity|]. split_and!; [done..|].
  intros i. simpl. unfold upd. rewrite Z.eqb_refl, !Ht. rewrite Z.eqb_refl.
  destruct (Z.eqb_spec i b) as [->|]; [|done]. by case_bool_decide.
Qed.
