(* ===== verification/ProcInv.v ===== *)
(** * Processes and the scheduler: invariants of every run

    The operations of kernel/proc.c as the steps of the whole system, on
    any number of harts, and what holds of every state they reach: process
    identifiers are unique, a process runs on at most one hart, priorities
    stay in their range, and waiting is bounded for the processes in the
    first slots of the table. *)

From S2P Require Import Prelude Memory Kalloc Compact Vm Proc Sched.

(** What the process code relies on from the file layer: closing a file,
    releasing a directory and collecting garbage change no process but
    by waking it. *)
Class FileLayerOk (F : Type) `{!FileLayer F} := {
  fileclose_woken p f s s' : fileclose p f s = Ret tt s' -> woken s s';
  put_cwd_woken p d s s' : put_cwd p d s = Ret tt s' -> woken s s';
  garbage_collect_woken s s' : garbage_collect s = Ret tt s' -> woken s s'
}.

#[local] Opaque slots.

Section inv.
Context {F : Type} `{!FileLayer F, !FileLayerOk F}.
Variables (kend trampoline forkret : Z) (xstate_at : Z -> Z) (fuel : nat).
Implicit Types s : kernel F.

(** ** Steps *)

(** A system call that may have gone to sleep, on hart [c]. *)
Definition or_switch (c p : Z) (call : M (kernel F) (option Z)) : M (kernel F) unit :=
  let! r := call in
  match r with
  | Some _ => kret tt
  | None => scheduler_return c p
  end.

(** [kstep s s']: a hart makes a scheduling decision, its process gives up
    the processor, or runs one of the other operations; [k_memory] are
    the user's own instructions and page faults. *)
Inductive kstep : kernel F -> kernel F -> Prop :=
| k_schedule c o s s' : cpu_proc s c = None -> scheduler fuel c s = Ret o s' -> kstep s s'
| k_yield c p s s' : cpu_proc s c = Some p ->
    (do! yield p; scheduler_return c p) s = Ret tt s' -> kstep s s'
| k_sleep c p ch s s' : cpu_proc s c = Some p ->
    (do! sleep p ch; scheduler_return c p) s = Ret tt s' -> kstep s s'
| k_exit c p st s s' : cpu_proc s c = Some p ->
    (do! kexit p st; scheduler_return c p) s = Ret tt s' -> kstep s s'
| k_wait c p addr s s' : cpu_proc s c = Some p ->
    or_switch c p (kwait kend xstate_at p addr) s = Ret tt s' -> kstep s s'
| k_fork c p r s s' : cpu_proc s c = Some p -> nextpid s < 2 ^ 31 - 1 ->
    kfork kend trampoline forkret p s = Ret r s' -> kstep s s'
| k_kill n r s s' : kkill n s = Ret r s' -> kstep s s'
| k_setkilled i s s' : setkilled i s = Ret tt s' -> kstep s s'
| k_awake c p s s' : cpu_proc s c = Some p -> sleep_return p s = Ret tt s' -> kstep s s'
| k_sbrk c p n r s s' : cpu_proc s c = Some p -> kgrowproc kend p n s = Ret r s' -> kstep s s'
| k_tick c p s s' : cpu_proc s c = Some p ->
    upd_proc p (fun q => set_cpu_ticks (s32 (cpu_ticks q + 1)) q) s = Ret tt s' -> kstep s s'
| k_wakeup c ch s s' : wakeup (cpu_proc s c) ch s = Ret tt s' -> kstep s s'
| k_memory m s : kstep s (set_kmem m s).

(** The system when [main] has set up the table and the first process:
    [userinit] has made slot 0 runnable. *)
Definition booted s : Prop :=
  nextpid s = 2 /\ initproc s = Some 0 /\ (forall c, cpu_proc s c = None) /\
  (forall i, wait_ticks (procs s i) = 0) /\ 0 <= priority (procs s 0) <= SCHED_MAX /\
  state (procs s 0) = RUNNABLE /\ pid (procs s 0) = 1 /\
  forall i, i <> 0 -> state (procs s i) = UNUSED /\ pid (procs s i) = 0 /\ priority (procs s i) = 0.

Definition reached s : Prop := exists s0, booted s0 /\ rtc kstep s0 s.

(** ** The invariant *)

Record proc_inv s : Prop := {
  pi_live : forall i, i ∈ slots -> state (procs s i) <> UNUSED -> pid (procs s i) <> 0;
  pi_pid : forall i, i ∈ slots -> 0 <= pid (procs s i) < nextpid s;
  pi_inj : forall i j, i ∈ slots -> j ∈ slots -> pid (procs s i) = pid (procs s j) ->
             pid (procs s i) <> 0 -> i = j;
  pi_prio : forall i, i ∈ slots -> SCHED_MIN <= priority (procs s i) <= SCHED_MAX;
  pi_wait : forall i, i ∈ slots -> state (procs s i) <> RUNNABLE -> wait_ticks (procs s i) = 0;
  pi_int : forall i, i ∈ slots -> - 2 ^ 31 <= wait_ticks (procs s i) /\
             (i <= SCHED_WMAX -> 0 <= wait_ticks (procs s i));
  pi_fair : forall i k, i ∈ slots -> 1 <= k <= SCHED_WMAX + 1 ->
              SCHED_WMAX + k <= wait_ticks (procs s i) ->
              exists P, NoDup P /\ Z.of_nat (length P) = k /\
                forall j, j ∈ P -> 0 <= j < i /\ wait_ticks (procs s j) < k;
  pi_cpu : forall c i, cpu_proc s c = Some i -> i ∈ slots /\ state (procs s i) = RUNNING;
  pi_cpu1 : forall c c' i, cpu_proc s c = Some i -> cpu_proc s c' = Some i -> c = c'
}.

(** The processes other than [p] keep what the invariant is about, up to
    being woken. *)
Definition others (p : Z) s s' : Prop :=
  forall i, i <> p -> pid (procs s' i) = pid (procs s i) /\ priority (procs s' i) = priority (procs s i) /\
    wait_ticks (procs s' i) = wait_ticks (procs s i) /\
    (state (procs s' i) = state (procs s i) \/
     (state (procs s i) = SLEEPING /\ state (procs s' i) = RUNNABLE)).

(** One process [p] changes, to an admissible value. *)
Lemma inv_change p s s' :
  proc_inv s -> others p s s' -> nextpid s <= nextpid s' ->
  (forall c i, cpu_proc s' c = Some i -> cpu_proc s c = Some i) ->
  (p ∈ slots ->
   (state (procs s' p) <> UNUSED -> pid (procs s' p) <> 0) /\
   0 <= pid (procs s' p) < nextpid s' /\
   (pid (procs s' p) = pid (procs s p) \/ pid (procs s' p) = 0 \/ nextpid s <= pid (procs s' p)) /\
   SCHED_MIN <= priority (procs s' p) <= SCHED_MAX /\
   (wait_ticks (procs s' p) = 0 \/
    (wait_ticks (procs s' p) = wait_ticks (procs s p) /\ state (procs s' p) = RUNNABLE)) /\
   (forall c, cpu_proc s' c = Some p -> state (procs s' p) = RUNNING)) ->
  proc_inv s'.
Proof.
  intros [H1 H2 H3 H4 H5 H9 H6 H7 H8] Ho Hn Hc Hp.
  assert (Hsame : forall i, i ∈ slots -> i = p \/ i <> p) by (intros; lia).
  split.
  - intros i Hi Hst. destruct (Hsame i Hi) as [->|Hne]; [by apply Hp|].
    destruct (Ho i Hne) as (-> & _ & _ & [E|[E1 E2]]); apply H1; congruence.
  - intros i Hi. destruct (Hsame i Hi) as [->|Hne]; [by apply Hp|].
    destruct (Ho i Hne) as (-> & _). specialize (H2 i Hi). lia.
  - intros i j Hi Hj E Hz.
    assert (Hone : forall i, i ∈ slots -> i <> p -> p ∈ slots -> pid (procs s' i) = pid (procs s' p) ->
              pid (procs s' i) <> 0 -> False).
    { clear i j Hi Hj E Hz. intros i Hi Hne Hps E Hz. destruct (Hp Hps) as (_ & _ & [Ep|[Ep|Ep]] & _);
      destruct (Ho i Hne) as (E' & _); [apply Hne, H3; congruence|congruence|specialize (H2 i Hi); lia]. }
    destruct (Hsame i Hi) as [->|Hi'], (Hsame j Hj) as [->|Hj']; [done|..].
    + exfalso. apply (Hone j); congruence.
    + exfalso. by apply (Hone i).
    + destruct (Ho i Hi') as (Ei & _), (Ho j Hj') as (Ej & _). apply H3; congruence.
  - intros i Hi. destruct (Hsame i Hi) as [->|Hne]; [by apply Hp|].
    destruct (Ho i Hne) as (_ & -> & _). auto.
  - intros i Hi Hst. destruct (Hsame i Hi) as [->|Hne].
    + destruct (Hp Hi) as (_ & _ & _ & _ & [?|[? ?]] & _); congruence.
    + destruct (Ho i Hne) as (_ & _ & -> & [E|[E1 E2]]); [apply H5; congruence|congruence].
  - intros i Hi. destruct (Hsame i Hi) as [->|Hne]; [|destruct (Ho i Hne) as (_ & _ & -> & _); auto].
    destruct (Hp Hi) as (_ & _ & _ & _ & [->|[-> _]] & _); [split; lia|auto].
  - intros i k Hi Hk Hw.
    assert (wait_ticks (procs s' i) = wait_ticks (procs s i)) as E.
    { destruct (Hsame i Hi) as [->|Hne]; [|by destruct (Ho i Hne) as (_ & _ & -> & _)].
      destruct (Hp Hi) as (_ & _ & _ & _ & [E|[E _]] & _); [|done]. unfold SCHED_WMAX in *. lia. }
    rewrite E in Hw. destruct (H6 i k Hi Hk Hw) as (P & HP1 & HP2 & HP3). exists P. split_and!; [done..|].
    intros j Hj. destruct (HP3 j Hj) as [Hj1 Hj2]. split; [done|].
    assert (j ∈ slots) as Hjs by (rewrite slots_spec in *; lia).
    destruct (Hsame j Hjs) as [->|Hne]; [|by destruct (Ho j Hne) as (_ & _ & -> & _)].
    destruct (Hp Hjs) as (_ & _ & _ & _ & [E'|[E' _]] & _); lia.
  - intros c i Hci. destruct (H7 c i (Hc _ _ Hci)) as [Hi Hr]. split; [done|].
    destruct (Hsame i Hi) as [->|Hne]; [by eapply (Hp Hi)|].
    destruct (Ho i Hne) as (_ & _ & _ & [E|[E1 E2]]); congruence.
  - eauto.
Qed.

(** ** Every step keeps the invariant *)

Lemma others_refl p s : others p s s.
Proof. intros i _. auto. Qed.

Lemma others_trans p s1 s2 s3 : others p s1 s2 -> others p s2 s3 -> others p s1 s3.
Proof.
  intros H1 H2 i Hi. destruct (H1 i Hi) as (E1 & E2 & E3 & Hs1), (H2 i Hi) as (E4 & E5 & E6 & Hs2).
  split_and!; [congruence..|]. destruct Hs1 as [?|[? ?]], Hs2 as [?|[? ?]]; try (left; congruence);
    right; split; congruence.
Qed.

Lemma woken_others p s s' : woken s s' -> others p s s'.
Proof. intros [_ H] i _. destruct (H i) as [->|[E ->]]; simpl; split_and!; auto. Qed.

Lemma becomes_others p s s' q : becomes s s' p q -> others p s s'.
Proof. intros HB i Hi. rewrite (becomes_other _ _ _ _ i HB Hi). auto. Qed.

Lemma woken_trans s1 s2 s3 : woken s1 s2 -> woken s2 s3 -> woken s1 s3.
Proof.
  intros [(A1 & A2 & A3) H1] [(B1 & B2 & B3) H2]. split; [unfold keeps; split_and!; congruence|].
  intros i. destruct (H1 i) as [E1|[E1 E1']], (H2 i) as [E2|[E2 E2']]; rewrite ?E1, ?E1' in *;
    [by left|by right|by right; rewrite E2|done].
Qed.

Lemma wakeup_woken cur ch s s' : wakeup cur ch s = Ret tt s' -> woken s s'.
Proof.
  destruct (wakeup_eq cur ch s) as (t & E & Ht). rewrite E. intros [= <-]. split; [done|].
  intros i. simpl. rewrite Ht. unfold wake. case_bool_decide; [|by left].
  case_bool_decide; [by left|]. case_bool_decide; [|by left]. case_bool_decide; [by right|by left].
Qed.

(** Of the process [p] itself, its key fields. *)
Definition same_key (p q : proc) : Prop :=
  state q = state p /\ pid q = pid p /\ priority q = priority p /\ wait_ticks q = wait_ticks p.

Lemma same_key_refl p : same_key p p.
Proof. done. Qed.

Lemma set_cpu_ticks_window (s : kernel F) :
  exists t, reset_window s = Ret tt (set_procs t (set_window_tick
     (if window_tick s >=? SCHED_W then 0 else window_tick s) s)) /\
    forall i, same_key (procs s i) (t i).
Proof.
  unfold reset_window, kbind, kget. destruct (window_tick s >=? SCHED_W).
  - unfold kupd. destruct (for_each_table slots (fun i => @upd_proc F i (set_cpu_ticks 0))
      (fun _ => set_cpu_ticks 0) (set_window_tick 0 s)) as (t & E & Ht).
    + apply slots_NoDup.
    + intros i s1 _. eexists. split; [reflexivity|]. intros j. done.
    + exists t. split; [exact E|]. intros i. rewrite Ht. by case_bool_decide.
  - exists (procs s). split; [by destruct s|done].
Qed.

Lemma penalize_spec p :
  SCHED_MIN <= priority p <= SCHED_MAX ->
  state (penalize p) = state p /\ pid (penalize p) = pid p /\ wait_ticks (penalize p) = wait_ticks p /\
  SCHED_MIN <= priority (penalize p) <= SCHED_MAX.
Proof.
  unfold penalize, SCHED_MIN, SCHED_MAX, SCHED_BETA. intros Hp. simpl.
  destruct (_ >? SCHED_TCPU_MAX); [|done]. simpl. rewrite s32_small by lia.
  destruct (Z.ltb_spec (priority p - 10) 0); simpl; split_and!; try done; lia.
Qed.

Lemma scheduler_return_spec c b s :
  SCHED_MIN <= priority (procs s b) <= SCHED_MAX ->
  exists s', scheduler_return c b s = Ret tt s' /\
    nextpid s' = nextpid s /\ initproc s' = initproc s /\ cpu_proc s' = upd (cpu_proc s) c None /\
    others b s s' /\ state (procs s' b) = state (procs s b) /\ pid (procs s' b) = pid (procs s b) /\
    wait_ticks (procs s' b) = wait_ticks (procs s b) /\
    SCHED_MIN <= priority (procs s' b) <= SCHED_MAX.
Proof.
  intros Hb. destruct (penalize_spec _ Hb) as (P1 & P2 & P3 & P4).
  unfold scheduler_return, kbind at 1, upd_proc, kupd at 1. unfold kbind at 1, kupd at 1. unfold kbind at 1, kupd at 1.
  set (s1 := set_cpu_proc _ _). destruct (set_cpu_ticks_window s1) as (t & E & Ht).
  exists (set_procs t (set_window_tick (if window_tick s1 >=? SCHED_W then 0 else window_tick s1) s1)).
  assert (Eb : procs s1 b = penalize (procs s b)) by apply upd_eq.
  destruct (Ht b) as (T1 & T2 & T3 & T4). rewrite Eb in *.
  split_and!; [exact E|done..| |simpl; congruence|simpl; congruence|simpl; congruence|simpl; lia|simpl; lia].
  intros i Hi. destruct (Ht i) as (U1 & U2 & U3 & U4).
  assert (Ei : procs s1 i = procs s i) by (by apply upd_ne). rewrite Ei in *. simpl. split_and!; auto.
Qed.

(** What happens around a running process [p] that keeps running. *)
Definition around (p : Z) s s' : Prop :=
  keeps s s' /\ others p s s' /\ same_key (procs s p) (procs s' p).

Lemma around_refl p s : around p s s.
Proof. split_and!; [done|apply others_refl|done]. Qed.

Lemma around_trans p s1 s2 s3 : around p s1 s2 -> around p s2 s3 -> around p s1 s3.
Proof.
  intros ((A1 & A2 & A3) & H1 & (K1 & K2 & K3 & K4)) ((B1 & B2 & B3) & H2 & (L1 & L2 & L3 & L4)).
  split_and!; [unfold keeps; split_and!; congruence|by eapply others_trans|].
  unfold same_key; split_and!; congruence.
Qed.

Lemma around_woken p s s' : state (procs s p) = RUNNING -> woken s s' -> around p s s'.
Proof.
  intros Hr H. split_and!; [apply H|by apply woken_others|]. destruct H as [_ H].
  destruct (H p) as [->|[E _]]; [done|congruence].
Qed.

Lemma around_upd p i f s s' :
  (forall q, same_key q (f q)) -> upd_proc i f s = Ret tt s' -> around p s s'.
Proof.
  unfold upd_proc, kupd. intros Hf [= <-]. split_and!; [done| |]; simpl.
  - intros j Hj. simpl. unfold upd. destruct (Z.eqb_spec j i) as [->|]; [|auto].
    destruct (Hf (procs s i)) as (? & ? & ? & ?). auto.
  - unfold upd. by destruct (Z.eqb_spec p i) as [->|].
Qed.

Lemma around_run p s s' : around p s s' -> state (procs s p) = RUNNING -> state (procs s' p) = RUNNING.
Proof. intros (_ & _ & H & _). congruence. Qed.

Lemma for_each_around {A} p (l : list A) f s s' :
  state (procs s p) = RUNNING ->
  (forall x s1 s2, state (procs s1 p) = RUNNING -> f x s1 = Ret tt s2 -> around p s1 s2) ->
  for_each l f s = Ret tt s' -> around p s s'.
Proof.
  intros Hr Hf H. eapply (for_each_inv l f (fun s0 => around p s s0)); [|apply around_refl|exact H].
  intros x s1 s2 _ H1 H2. eapply around_trans; [exact H1|]. eapply Hf; [|exact H2]. by eapply around_run.
Qed.

Lemma close_files_around p s s' :
  state (procs s p) = RUNNING -> close_files p s = Ret tt s' -> around p s s'.
Proof.
  intros Hr. apply for_each_around; [done|]. intros fd s1 s2 Hr1 H.
  apply kbind_inv in H as (q & s3 & E & H). injection E as <- <-.
  destruct (ofile (procs s1 p) fd) as [f|]; [|injection H as <-; apply around_refl].
  apply kbind_inv in H as ([] & s4 & E & H).
  eapply around_trans; [apply around_woken; [done|by eapply fileclose_woken]|].
  by eapply around_upd; [|exact H].
Qed.

Lemma reparent_around p s s' :
  state (procs s p) = RUNNING -> reparent p s = Ret tt s' -> around p s s'.
Proof.
  intros Hr. apply for_each_around; [done|]. intros i s1 s2 Hr1 H.
  apply kbind_inv in H as (q & s3 & E & H). injection E as <- <-.
  case_bool_decide; [|injection H as <-; apply around_refl].
  apply kbind_inv in H as (ip & s4 & E & H). injection E as <- <-.
  apply kbind_inv in H as ([] & s4 & E & H).
  assert (around p s1 s4) as H1 by (by eapply around_upd; [|exact E]).
  eapply around_trans; [exact H1|]. apply around_woken; [by eapply around_run|by eapply wakeup_woken].
Qed.

(** A process that ends its turn, in state [s1], keeps the invariant. *)
Definition gives_up (p : Z) s s1 : Prop :=
  keeps s s1 /\ others p s s1 /\ state (procs s1 p) <> UNUSED /\ pid (procs s1 p) = pid (procs s p) /\
  priority (procs s1 p) = priority (procs s p) /\ wait_ticks (procs s1 p) = wait_ticks (procs s p).

Lemma gives_up_intro p st s s1 s2 :
  st <> UNUSED -> around p s s1 -> becomes s1 s2 p (set_state st (procs s1 p)) -> gives_up p s s2.
Proof.
  intros Hst ((A1 & A2 & A3) & H1 & (K1 & K2 & K3 & K4)) HB.
  pose proof HB as ((B1 & B2 & B3) & _). pose proof (becomes_self _ _ _ _ HB) as E.
  split_and!; [unfold keeps; split_and!; congruence|
    eapply others_trans; [exact H1|by eapply becomes_others]|rewrite E; simpl; congruence..].
Qed.

Lemma yield_gives_up p s s1 : yield p s = Ret tt s1 -> gives_up p s s1.
Proof.
  unfold yield. intros H. kinv. apply sched_inv in H as ->.
  eapply (gives_up_intro p RUNNABLE); [done|apply around_refl|].
  eapply becomes_upd; [apply becomes_refl|exact E].
Qed.

Lemma sleep_gives_up p ch s s1 : sleep p ch s = Ret tt s1 -> gives_up p s s1.
Proof.
  unfold sleep. intros H. kinv. apply sched_inv in H as ->.
  eapply (gives_up_intro p SLEEPING); [done|by eapply around_upd; [|exact E]|].
  eapply becomes_upd; [apply becomes_refl|exact E0].
Qed.

Lemma kexit_gives_up p st s s1 :
  state (procs s p) = RUNNING -> kexit p st s = Ret tt s1 -> gives_up p s s1.
Proof.
  intros Hr. unfold kexit. intros H. apply kbind_inv in H as (ip & s0 & E0 & H). injection E0 as <- <-.
  case_bool_decide; [done|]. apply kbind_inv in H as ([] & s2 & E2 & H).
  apply close_files_around in E2; [|done].
  apply kbind_inv in H as (q & s0 & E0 & H). injection E0 as <- <-.
  destruct (cwd (procs s2 p)) as [d|]; [|done].
  apply kbind_inv in H as ([] & s3 & E3 & H). apply put_cwd_woken in E3.
  apply (around_woken p) in E3; [|by eapply around_run]. eapply around_trans in E3; [|exact E2].
  apply kbind_inv in H as ([] & s4 & E4 & H). apply (around_upd p) in E4; [|done].
  eapply around_trans in E4; [|exact E3].
  apply kbind_inv in H as ([] & s5 & E5 & H). apply reparent_around in E5; [|by eapply around_run].
  eapply around_trans in E5; [|exact E4].
  apply kbind_inv in H as (q & s0 & E0 & H). injection E0 as <- <-.
  apply kbind_inv in H as ([] & s6 & E6 & H). apply wakeup_woken in E6.
  apply (around_woken p) in E6; [|by eapply around_run]. eapply around_trans in E6; [|exact E5].
  kinv. apply sched_inv in H as ->. apply (around_upd p) in E; [|done].
  eapply around_trans in E; [|exact E6].
  eapply (gives_up_intro p ZOMBIE); [done|exact E|]. eapply becomes_upd; [apply becomes_refl|exact E0].
Qed.

Lemma inv_switch c p s s1 s' :
  proc_inv s -> cpu_proc s c = Some p -> gives_up p s s1 ->
  scheduler_return c p s1 = Ret tt s' -> proc_inv s'.
Proof.
  intros HI Hc ((A1 & _ & A3) & Ho & Hst & Ep & Epr & Ew) H. pose proof HI as [I1 I2 I3 I4 I5 _ I6 I7 I8].
  destruct (I7 c p Hc) as [Hp Hr].
  destruct (scheduler_return_spec c p s1) as (s2 & E2 & N2 & _ & C2 & O2 & S2 & D2 & W2 & P2);
    [rewrite Epr; auto|]. rewrite E2 in H. injection H as <-.
  eapply (inv_change p); [exact HI|by eapply others_trans|lia| |].
  - intros d i. rewrite C2, A3. unfold upd. by destruct (d =? c).
  - intros _. rewrite S2, D2, Ep, W2, Ew. split_and!; [intros _; apply I1; [done|congruence]|
      apply I2; done|specialize (I2 p Hp); lia|by left|lia|lia| |].
    + left. apply I5; congruence.
    + intros d. rewrite C2, A3. unfold upd. destruct (Z.eqb_spec d c) as [->|Hd]; [done|].
      intros Hd'. by destruct Hd; eapply I8.
Qed.

Lemma inv_others s s' :
  proc_inv s -> others (-1) s s' -> nextpid s' = nextpid s -> cpu_proc s' = cpu_proc s -> proc_inv s'.
Proof.
  intros HI Ho En Ec. eapply (inv_change (-1)); [exact HI|exact Ho|lia|by rewrite Ec|].
  rewrite slots_spec. lia.
Qed.

Lemma inv_woken s s' : proc_inv s -> woken s s' -> proc_inv s'.
Proof. intros HI H. apply (inv_others s); [done|by apply woken_others|apply H..]. Qed.

Lemma around_others p s s' : around p s s' -> others (-1) s s'.
Proof.
  intros (_ & Ho & K1 & K2 & K3 & K4) i _. destruct (Z.eq_dec i p) as [->|Hi]; [split_and!; auto|by apply Ho].
Qed.

Lemma inv_around p s s' : proc_inv s -> around p s s' -> proc_inv s'.
Proof. intros HI H. apply (inv_others s); [done|by eapply around_others|apply H..]. Qed.

Lemma kkill_others n s r s' : kkill n s = Ret r s' -> others (-1) s s' /\ keeps s s'.
Proof.
  unfold kkill. intros H. apply kbind_inv in H as (t & s0 & E0 & H). injection E0 as <- <-.
  destruct (snd <$> _) as [i|]; [|by injection H as _ <-; split; [apply others_refl|]].
  apply kbind_inv in H as ([] & s1 & E1 & H). apply (around_upd i) in E1 as H1; [|done].
  apply kbind_inv in H as ([] & s2 & E2 & H). injection H as _ <-.
  assert (Hst : state (procs s1 i) = state (procs s i)) by apply H1.
  assert (others i s1 s2 /\ keeps s1 s2 /\ same_key (set_state (state (procs s2 i)) (procs s1 i)) (procs s2 i) /\
    (state (procs s2 i) = state (procs s i) \/ state (procs s i) = SLEEPING /\ state (procs s2 i) = RUNNABLE))
    as (Ho & Hk & (K1 & K2 & K3 & K4) & Hs).
  { case_bool_decide as Hsl.
    - eapply becomes_upd in E2; [|apply becomes_refl]. pose proof (becomes_self _ _ _ _ E2) as ->.
      split_and!; [by eapply becomes_others|apply E2|done|by right].
    - injection E2 as <-. split_and!; [apply others_refl|done..|by left]. }
  destruct H1 as ((B1 & B2 & B3) & Ho1 & (L1 & L2 & L3 & L4)). destruct Hk as (C1 & C2 & C3).
  split; [|unfold keeps; split_and!; congruence].
  intros j _. destruct (Z.eq_dec j i) as [->|Hj]; [|by eapply others_trans].
  simpl in *. split_and!; congruence || done.
Qed.

Lemma kwait_scan_inv l p addr hk s r s' :
  state (procs s p) = RUNNING -> kwait_scan kend xstate_at l p addr hk s = Ret r s' ->
  (exists m, s' = set_kmem m s) \/
  (exists i, r = inl (pid (procs s i)) /\ i ∈ l /\ state (procs s i) = ZOMBIE /\ parent (procs s i) = Some p /\
     becomes s s' i (freed (procs s i))).
Proof.
  intros Hr. revert hk. induction l as [|i l IH]; intros hk H; simpl in H.
  { injection H as _ <-. left. exists (kmem s). by destruct s. }
  apply kbind_inv in H as (q & s0 & E0 & H). injection E0 as <- <-.
  assert (Hrec : forall hk', kwait_scan kend xstate_at l p addr hk' s = Ret r s' ->
    (exists m, s' = set_kmem m s) \/ (exists j, r = inl (pid (procs s j)) /\ j ∈ i :: l /\
      state (procs s j) = ZOMBIE /\ parent (procs s j) = Some p /\ becomes s s' j (freed (procs s j)))).
  { intros hk' H'. destruct (IH hk' H') as [?|(j & ? & ? & ?)]; [by left|right; exists j].
    split_and!; [done|by right|naive_solver..]. }
  case_bool_decide as Hpar; [|by eapply Hrec]. case_bool_decide as Hz; [|by eapply Hrec].
  apply kbind_inv in H as (me & s0 & E0 & H). injection E0 as <- <-.
  apply kbind_inv in H as (v & s1 & E1 & H).
  assert (exists m, s1 = set_kmem m s) as [m ->].
  { destruct (negb (addr =? 0)); [|injection E1 as _ <-; exists (kmem s); by destruct s].
    apply kbind_inv in E1 as ([] & s2 & E2 & E1). apply in_mem_inv in E2 as (m2 & _ & ->).
    apply in_mem_inv in E1 as (m1 & _ & ->). by exists m1. }
  destruct (v <? 0); [kinv; left; by exists m|].
  apply kbind_inv in H as ([] & s2 & E2 & H). injection H as <- <-.
  apply freeproc_becomes in E2. right. exists i. split_and!; [done|by left|done|done|exact E2].
Qed.

(** Freeing the slot of a process that no hart runs. *)
Lemma inv_free i s s1 s' q :
  proc_inv s -> (forall c, cpu_proc s c <> Some i) ->
  nextpid s <= nextpid s1 -> procs s1 = procs s -> cpu_proc s1 = cpu_proc s -> becomes s1 s' i (freed q) ->
  (i ∈ slots -> SCHED_MIN <= priority q <= SCHED_MAX /\ wait_ticks q = 0) -> proc_inv s'.
Proof.
  intros HI Hi En Et Ec HB Hq. pose proof HB as ((N & _ & C) & _). pose proof (becomes_self _ _ _ _ HB) as E.
  eapply (inv_change i); [exact HI| |lia| |].
  - intros j Hj. apply (becomes_others _ _ _ _ HB j) in Hj. by rewrite Et in Hj.
  - intros c j. by rewrite C, Ec.
  - intros His. destruct (Hq His). rewrite E. simpl. pose proof (pi_pid _ HI i His).
    split_and!; try done; try lia; auto. intros c. rewrite C, Ec. intros Hc. by destruct (Hi c).
Qed.

Lemma inv_wait c p addr s s' :
  proc_inv s -> cpu_proc s c = Some p ->
  or_switch c p (kwait kend xstate_at p addr) s = Ret tt s' -> proc_inv s'.
Proof.
  intros HI Hc H. destruct (pi_cpu _ HI _ _ Hc) as [Hp Hr].
  unfold or_switch in H. apply kbind_inv in H as (r & s1 & E1 & H).
  unfold kwait in E1. apply kbind_inv in E1 as (r0 & s2 & E2 & E1).
  apply kwait_scan_inv in E2; [|done]. destruct E2 as [[m ->]|(i & -> & Hi & Hz & _ & HB)].
  - assert (HI' : proc_inv (set_kmem m s)) by (apply (inv_around p s); [done|exact (around_refl p s)]).
    destruct r0 as [v|hk]; [kinv; done|].
    apply kbind_inv in E1 as (k & s3 & E3 & E1). unfold get_killed in E3.
    apply kbind_inv in E3 as (q & s4 & E4 & E3). injection E4 as <- <-. injection E3 as <- <-.
    destruct (_ || _); [kinv; done|]. apply kbind_inv in E1 as ([] & s5 & E5 & E1). injection E1 as <- <-.
    apply sleep_gives_up in E5. by eapply (inv_switch c p (set_kmem m s)).
  - injection E1 as <- <-. injection H as <-.
    eapply (inv_free i s s); [done| |lia|done..|exact HB|].
    + intros d Hd. destruct (pi_cpu _ HI _ _ Hd). congruence.
    + intros His. split; [by apply pi_prio|apply pi_wait; congruence].
Qed.

Lemma inv_fork c p s r s' :
  proc_inv s -> cpu_proc s c = Some p -> nextpid s < 2 ^ 31 - 1 ->
  kfork kend trampoline forkret p s = Ret r s' -> proc_inv s'.
Proof.
  intros HI Hc Hn H. destruct (pi_cpu _ HI _ _ Hc) as [Hp Hr].
  pose proof (pi_pid _ HI p Hp) as Hpid.
  apply kfork_becomes in H; [|congruence]. rewrite s32_small in H by lia.
  destruct H as [(-> & [->|(i & q & Hi & Hun & HB & Hq)])|(-> & i & tf & pt & child & Hf & _ & _ & (o & -> & _) & HB)];
    [done| |].
  - eapply (inv_free i s (set_nextpid (nextpid s + 1) s)); [done| |simpl; lia|done|done|exact HB|].
    + intros d Hd. destruct (pi_cpu _ HI _ _ Hd). congruence.
    + intros His. pose proof (pi_prio _ HI i His). unfold SCHED_DEFAULT, SCHED_MIN, SCHED_MAX in *.
      rewrite (pi_wait _ HI i) in Hq by congruence. lia.
  - pose proof (find_unused_spec (procs s)) as Hfi. rewrite Hf in Hfi. destruct Hfi as [Hi Hun].
    pose proof HB as ((N & _ & C) & _). simpl in N, C. pose proof (becomes_self _ _ _ _ HB) as E.
    eapply (inv_change i); [exact HI| |lia| |].
    + intros j Hj. by apply (becomes_others _ _ _ _ HB j) in Hj.
    + intros d j. by rewrite C.
    + intros _. rewrite E. simpl. pose proof (pi_prio _ HI p Hp).
      split_and!; try lia; auto. intros d. rewrite C. intros Hd. destruct (pi_cpu _ HI _ _ Hd). congruence.
Qed.

Lemma bound_wait s i : proc_inv s -> 0 <= i <= SCHED_WMAX -> wait_ticks (procs s i) <= SCHED_WMAX + i.
Proof.
  intros HI Hi. unfold SCHED_WMAX in *. destruct (Z_le_gt_dec (wait_ticks (procs s i)) (50 + i)); [done|].
  destruct (pi_fair _ HI i (i + 1)) as (P & HP1 & HP2 & HP3);
    [rewrite slots_spec; unfold NPROC; lia|unfold SCHED_WMAX; lia..|].
  assert (length P <= length (seqZ 0 i))%nat as Hl.
  { apply submseteq_length, NoDup_submseteq; [done|]. intros j [? _]%HP3. rewrite elem_of_seqZ. lia. }
  rewrite length_seqZ in Hl. lia.
Qed.

Lemma age_spec p :
  SCHED_MIN <= priority p <= SCHED_MAX -> - 2 ^ 31 <= wait_ticks p ->
  state (age p) = state p /\ pid (age p) = pid p /\ SCHED_MIN <= priority (age p) <= SCHED_MAX /\
  - 2 ^ 31 <= wait_ticks (age p) <= wait_ticks p + 1 /\
  (0 <= wait_ticks p < 2 ^ 31 - 1 -> 0 <= wait_ticks (age p)) /\
  (state p <> RUNNABLE -> wait_ticks (age p) = wait_ticks p).
Proof.
  unfold age, SCHED_MIN, SCHED_MAX, SCHED_ALPHA. intros Hp Hw.
  assert (Hs : - 2 ^ 31 <= s32 (wait_ticks p + 1) <= wait_ticks p + 1).
  { pose proof (s32_range (wait_ticks p + 1)). split; [lia|].
    destruct (Z_lt_le_dec (wait_ticks p + 1) (2 ^ 31)); [rewrite s32_small; lia|lia]. }
  assert (Hs0 : 0 <= wait_ticks p < 2 ^ 31 - 1 -> 0 <= s32 (wait_ticks p + 1)).
  { intros. rewrite s32_small; lia. }
  case_bool_decide; [|split_and!; done || lia]. simpl. rewrite (s32_small (priority p + 5)) by lia.
  destruct (Z.gtb_spec (priority p + 5) 100); simpl; split_and!; done || lia.
Qed.

(** The scheduling decision: when the process in slot [i] is passed over
    for the [k]-th time since it became overdue, the one chosen is in a
    lower slot and starts waiting anew. *)
Lemma fair_pick s s' b :
  proc_inv s -> pick (procs s) = Some b ->
  (forall i, i ∈ slots -> procs s' i = if i =? b then set_wait_ticks 0 (set_state RUNNING (procs s b))
                                       else age (procs s i)) ->
  forall i k, i ∈ slots -> 1 <= k <= SCHED_WMAX + 1 -> SCHED_WMAX + k <= wait_ticks (procs s' i) ->
    exists P, NoDup P /\ Z.of_nat (length P) = k /\
      forall j, j ∈ P -> 0 <= j < i /\ wait_ticks (procs s' j) < k.
Proof.
  intros HI Hpk Ht i k Hi Hk Hw. pose proof (pick_ok (procs s)) as HP. rewrite Hpk in HP.
  destruct HP as (Hb & Hbr & HP). unfold SCHED_WMAX in *.
  assert (Hag : forall j, j ∈ slots -> wait_ticks (procs s' j) <= Z.max 0 (wait_ticks (procs s j) + 1) /\
            (j <> b -> state (procs s j) <> RUNNABLE -> wait_ticks (procs s' j) = 0)).
  { intros j Hj. rewrite Ht by done. destruct (Z.eqb_spec j b); simpl; [lia|].
    destruct (age_spec (procs s j)) as (_ & _ & _ & A & _ & B); [by apply pi_prio|by apply pi_int|].
    split; [lia|]. intros _ Hs. rewrite B by done. by apply pi_wait. }
  destruct (Hag i Hi) as [Hi1 Hi2].
  assert (i <> b) as Hib by (intros ->; rewrite Ht, Z.eqb_refl in Hw by done; simpl in Hw; lia).
  destruct (decide (state (procs s i) = RUNNABLE)) as [Hri|Hri]; [|specialize (Hi2 Hib Hri); lia].
  assert (Hov : overdue (procs s) i) by (split; [done|unfold SCHED_WMAX; lia]).
  destruct HP as [[[_ Hbw] Hmin]|[Hno _]]; [|by destruct (Hno i Hi)].
  specialize (Hmin i Hi Hov). unfold SCHED_WMAX in *.
  assert (exists P, NoDup P /\ Z.of_nat (length P) = k - 1 /\
    forall j, j ∈ P -> 0 <= j < i /\ wait_ticks (procs s j) < k - 1) as (P & HP1 & HP2 & HP3).
  { destruct (Z.eq_dec k 1) as [->|]; [exists []; split_and!; [constructor|done|by intros ? ?%elem_of_nil]|].
    apply (pi_fair _ HI i (k - 1)); unfold SCHED_WMAX; [done|lia..]. }
  assert (Hbs : 0 <= b) by (rewrite slots_spec in Hb; lia).
  exists (b :: P). split_and!.
  - apply NoDup_cons. split; [|done]. intros [_ ?]%HP3. lia.
  - simpl. lia.
  - intros j [->|Hj]%elem_of_cons.
    + rewrite Ht, Z.eqb_refl by done. simpl. lia.
    + destruct (HP3 j Hj) as [Hj1 Hj2]. assert (j ∈ slots) as Hjs by (rewrite slots_spec in *; lia).
      destruct (Hag j Hjs). lia.
Qed.

Lemma inv_pick c s s' :
  proc_inv s -> cpu_proc s c = None -> scheduler_pick c s = Ret (pick (procs s)) s' -> proc_inv s'.
Proof.
  intros HI Hc H. destruct (scheduler_pick_eq c s) as (s1 & E1 & Hs). rewrite E1 in H. injection H as <-.
  destruct (pick (procs s)) as [b|] eqn:Hpk; [|by subst].
  destruct Hs as (N & _ & _ & _ & _ & C & Ht).
  assert (Ht' : forall i, i ∈ slots -> procs s1 i = if i =? b then set_wait_ticks 0 (set_state RUNNING (procs s b))
                                       else age (procs s i)).
  { intros i Hi. by rewrite Ht, (bool_decide_eq_true_2 (i ∈ slots)) by done. }
  pose proof (pick_ok (procs s)) as HP. rewrite Hpk in HP. destruct HP as (Hb & Hbr & _). unfold runnable in Hbr.
  assert (Hk : forall i, i ∈ slots -> pid (procs s1 i) = pid (procs s i) /\
    SCHED_MIN <= priority (procs s1 i) <= SCHED_MAX /\
    (- 2 ^ 31 <= wait_ticks (procs s1 i) /\ (i <= SCHED_WMAX -> 0 <= wait_ticks (procs s1 i))) /\
    state (procs s1 i) = (if i =? b then RUNNING else state (procs s i)) /\
    (state (procs s1 i) <> RUNNABLE -> wait_ticks (procs s1 i) = 0)).
  { intros i Hi. rewrite Ht' by done. pose proof (pi_prio _ HI i Hi). pose proof (pi_int _ HI i Hi).
    destruct (Z.eqb_spec i b) as [->|]; simpl; [split_and!; done || lia|].
    destruct (age_spec (procs s i)) as (-> & -> & ? & ? & A0 & A); [done|lia|].
    split_and!; try done; try lia.
    { intros Hle. rewrite slots_spec in Hi. pose proof (bound_wait s i HI). unfold SCHED_WMAX in *. lia. }
    intros Hs. rewrite A by done. by apply pi_wait. }
  split.
  - intros i Hi Hs. destruct (Hk i Hi) as (-> & _ & _ & E & _). apply pi_live; [done|done|].
    rewrite E in Hs. destruct (Z.eqb_spec i b) as [->|]; congruence.
  - intros i Hi. destruct (Hk i Hi) as (-> & _). rewrite N. by apply pi_pid.
  - intros i j Hi Hj. destruct (Hk i Hi) as (-> & _), (Hk j Hj) as (-> & _). by apply pi_inj.
  - intros i Hi. by destruct (Hk i Hi) as (_ & ? & _).
  - intros i Hi. by destruct (Hk i Hi) as (_ & _ & _ & _ & ?).
  - intros i Hi. by destruct (Hk i Hi) as (_ & _ & ? & _).
  - by eapply fair_pick.
  - intros d i. rewrite C. unfold upd. destruct (Z.eqb_spec d c) as [->|].
    + intros [= <-]. split; [done|]. destruct (Hk b Hb) as (_ & _ & _ & -> & _). by rewrite Z.eqb_refl.
    + intros Hd. destruct (pi_cpu _ HI _ _ Hd) as [Hi Hr]. split; [done|].
      destruct (Hk i Hi) as (_ & _ & _ & -> & _). destruct (Z.eqb_spec i b) as [->|]; congruence.
  - intros d d' i. rewrite C. unfold upd.
    destruct (Z.eqb_spec d c) as [->|], (Z.eqb_spec d' c) as [->|]; intros H1 H2; try done.
    + destruct (pi_cpu _ HI _ _ H2). congruence.
    + destruct (pi_cpu _ HI _ _ H1). congruence.
    + by eapply pi_cpu1.
Qed.

Lemma inv_schedule c o s s' :
  proc_inv s -> cpu_proc s c = None -> scheduler fuel c s = Ret o s' -> proc_inv s'.
Proof.
  intros HI Hc H. unfold scheduler in H. apply kbind_inv in H as (o' & s1 & E1 & H).
  destruct (scheduler_pick_eq c s) as (s2 & E2 & _). rewrite E2 in E1. injection E1 as <- <-.
  apply inv_pick in E2; [|done..]. destruct (pick (procs s)); [by injection H as _ <-|].
  apply kbind_inv in H as ([] & s3 & E3 & H). injection H as _ <-.
  unfold scheduler_idle in E3. apply kbind_inv in E3 as (cu & s4 & E4 & E3). injection E4 as <- <-.
  apply kbind_inv in E3 as (st & s4 & E4 & E3). injection E4 as <- <-.
  assert (Hid : forall s4 n, proc_inv s4 -> proc_inv (set_idle_start_tick n s4)).
  { intros s4 n H4. apply (inv_around 0 s4); [done|exact (around_refl 0 s4)]. }
  destruct (_ =? 0); [injection E3 as <-; by apply Hid|].
  apply kbind_inv in E3 as ([] & s4 & E4 & E3).
  assert (proc_inv s4) as H4.
  { destruct (_ >=? 5); [by eapply inv_woken; [|eapply garbage_collect_woken]|by injection E4 as <-]. }
  apply kbind_inv in E3 as (st' & s5 & E5 & E3). injection E5 as <- <-.
  destruct (_ >=? 10); [|by injection E3 as <-].
  apply kbind_inv in E3 as ([] & s5 & E5 & E3). injection E3 as <-. apply Hid.
  apply in_mem_inv in E5 as (m & _ & ->). apply (inv_around 0 s4); [done|exact (around_refl 0 s4)].
Qed.

Lemma kstep_inv s s' : proc_inv s -> kstep s s' -> proc_inv s'.
Proof.
  intros HI Hs. destruct Hs as [c o s s' Hc E|c p s s' Hc E|c p ch s s' Hc E|c p st s s' Hc E|c p addr s s' Hc E|
    c p r s s' Hc Hn E|n r s s' E|i s s' E|c p s s' Hc E|c p n r s s' Hc E|c p s s' Hc E|c ch s s' E|m s].
  - by eapply inv_schedule.
  - kinv. eapply inv_switch; [done..|by apply yield_gives_up|done].
  - kinv. eapply inv_switch; [done..|by eapply sleep_gives_up|done].
  - kinv. eapply inv_switch; [done..|eapply kexit_gives_up; [by eapply pi_cpu|done]|done].
  - by eapply inv_wait.
  - by eapply inv_fork.
  - apply kkill_others in E as [Ho (? & ? & ?)]. by eapply inv_others.
  - by eapply (inv_around i), around_upd; [| |exact E].
  - by eapply (inv_around p), around_upd; [| |exact E].
  - unfold kgrowproc in E. apply kbind_inv in E as (q & s0 & E0 & E). injection E0 as <- <-.
    apply kbind_inv in E as (o & s1 & E1 & E). apply in_mem_inv in E1 as (m & _ & ->).
    assert (proc_inv (set_kmem m s)) as HI' by (apply (inv_around p s); [done|exact (around_refl p s)]).
    destruct o as [z|]; [|by injection E as _ <-]. apply kbind_inv in E as ([] & s2 & E2 & E). injection E as _ <-.
    by eapply (inv_around p (set_kmem m s)), around_upd; [| |exact E2].
  - by eapply (inv_around p), around_upd; [| |exact E].
  - by eapply inv_woken, wakeup_woken.
  - apply (inv_around 0 s); [done|exact (around_refl 0 s)].
Qed.

Lemma booted_inv s : booted s -> proc_inv s.
Proof.
  intros (N & _ & C & W & P & S0 & D0 & R).
  assert (Hc : forall i, i = 0 \/ i <> 0) by lia.
  assert (Hpid : forall i, pid (procs s i) = if i =? 0 then 1 else 0).
  { intros i. destruct (Z.eqb_spec i 0) as [->|Hi]; [done|]. by apply R. }
  assert (Hpr : forall i, 0 <= priority (procs s i) <= SCHED_MAX).
  { intros i. destruct (Z.eq_dec i 0) as [->|Hi]; [done|]. destruct (R i Hi) as (_ & _ & ->). unfold SCHED_MAX. lia. }
  split.
  - intros i _ Hs. rewrite Hpid. destruct (Z.eqb_spec i 0) as [->|Hi]; [done|]. by destruct (R i Hi).
  - intros i _. rewrite Hpid, N. destruct (i =? 0); lia.
  - intros i j _ _. rewrite !Hpid. destruct (Z.eqb_spec i 0), (Z.eqb_spec j 0); lia.
  - intros i _. apply Hpr.
  - intros i _ _. apply W.
  - intros i _. rewrite W. split; lia.
  - intros i k _ Hk Hw. rewrite W in Hw. unfold SCHED_WMAX in Hw. lia.
  - intros c i. by rewrite C.
  - intros c c' i. by rewrite C.
Qed.

Lemma reached_inv s : reached s -> proc_inv s.
Proof.
  intros (s0 & H0 & Hr). apply booted_inv in H0. induction Hr; eauto using kstep_inv.
Qed.

(** ** Waiting *)

(** A process that is waiting for the processor goes on waiting, and its
    count of lost decisions stays. *)
Definition waits_on s s' : Prop :=
  forall i, i ∈ slots -> state (procs s i) = RUNNABLE ->
    state (procs s' i) = RUNNABLE /\ wait_ticks (procs s' i) = wait_ticks (procs s i).

Lemma waits_others p s s' : others p s s' -> state (procs s p) <> RUNNABLE -> waits_on s s'.
Proof.
  intros Ho Hp i _ Hi. destruct (Ho i) as (_ & _ & E & [Es|[Es _]]); [congruence| |congruence].
  split; congruence.
Qed.

Lemma waits_refl s : waits_on s s.
Proof. done. Qed.

Lemma waits_trans s1 s2 s3 : waits_on s1 s2 -> waits_on s2 s3 -> waits_on s1 s3.
Proof. intros H1 H2 i Hs Hi. destruct (H1 i Hs Hi) as [A B], (H2 i Hs A) as [C D]. split; congruence. Qed.

Lemma waits_woken s s' : woken s s' -> waits_on s s'.
Proof. intros [_ H] i _ Hi. destruct (H i) as [->|[E _]]; [done|congruence]. Qed.

Lemma waits_around p s s' : around p s s' -> waits_on s s'.
Proof.
  intros (_ & Ho & K1 & K2 & K3 & K4) i _ Hi. destruct (Z.eq_dec i p) as [->|Hne]; [split; congruence|].
  destruct (Ho i Hne) as (_ & _ & E & [Es|[Es _]]); [split; congruence|congruence].
Qed.

Lemma waits_switch c p s s1 s' :
  proc_inv s -> cpu_proc s c = Some p -> gives_up p s s1 -> scheduler_return c p s1 = Ret tt s' ->
  waits_on s s'.
Proof.
  intros HI Hc (Hk & Ho & Hst & Ep & Epr & Ew) H. destruct (pi_cpu _ HI _ _ Hc) as [Hp Hr].
  destruct (scheduler_return_spec c p s1) as (s2 & E2 & _ & _ & _ & O2 & _); [rewrite Epr; by apply pi_prio|].
  rewrite E2 in H. injection H as <-. eapply waits_others; [by eapply others_trans|congruence].
Qed.

Lemma waits_becomes i s s1 s' q :
  procs s1 = procs s -> becomes s1 s' i q -> state (procs s i) <> RUNNABLE -> waits_on s s'.
Proof.
  intros E HB Hi. apply (waits_others i); [|done]. intros j Hj.
  apply (becomes_others _ _ _ _ HB j) in Hj. by rewrite E in Hj.
Qed.

Lemma waits_wait c p addr s s' :
  proc_inv s -> cpu_proc s c = Some p ->
  or_switch c p (kwait kend xstate_at p addr) s = Ret tt s' -> waits_on s s'.
Proof.
  intros HI Hc H. destruct (pi_cpu _ HI _ _ Hc) as [Hp Hr].
  unfold or_switch in H. apply kbind_inv in H as (r & s1 & E1 & H).
  unfold kwait in E1. apply kbind_inv in E1 as (r0 & s2 & E2 & E1).
  apply kwait_scan_inv in E2; [|done]. destruct E2 as [[m ->]|(i & -> & Hi & Hz & _ & HB)].
  - destruct r0 as [v|hk]; [injection E1 as <- <-; injection H as <-; exact (waits_refl s)|].
    apply kbind_inv in E1 as (k & s3 & E3 & E1). unfold get_killed in E3.
    apply kbind_inv in E3 as (q & s4 & E4 & E3). injection E4 as <- <-. injection E3 as <- <-.
    destruct (_ || _); [injection E1 as <- <-; injection H as <-; exact (waits_refl s)|].
    apply kbind_inv in E1 as ([] & s5 & E5 & E1). injection E1 as <- <-.
    assert (HI' : proc_inv (set_kmem m s)) by (apply (inv_around p s); [done|exact (around_refl p s)]).
    apply sleep_gives_up in E5. exact (waits_switch c p _ _ _ HI' Hc E5 H).
  - injection E1 as <- <-. injection H as <-. eapply (waits_becomes i s s); [done|exact HB|congruence].
Qed.

(** A step is a scheduling decision, or leaves everyone waiting. *)
Lemma kstep_waits s s' :
  proc_inv s -> kstep s s' ->
  waits_on s s' \/ exists c b, cpu_proc s c = None /\ scheduler_pick c s = Ret (Some b) s'.
Proof.
  intros HI Hs. destruct Hs as [c o s s' Hc E|c p s s' Hc E|c p ch s s' Hc E|c p st s s' Hc E|c p addr s s' Hc E|
    c p r s s' Hc Hn E|n r s s' E|i s s' E|c p s s' Hc E|c p n r s s' Hc E|c p s s' Hc E|c ch s s' E|m s].
  - unfold scheduler in E. apply kbind_inv in E as (o' & s1 & E1 & E). destruct o' as [b|].
    { injection E as _ <-. right. by exists c, b. }
    left. destruct (scheduler_pick_eq c s) as (s2 & E2 & Hs). rewrite E1 in E2. injection E2 as E2 <-.
    rewrite <- E2 in Hs. subst s1. apply kbind_inv in E as ([] & s3 & E3 & E). injection E as _ <-.
    unfold scheduler_idle in E3. apply kbind_inv in E3 as (cu & s4 & E4 & E3). injection E4 as <- <-.
    apply kbind_inv in E3 as (st & s4 & E4 & E3). injection E4 as <- <-.
    destruct (_ =? 0); [injection E3 as <-; exact (waits_refl s)|].
    apply kbind_inv in E3 as ([] & s4 & E4 & E3).
    assert (waits_on s s4) as H4.
    { destruct (_ >=? 5); [by eapply waits_woken, garbage_collect_woken|injection E4 as <-; apply waits_refl]. }
    apply kbind_inv in E3 as (st' & s5 & E5 & E3). injection E5 as <- <-.
    destruct (_ >=? 10); [|by injection E3 as <-].
    apply kbind_inv in E3 as ([] & s5 & E5 & E3). injection E3 as <-.
    apply in_mem_inv in E5 as (m & _ & ->). exact H4.
  - left. kinv. eapply waits_switch; [done..|by apply yield_gives_up|done].
  - left. kinv. eapply waits_switch; [done..|by eapply sleep_gives_up|done].
  - left. kinv. eapply waits_switch; [done..|eapply kexit_gives_up; [by eapply pi_cpu|done]|done].
  - left. by eapply waits_wait.
  - left. destruct (pi_cpu _ HI _ _ Hc) as [Hp Hr]. pose proof (find_unused_spec (procs s)) as Hf.
    apply kfork_becomes in E; [|congruence].
    destruct E as [(_ & [->|(i & q & _ & Hun & HB & _)])|(_ & i & tf & pt & child & Hf' & _ & _ & _ & HB)].
    + apply waits_refl.
    + eapply waits_becomes; [|exact HB|congruence]. done.
    + rewrite Hf' in Hf. destruct Hf as [_ Hf]. eapply waits_becomes; [|exact HB|congruence]. done.
  - left. apply kkill_others in E as [Ho _]. intros i Hs Hi. rewrite slots_spec in Hs.
    destruct (Ho i) as (_ & _ & E & [Es|[Es _]]); [lia|split; congruence|congruence].
  - left. by eapply (waits_around i), around_upd; [|exact E].
  - left. by eapply (waits_around p), around_upd; [|exact E].
  - left. unfold kgrowproc in E. apply kbind_inv in E as (q & s0 & E0 & E). injection E0 as <- <-.
    apply kbind_inv in E as (o & s1 & E1 & E). apply in_mem_inv in E1 as (m & _ & ->).
    destruct o as [z|]; [|injection E as _ <-; exact (waits_refl s)].
    apply kbind_inv in E as ([] & s2 & E2 & E). injection E as _ <-.
    eapply waits_trans; [exact (waits_refl s)|]. by eapply (waits_around p), (around_upd _ _ _ (set_kmem m s)); [|exact E2].
  - left. by eapply (waits_around p), around_upd; [|exact E].
  - left. by eapply waits_woken, wakeup_woken.
  - left. exact (waits_refl s).
Qed.

(** [passed_over i n s s']: from [s] to [s'] slot [i] waits all the time
    while [n] scheduling decisions go to other processes. *)
Inductive passed_over (i : Z) : nat -> kernel F -> kernel F -> Prop :=
| po_refl s : state (procs s i) = RUNNABLE -> passed_over i 0 s s
| po_decision n s s1 c b s2 : passed_over i n s s1 ->
    cpu_proc s1 c = None -> scheduler_pick c s1 = Ret (Some b) s2 -> b <> i ->
    passed_over i (S n) s s2
| po_step n s s1 s2 : passed_over i n s s1 -> kstep s1 s2 ->
    (forall c b, scheduler_pick c s1 <> Ret (Some b) s2) -> passed_over i n s s2.

Lemma passed_over_reached i n s s' :
  passed_over i n s s' -> reached s -> reached s'.
Proof.
  intros Hp (s0 & H0 & Hr). exists s0. split; [done|]. revert Hr.
  induction Hp as [s Hs|n s s1 c b s2 Hp IH Hc E Hb|n s s1 s2 Hp IH Hk Hw]; intros Hr; [done| |].
  - eapply rtc_r; [by apply IH|]. eapply (k_schedule c (Some b)); [done|].
    unfold scheduler, kbind. by rewrite E.
  - eapply rtc_r; [by apply IH|done].
Qed.

Lemma passed_over_count i n s s' :
  0 <= i <= SCHED_WMAX -> passed_over i n s s' -> reached s ->
  state (procs s' i) = RUNNABLE /\ wait_ticks (procs s' i) = wait_ticks (procs s i) + Z.of_nat n.
Proof.
  intros Hi Hp Hr. assert (Hs : i ∈ slots) by (rewrite slots_spec; unfold NPROC, SCHED_WMAX in *; lia).
  induction Hp as [s Hrun|n s s1 c b s2 Hp IH Hc E Hb|n s s1 s2 Hp IH Hk Hw].
  - split; [done|lia].
  - destruct (IH Hr) as [Hrun Hw]. pose proof (passed_over_reached _ _ _ _ Hp Hr) as Hr1%reached_inv.
    destruct (scheduler_pick_eq c s1) as (s3 & E3 & Ht). rewrite E in E3. injection E3 as E3 <-.
    rewrite <- E3 in Ht. destruct Ht as (_ & _ & _ & _ & _ & _ & Ht).
    rewrite Ht. destruct (Z.eqb_spec i b); [congruence|]. rewrite bool_decide_eq_true_2 by done.
    pose proof (bound_wait _ _ Hr1 Hi). pose proof (pi_int _ Hr1 i Hs). unfold SCHED_WMAX in *.
    assert (state (age (procs s1 i)) = RUNNABLE /\ wait_ticks (age (procs s1 i)) = s32 (wait_ticks (procs s1 i) + 1)) as [-> ->].
    { unfold age. rewrite bool_decide_eq_true_2 by done. by destruct (_ >? SCHED_MAX). }
    rewrite s32_small by lia. split; [done|lia].
  - destruct (IH Hr) as [Hrun Hwt]. pose proof (passed_over_reached _ _ _ _ Hp Hr) as Hr1%reached_inv.
    destruct (kstep_waits _ _ Hr1 Hk) as [Hwo|(c & b & _ & E)]; [|by destruct (Hw c b)].
    destruct (Hwo i Hs Hrun) as [? ?]. split; [done|lia].
Qed.
End inv.
