(* ===== verification/ProcSpec.v ===== *)
(** * Processes and the scheduler: what the code guarantees

    The theorems about kernel/proc.c, with their witnesses. *)

From S2P Require Import Prelude Memory StringC Kalloc Compact Vm Proc Sched ProcInv.

(** A file layer without files, for the witnesses. *)
#[local] Instance no_files : FileLayer unit := {
  filedup _ := kret tt;
  idup _ := kret tt;
  fileclose _ _ := kret tt;
  put_cwd _ _ := kret tt;
  root_dir := kret 0;
  garbage_collect := kret tt
}.

Lemma woken_refl {F} (s : kernel F) : woken s s.
Proof. split; [done|]. by left. Qed.

#[local] Instance no_files_ok : FileLayerOk unit.
Proof. split; intros; match goal with H : _ = Ret tt _ |- _ => injection H as <- end; apply woken_refl. Qed.

(** A slot in state [st] with identifier [n] and [w] lost decisions. *)
Definition slot_in (st : procstate) (n w : Z) : proc :=
  Proc st NoChan 0 0 n None 0 0 0 0 (Context 0 0 (fun _ => 0)) (fun _ => None) (Some 1) (fun _ => 0) SCHED_DEFAULT w 0.

Definition unused : proc :=
  Proc UNUSED NoChan 0 0 0 None 0 0 0 0 (Context 0 0 (fun _ => 0)) (fun _ => None) None (fun _ => 0) 0 0 0.

(** The kernel with the first process only, and four pages of memory. *)
Definition first : kernel unit :=
  Kernel empty4 (fun i => if i =? 0 then slot_in RUNNABLE 1 0 else unused) 2 (Some 0) (fun _ => None) 0 0 0 tt.

Lemma first_booted : booted first.
Proof.
  unfold booted, first. simpl. split_and!; try done.
  - intros i. by destruct (i =? 0).
  - intros i Hi. by rewrite (proj2 (Z.eqb_neq i 0)).
Qed.

(** ** Scheduling *)

(** C24. A scheduling decision terminates and follows the stated rule: if
    some waiting process has lost at least [SCHED_WMAX] decisions, the one
    in the lowest slot runs; otherwise the one with the highest priority, the
    lowest slot among equals; the chosen one runs with its count cleared, every
    other waiting one ages, and with nobody waiting nothing changes. *)
Theorem scheduler_decides {F : Type} c (s : kernel F) :
  exists s', scheduler_pick c s = Ret (pick (procs s)) s' /\
  match pick (procs s) with
  | None => s' = s /\ forall i, i ∈ slots -> state (procs s i) <> RUNNABLE
  | Some b =>
      b ∈ slots /\ state (procs s b) = RUNNABLE /\
      ((SCHED_WMAX <= wait_ticks (procs s b) /\
        forall i, i ∈ slots -> overdue (procs s) i -> b <= i) \/
       ((forall i, i ∈ slots -> ~ overdue (procs s) i) /\ best_of (procs s) slots b)) /\
      cpu_proc s' = upd (cpu_proc s) c (Some b) /\
      forall i, procs s' i = if i =? b then set_wait_ticks 0 (set_state RUNNING (procs s b))
                             else if bool_decide (i ∈ slots) then age (procs s i) else procs s i
  end.
Proof.
  destruct (scheduler_pick_eq c s) as (s' & E & H). exists s'. split; [done|].
  pose proof (pick_ok (procs s)) as HP. destruct (pick (procs s)) as [b|]; [|by split].
  destruct HP as (Hb & Hr & HP), H as (_ & _ & _ & _ & _ & Hc & Ht).
  split_and!; [done|done| |done|done]. destruct HP as [[[_ ?] ?]|?]; [by left|by right].
Qed.

(** C23. Process identifiers and processors are exclusive in every reachable
    state: live processes have distinct positive identifiers below
    [nextpid], and a process that is current on a hart is running and
    is current on no other hart. *)
Theorem proc_table_exclusive {F : Type} `{!FileLayer F, !FileLayerOk F}
    kend trampoline forkret xstate_at fuel (s : kernel F) :
  reached kend trampoline forkret xstate_at fuel s ->
  (forall i, i ∈ slots -> state (procs s i) <> UNUSED -> 0 < pid (procs s i) < nextpid s) /\
  (forall i j, i ∈ slots -> j ∈ slots -> state (procs s i) <> UNUSED ->
     pid (procs s i) = pid (procs s j) -> i = j) /\
  (forall c i, cpu_proc s c = Some i -> state (procs s i) = RUNNING /\
     forall c', cpu_proc s c' = Some i -> c' = c).
Proof.
  intros HI%reached_inv. split_and!.
  - intros i Hi Hs. pose proof (pi_pid _ HI i Hi). pose proof (pi_live _ HI i Hi Hs). lia.
  - intros i j Hi Hj Hs E. apply (pi_inj _ HI); [done..|by apply pi_live].
  - intros c i Hc. split; [by apply (pi_cpu _ HI c)|]. intros c' Hc'. by apply (pi_cpu1 _ HI c' c i).
Qed.

Lemma proc_table_exclusive_witness :
  reached kend4 0 0 (fun _ => 0) 0 first /\ 0 < pid (procs first 0) < nextpid first.
Proof.
  assert (Hr : reached kend4 0 0 (fun _ => 0) 0 first) by (exists first; split; [apply first_booted|apply rtc_refl]).
  split; [exact Hr|].
  apply (proj1 (proc_table_exclusive kend4 0 0 (fun _ => 0) 0 first Hr) 0); [by apply slots_spec|done].
Defined.

(** C27. Priorities stay between [SCHED_MIN] and [SCHED_MAX] in every
    reachable state, however long processes age and are penalised. *)
Theorem priority_bounded {F : Type} `{!FileLayer F, !FileLayerOk F}
    kend trampoline forkret xstate_at fuel (s : kernel F) i :
  reached kend trampoline forkret xstate_at fuel s -> i ∈ slots ->
  SCHED_MIN <= priority (procs s i) <= SCHED_MAX.
Proof. intros HI%reached_inv. by apply pi_prio. Qed.

Lemma priority_bounded_witness :
  exists s, reached kend4 0 0 (fun _ => 0) 0 s /\ cpu_proc s 3 = Some 0 /\
    SCHED_MIN <= priority (procs s 0) <= SCHED_MAX.
Proof.
  destruct (scheduler_pick_eq 3 first) as (s & E & _).
  assert (Ep : pick (procs first) = Some 0) by reflexivity. rewrite Ep in E.
  assert (Hr : reached kend4 0 0 (fun _ => 0) 0 s).
  { exists first. split; [apply first_booted|]. apply rtc_once. eapply (k_schedule _ _ _ _ _ 3 (Some 0)); [done|].
    unfold scheduler, kbind. by rewrite E. }
  exists s. split_and!; [exact Hr| |apply (priority_bounded kend4 0 0 (fun _ => 0) 0 s 0 Hr); by apply slots_spec..].
  revert E. vm_compute. by intros [= <-].
Defined.

(** C25. Waiting is bounded for the low slots: while a process in slot
    [i <= SCHED_WMAX] waits, whatever the other processes and harts do, at
    most [SCHED_WMAX + i] scheduling decisions go to others. *)
Theorem waiting_bounded {F : Type} `{!FileLayer F, !FileLayerOk F}
    kend trampoline forkret xstate_at fuel (s s' : kernel F) i n :
  reached kend trampoline forkret xstate_at fuel s -> 0 <= i <= SCHED_WMAX ->
  passed_over kend trampoline forkret xstate_at fuel i n s s' -> Z.of_nat n <= SCHED_WMAX + i.
Proof.
  intros Hr Hi Hp. pose proof (passed_over_reached _ _ _ _ _ _ _ _ _ Hp Hr) as HI'%reached_inv.
  destruct (passed_over_count _ _ _ _ _ _ _ _ _ Hi Hp Hr) as [_ E].
  pose proof (bound_wait _ _ HI' Hi). apply reached_inv in Hr.
  assert (i ∈ slots) as Hs by (apply slots_spec; unfold NPROC, SCHED_WMAX in *; lia).
  destruct (pi_int _ Hr i Hs). lia.
Qed.

(** The first process, on hart 3, forks and yields; the next decision
    passes the child over. *)
Lemma waiting_bounded_witness :
  exists s s' : kernel unit, reached kend4 0 0 (fun _ => 0) 0 s /\
    passed_over kend4 0 0 (fun _ => 0) 0 1 1 s s' /\ Z.of_nat 1 <= SCHED_WMAX + 1.
Proof.
  assert (Hck : match scheduler_pick 3 first with
    | Ret o s => match kfork kend4 0 0 0 s with
      | Ret r s1 => match (do! yield 0; scheduler_return 3 0) s1 with
        | Ret _ s2 => bool_decide (o = Some 0) && bool_decide (pick (procs s2) = Some 0) &&
             bool_decide (state (procs s2 1) = RUNNABLE) && bool_decide (cpu_proc s2 3 = None) &&
             bool_decide (cpu_proc s1 3 = Some 0) && bool_decide (cpu_proc s 3 = Some 0) && (nextpid s =? 2)
        | _ => false end
      | _ => false end
    | _ => false end = true) by (vm_compute; reflexivity).
  destruct (scheduler_pick 3 first) as [o s| |] eqn:E; [|discriminate Hck..].
  destruct (kfork kend4 0 0 0 s) as [r s1| |] eqn:E1; [|discriminate Hck..].
  destruct ((do! yield 0; scheduler_return 3 0) s1) as [[] s2| |] eqn:E2; [|discriminate Hck..].
  rewrite !andb_true_iff, !bool_decide_eq_true, Z.eqb_eq in Hck.
  destruct Hck as [[[[[[-> Hp] Hr1] Hc2] Hc1] Hc] Hn].
  assert (Hr : reached kend4 0 0 (fun _ => 0) 0 s2).
  { exists first. split; [apply first_booted|].
    eapply rtc_l; [eapply (k_schedule _ _ _ _ _ 3 (Some 0)); [done|unfold scheduler, kbind; by rewrite E]|].
    eapply rtc_l; [eapply (k_fork _ _ _ _ _ 3 0); [done|lia|exact E1]|].
    apply rtc_once. by eapply (k_yield _ _ _ _ _ 3 0). }
  destruct (scheduler_pick_eq 3 s2) as (s3 & E3 & _). rewrite Hp in E3.
  assert (Hpo : passed_over kend4 0 0 (fun _ => 0) 0 1 1 s2 s3).
  { eapply (po_decision _ _ _ _ _ 1 0 s2 s2 3 0); [by constructor|done|exact E3|done]. }
  exists s2, s3. split_and!; [exact Hr|exact Hpo|].
  apply (waiting_bounded kend4 0 0 (fun _ => 0) 0 s2 s3 1 1 Hr); [unfold SCHED_WMAX; lia|exact Hpo].
Defined.

(** One turn of a busy processor: a decision, and the process chosen runs
    until the clock makes it yield. *)
Definition busy_round {F} (c : Z) : M (kernel F) Z :=
  let! o := scheduler_pick c in
  match o with
  | None => khang
  | Some b => do! yield b; do! scheduler_return c b; kret b
  end.

Fixpoint busy_rounds {F} (n : nat) (c : Z) : M (kernel F) (list Z) :=
  match n with
  | O => kret []
  | S n' => let! b := busy_round c in let! l := busy_rounds n' c in kret (b :: l)
  end.

(** Slots 0 to 50 all wait, slot [j]'s turn being the next but [j - r]. *)
Definition crowded {F} (r : Z) (s : kernel F) : Prop :=
  0 <= r <= SCHED_WMAX /\
  forall j, 0 <= j <= SCHED_WMAX ->
    state (procs s j) = RUNNABLE /\ SCHED_MIN <= priority (procs s j) <= SCHED_MAX /\
    wait_ticks (procs s j) = if j <? r then r - 1 - j else SCHED_WMAX - j + r.

Lemma crowded_pick {F} r (s : kernel F) : crowded r s -> pick (procs s) = Some r.
Proof.
  intros [Hr H]. pose proof (pick_ok (procs s)) as HP. unfold SCHED_WMAX in *.
  assert (Hrs : r ∈ slots) by (apply slots_spec; unfold NPROC; lia).
  destruct (H r ltac:(lia)) as (Hrr & _ & Hrw). rewrite Z.ltb_irrefl in Hrw.
  assert (Hov : overdue (procs s) r) by (split; [done|unfold SCHED_WMAX; lia]).
  destruct (pick (procs s)) as [b|]; [|by destruct (HP r Hrs)].
  destruct HP as (Hb & _ & [[[_ Hbw] Hmin]|[Hno _]]); [|by destruct (Hno r Hrs)].
  specialize (Hmin r Hrs Hov). rewrite slots_spec in Hb. unfold SCHED_WMAX in *.
  destruct (H b ltac:(lia)) as (_ & _ & Hw). destruct (Z.ltb_spec b r); [lia|]. f_equal. lia.
Qed.

Ltac ltb := match goal with |- context [?a <? ?b] => destruct (Z.ltb_spec a b) end.

Lemma state_age p : state (age p) = state p.
Proof. unfold age. case_bool_decide; [|done]. by destruct (_ >? SCHED_MAX). Qed.

Lemma crowded_round {F} c r (s : kernel F) :
  crowded r s ->
  exists s', busy_round c s = Ret r s' /\ crowded (if r =? SCHED_WMAX then 0 else r + 1) s' /\
    forall i, i ∈ slots -> state (procs s i) = RUNNABLE -> state (procs s' i) = RUNNABLE.
Proof.
  intros Hc. pose proof (crowded_pick _ _ Hc) as Hp. destruct Hc as [Hr H]. unfold SCHED_WMAX in *.
  destruct (scheduler_pick_eq c s) as (s1 & E1 & Hs1). rewrite Hp in *.
  destruct Hs1 as (_ & _ & _ & _ & _ & _ & Ht).
  assert (Et : forall j, j ∈ slots -> j <> r -> procs s1 j = age (procs s j)).
  { intros j Hj Hjr. rewrite Ht, (proj2 (Z.eqb_neq j r)), bool_decide_eq_true_2 by done. done. }
  assert (Er : procs s1 r = set_wait_ticks 0 (set_state RUNNING (procs s r))) by (by rewrite Ht, Z.eqb_refl).
  set (s2 := set_procs (upd (procs s1) r (set_state RUNNABLE (procs s1 r))) s1).
  assert (E2 : yield r s1 = Ret tt s2).
  { unfold yield, kbind, upd_proc, kupd, sched, kbind, get_proc, kget. fold s2.
    assert (state (procs s2 r) = RUNNABLE) as -> by (unfold s2; simpl; by rewrite upd_eq). done. }
  assert (E2r : procs s2 r = set_wait_ticks 0 (set_state RUNNABLE (procs s r))).
  { unfold s2. simpl. by rewrite upd_eq, Er. }
  destruct (H r ltac:(lia)) as (Hrr & Hrp & _).
  destruct (scheduler_return_spec c r s2) as (s3 & E3 & _ & _ & _ & O3 & S3 & _ & W3 & P3); [by rewrite E2r|].
  rewrite E2r in *. simpl in *.
  assert (Eo : forall j, j ∈ slots -> j <> r -> state (procs s j) = RUNNABLE ->
    SCHED_MIN <= priority (procs s j) <= SCHED_MAX -> - 2 ^ 31 <= wait_ticks (procs s j) < 2 ^ 31 - 1 ->
    state (procs s3 j) = RUNNABLE /\ SCHED_MIN <= priority (procs s3 j) <= SCHED_MAX /\
    wait_ticks (procs s3 j) = wait_ticks (procs s j) + 1).
  { intros j Hj Hjr Hjs Hjp Hjw. destruct (O3 j Hjr) as (_ & -> & -> & Hst).
    assert (procs s2 j = age (procs s j)) as Ej by (unfold s2; simpl; rewrite upd_ne by done; auto).
    rewrite Ej in *. destruct (age_spec (procs s j)) as (A1 & _ & A2 & _); [done|lia|].
    split_and!; [destruct Hst as [->|[? ?]]; congruence|apply A2..|].
    unfold age. rewrite bool_decide_eq_true_2 by done. destruct (_ >? SCHED_MAX); simpl; apply s32_small; lia. }
  exists s3. split_and!.
  - unfold busy_round, kbind. rewrite E1, E2, E3. done.
  - split; [unfold SCHED_WMAX; destruct (Z.eqb_spec r 50); lia|].
    intros j Hj. unfold SCHED_WMAX in *. destruct (Z.eq_dec j r) as [->|Hjr].
    + rewrite S3, W3. split_and!; [done|lia..|]. destruct (Z.eqb_spec r 50); repeat ltb; lia.
    + destruct (H j Hj) as (Hjs & Hjp & Hjw).
      destruct (Eo j) as (-> & ? & ->); [apply slots_spec; unfold NPROC; lia|done..|destruct (j <? r); lia|].
      rewrite Hjw. split_and!; [done|lia..|].
      destruct (Z.eqb_spec r 50); repeat ltb; lia.
  - intros i Hi Hri. destruct (Z.eq_dec i r) as [->|Hir]; [done|].
    destruct (O3 i Hir) as (_ & _ & _ & Hst).
    assert (state (procs s2 i) = RUNNABLE) as Ei.
    { unfold s2. simpl. rewrite upd_ne, Et by done. by rewrite state_age. }
    destruct Hst as [->|[? ?]]; congruence.
Qed.


(** 52 processes wait, each once in its turn, and the one in slot 51 for ever. *)
Definition crowd : kernel unit :=
  Kernel empty4 (fun i => slot_in RUNNABLE (i + 1) (50 - i)) 65 (Some 0) (fun _ => None) 0 0 0 tt.


(** ** Sleep, wakeup and kill *)

(** No wakeup is lost and none is spurious: [wakeup] terminates,
    afterwards no process but the caller sleeps on the channel, and every
    process that was not sleeping on it is exactly as before. *)
Theorem wakeup_exact {F} cur ch (s : kernel F) :
  exists s', wakeup cur ch s = Ret tt s' /\
  (forall i, i ∈ slots -> Some i <> cur -> state (procs s' i) = SLEEPING -> chan (procs s' i) <> ch) /\
  (forall i, i ∈ slots -> Some i <> cur -> state (procs s i) = SLEEPING -> chan (procs s i) = ch ->
     procs s' i = set_state RUNNABLE (procs s i)) /\
  (forall i, Some i = cur \/ state (procs s i) <> SLEEPING \/ chan (procs s i) <> ch ->
     procs s' i = procs s i).
Proof.
  destruct (wakeup_eq cur ch s) as (t & E & Ht). eexists. split; [exact E|]. simpl.
  assert (Hw : forall i, i ∈ slots -> Some i <> cur -> t i =
    if bool_decide (state (procs s i) = SLEEPING) && bool_decide (chan (procs s i) = ch)
    then set_state RUNNABLE (procs s i) else procs s i).
  { intros i Hi Hc. rewrite Ht. unfold wake. by rewrite bool_decide_eq_true_2, bool_decide_eq_false_2. }
  split_and!.
  - intros i Hi Hc. rewrite Hw by done. case_bool_decide; [case_bool_decide|]; simpl; naive_solver.
  - intros i Hi Hc Hs Hch. by rewrite Hw, !bool_decide_eq_true_2 by done.
  - intros i Hi. rewrite Ht. unfold wake. case_bool_decide; [|done]. case_bool_decide; [done|].
    case_bool_decide; [|done]. case_bool_decide; [|done]. naive_solver.
Qed.

Lemma list_find_ext {A} (P Q : A -> Prop) `{forall x, Decision (P x), forall x, Decision (Q x)} l :
  (forall x, x ∈ l -> P x <-> Q x) -> list_find P l = list_find Q l.
Proof.
  induction l as [|x l IH]; intros Hpq; [done|]. simpl.
  rewrite IH by (intros y Hy; apply Hpq; by right).
  destruct (decide (P x)), (decide (Q x)); try done; destruct (Hpq x ltac:(by left)); naive_solver.
Qed.

(** C29. [kill] of identifier 0 is not refused: unused slots have identifier
    0, so it succeeds, marks the first of them, and the next process
    created there is born with [killed] set. *)
Theorem kill_zero_marks_next_child {F} `{!FileLayer F} kend trampoline forkret (s : kernel F) i :
  (forall j, j ∈ slots -> pid (procs s j) = 0 <-> state (procs s j) = UNUSED) ->
  find_unused (procs s) = Some i ->
  exists s1, kkill 0 s = Ret 0 s1 /\
  forall o s2, allocproc kend trampoline forkret s1 = Ret o s2 -> 
    o = None \/ (o = Some i /\ killed (procs s2 i) = 1).
Proof.
  intros Hz Hf. unfold kkill, kbind at 1, kget. unfold find_unused in Hf.
  rewrite (list_find_ext _ (fun j => state (procs s j) = UNUSED)) by done. rewrite Hf.
  pose proof (find_unused_spec (procs s)) as Hi. unfold find_unused in Hi. rewrite Hf in Hi.
  destruct Hi as [Hi Hun]. rewrite Hun. unfold kbind at 1, upd_proc, kupd.
  eexists. split; [reflexivity|]. intros o s2 Ha%allocproc_becomes.
  assert (Hf1 : find_unused (procs (set_procs (upd (procs s) i (set_killed 1 (procs s i))) s)) = Some i).
  { unfold find_unused. rewrite (list_find_ext _ (fun j => state (procs s j) = UNUSED)); [done|].
    intros j _. simpl. unfold upd. by destruct (Z.eqb_spec j i) as [->|]. }
  rewrite Hf1 in Ha. destruct Ha as (q & HB & [(-> & _)|(-> & tf & pt & _ & _ & ->)]); [by left|right].
  split; [done|]. rewrite (becomes_self _ _ _ _ HB). simpl. by rewrite upd_eq.
Qed.

Lemma kill_zero_marks_next_child_witness :
  exists s1, kkill 0 first = Ret 0 s1 /\
  forall o s2, allocproc kend4 0 0 s1 = Ret o s2 -> o = None \/ (o = Some 1 /\ killed (procs s2 1) = 1).
Proof.
  apply (kill_zero_marks_next_child kend4 0 0 first 1); [|reflexivity].
  intros j _. unfold first. simpl. by destruct (j =? 0).
Defined.

(** ** Exit *)

Section exit.
Context {F : Type} `{!FileLayer F, !FileLayerOk F}.
Variable p : Z.
Implicit Types s : kernel F.

(** [q'] is [q], or [q] woken up. *)
Definition maybe_woken (q q' : proc) : Prop :=
  q' = q \/ (state q = SLEEPING /\ q' = set_state RUNNABLE q).

(** Process [i] sleeps in [kwait]. *)
Definition waiting s (i : Z) : Prop := state (procs s i) = SLEEPING /\ chan (procs s i) = ChanProc i.

Lemma maybe_woken_trans q1 q2 q3 : maybe_woken q1 q2 -> maybe_woken q2 q3 -> maybe_woken q1 q3.
Proof. intros [->|[H1 ->]] [->|[H2 ->]]; [by left|by right|by right|done]. Qed.

Lemma woken_at s s' i : woken s s' -> maybe_woken (procs s i) (procs s' i).
Proof. intros [_ H]. apply H. Qed.

Lemma woken_run s s' : woken s s' -> state (procs s p) = RUNNING -> procs s' p = procs s p.
Proof. intros H Hr. destruct (woken_at _ _ p H) as [?|[? _]]; congruence. Qed.

Lemma close_files_total s :
  (forall f s1, exists s2, fileclose p f s1 = Ret tt s2) -> state (procs s p) = RUNNING ->
  exists s', close_files p s = Ret tt s' /\ keeps s s' /\
    (forall i, i <> p -> maybe_woken (procs s i) (procs s' i)) /\
    exists o, procs s' p = set_ofile o (procs s p) /\ forall fd, 0 <= fd < NOFILE -> o fd = None.
Proof.
  intros Hcl Hr.
  assert (Hw : wp (close_files p) (fun _ s' => keeps s s' /\
    (forall i, i <> p -> maybe_woken (procs s i) (procs s' i)) /\
    exists o, procs s' p = set_ofile o (procs s p) /\ forall fd, 0 <= fd < NOFILE -> o fd = None) s);
    [|apply wp_ex in Hw as ([] & s' & E & H); eauto].
  apply (wp_for_range NOFILE _ (fun n s' => keeps s s' /\
    (forall i, i <> p -> maybe_woken (procs s i) (procs s' i)) /\
    exists o, procs s' p = set_ofile o (procs s p) /\ forall fd, 0 <= fd < n -> o fd = None)); [done| |].
  - split_and!; [done..|by left|]. exists (ofile (procs s p)). split; [by destruct (procs s p)|lia].
  - intros fd s1 Hfd ((K1 & K2 & K3) & Ho & o & Ep & Hn). unfold wp, kbind, get_proc, kget.
    destruct (ofile (procs s1 p) fd) as [f|] eqn:Ef.
    + destruct (Hcl f s1) as [s2 E2]. rewrite E2. apply fileclose_woken in E2 as HW.
      destruct HW as [(L1 & L2 & L3) HW']. unfold upd_proc, kupd. simpl.
      assert (Ep2 : procs s2 p = procs s1 p) by (apply woken_run; [by eapply fileclose_woken|by rewrite Ep]).
      split_and!; [unfold keeps; simpl; split_and!; congruence| |].
      * intros i Hi. rewrite upd_ne by done. eapply maybe_woken_trans; [by apply Ho|apply HW'].
      * eexists. rewrite upd_eq, Ep2, Ep. split; [reflexivity|]. simpl. intros j Hj. unfold upd.
        destruct (Z.eqb_spec j fd); [done|]. apply Hn. lia.
    + unfold kret. split_and!; [done..|]. exists o. split; [done|]. intros j Hj.
      destruct (Z.eq_dec j fd) as [->|]; [|apply Hn; lia]. by rewrite Ep in Ef.
Qed.

Lemma reparent_total s :
  state (procs s p) = RUNNING ->
  exists s', reparent p s = Ret tt s' /\ keeps s s' /\
    (forall i, exists w, maybe_woken (procs s i) w /\
       procs s' i = if bool_decide (i ∈ slots /\ parent (procs s i) = Some p)
                    then set_parent (initproc s) w else w) /\
    (forall c ip, c ∈ slots -> parent (procs s c) = Some p -> initproc s = Some ip -> ip <> p ->
       ip ∈ slots -> ~ waiting s' ip).
Proof.
  intros Hr.
  set (I := fun (pre : list Z) s' => keeps s s' /\
    (forall i, exists w, maybe_woken (procs s i) w /\
       procs s' i = if bool_decide (i ∈ pre /\ parent (procs s i) = Some p)
                    then set_parent (initproc s) w else w) /\
    (forall c ip, c ∈ pre -> parent (procs s c) = Some p -> initproc s = Some ip -> ip <> p ->
       ip ∈ slots -> ~ waiting s' ip)).
  assert (Hw : wp (reparent p) (fun _ s' => I slots s') s); [|apply wp_ex in Hw as ([] & s' & E & H); eauto].
  apply (wp_for_each slots _ I).
  { split_and!; [done..| |]; [|intros c ip Hc; by apply elem_of_nil in Hc].
    intros i. exists (procs s i). split; [by left|]. rewrite bool_decide_eq_false_2; [done|].
    intros [H _]. by apply elem_of_nil in H. }
  intros pre i post s1 Hl ((K1 & K2 & K3) & Ht & Hi). unfold wp, kbind, get_proc, kget.
  assert (Hni : i ∉ pre).
  { pose proof slots_NoDup as Hnd. rewrite Hl in Hnd. apply NoDup_app in Hnd as (_ & Hd & _).
    intros Hin. by apply (Hd i Hin); left. }
  assert (Hpar : parent (procs s1 i) = parent (procs s i)).
  { destruct (Ht i) as (w & Hw & ->). rewrite bool_decide_eq_false_2 by tauto.
    by destruct Hw as [->|[_ ->]]. }
  rewrite Hpar. case_bool_decide as Hp.
  2:{ unfold kret, I. split_and!; [done..| |].
      - intros j. destruct (Ht j) as (w & Hw & Ej). exists w. split; [done|]. rewrite Ej.
        erewrite bool_decide_ext; [done|]. rewrite elem_of_app, list_elem_of_singleton. naive_solver.
      - intros c ip [Hc|Hc%list_elem_of_singleton]%elem_of_app; [by eapply Hi|subst; congruence]. }
  unfold upd_proc, kupd. set (s2 := set_procs _ s1).
  destruct (wakeup_eq (Some p) (proc_chan (initproc s1)) s2) as (t & E & Et). rewrite E.
  assert (Hwk : woken s2 (set_procs t s2)) by (by eapply wakeup_woken).
  split_and!; [done..| |].
  - intros j. destruct (Ht j) as (w & Hw & Ej). pose proof (woken_at _ _ j Hwk) as Hj. simpl in Hj.
    unfold upd in Hj. destruct (Z.eqb_spec j i) as [->|Hji].
    + rewrite (bool_decide_eq_false_2 (i ∈ pre /\ _)) in Ej by tauto.
      rewrite bool_decide_eq_true_2 by (split; [set_solver|done]). rewrite Ej, K2 in Hj. simpl.
      destruct Hj as [->|[Hs ->]]; [by exists w|]. exists (set_state RUNNABLE w). split; [|done].
      eapply maybe_woken_trans; [exact Hw|]. by right.
    + rewrite (bool_decide_ext (j ∈ pre ++ [i] /\ _) (j ∈ pre /\ parent (procs s j) = Some p)) by set_solver.
      rewrite Ej in Hj. simpl. destruct Hj as [->|[Hs ->]]; [by exists w|].
      exists (set_state RUNNABLE w). split; [|by case_bool_decide].
      eapply maybe_woken_trans; [exact Hw|]. right. split; [|done]. by case_bool_decide.
  - intros c ip _ _ Hip Hne Hs [Hsl Hch]. simpl in Hsl, Hch. rewrite K2, Hip in Et. simpl in Et.
    rewrite (Et ip), (bool_decide_eq_true_2 (ip ∈ slots)) in Hsl, Hch by done. unfold wake in Hsl, Hch.
    rewrite (bool_decide_eq_false_2 (Some ip = Some p)) in Hsl, Hch by congruence.
    revert Hsl Hch. case_bool_decide as A; [case_bool_decide as B|]; simpl; congruence.
Qed.
End exit.


(** A running child of the first process, which waits for it. *)
Definition family : kernel unit :=
  Kernel empty4 (fun i => if i =? 0 then set_chan (ChanProc 0) (slot_in SLEEPING 1 0)
                          else if i =? 1 then set_parent (Some 0) (slot_in RUNNING 2 0) else unused)
    3 (Some 0) (fun c => if c =? 0 then Some 1 else None) 0 0 0 tt.

