(* ===== verification/Sleeplock.v ===== *)
(** * kernel/sleeplock.c: long-term locks

    A sleeplock is taken and released under its spinlock, so one pass of
    [acquiresleep]'s loop, which takes the lock or goes to sleep, is one
    step, and so is [releasesleep].  The theorem is about every interleaving
    of such steps with whatever else the processes do. *)

From S2P Require Import Prelude Memory Kalloc Vm Proc.

Record sleeplock := Sleeplock { slocked : Z; spid : Z }.

(** The fields under the spinlock: the tail of [acquiresleep], [None] when
    the loop has to sleep. *)
Definition take_sleep (n : Z) (l : sleeplock) : option sleeplock :=
  if negb (slocked l =? 0) then None else Some (Sleeplock 1 n).
Definition drop_sleep : sleeplock := Sleeplock 0 0.
Definition held_by (n : Z) (l : sleeplock) : bool := negb (slocked l =? 0) && (spid l =? n).

(** Here the state beside the processes is the locks, by address. *)
Definition lock_kernel : Type := kernel (Z -> sleeplock).

Definition set_sleeplock (lk : Z) (l : sleeplock) : M lock_kernel unit :=
  kupd (fun s => set_files (upd (files s) lk l) s).

Definition initsleeplock (lk : Z) : M lock_kernel unit := set_sleeplock lk (Sleeplock 0 0).

(** One pass by process [p]: [true] when it returns with the lock, [false]
    when it has gone to sleep and will run again from [sleep_return]. *)
Definition acquiresleep (p lk : Z) : M lock_kernel bool :=
  let! q := get_proc p in
  let! l := kget (fun s => files s lk) in
  match take_sleep (pid q) l with
  | Some l' => do! set_sleeplock lk l'; kret true
  | None => do! sleep p (ChanLock lk); kret false
  end.

Definition releasesleep (p lk : Z) : M lock_kernel unit :=
  do! set_sleeplock lk drop_sleep;
  wakeup (Some p) (ChanLock lk).

Definition holdingsleep (p lk : Z) : M lock_kernel bool :=
  let! l := kget (fun s => files s lk) in
  let! q := get_proc p in
  kret (held_by (pid q) l).

(** ** Interleavings

    [owns] are the pairs of a process and a lock it has acquired and not
    begun to release. *)

Record lconfig := LConfig { lk_kernel : lock_kernel; owns : Z -> Z -> bool }.

Definition set_owns (o : Z -> Z -> bool) (p lk : Z) (b : bool) : Z -> Z -> bool :=
  fun q l => if (q =? p) && (l =? lk) then b else o q l.

(** [asleep s lk i]: process [i] sleeps on lock [lk]. *)
Definition asleep (s : lock_kernel) (lk i : Z) : Prop :=
  state (procs s i) = SLEEPING /\ chan (procs s i) = ChanLock lk.

(** Other activity: the processes do as they please, but touch no lock and
    go to sleep on none except through [acquiresleep]. *)
Definition elsewhere (s s' : lock_kernel) : Prop :=
  (forall lk, files s' lk = files s lk) /\ forall lk i, asleep s' lk i -> asleep s lk i.

Inductive lstep : lconfig -> lconfig -> Prop :=
| l_acquire p lk s s' o b :
    p ∈ slots -> state (procs s p) = RUNNING -> acquiresleep p lk s = Ret b s' ->
    lstep (LConfig s o) (LConfig s' (if b then set_owns o p lk true else o))
| l_release p lk s s' o :
    p ∈ slots -> state (procs s p) = RUNNING -> o p lk = true -> releasesleep p lk s = Ret tt s' ->
    lstep (LConfig s o) (LConfig s' (set_owns o p lk false))
| l_other s s' o : elsewhere s s' -> lstep (LConfig s o) (LConfig s' o).

(** All locks initialised, nobody asleep on one. *)
Definition lstart (c : lconfig) : Prop :=
  (forall lk, files (lk_kernel c) lk = Sleeplock 0 0) /\ (forall lk i, ~ asleep (lk_kernel c) lk i) /\
  forall p lk, owns c p lk = false.

Record lock_ok (c : lconfig) : Prop := {
  lo_excl : forall p q lk, owns c p lk = true -> owns c q lk = true -> p = q;
  lo_locked : forall lk, (exists p, owns c p lk = true) <-> slocked (files (lk_kernel c) lk) <> 0;
  lo_wake : forall lk i, i ∈ slots -> asleep (lk_kernel c) lk i -> slocked (files (lk_kernel c) lk) <> 0
}.

Lemma take_sleep_some n l l' : take_sleep n l = Some l' -> slocked l = 0 /\ l' = Sleeplock 1 n.
Proof. unfold take_sleep. destruct (Z.eqb_spec (slocked l) 0); simpl; naive_solver. Qed.

Lemma take_sleep_none n l : take_sleep n l = None -> slocked l <> 0.
Proof. unfold take_sleep. destruct (Z.eqb_spec (slocked l) 0); simpl; naive_solver. Qed.

Lemma lock_ok_step c c' : lock_ok c -> lstep c c' -> lock_ok c'.
Proof.
  intros [Hx Hl Hw] Hs. destruct Hs as [p lk s s' o b Hp Hr E|p lk s s' o Hp Hr Ho E|s s' o [Hf Ha]]; simpl in *.
  - unfold acquiresleep in E. apply kbind_inv in E as (q & s0 & E0 & E). injection E0 as <- <-.
    apply kbind_inv in E as (l & s0 & E0 & E). injection E0 as <- <-.
    destruct (take_sleep _ _) as [l'|] eqn:Et.
    + apply take_sleep_some in Et as [Hfree ->]. unfold set_sleeplock in E. kinv. simpl.
      assert (Hno : forall q, o q lk = true -> False) by (intros q Hq; apply (proj1 (Hl lk)); [by exists q|done]).
      split; simpl; unfold set_owns.
      * intros q1 q2 l. destruct (Z.eqb_spec l lk) as [->|]; rewrite ?andb_false_r; [|apply Hx].
        rewrite !andb_true_r. destruct (Z.eqb_spec q1 p), (Z.eqb_spec q2 p); subst; intros; try done; exfalso; eauto.
      * intros l. unfold upd. destruct (Z.eqb_spec l lk) as [->|]; simpl.
        -- split; [intros _; lia|]. intros _. exists p. by rewrite Z.eqb_refl.
        -- setoid_rewrite andb_false_r. apply Hl.
      * intros l i Hi Has. unfold upd. destruct (Z.eqb_spec l lk) as [->|]; [simpl; lia|]. by apply (Hw l i Hi).
    + apply take_sleep_none in Et. apply kbind_inv in E as ([] & s1 & E & E1). injection E1 as <- <-.
      unfold sleep in E. apply kbind_inv in E as ([] & s2 & E2 & E). apply kbind_inv in E as ([] & s3 & E3 & E).
      apply sched_inv in E as ->. unfold upd_proc, kupd in E2, E3. injection E2 as <-. injection E3 as <-.
      split; simpl; [done|done|]. intros l i Hi [Hs Hc]. simpl in Hs, Hc.
      destruct (Z.eq_dec i p) as [->|Hne].
      * rewrite !upd_eq in Hc. simpl in Hc. by injection Hc as <-.
      * rewrite !upd_ne in Hs, Hc by done. by apply (Hw l i Hi).
  - unfold releasesleep, set_sleeplock in E. kinv. destruct (wakeup_eq (Some p) (ChanLock lk) (set_files (upd (files s) lk drop_sleep) s)) as (t & E1 & Ht).
    rewrite E1 in E. injection E as <-. split; simpl; unfold set_owns.
    + intros q1 q2 l. destruct (_ && _), (_ && _); try done. apply Hx.
    + intros l. unfold upd. destruct (Z.eqb_spec l lk) as [->|Hne]; simpl.
      * split; [|done]. intros [q Hq]. rewrite andb_true_r in Hq. destruct (Z.eqb_spec q p); [done|].
        by destruct n; eapply Hx.
      * setoid_rewrite andb_false_r. apply Hl.
    + intros l i Hi [Hs Hc]. simpl in *. rewrite Ht, bool_decide_eq_true_2 in Hs, Hc by done. unfold wake in Hs, Hc.
      destruct (decide (Some i = Some p)) as [[= ->]|Hne].
      { rewrite bool_decide_eq_true_2 in Hs by done. simpl in Hs. congruence. }
      rewrite bool_decide_eq_false_2 in Hs, Hc by done. simpl in Hs, Hc. revert Hs Hc.
      case_bool_decide as A; [case_bool_decide as B|]; simpl; intros Hs Hc; try congruence.
      unfold upd. destruct (Z.eqb_spec l lk) as [->|]; [congruence|]. by apply (Hw l i Hi).
  - split; simpl; [done| |].
    + intros lk. rewrite Hf. apply Hl.
    + intros lk i Hi Has. rewrite Hf. by apply (Hw lk i Hi), Ha.
Qed.

(** C31. Sleeplocks exclude and lose no wakeup: in every interleaving, two
    processes never both hold a lock, a lock is marked taken exactly while some
    process holds it, and no process is asleep on a lock that is free. *)
Theorem sleeplock_excludes c0 c :
  lstart c0 -> rtc lstep c0 c ->
  (forall p q lk, owns c p lk = true -> owns c q lk = true -> p = q) /\
  (forall lk, (exists p, owns c p lk = true) <-> slocked (files (lk_kernel c) lk) <> 0) /\
  (forall lk i, i ∈ slots -> slocked (files (lk_kernel c) lk) = 0 -> ~ asleep (lk_kernel c) lk i).
Proof.
  intros (Hf & Ha & Ho) Hs. assert (Hok : lock_ok c0).
  { split.
    - intros p q lk. by rewrite Ho.
    - intros lk. rewrite Hf. split; [|done]. intros [p Hp]. by rewrite Ho in Hp.
    - intros lk i _ Has. by destruct (Ha lk i). }
  assert (Hok' : lock_ok c) by (clear -Hs Hok; induction Hs; eauto using lock_ok_step).
  destruct Hok' as [Hx Hl Hw]. split_and!; [done..|]. intros lk i Hi Hz Has. by apply (Hw lk i).
Qed.

(** Process 0 takes the lock; process 1 then sleeps on it. *)
Definition two_procs : lock_kernel :=
  Kernel empty4 (fun i => Proc RUNNING NoChan 0 0 (i + 1) None 0 0 0 0 (Context 0 0 (fun _ => 0)) (fun _ => None)
    None (fun _ => 0) 0 0 0) 65 None (fun _ => None) 0 0 0 (fun _ => Sleeplock 0 0).

Lemma sleeplock_excludes_witness :
  exists c, rtc lstep (LConfig two_procs (fun _ _ => false)) c /\ owns c 0 5 = true /\
    asleep (lk_kernel c) 5 1 /\ slocked (files (lk_kernel c) 5) <> 0.
Proof.
  destruct (acquiresleep 0 5 two_procs) as [b s| |] eqn:E; [|discriminate E..].
  destruct (acquiresleep 1 5 s) as [b' s'| |] eqn:E'; [|injection E as <- <-; discriminate E'..].
  assert (b = true /\ b' = false /\ asleep s' 5 1) as (-> & -> & Has).
  { injection E as <- <-. injection E' as <- <-. by split_and!. }
  assert (Hst : rtc lstep (LConfig two_procs (fun _ _ => false)) (LConfig s' (set_owns (fun _ _ => false) 0 5 true))).
  { eapply rtc_l; [eapply (l_acquire 0 5 _ s _ true); [by apply slots_spec|done|exact E]|]. simpl.
    apply rtc_once. eapply (l_acquire 1 5 s s' _ false); [by apply slots_spec| |exact E'].
    by injection E as <-. }
  assert (H0 : lstart (LConfig two_procs (fun _ _ => false))).
  { split_and!; [done| |done]. intros lk i [H _]. discriminate H. }
  eexists. split_and!; [exact Hst|done|exact Has|].
  destruct (sleeplock_excludes _ _ H0 Hst) as (_ & Hl & _). apply (proj1 (Hl 5)). by exists 0.
Defined.
