(* ===== verification/Pipe.v ===== *)
(** * kernel/pipe.c: pipes

    A pipe is a ring buffer with 32-bit counters of the bytes written and
    read, which wrap around.  [piperead] and [pipewrite] run under the
    pipe's lock until they return or sleep; such a pass is one step, and a
    sleeper resumes with another pass.  The file layer's state holds the
    pipes by the address of their page. *)

From S2P Require Import Prelude Memory StringC Kalloc Vm Demo Proc ProcInv.

Definition PIPESIZE : Z := 512.

Record pipe := Pipe {
  pdata : Z -> Z;               (* char data[PIPESIZE] *)
  nread : Z;                    (* uint nread *)
  nwrite : Z;                   (* uint nwrite *)
  readopen : Z;
  writeopen : Z
}.

(** A state with pipes in it. *)
Class PipeStore (F : Type) := {
  pipes : F -> Z -> pipe;
  put_pipe : Z -> pipe -> F -> F;
  pipes_put a b pi f : pipes (put_pipe a pi f) b = if b =? a then pi else pipes f b
}.

(** ** Operations *)

Section pipe.
Context {F : Type} `{!PipeStore F}.
(** [end], and the address of [ch] on the process's kernel stack. *)
Variables (kend ch_at : Z).
#[local] Abbreviation K := (M (kernel F)).

Definition get_pipe (a : Z) : K pipe := kget (fun s => pipes (files s) a).
Definition upd_pipe (a : Z) (f : pipe -> pipe) : K unit :=
  kupd (fun s => set_files (put_pipe a (f (pipes (files s) a)) (files s)) s).

(** The fields [pipealloc] sets in a new pipe's page. *)
Definition init_pipe (pi : pipe) : pipe := Pipe (pdata pi) 0 0 1 1.

Definition pipeclose (p a : Z) (writable : bool) : K unit :=
  do! (if writable then
         do! upd_pipe a (fun pi => Pipe (pdata pi) (nread pi) (nwrite pi) (readopen pi) 0);
         wakeup (Some p) (ChanPipeRead a)
       else
         do! upd_pipe a (fun pi => Pipe (pdata pi) (nread pi) (nwrite pi) 0 (writeopen pi));
         wakeup (Some p) (ChanPipeWrite a));
  let! pi := get_pipe a in
  if (readopen pi =? 0) && (writeopen pi =? 0) then in_mem (kfree kend a) else kret tt.

(** [copyin(pr->pagetable, &ch, va, 1)], [None] for -1. *)
Definition fetch_byte (p va : Z) : K (option Z) :=
  let! q := get_proc p in
  let! r := in_mem (copyin kend (sz q) (pgtbl q) ch_at va 1) in
  if r =? -1 then kret None else
  let! m := kget (fun s => phys (kmem s)) in
  kret (Some (m ch_at)).

(** [copyout(pr->pagetable, va, &ch, 1)]. *)
Definition store_byte (p va ch : Z) : K Z :=
  let! q := get_proc p in
  do! in_mem (kupd (set_phys (fun m => upd m ch_at (u8 ch))));
  in_mem (copyout kend (sz q) (pgtbl q) va ch_at 1).

Definition push_byte (ch : Z) (pi : pipe) : pipe :=
  Pipe (upd (pdata pi) (nwrite pi mod PIPESIZE) ch) (nread pi) (u32 (nwrite pi + 1)) (readopen pi) (writeopen pi).

Definition pop_byte (pi : pipe) : pipe :=
  Pipe (pdata pi) (u32 (nread pi + 1)) (nwrite pi) (readopen pi) (writeopen pi).

(** A pass of [pipewrite] from index [i]: [inl r] when it returns [r],
    [inr i'] when it sleeps, to go on from [i']; with it, the bytes the pass
    moved.  [fuel] bounds the iterations; each advances [i]. *)
Fixpoint pipewrite_loop (fuel : nat) (p a addr n i : Z) : K ((Z + Z) * list Z) :=
  if i <? n then
    match fuel with
    | O => khang
    | S f =>
        let! pi := get_pipe a in
        let! k := get_killed p in
        if (readopen pi =? 0) || negb (k =? 0) then kret (inl (-1), []) else
        if nwrite pi =? u32 (nread pi + PIPESIZE) then
          do! wakeup (Some p) (ChanPipeRead a);
          do! sleep p (ChanPipeWrite a);
          kret (inr i, [])
        else
          let! o := fetch_byte p (u64 (addr + i)) in
          match o with
          | None => do! wakeup (Some p) (ChanPipeRead a); kret (inl i, [])
          | Some ch =>
              do! upd_pipe a (push_byte ch);
              let! r := pipewrite_loop f p a addr n (i + 1) in
              kret (fst r, ch :: snd r)
          end
    end
  else do! wakeup (Some p) (ChanPipeRead a); kret (inl i, []).

Definition pipewrite_pass (p a addr n i : Z) : K ((Z + Z) * list Z) :=
  pipewrite_loop (Z.to_nat (n - i)) p a addr n i.

(** The call as system calls see it. *)
Definition pipewrite (p a addr n i : Z) : K (Z + Z) :=
  let! r := pipewrite_pass p a addr n i in kret (fst r).

(** The copy loop of [piperead], [i] bytes done, [k] to go. *)
Fixpoint piperead_loop (k : nat) (p a addr i : Z) : K (Z * list Z) :=
  match k with
  | O => kret (i, [])
  | S k' =>
      let! pi := get_pipe a in
      if nread pi =? nwrite pi then kret (i, []) else
      let ch := pdata pi (nread pi mod PIPESIZE) in
      let! r := store_byte p (u64 (addr + i)) ch in
      if r =? -1 then kret (if i =? 0 then -1 else i, []) else
      do! upd_pipe a pop_byte;
      let! r' := piperead_loop k' p a addr (i + 1) in
      kret (fst r', ch :: snd r')
  end.

(** A pass of [piperead]: the value returned, [None] when it sleeps, and
    the bytes it moved. *)
Definition piperead_pass (p a addr n : Z) : K (option Z * list Z) :=
  let! pi := get_pipe a in
  if (nread pi =? nwrite pi) && negb (writeopen pi =? 0) then
    let! k := get_killed p in
    if negb (k =? 0) then kret (Some (-1), []) else
    do! sleep p (ChanPipeRead a);
    kret (None, [])
  else
    let! r := piperead_loop (Z.to_nat n) p a addr 0 in
    do! wakeup (Some p) (ChanPipeWrite a);
    kret (Some (fst r), snd r).

Definition piperead (p a addr n : Z) : K (option Z) :=
  let! r := piperead_pass p a addr n in kret (fst r).

End pipe.

(** ** The abstract queue *)

(** The bytes between the two counters, oldest first. *)
Definition pipe_len (pi : pipe) : Z := u32 (nwrite pi - nread pi).
Definition pqueue (pi : pipe) : list Z :=
  (fun k => pdata pi ((nread pi + k) mod PIPESIZE)) <$> seqZ 0 (pipe_len pi).

Definition pipe_ok (pi : pipe) : Prop :=
  0 <= nread pi < 2 ^ 32 /\ 0 <= nwrite pi < 2 ^ 32 /\ pipe_len pi <= PIPESIZE.

Lemma length_pqueue pi : Z.of_nat (length (pqueue pi)) = pipe_len pi.
Proof. unfold pqueue. rewrite length_fmap, length_seqZ. pose proof (u32_range (nwrite pi - nread pi)). unfold pipe_len in *. lia. Qed.

Lemma pipe_empty pi : pipe_ok pi -> nread pi = nwrite pi <-> pqueue pi = [].
Proof.
  intros (H1 & H2 & _). pose proof (length_pqueue pi) as Hl. unfold pipe_len in *. split.
  - intros E. rewrite E, Z.sub_diag in Hl. change (u32 0) with 0 in Hl. destruct (pqueue pi); [done|simpl in Hl; lia].
  - intros E. rewrite E in Hl. simpl in Hl. unfold u32 in Hl. Z.to_euclidean_division_equations. lia.
Qed.

Lemma pipe_full pi : pipe_ok pi -> nwrite pi = u32 (nread pi + PIPESIZE) <-> pipe_len pi = PIPESIZE.
Proof.
  intros (H1 & H2 & _). unfold pipe_len, PIPESIZE, u32. split; intros; Z.to_euclidean_division_equations; lia.
Qed.

Lemma push_byte_queue ch pi :
  pipe_ok pi -> pipe_len pi < PIPESIZE ->
  pipe_ok (push_byte ch pi) /\ pqueue (push_byte ch pi) = pqueue pi ++ [ch].
Proof.
  intros (H1 & H2 & H3) Hlt. pose proof (u32_range (nwrite pi - nread pi)) as Hu. fold (pipe_len pi) in Hu.
  assert (Hlen : pipe_len (push_byte ch pi) = pipe_len pi + 1).
  { unfold pipe_len, push_byte, PIPESIZE, u32 in *. simpl. Z.to_euclidean_division_equations; lia. }
  split.
  - split_and!; simpl; try apply u32_range; try lia.
  - unfold pqueue at 1. rewrite Hlen. rewrite seqZ_app by lia. rewrite fmap_app. f_equal.
    + unfold pqueue. apply list_fmap_ext. intros j k Hk. apply lookup_seqZ in Hk as [-> Hk]. simpl.
      apply upd_ne. unfold pipe_len, PIPESIZE, u32 in *. Z.to_euclidean_division_equations; lia.
    + rewrite Z.add_0_l. change (seqZ (pipe_len pi) 1) with [pipe_len pi]. simpl. f_equal.
      replace ((nread pi + pipe_len pi) mod PIPESIZE) with (nwrite pi mod PIPESIZE); [apply upd_eq|].
      unfold pipe_len, PIPESIZE, u32 in *. Z.to_euclidean_division_equations; lia.
Qed.

Lemma pop_byte_queue pi ch q :
  pipe_ok pi -> pqueue pi = ch :: q ->
  pipe_ok (pop_byte pi) /\ pqueue (pop_byte pi) = q /\ ch = pdata pi (nread pi mod PIPESIZE).
Proof.
  intros (H1 & H2 & H3) Hq. pose proof (length_pqueue pi) as Hl. rewrite Hq in Hl. simpl in Hl.
  assert (Hlen : pipe_len (pop_byte pi) = pipe_len pi - 1).
  { unfold pipe_len, pop_byte, PIPESIZE, u32 in *. simpl. Z.to_euclidean_division_equations; lia. }
  unfold pqueue in Hq. rewrite seqZ_cons, fmap_cons in Hq by lia. injection Hq as Hc Hq. split_and!.
  - split_and!; simpl; try apply u32_range; try lia.
  - rewrite <- Hq. unfold pqueue. rewrite Hlen.
    replace (Z.pred (pipe_len pi)) with (pipe_len pi - 1) by lia.
    change (Z.succ 0) with (1 + 0). rewrite <- (fmap_add_seqZ 1 0), <- list_fmap_compose. apply list_fmap_ext. intros j k Hk.
    apply lookup_seqZ in Hk as [-> Hk]. simpl. f_equal. unfold PIPESIZE, u32. Z.to_euclidean_division_equations; lia.
  - rewrite <- Hc. by rewrite Z.add_0_r.
Qed.

(** ** Readers and writers

    The states of one pipe [a] with the bytes written to and read from
    it since it was created. *)

Section fifo.
Context {F : Type} `{!PipeStore F}.
Variables (kend ch_at a : Z).
Implicit Types s : kernel F.

Record pconfig := PConfig { pk : kernel F; written : list Z; delivered : list Z }.

Definition the_pipe s : pipe := pipes (files s) a.
Definition asleep_on (ch : channel) s (i : Z) : Prop :=
  state (procs s i) = SLEEPING /\ chan (procs s i) = ch.

(** What happens elsewhere: no change to the pipe, and nobody goes to sleep
    on it except in [piperead] and [pipewrite]. *)
Definition aside s s' : Prop :=
  the_pipe s' = the_pipe s /\
  forall i, (asleep_on (ChanPipeRead a) s' i -> asleep_on (ChanPipeRead a) s i) /\
            (asleep_on (ChanPipeWrite a) s' i -> asleep_on (ChanPipeWrite a) s i).

Definition running s (p : Z) : Prop := p ∈ slots /\ state (procs s p) = RUNNING.

Inductive pstep : pconfig -> pconfig -> Prop :=
| p_write p addr n i r bs s s' w d : running s p ->
    pipewrite_pass kend ch_at p a addr n i s = Ret (r, bs) s' ->
    pstep (PConfig s w d) (PConfig s' (w ++ bs) d)
| p_read p addr n o bs s s' w d : running s p ->
    piperead_pass kend ch_at p a addr n s = Ret (o, bs) s' ->
    pstep (PConfig s w d) (PConfig s' w (d ++ bs))
| p_close p wr s s' w d : running s p ->
    pipeclose kend p a wr s = Ret tt s' -> pstep (PConfig s w d) (PConfig s' w d)
| p_aside s s' w d : aside s s' -> pstep (PConfig s w d) (PConfig s' w d).

(** [pipealloc] has just made the pipe. *)
Definition pstart (c : pconfig) : Prop :=
  written c = [] /\ delivered c = [] /\ (exists d, the_pipe (pk c) = init_pipe d) /\
  forall i, ~ asleep_on (ChanPipeRead a) (pk c) i /\ ~ asleep_on (ChanPipeWrite a) (pk c) i.

Record pipe_inv (c : pconfig) : Prop := {
  pv_ok : pipe_ok (the_pipe (pk c));
  pv_fifo : written c = delivered c ++ pqueue (the_pipe (pk c));
  pv_reader : forall i, i ∈ slots -> asleep_on (ChanPipeRead a) (pk c) i ->
                pqueue (the_pipe (pk c)) = [] /\ writeopen (the_pipe (pk c)) <> 0;
  pv_writer : forall i, i ∈ slots -> asleep_on (ChanPipeWrite a) (pk c) i ->
                pipe_len (the_pipe (pk c)) = PIPESIZE /\ readopen (the_pipe (pk c)) <> 0
}.

(** What the pieces of the two calls do to the pipe and to the sleepers. *)

Lemma fetch_byte_frame p va s o s' :
  fetch_byte kend ch_at p va s = Ret o s' -> procs s' = procs s /\ files s' = files s.
Proof.
  unfold fetch_byte. intros H. apply kbind_inv in H as (q & s0 & E0 & H). injection E0 as <- <-.
  apply kbind_inv in H as (r & s1 & E1 & H). apply in_mem_inv in E1 as (m & _ & ->).
  destruct (r =? -1); kinv; done.
Qed.

Lemma store_byte_frame p va ch s r s' :
  store_byte kend ch_at p va ch s = Ret r s' -> procs s' = procs s /\ files s' = files s.
Proof.
  unfold store_byte. intros H. apply kbind_inv in H as (q & s0 & E0 & H). injection E0 as <- <-.
  apply kbind_inv in H as ([] & s1 & E1 & H). apply in_mem_inv in E1 as (m & _ & ->).
  apply in_mem_inv in H as (m1 & _ & ->). done.
Qed.

Lemma wakeup_pipe p ch s s' :
  wakeup (Some p) ch s = Ret tt s' ->
  files s' = files s /\
  (forall i, i ∈ slots -> i <> p -> ~ asleep_on ch s' i) /\
  (forall ch' i, asleep_on ch' s' i -> asleep_on ch' s i).
Proof.
  destruct (wakeup_eq (Some p) ch s) as (t & E & Ht). rewrite E. intros [= <-].
  unfold asleep_on. simpl. split_and!; [done| |].
  - intros i Hi Hp. rewrite Ht, bool_decide_eq_true_2 by done. unfold wake.
    rewrite bool_decide_eq_false_2 by congruence.
    case_bool_decide; [case_bool_decide|]; simpl; naive_solver.
  - intros ch' i. rewrite Ht. case_bool_decide; [|done]. unfold wake. case_bool_decide; [done|].
    case_bool_decide; [|done]. case_bool_decide; [|done]. simpl. naive_solver.
Qed.

Lemma sleep_pipe p ch s s' :
  sleep p ch s = Ret tt s' ->
  files s' = files s /\ forall ch' i, asleep_on ch' s' i -> (i = p /\ ch' = ch) \/ asleep_on ch' s i.
Proof.
  unfold sleep. intros H. apply kbind_inv in H as ([] & s1 & E1 & H). apply kbind_inv in H as ([] & s2 & E2 & H).
  apply sched_inv in H as ->. unfold upd_proc, kupd in E1, E2. injection E1 as <-. injection E2 as <-.
  split; [done|]. unfold asleep_on. simpl. intros ch' i. destruct (Z.eq_dec i p) as [->|Hne].
  - rewrite !upd_eq. simpl. intros [_ <-]. by left.
  - rewrite !upd_ne by done. by right.
Qed.

Definition readers_awake s : Prop := forall i, i ∈ slots -> ~ asleep_on (ChanPipeRead a) s i.
Definition writers_ok s : Prop :=
  forall i, i ∈ slots -> asleep_on (ChanPipeWrite a) s i ->
    pipe_len (the_pipe s) = PIPESIZE /\ readopen (the_pipe s) <> 0.
Definition readers_ok s : Prop :=
  forall i, i ∈ slots -> asleep_on (ChanPipeRead a) s i ->
    pqueue (the_pipe s) = [] /\ writeopen (the_pipe s) <> 0.

Lemma running_awake ch s p : running s p -> ~ asleep_on ch s p.
Proof. intros [_ H] [H' _]. congruence. Qed.

Lemma wake_readers p s s' :
  running s p -> writers_ok s -> wakeup (Some p) (ChanPipeRead a) s = Ret tt s' ->
  the_pipe s' = the_pipe s /\ readers_awake s' /\ writers_ok s' /\ running s' p.
Proof.
  intros Hr HW E. pose proof E as (Hf & Hn & Hs)%wakeup_pipe. unfold the_pipe in *. split_and!.
  - by rewrite Hf.
  - intros i Hi Ha. destruct (Z.eq_dec i p) as [->|Hne]; [|by apply (Hn i)].
    eapply running_awake; [done|by apply Hs].
  - intros i Hi Ha. unfold the_pipe. rewrite Hf. apply (HW i Hi). by apply Hs.
  - split; [apply Hr|]. destruct (wakeup_woken _ _ _ _ E) as [_ Hw]. destruct (Hw p) as [->|[Hsl _]]; [apply Hr|].
    destruct Hr. congruence.
Qed.

Lemma get_killed_eq p s : get_killed p s = Ret (killed (procs s p)) s.
Proof. done. Qed.

Lemma put_pipe_eq s pi : the_pipe (set_files (put_pipe a pi (files s)) s) = pi.
Proof. unfold the_pipe. simpl. by rewrite pipes_put, Z.eqb_refl. Qed.

Lemma write_loop fuel p addr n i s r bs s' :
  running s p -> pipe_ok (the_pipe s) -> writers_ok s ->
  pipewrite_loop kend ch_at fuel p a addr n i s = Ret (r, bs) s' ->
  pipe_ok (the_pipe s') /\ pqueue (the_pipe s') = pqueue (the_pipe s) ++ bs /\
  writeopen (the_pipe s') = writeopen (the_pipe s) /\ writers_ok s' /\
  (readers_awake s' \/ (s' = s /\ bs = [] /\ (readopen (the_pipe s) = 0 \/ killed (procs s p) <> 0))).
Proof.
  revert i s r bs. induction fuel as [|fuel IH]; intros i s r bs Hr Hok HW; simpl.
  { destruct (i <? n); [done|]. intros H. apply kbind_inv in H as ([] & s1 & E1 & H). injection H as <- <- <-.
    apply wake_readers in E1 as (-> & ? & ? & _); [|done..]. rewrite app_nil_r. auto 6. }
  destruct (i <? n).
  2:{ intros H. apply kbind_inv in H as ([] & s1 & E1 & H). injection H as <- <- <-.
      apply wake_readers in E1 as (-> & ? & ? & _); [|done..]. rewrite app_nil_r. auto 6. }
  intros H. apply kbind_inv in H as (pi & s0 & E0 & H). injection E0 as <- <-.
  fold (the_pipe s) in H. apply kbind_inv in H as (k & s0 & E0 & H).
  rewrite get_killed_eq in E0. injection E0 as <- <-.
  destruct (Z.eqb_spec (readopen (the_pipe s)) 0) as [Hro|Hro]; simpl in H.
  { injection H as <- <- <-. rewrite app_nil_r. split_and!; auto 6. }
  destruct (Z.eqb_spec (killed (procs s p)) 0) as [Hk|Hk]; simpl in H.
  2:{ injection H as <- <- <-. rewrite app_nil_r. split_and!; auto 6. }
  destruct (Z.eqb_spec (nwrite (the_pipe s)) (u32 (nread (the_pipe s) + PIPESIZE))) as [Hfull|Hfull].
  { apply (pipe_full _ Hok) in Hfull. apply kbind_inv in H as ([] & s1 & E1 & H).
    apply wake_readers in E1 as (Hp1 & Ha1 & HW1 & Hr1); [|done..].
    apply kbind_inv in H as ([] & s2 & E2 & H). injection H as <- <- <-. apply sleep_pipe in E2 as (Hf2 & Hs2).
    assert (Hp2 : the_pipe s2 = the_pipe s) by (unfold the_pipe in *; congruence).
    rewrite Hp2, app_nil_r. split_and!; [done..| |left].
    - intros j Hj [[-> _]|Hj']%Hs2; [by rewrite Hp2|]. rewrite Hp2, <- Hp1. by apply (HW1 j).
    - intros j Hj [[-> Hc]|Hj']%Hs2; [discriminate Hc|by apply (Ha1 j)]. }
  assert (Hlt : pipe_len (the_pipe s) < PIPESIZE).
  { destruct (Z.eq_dec (pipe_len (the_pipe s)) PIPESIZE) as [E|E]; [by apply (pipe_full _ Hok) in E|].
    destruct Hok as (_ & _ & ?). lia. }
  apply kbind_inv in H as (o & s1 & E1 & H). apply fetch_byte_frame in E1 as [Ep1 Ef1].
  assert (Hr1 : running s1 p) by (unfold running; by rewrite Ep1).
  assert (Hp1 : the_pipe s1 = the_pipe s) by (unfold the_pipe; by rewrite Ef1).
  assert (HW1 : writers_ok s1) by (unfold writers_ok, asleep_on; by rewrite Ep1, Hp1).
  destruct o as [ch|].
  2:{ apply kbind_inv in H as ([] & s2 & E2 & H). injection H as <- <- <-.
      apply wake_readers in E2 as (-> & ? & ? & _); [|done..]. rewrite Hp1, app_nil_r. auto 6. }
  apply kbind_inv in H as ([] & s2 & E2 & H). unfold upd_pipe, kupd in E2. injection E2 as <-.
  fold (the_pipe s1) in H. rewrite Hp1 in H. set (s2 := set_files _ s1) in H.
  assert (Hp2 : the_pipe s2 = push_byte ch (the_pipe s)) by apply put_pipe_eq.
  apply kbind_inv in H as ([r' bs'] & s3 & E3 & H). injection H as <- <- <-.
  destruct (push_byte_queue ch _ Hok Hlt) as [Hok2 Hq2].
  apply IH in E3 as (A1 & A2 & A3 & A4 & A5); [|done|by rewrite Hp2|].
  - rewrite Hp2, Hq2, <- app_assoc in *. split_and!; [done..|]. left.
    destruct A5 as [?|(_ & _ & [Hc|Hc])]; [done|done|]. simpl in Hc. by rewrite Ep1 in Hc.
  - intros j Hj Hj'. unfold asleep_on in Hj'. simpl in Hj'. rewrite Ep1 in Hj'. destruct (HW j Hj Hj'). lia.
Qed.

Lemma read_loop k p addr i s r bs s' :
  pipe_ok (the_pipe s) -> piperead_loop kend ch_at k p a addr i s = Ret (r, bs) s' ->
  pipe_ok (the_pipe s') /\ pqueue (the_pipe s) = bs ++ pqueue (the_pipe s') /\
  readopen (the_pipe s') = readopen (the_pipe s) /\ writeopen (the_pipe s') = writeopen (the_pipe s) /\
  procs s' = procs s.
Proof.
  revert i s r bs. induction k as [|k IH]; intros i s r bs Hok H; simpl in H.
  { injection H as <- <- <-. auto. }
  apply kbind_inv in H as (pi & s0 & E0 & H). injection E0 as <- <-. fold (the_pipe s) in H.
  destruct (Z.eqb_spec (nread (the_pipe s)) (nwrite (the_pipe s))) as [He|He].
  { injection H as <- <- <-. auto. }
  apply kbind_inv in H as (v & s1 & E1 & H). apply store_byte_frame in E1 as [Ep1 Ef1].
  assert (Hp1 : the_pipe s1 = the_pipe s) by (unfold the_pipe; by rewrite Ef1).
  destruct (v =? -1).
  { injection H as <- <- <-. rewrite Hp1. auto. }
  apply kbind_inv in H as ([] & s2 & E2 & H). unfold upd_pipe, kupd in E2. injection E2 as <-.
  fold (the_pipe s1) in H. rewrite Hp1 in H. set (s2 := set_files _ s1) in H.
  assert (Hp2 : the_pipe s2 = pop_byte (the_pipe s)) by apply put_pipe_eq.
  apply kbind_inv in H as ([r' bs'] & s3 & E3 & H). injection H as <- <- <-.
  destruct (pqueue (the_pipe s)) as [|ch q] eqn:Eq; [by apply (pipe_empty _ Hok) in Eq|].
  destruct (pop_byte_queue _ _ _ Hok Eq) as (Hok2 & Hq2 & ->).
  apply IH in E3 as (A1 & A2 & A3 & A4 & A5); [|by rewrite Hp2].
  rewrite Hp2 in *. rewrite Hq2 in A2. split_and!; [done|simpl; by rewrite A2|done..|].
  rewrite A5. simpl. done.
Qed.

Lemma wake_writers p s s' :
  running s p -> wakeup (Some p) (ChanPipeWrite a) s = Ret tt s' ->
  files s' = files s /\ (forall i, i ∈ slots -> ~ asleep_on (ChanPipeWrite a) s' i) /\
  (forall i, asleep_on (ChanPipeRead a) s' i -> asleep_on (ChanPipeRead a) s i).
Proof.
  intros Hr (Hf & Hn & Hs)%wakeup_pipe. split_and!; [done| |auto].
  intros i Hi Ha. destruct (Z.eq_dec i p) as [->|Hne]; [|by apply (Hn i)].
  eapply running_awake; [done|by apply Hs].
Qed.

Lemma pipe_inv_close p wr s s' w d :
  running s p -> pipe_inv (PConfig s w d) -> pipeclose kend p a wr s = Ret tt s' -> pipe_inv (PConfig s' w d).
Proof.
  intros Hr [Hok Hf HR HW] H. simpl in *. unfold pipeclose in H.
  apply kbind_inv in H as ([] & s1 & E1 & H).
  assert (pipe_inv (PConfig s1 w d)) as HI1.
  { destruct wr; apply kbind_inv in E1 as ([] & s2 & E2 & E1); unfold upd_pipe, kupd in E2; injection E2 as <-;
      fold (the_pipe s) in E1; set (s2 := set_files _ s) in E1.
    - assert (Hp2 : the_pipe s2 = Pipe (pdata (the_pipe s)) (nread (the_pipe s)) (nwrite (the_pipe s))
                (readopen (the_pipe s)) 0) by apply put_pipe_eq.
      apply wake_readers in E1 as (Hp1 & Ha & HW1 & _); [|done|by unfold writers_ok; rewrite Hp2].
      split; simpl; rewrite ?Hp1, ?Hp2; [done..| |].
      + intros i Hi Hi'. by destruct (Ha i Hi).
      + intros i Hi Hi'. specialize (HW1 i Hi Hi'). rewrite Hp1, Hp2 in HW1. exact HW1.
    - assert (Hp2 : the_pipe s2 = Pipe (pdata (the_pipe s)) (nread (the_pipe s)) (nwrite (the_pipe s))
                0 (writeopen (the_pipe s))) by apply put_pipe_eq.
      apply wake_writers in E1 as (Hf1 & Ha & HR1); [|done].
      assert (Hp1 : the_pipe s1 = the_pipe s2) by (unfold the_pipe; by rewrite Hf1).
      split; simpl; rewrite ?Hp1, ?Hp2; [done..| |].
      + intros i Hi Hi'. by apply (HR i Hi), HR1.
      + intros i Hi Hi'. by destruct (Ha i Hi). }
  apply kbind_inv in H as (pi & s2 & E2 & H). injection E2 as <- <-.
  destruct (_ && _); [|by injection H as <-]. apply in_mem_inv in H as (m & _ & ->). by destruct HI1; split.
Qed.

Lemma pipe_inv_read p addr n o bs s s' w d :
  running s p -> pipe_inv (PConfig s w d) -> piperead_pass kend ch_at p a addr n s = Ret (o, bs) s' ->
  pipe_inv (PConfig s' w (d ++ bs)).
Proof.
  intros Hr [Hok Hf HR HW] H. simpl in *. unfold piperead_pass in H.
  apply kbind_inv in H as (pi & s0 & E0 & H). injection E0 as <- <-. fold (the_pipe s) in H.
  destruct (_ && _) eqn:Hcond; cbool.
  - apply kbind_inv in H as (k & s0 & E0 & H). rewrite get_killed_eq in E0. injection E0 as <- <-.
    destruct (negb _).
    { injection H as <- <- <-. rewrite app_nil_r. by split. }
    apply kbind_inv in H as ([] & s1 & E1 & H). injection H as <- <- <-. rewrite app_nil_r.
    apply sleep_pipe in E1 as [Hf1 Hs1]. assert (Hp1 : the_pipe s1 = the_pipe s) by (unfold the_pipe; by rewrite Hf1).
    split; simpl; rewrite Hp1; [done..| |].
    + intros i Hi [[-> _]|Hi']%Hs1; [|by apply (HR i)]. split; [by apply (pipe_empty _ Hok)|done].
    + intros i Hi [[-> Hc]|Hi']%Hs1; [discriminate Hc|by apply (HW i)].
  - apply kbind_inv in H as ([r bs'] & s1 & E1 & H). apply read_loop in E1 as (A1 & A2 & A3 & A4 & A5); [|done].
    apply kbind_inv in H as ([] & s2 & E2 & H). injection H as <- <- <-. simpl.
    apply wake_writers in E2 as (Hf2 & Ha & HR2); [|unfold running in *; by rewrite A5].
    assert (Hp2 : the_pipe s2 = the_pipe s1) by (unfold the_pipe; by rewrite Hf2).
    split; simpl; rewrite Hp2; [done| | |].
    + by rewrite <- app_assoc, <- A2.
    + intros i Hi Hi'%HR2. unfold asleep_on in Hi'. rewrite A5 in Hi'. destruct (HR i Hi Hi') as [Hq Hw].
      apply (pipe_empty _ Hok) in Hq. destruct Hcond; lia.
    + intros i Hi Hi'. by destruct (Ha i Hi).
Qed.

Lemma pipe_inv_write p addr n i r bs s s' w d :
  running s p -> pipe_inv (PConfig s w d) -> pipewrite_pass kend ch_at p a addr n i s = Ret (r, bs) s' ->
  pipe_inv (PConfig s' (w ++ bs) d).
Proof.
  intros Hr [Hok Hf HR HW] H. simpl in *. apply write_loop in H as (A1 & A2 & A3 & A4 & A5); [|done..].
  split; simpl; [done| | |exact A4].
  - by rewrite A2, Hf, app_assoc.
  - intros j Hj Hj'. destruct A5 as [Ha|(-> & -> & _)]; [by destruct (Ha j Hj)|by apply (HR j)].
Qed.

Lemma pipe_inv_step c c' : pipe_inv c -> pstep c c' -> pipe_inv c'.
Proof.
  intros HI Hs. destruct Hs as [p addr n i r bs s s' w d Hr E|p addr n o bs s s' w d Hr E|p wr s s' w d Hr E|
    s s' w d [Hp Hs]].
  - by eapply pipe_inv_write.
  - by eapply pipe_inv_read.
  - by eapply pipe_inv_close.
  - destruct HI as [Hok Hf HR HW]. simpl in *. split; simpl; rewrite Hp; [done..| |].
    + intros i Hi Hi'. by apply (HR i Hi), Hs.
    + intros i Hi Hi'. by apply (HW i Hi), Hs.
Qed.

(** C30. A pipe is a bounded queue: in every interleaving of reads, writes
    and closes by any processes, with the counters wrapping, the bytes read
    followed by those in the buffer are exactly the bytes written, in order; at
    most [PIPESIZE] are buffered; a reader is asleep only on an empty pipe with
    its write end open, a writer only on a full one with its read end open. *)
Theorem pipe_fifo c0 c :
  pstart c0 -> rtc pstep c0 c ->
  written c = delivered c ++ pqueue (the_pipe (pk c)) /\
  Z.of_nat (length (pqueue (the_pipe (pk c)))) <= PIPESIZE /\
  (forall i, i ∈ slots -> asleep_on (ChanPipeRead a) (pk c) i ->
     pqueue (the_pipe (pk c)) = [] /\ writeopen (the_pipe (pk c)) <> 0) /\
  (forall i, i ∈ slots -> asleep_on (ChanPipeWrite a) (pk c) i ->
     Z.of_nat (length (pqueue (the_pipe (pk c)))) = PIPESIZE /\ readopen (the_pipe (pk c)) <> 0).
Proof.
  intros (Hw & Hd & [pi Hp] & Hn) Hs. assert (HI0 : pipe_inv c0).
  { split; rewrite ?Hp.
    - split_and!; simpl; try lia. by vm_compute.
    - rewrite Hw, Hd. reflexivity.
    - intros i _ Hi. by destruct (Hn i) as [[] _].
    - intros i _ Hi. by destruct (Hn i) as [_ []]. }
  assert (HI : pipe_inv c) by (clear -HI0 Hs; induction Hs; eauto using pipe_inv_step).
  destruct HI as [Hok Hf HR HW]. rewrite length_pqueue. split_and!; [done|apply Hok|done|done].
Qed.
End fifo.

(** A process of the demonstration memory with three bytes to send. *)
#[local] Instance one_pipe : PipeStore (Z -> pipe) := {
  pipes f a := f a;
  put_pipe a pi f := upd f a pi;
  pipes_put _ _ _ _ := eq_refl
}.

Definition sender : kernel (Z -> pipe) :=
  Kernel (set_phys (fun m => upd (upd (upd m (page8 3) 11) (page8 3 + 1) 22) (page8 3 + 2) 33) (demo 23))
    (fun i => if i =? 0 then Proc RUNNING NoChan 0 0 1 None 0 PGSIZE (page8 0) 0 (Context 0 0 (fun _ => 0))
                               (fun _ => None) None (fun _ => 0) 0 0 0
              else Proc UNUSED NoChan 0 0 0 None 0 0 0 0 (Context 0 0 (fun _ => 0)) (fun _ => None) None (fun _ => 0) 0 0 0)
    2 (Some 0) (fun _ => None) 0 0 0 (fun _ => Pipe (fun _ => 0) 0 0 1 1).

Lemma pipe_fifo_witness :
  exists c, rtc (pstep kend8 KERNBASE 1) (PConfig sender [] []) c /\ delivered c = [11; 22] /\
    written c = delivered c ++ pqueue (the_pipe 1 (pk c)).
Proof.
  assert (Hck : match pipewrite_pass kend8 KERNBASE 0 1 0 3 0 sender with
    | Ret (_, bs) s => match piperead_pass kend8 KERNBASE 0 1 100 2 s with
      | Ret (_, bs') s' => bool_decide (bs' = [11; 22]) && bool_decide (state (procs s 0) = RUNNING)
      | _ => false end
    | _ => false end = true) by (vm_compute; reflexivity).
  destruct (pipewrite_pass kend8 KERNBASE 0 1 0 3 0 sender) as [[r bs] s| |] eqn:E; [|discriminate Hck..].
  destruct (piperead_pass kend8 KERNBASE 0 1 100 2 s) as [[r' bs'] s'| |] eqn:E'; [|discriminate Hck..].
  rewrite andb_true_iff, !bool_decide_eq_true in Hck. destruct Hck as [-> Hrun].
  assert (H0s : 0 ∈ slots) by (apply slots_spec; unfold NPROC; lia).
  assert (Hr0 : running sender 0) by (split; [exact H0s|reflexivity]).
  assert (Hr1 : running s 0) by (split; [exact H0s|exact Hrun]).
  assert (Hst : rtc (pstep kend8 KERNBASE 1) (PConfig sender [] []) (PConfig s' ([] ++ bs) ([] ++ [11; 22]))).
  { eapply rtc_l; [exact (p_write _ _ _ 0 _ _ _ _ _ _ _ [] [] Hr0 E)|].
    apply rtc_once. exact (p_read _ _ _ 0 _ _ _ _ _ _ _ [] Hr1 E'). }
  assert (H0 : pstart 1 (PConfig sender [] [])).
  { split_and!; [done|done|by exists (Pipe (fun _ => 0) 0 0 1 1)|].
    intros i. unfold asleep_on. simpl. destruct (i =? 0); simpl; split; intros [H _]; discriminate H. }
  eexists. split_and!; [exact Hst|reflexivity|].
  exact (proj1 (pipe_fifo kend8 KERNBASE 1 _ _ H0 Hst)).
Defined.
