(* ===== verification/Console.v ===== *)
(** * kernel/console.c, kernel/uart.c: the console

    Input characters go through a line editor into a ring buffer, from
    which [consoleread] takes whole lines; output goes to the serial port
    one character at a time.  The port's registers are outside the model:
    what is stored in its transmit register is recorded in order, and what
    its status register says and the characters it has received are
    arguments of the interrupt handler. *)

From S2P Require Import Prelude Memory Kalloc Vm Proc.

Definition INPUT_BUF_SIZE : Z := 128.
Definition BACKSPACE : Z := 0x100.
(** Control-x *)
Definition CTRL (x : Z) : Z := x - 64.
Definition newline : Z := 10.
Definition del : Z := 127.

Record console := Console {
  cbuf : Z -> Z;                (* char buf[INPUT_BUF_SIZE] *)
  cr : Z;                       (* uint r *)
  cw : Z;                       (* uint w *)
  ce : Z;                       (* uint e *)
  tx_busy : Z;                  (* int tx_busy, of uart.c *)
  sent : list Z                 (* the characters stored in THR, newest first *)
}.

Definition set_cr v c := Console (cbuf c) v (cw c) (ce c) (tx_busy c) (sent c).
Definition set_cw v c := Console (cbuf c) (cr c) v (ce c) (tx_busy c) (sent c).
Definition set_ce v c := Console (cbuf c) (cr c) (cw c) v (tx_busy c) (sent c).
Definition set_cbuf v c := Console v (cr c) (cw c) (ce c) (tx_busy c) (sent c).
Definition set_tx_busy v c := Console (cbuf c) (cr c) (cw c) (ce c) v (sent c).
Definition set_sent v c := Console (cbuf c) (cr c) (cw c) (ce c) (tx_busy c) v.

(** A state with a console in it. *)
Class ConsoleStore (F : Type) := {
  console_of : F -> console;
  put_cons : console -> F -> F;
  cons_put c f : console_of (put_cons c f) = c
}.

(** ** The line editor: the updates of [consoleintr] *)

Definition uartputc_sync (ch : Z) (c : console) : console := set_sent (u8 ch :: sent c) c.

Definition consputc (ch : Z) (c : console) : console :=
  if ch =? BACKSPACE then uartputc_sync 8 (uartputc_sync 32 (uartputc_sync 8 c)) else uartputc_sync ch c.

Definition erase (c : console) : console := consputc BACKSPACE (set_ce (u32 (ce c - 1)) c).

(** [while(cons.e != cons.w && cons.buf[(cons.e-1) % INPUT_BUF_SIZE] != '\n')];
    the edited line is [e - w] characters, which bounds the loop. *)
Fixpoint kill_line (fuel : nat) (c : console) : console :=
  match fuel with
  | O => c
  | S f =>
      if negb (ce c =? cw c) && negb (u8 (cbuf c (u32 (ce c - 1) mod INPUT_BUF_SIZE)) =? newline)
      then kill_line f (erase c) else c
  end.

(** The console after input character [ch], and whether readers are woken. *)
Definition input (ch : Z) (c : console) : console * bool :=
  if ch =? CTRL 80 then (c, false) else
  if ch =? CTRL 85 then (kill_line (Z.to_nat (u32 (ce c - cw c))) c, false) else
  if (ch =? CTRL 72) || (ch =? del) then (if negb (ce c =? cw c) then erase c else c, false) else
  if negb (ch =? 0) && (u32 (ce c - cr c) <? INPUT_BUF_SIZE) then
    let ch := if ch =? 13 then newline else ch in
    let c := consputc ch c in
    let c := set_ce (u32 (ce c + 1)) (set_cbuf (upd (cbuf c) (ce c mod INPUT_BUF_SIZE) (u8 ch)) c) in
    if (ch =? newline) || (ch =? CTRL 68) || (u32 (ce c - cr c) =? INPUT_BUF_SIZE)
    then (set_cw (ce c) c, true) else (c, false)
  else (c, false).

(** ** Operations *)

Section console.
Context {F : Type} `{!ConsoleStore F}.
(** [end], and the address of [cbuf] and [buf] on the kernel stack. *)
Variables (kend cbuf_at : Z).
#[local] Abbreviation K := (M (kernel F)).

Definition get_cons : K console := kget (fun s => console_of (files s)).
Definition set_cons (c : console) : K unit := kupd (fun s => set_files (put_cons c (files s)) s).

(** [cur] is [myproc()]; the process list of control-P goes to the console
    only. *)
Definition consoleintr (cur : option Z) (ch : Z) : K unit :=
  let! c := get_cons in
  let (c', woken) := input ch c in
  do! set_cons c';
  if woken then wakeup cur ChanCons else kret tt.

(** A pass of [consoleread] with [n] of [target] bytes to go: [inl r] when
    it returns [r], [inr (dst, n)] when it sleeps; with the bytes it took. *)
Fixpoint consoleread_loop (fuel : nat) (p : Z) (user_dst : bool) (dst n target : Z) : K ((Z + Z * Z) * list Z) :=
  if n >? 0 then
    match fuel with
    | O => khang
    | S f =>
        let! c := get_cons in
        if cr c =? cw c then
          let! k := get_killed p in
          if negb (k =? 0) then kret (inl (-1), []) else
          do! sleep p ChanCons;
          kret (inr (dst, n), [])
        else
          let ch := u8 (cbuf c (cr c mod INPUT_BUF_SIZE)) in
          if ch =? CTRL 68 then
            do! (if u32 n <? target then kret tt else set_cons (set_cr (u32 (cr c + 1)) c));
            kret (inl (target - n), [])
          else
            do! set_cons (set_cr (u32 (cr c + 1)) c);
            do! in_mem (kupd (set_phys (fun m => upd m cbuf_at ch)));
            let! r := either_copyout kend p user_dst dst cbuf_at 1 in
            if r =? -1 then kret (inl (target - n), []) else
            if ch =? newline then kret (inl (target - (n - 1)), [ch]) else
            let! r := consoleread_loop f p user_dst (u64 (dst + 1)) (n - 1) target in
            kret (fst r, ch :: snd r)
    end
  else kret (inl (target - n), []).

Definition consoleread (p : Z) (user_dst : bool) (dst n : Z) : K (option Z) :=
  let! r := consoleread_loop (Z.to_nat n) p user_dst dst n (u32 n) in
  kret (match fst r with inl v => Some (s32 v) | inr _ => None end).

(** [uartwrite(buf, n)] from index [i]: [Some i] when it sleeps there. *)
Fixpoint uartwrite_loop (k : nat) (p buf i : Z) : K (option Z) :=
  match k with
  | O => kret None
  | S k' =>
      let! c := get_cons in
      if negb (tx_busy c =? 0) then do! sleep p ChanUart; kret (Some i) else
      let! m := kget (fun s => phys (kmem s)) in
      do! set_cons (set_tx_busy 1 (set_sent (u8 (m (buf + i)) :: sent c) c));
      uartwrite_loop k' p buf (i + 1)
  end.

Definition uartwrite (p buf n : Z) : K (option Z) := uartwrite_loop (Z.to_nat n) p buf 0.

(** [consolewrite], [i] bytes sent; [None] when the process sleeps in
    [uartwrite]. *)
Fixpoint consolewrite_loop (fuel : nat) (p : Z) (user_src : bool) (src n i : Z) : K (option Z) :=
  if i <? n then
    match fuel with
    | O => khang
    | S f =>
        let nn := if 32 >? n - i then n - i else 32 in
        let! r := either_copyin kend p cbuf_at user_src (u64 (src + i)) nn in
        if r =? -1 then kret (Some i) else
        let! o := uartwrite p cbuf_at nn in
        match o with
        | Some _ => kret None
        | None => consolewrite_loop f p user_src src n (i + nn)
        end
    end
  else kret (Some i).

Definition consolewrite (p : Z) (user_src : bool) (src n : Z) : K (option Z) :=
  consolewrite_loop (Z.to_nat n) p user_src src n 0.

(** [idle]: the status register has [LSR_TX_IDLE]; [inputs]: the characters
    the port has received. *)
Definition uartintr (cur : option Z) (idle : bool) (inputs : list Z) : K unit :=
  do! (if idle then
         let! c := get_cons in
         do! set_cons (set_tx_busy 0 c);
         wakeup cur ChanUart
       else kret tt);
  for_each inputs (consoleintr cur).
End console.
