(* ===== verification/Printf.v ===== *)
(** * kernel/printf.c, user/printf.c: formatted output

    The kernel's [printf] sends each character to the console and to the
    ring buffer of the system log, which [readsyslog] copies to the user;
    the user's [vprintf] writes to a file descriptor.  Formats are the
    bytes before the NUL, and a [va_list] is the list of the arguments.  An
    argument that is missing or of the wrong kind is undefined behaviour,
    here [Hang]. *)

From S2P Require Import Prelude Memory Kalloc Vm Proc Console.

(** ** Conversions *)

(** [va_list]: integers, and strings with [None] for the null pointer. *)
Inductive arg := Num (v : Z) | Str (s : option (list Z)).

(** The conversions, as the chains of comparisons select them: an integer by
    the type its argument is fetched with, base and sign. *)
Inductive width := WInt | WUint32 | WUint64.
Inductive conv := CInt (w : width) (base : Z) (sign : bool) | CPtr | CChar | CStr | CPercent | CUnknown.

Definition fetch (w : width) (v : Z) : Z :=
  match w with WInt => s32 v | WUint32 => u32 v | WUint64 => u64 v end.

(** The conversion of [c0], [c1], [c2] (0 past the end), and the characters
    it takes after [c0]. *)
Definition parse_conv (c0 c1 c2 : Z) : conv * nat :=
  let d := 100 in let l := 108 in let u := 117 in let x := 120 in
  if c0 =? d then (CInt WInt 10 true, 0%nat) else
  if (c0 =? l) && (c1 =? d) then (CInt WUint64 10 true, 1%nat) else
  if (c0 =? l) && (c1 =? l) && (c2 =? d) then (CInt WUint64 10 true, 2%nat) else
  if c0 =? u then (CInt WUint32 10 false, 0%nat) else
  if (c0 =? l) && (c1 =? u) then (CInt WUint64 10 false, 1%nat) else
  if (c0 =? l) && (c1 =? l) && (c2 =? u) then (CInt WUint64 10 false, 2%nat) else
  if c0 =? x then (CInt WUint32 16 false, 0%nat) else
  if (c0 =? l) && (c1 =? x) then (CInt WUint64 16 false, 1%nat) else
  if (c0 =? l) && (c1 =? l) && (c2 =? x) then (CInt WUint64 16 false, 2%nat) else
  if c0 =? 112 then (CPtr, 0%nat) else
  if c0 =? 99 then (CChar, 0%nat) else
  if c0 =? 115 then (CStr, 0%nat) else
  if c0 =? 37 then (CPercent, 0%nat) else (CUnknown, 0%nat).

Definition nth0 (l : list Z) (i : nat) : Z := nth i l 0.

Definition null_string : list Z := [40; 110; 117; 108; 108; 41].

(** ** Integers *)

(** [digits[d]]; [hex] is the first letter, 'a' in the kernel and 'A' in the
    user library. *)
Definition digit (hex d : Z) : Z := if d <? 10 then 48 + d else hex + (d - 10).

(** [do { buf[i++] = digits[x % base]; } while((x /= base) != 0)] *)
Fixpoint digit_loop (fuel : nat) (hex x base : Z) : list Z :=
  match fuel with
  | O => []
  | S f => digit hex (x mod base) :: (if x / base =? 0 then [] else digit_loop f hex (x / base) base)
  end.

(** A 64-bit number has at most 64 digits. *)
Definition digit_fuel : nat := 64.

(** [buf] in the order it is printed; [xx] is a [long long]. *)
Definition int_chars (hex xx base : Z) (sign : bool) : list Z :=
  let neg := sign && (xx <? 0) in
  let x := if neg then u64 (- xx) else u64 xx in
  let buf := digit_loop digit_fuel hex x base in
  reverse (if neg then buf ++ [45] else buf).

(** [for(i = 0; i < 16; i++, x <<= 4) ... digits[x >> 60]] *)
Fixpoint ptr_loop (k : nat) (hex x : Z) : list Z :=
  match k with
  | O => []
  | S k' => digit hex (Z.shiftr x 60) :: ptr_loop k' hex (u64 (Z.shiftl x 4))
  end.
Definition ptr_chars (hex x : Z) : list Z := [48; 120] ++ ptr_loop 16 hex x.

(** The characters of a conversion, and the arguments left; [%c] apart. *)
Definition conv_chars (hex : Z) (c : conv) (c0 : Z) (ap : list arg) : option (list Z * list arg) :=
  match c, ap with
  | CInt w base sign, Num v :: ap' => Some (int_chars hex (s64 (fetch w v)) base sign, ap')
  | CPtr, Num v :: ap' => Some (ptr_chars hex (u64 v), ap')
  | CStr, Str s :: ap' => Some (match s with None => null_string | Some l => l end, ap')
  | CPercent, _ => Some ([37], ap)
  | CUnknown, _ => Some ([37; c0], ap)
  | _, _ => None
  end.

(** ** The kernel *)

Definition LOG_BUF_SIZE : Z := 4096.

Record logkeeper := Logkeeper {
  lbuf : Z -> Z;                (* char buf[LOG_BUF_SIZE] *)
  lr : Z;                       (* int r *)
  lw : Z                        (* int w *)
}.

(** The log, and the characters sent to the console, newest first. *)
Record prstate := PrState { out : list Z; plog : logkeeper }.

Definition log_char (c : Z) (l : logkeeper) : logkeeper :=
  let w := s32 (lw l + 1) in
  Logkeeper (upd (lbuf l) (Z.rem (lw l) LOG_BUF_SIZE) (u8 c))
    (if s32 (w - lr l) >? LOG_BUF_SIZE then s32 (w - LOG_BUF_SIZE) else lr l) w.

Definition putc_log (c : Z) : M prstate unit := kupd (fun s => PrState (out s) (log_char c (plog s))).
(** [consputc(c)] *)
Definition putc_cons (c : Z) : M prstate unit :=
  kupd (fun s => PrState (if c =? BACKSPACE then 8 :: 32 :: 8 :: out s else u8 c :: out s) (plog s)).

(** [consputc(c); putc_log(c);] *)
Definition emit (c : Z) : M prstate unit := do! putc_cons c; putc_log c.

Fixpoint printf_loop (fuel : nat) (fmt : list Z) (ap : list arg) : M prstate unit :=
  match fuel, fmt with
  | S f, cx :: fmt' =>
      if negb (cx =? 37) then do! emit cx; printf_loop f fmt' ap else
      let c0 := nth0 fmt' 0 in
      let c1 := if negb (c0 =? 0) then nth0 fmt' 1 else 0 in
      let c2 := if negb (c1 =? 0) then nth0 fmt' 2 else 0 in
      if c0 =? 0 then kret tt else
      let (c, more) := parse_conv c0 c1 c2 in
      let next ap := printf_loop f (drop (S more) fmt') ap in
      match c with
      | CChar =>
          match ap with
          | Num v :: Num v' :: ap' => do! putc_cons (u32 v); do! putc_log (u32 v'); next ap'
          | _ => khang
          end
      | _ =>
          match conv_chars 97 c c0 ap with
          | Some (l, ap') => do! for_each l emit; next ap'
          | None => khang
          end
      end
  | _, _ => kret tt
  end.

Definition printf (fmt : list Z) (ap : list arg) : M prstate unit := printf_loop (length fmt) fmt ap.

(** The two markers around the message. *)
Definition logprintf (fmt : list Z) (ap : list arg) : M prstate unit :=
  do! putc_cons 1;
  do! printf fmt ap;
  putc_cons 2.

(** [panic(s)], which does not return: "panic: ", then "%s\n". *)
Definition panic (s : list Z) : M prstate unit :=
  do! printf [112; 97; 110; 105; 99; 58; 32] [];
  do! printf [37; 115; 10] [Str (Some s)];
  khang.

Definition printfinit : M prstate unit := kupd (fun s => PrState (out s) (Logkeeper (lbuf (plog s)) 0 0)).

(** The state of the kernel has the log in it. *)
Class LogStore (F : Type) := {
  syslog : F -> logkeeper;
  put_syslog : logkeeper -> F -> F;
  syslog_put l f : syslog (put_syslog l f) = l
}.

Section readsyslog.
Context {F : Type} `{!LogStore F}.
(** [end], the address of [c] on the kernel stack, and [myproc()]. *)
Variables (kend c_at p : Z).

Fixpoint readsyslog_loop (fuel : nat) (dist maxlen n : Z) : M (kernel F) Z :=
  let! l := kget (fun s => syslog (files s)) in
  if (n <? maxlen) && (lr l <? lw l) then
    match fuel with
    | O => khang
    | S f =>
        do! in_mem (kupd (set_phys (fun m => upd m c_at (lbuf l (Z.rem (lr l) LOG_BUF_SIZE)))));
        let! q := get_proc p in
        let! r := in_mem (copyout kend (sz q) (pgtbl q) (u64 (dist + n)) c_at 1) in
        if r <? 0 then kret (-1) else
        do! kupd (fun s => set_files (put_syslog (Logkeeper (lbuf l) (s32 (lr l + 1)) (lw l)) (files s)) s);
        readsyslog_loop f dist maxlen (n + 1)
    end
  else kret n.

Definition readsyslog (dist maxlen : Z) : M (kernel F) Z := readsyslog_loop (Z.to_nat maxlen) dist maxlen 0.
End readsyslog.

(** ** The user library: the characters [vprintf] writes *)

Fixpoint vprintf_loop (fuel : nat) (fmt : list Z) (ap : list arg) : option (list Z) :=
  match fuel, fmt with
  | S f, c0 :: fmt' =>
      if negb (c0 =? 37) then option_map (cons c0) (vprintf_loop f fmt' ap) else
      match fmt' with
      | [] => Some []
      | c0 :: fmt'' =>
          let c1 := nth0 fmt'' 0 in
          let c2 := if negb (c1 =? 0) then nth0 fmt'' 1 else 0 in
          let (c, more) := parse_conv c0 c1 c2 in
          let next l ap := option_map (app l) (vprintf_loop f (drop more fmt'') ap) in
          match c with
          | CChar => match ap with Num v :: ap' => next [u8 v] ap' | _ => None end
          | _ => match conv_chars 65 c c0 ap with Some (l, ap') => next l ap' | None => None end
          end
      end
  | _, _ => Some []
  end.

Definition vprintf (fmt : list Z) (ap : list arg) : option (list Z) := vprintf_loop (length fmt) fmt ap.
