(* ===== verification/Virtio.v ===== *)
(** * kernel/virtio_disk.c: the disk driver

    The driver and the device share a table of descriptors and two rings.
    The state has both sides: the driver's book-keeping, the memory they
    share, the fields of buffers the driver uses, and the device with its
    disk.  Addresses the driver gives to the device are symbolic: the
    request header of a descriptor, the data of a buffer, the status byte of
    a request.  [virtio_disk_rw] is cut at its sleeps into passes; a pass
    and [virtio_disk_intr] run under the driver's lock and are one step
    each. *)

From S2P Require Import Prelude Memory.

Definition NUM : Z := 8.
Definition VRING_DESC_F_NEXT : Z := 1.
Definition VRING_DESC_F_WRITE : Z := 2.
Definition VIRTIO_BLK_T_IN : Z := 0.
Definition VIRTIO_BLK_T_OUT : Z := 1.

Inductive daddr := ANull | AOp (i : Z) | AData (b : Z) | AStatus (i : Z).

(** [struct virtq_desc] and [struct virtio_blk_req]. *)
Record vdesc := VDesc { d_addr : daddr; d_len : Z; d_flags : Z; d_next : Z }.
Record blkreq := BlkReq { rq_type : Z; rq_reserved : Z; rq_sector : Z }.

(** The channels processes sleep on: [&disk.free[0]] and a buffer. *)
Inductive vchan := ChFree | ChBuf (b : Z).

Record vdisk := VDisk {
  desc : Z -> vdesc;
  avail_ring : Z -> Z; avail_idx : Z;      (* disk.avail *)
  used_ring : Z -> Z; used_dev : Z;        (* disk.used: ring[].id and idx *)
  dfree : Z -> Z;                          (* disk.free *)
  used_idx : Z;
  info_b : Z -> option Z; info_status : Z -> Z;
  ops : Z -> blkreq;
  bdisk : Z -> Z;                          (* b->disk *)
  vb_data : Z -> mem;                        (* b->data *)
  vol : mem;                               (* the bytes of the disk *)
  dev_seen : Z;                            (* the device's place in the avail ring *)
  dev_taken : list Z;                      (* heads of the chains it works on *)
  wakes : list vchan                       (* the channels woken in this step *)
}.

Definition set_desc v d := VDisk v (avail_ring d) (avail_idx d) (used_ring d) (used_dev d) (dfree d) (used_idx d) (info_b d) (info_status d) (ops d) (bdisk d) (vb_data d) (vol d) (dev_seen d) (dev_taken d) (wakes d).
Definition set_avail r i d := VDisk (desc d) r i (used_ring d) (used_dev d) (dfree d) (used_idx d) (info_b d) (info_status d) (ops d) (bdisk d) (vb_data d) (vol d) (dev_seen d) (dev_taken d) (wakes d).
Definition set_usedring r i d := VDisk (desc d) (avail_ring d) (avail_idx d) r i (dfree d) (used_idx d) (info_b d) (info_status d) (ops d) (bdisk d) (vb_data d) (vol d) (dev_seen d) (dev_taken d) (wakes d).
Definition set_dfree v d := VDisk (desc d) (avail_ring d) (avail_idx d) (used_ring d) (used_dev d) v (used_idx d) (info_b d) (info_status d) (ops d) (bdisk d) (vb_data d) (vol d) (dev_seen d) (dev_taken d) (wakes d).
Definition set_used_idx v d := VDisk (desc d) (avail_ring d) (avail_idx d) (used_ring d) (used_dev d) (dfree d) v (info_b d) (info_status d) (ops d) (bdisk d) (vb_data d) (vol d) (dev_seen d) (dev_taken d) (wakes d).
Definition set_info_b v d := VDisk (desc d) (avail_ring d) (avail_idx d) (used_ring d) (used_dev d) (dfree d) (used_idx d) v (info_status d) (ops d) (bdisk d) (vb_data d) (vol d) (dev_seen d) (dev_taken d) (wakes d).
Definition set_info_status v d := VDisk (desc d) (avail_ring d) (avail_idx d) (used_ring d) (used_dev d) (dfree d) (used_idx d) (info_b d) v (ops d) (bdisk d) (vb_data d) (vol d) (dev_seen d) (dev_taken d) (wakes d).
Definition set_ops v d := VDisk (desc d) (avail_ring d) (avail_idx d) (used_ring d) (used_dev d) (dfree d) (used_idx d) (info_b d) (info_status d) v (bdisk d) (vb_data d) (vol d) (dev_seen d) (dev_taken d) (wakes d).
Definition set_bdisk v d := VDisk (desc d) (avail_ring d) (avail_idx d) (used_ring d) (used_dev d) (dfree d) (used_idx d) (info_b d) (info_status d) (ops d) v (vb_data d) (vol d) (dev_seen d) (dev_taken d) (wakes d).
Definition set_vdata v d := VDisk (desc d) (avail_ring d) (avail_idx d) (used_ring d) (used_dev d) (dfree d) (used_idx d) (info_b d) (info_status d) (ops d) (bdisk d) v (vol d) (dev_seen d) (dev_taken d) (wakes d).
Definition set_vol v d := VDisk (desc d) (avail_ring d) (avail_idx d) (used_ring d) (used_dev d) (dfree d) (used_idx d) (info_b d) (info_status d) (ops d) (bdisk d) (vb_data d) v (dev_seen d) (dev_taken d) (wakes d).
Definition set_dev i l d := VDisk (desc d) (avail_ring d) (avail_idx d) (used_ring d) (used_dev d) (dfree d) (used_idx d) (info_b d) (info_status d) (ops d) (bdisk d) (vb_data d) (vol d) i l (wakes d).
Definition set_wakes v d := VDisk (desc d) (avail_ring d) (avail_idx d) (used_ring d) (used_dev d) (dfree d) (used_idx d) (info_b d) (info_status d) (ops d) (bdisk d) (vb_data d) (vol d) (dev_seen d) (dev_taken d) v.

(** ** Descriptors *)

Definition vwakeup (ch : vchan) : M vdisk unit := kupd (fun d => set_wakes (ch :: wakes d) d).

Definition alloc_desc : M vdisk Z :=
  let! fr := kget dfree in
  match list_find (fun i => fr i <> 0) (seqZ 0 NUM) with
  | Some (_, i) => do! kupd (set_dfree (upd fr i 0)); kret i
  | None => kret (-1)
  end.

Definition free_desc (i : Z) : M vdisk unit :=
  if i >=? NUM then kpanic "free_desc 1" else
  let! fr := kget dfree in
  if negb (fr i =? 0) then kpanic "free_desc 2" else
  do! kupd (fun d => set_desc (upd (desc d) i (VDesc ANull 0 0 0)) d);
  do! kupd (set_dfree (upd fr i 1));
  vwakeup ChFree.

Fixpoint free_chain (fuel : nat) (i : Z) : M vdisk unit :=
  match fuel with
  | O => khang
  | S f =>
      let! x := kget (fun d => desc d i) in
      do! free_desc i;
      if negb (Z.land (d_flags x) VRING_DESC_F_NEXT =? 0) then free_chain f (d_next x) else kret tt
  end.

(** The rest of the loop of [alloc3_desc], with the indices it has. *)
Fixpoint alloc_more (k : nat) (idx : list Z) : M vdisk (option (list Z)) :=
  match k with
  | O => kret (Some idx)
  | S k' =>
      let! i := alloc_desc in
      if i <? 0 then do! for_each idx free_desc; kret None
      else alloc_more k' (idx ++ [i])
  end.
Definition alloc3_desc : M vdisk (option (list Z)) := alloc_more 3 [].

(** ** Initialisation

    [vdev] has the stores to the device's registers, latest first, and the
    disk; what a register holds when it is read is up to the device, which
    has seen the stores. *)

Definition VIRTIO_MMIO_MAGIC_VALUE : Z := 0x000.
Definition VIRTIO_MMIO_VERSION : Z := 0x004.
Definition VIRTIO_MMIO_DEVICE_ID : Z := 0x008.
Definition VIRTIO_MMIO_VENDOR_ID : Z := 0x00c.
Definition VIRTIO_MMIO_DEVICE_FEATURES : Z := 0x010.
Definition VIRTIO_MMIO_DRIVER_FEATURES : Z := 0x020.
Definition VIRTIO_MMIO_QUEUE_SEL : Z := 0x030.
Definition VIRTIO_MMIO_QUEUE_NUM_MAX : Z := 0x034.
Definition VIRTIO_MMIO_QUEUE_NUM : Z := 0x038.
Definition VIRTIO_MMIO_QUEUE_READY : Z := 0x044.
Definition VIRTIO_MMIO_STATUS : Z := 0x070.
Definition VIRTIO_MMIO_QUEUE_DESC_LOW : Z := 0x080.
Definition VIRTIO_MMIO_QUEUE_DESC_HIGH : Z := 0x084.
Definition VIRTIO_MMIO_DRIVER_DESC_LOW : Z := 0x090.
Definition VIRTIO_MMIO_DRIVER_DESC_HIGH : Z := 0x094.
Definition VIRTIO_MMIO_DEVICE_DESC_LOW : Z := 0x0a0.
Definition VIRTIO_MMIO_DEVICE_DESC_HIGH : Z := 0x0a4.
Definition VIRTIO_CONFIG_S_ACKNOWLEDGE : Z := 1.
Definition VIRTIO_CONFIG_S_DRIVER : Z := 2.
Definition VIRTIO_CONFIG_S_DRIVER_OK : Z := 4.
Definition VIRTIO_CONFIG_S_FEATURES_OK : Z := 8.
Definition VIRTIO_BLK_F_RO : Z := 5.
Definition VIRTIO_BLK_F_SCSI : Z := 7.
Definition VIRTIO_BLK_F_CONFIG_WCE : Z := 11.
Definition VIRTIO_BLK_F_MQ : Z := 12.
Definition VIRTIO_F_ANY_LAYOUT : Z := 27.
Definition VIRTIO_RING_F_INDIRECT_DESC : Z := 28.
Definition VIRTIO_RING_F_EVENT_IDX : Z := 29.

Definition vdev : Type := list (Z * Z) * vdisk.

Section init.
(** The device's registers, and the results of the three calls of [kalloc]. *)
Variable R : list (Z * Z) -> Z -> Z.
Variables kdesc kavail kused : Z.

Definition reg (r : Z) : M vdev Z := kget (fun s => u32 (R s.1 r)).
Definition set_reg (r v : Z) : M vdev unit := kupd (fun s => ((r, u32 v) :: s.1, s.2)).
Definition drop_feature (features bit : Z) : Z := Z.ldiff features (Z.shiftl 1 bit).

Definition all_free (fr : Z -> Z) : Z -> Z := foldl (fun f i => upd f i 1) fr (seqZ 0 NUM).

Definition virtio_disk_init : M vdev unit :=
  let! magic := reg VIRTIO_MMIO_MAGIC_VALUE in
  let! version := reg VIRTIO_MMIO_VERSION in
  let! device := reg VIRTIO_MMIO_DEVICE_ID in
  let! vendor := reg VIRTIO_MMIO_VENDOR_ID in
  if negb (magic =? 0x74726976) || negb (version =? 2) || negb (device =? 2) || negb (vendor =? 0x554d4551)
  then kpanic "could not find virtio disk" else
  let status := 0 in
  do! set_reg VIRTIO_MMIO_STATUS status;
  let status := Z.lor status VIRTIO_CONFIG_S_ACKNOWLEDGE in
  do! set_reg VIRTIO_MMIO_STATUS status;
  let status := Z.lor status VIRTIO_CONFIG_S_DRIVER in
  do! set_reg VIRTIO_MMIO_STATUS status;
  let! features := reg VIRTIO_MMIO_DEVICE_FEATURES in
  let features := foldl drop_feature features
    [VIRTIO_BLK_F_RO; VIRTIO_BLK_F_SCSI; VIRTIO_BLK_F_CONFIG_WCE; VIRTIO_BLK_F_MQ; VIRTIO_F_ANY_LAYOUT;
     VIRTIO_RING_F_EVENT_IDX; VIRTIO_RING_F_INDIRECT_DESC] in
  do! set_reg VIRTIO_MMIO_DRIVER_FEATURES features;
  let status := Z.lor status VIRTIO_CONFIG_S_FEATURES_OK in
  do! set_reg VIRTIO_MMIO_STATUS status;
  let! status := reg VIRTIO_MMIO_STATUS in
  if Z.land status VIRTIO_CONFIG_S_FEATURES_OK =? 0 then kpanic "virtio disk FEATURES_OK unset" else
  do! set_reg VIRTIO_MMIO_QUEUE_SEL 0;
  let! ready := reg VIRTIO_MMIO_QUEUE_READY in
  if negb (ready =? 0) then kpanic "virtio disk should not be ready" else
  let! max := reg VIRTIO_MMIO_QUEUE_NUM_MAX in
  if max =? 0 then kpanic "virtio disk has no queue 0" else
  if max <? NUM then kpanic "virtio disk max queue too short" else
  if (kdesc =? 0) || (kavail =? 0) || (kused =? 0) then kpanic "virtio disk kalloc" else
  do! kupd (fun s => (s.1, set_desc (fun _ => VDesc ANull 0 0 0) s.2));
  do! kupd (fun s => (s.1, set_avail (fun _ => 0) 0 s.2));
  do! kupd (fun s => (s.1, set_usedring (fun _ => 0) 0 s.2));
  do! set_reg VIRTIO_MMIO_QUEUE_NUM NUM;
  do! set_reg VIRTIO_MMIO_QUEUE_DESC_LOW kdesc;
  do! set_reg VIRTIO_MMIO_QUEUE_DESC_HIGH (Z.shiftr kdesc 32);
  do! set_reg VIRTIO_MMIO_DRIVER_DESC_LOW kavail;
  do! set_reg VIRTIO_MMIO_DRIVER_DESC_HIGH (Z.shiftr kavail 32);
  do! set_reg VIRTIO_MMIO_DEVICE_DESC_LOW kused;
  do! set_reg VIRTIO_MMIO_DEVICE_DESC_HIGH (Z.shiftr kused 32);
  do! set_reg VIRTIO_MMIO_QUEUE_READY 0x1;
  do! kupd (fun s => (s.1, set_dfree (all_free (dfree s.2)) s.2));
  let status := Z.lor status VIRTIO_CONFIG_S_DRIVER_OK in
  set_reg VIRTIO_MMIO_STATUS status.
End init.

(** ** Requests *)

Section virtio.
(** [b->blockno]. *)
Variable blockno : Z -> Z.

Definition sector (b : Z) : Z := u32 (blockno b * (BSIZE / 512)).

(** The three descriptors, the entry in the ring and the notification. *)
Definition submit (b : Z) (write : bool) (i0 i1 i2 : Z) : M vdisk unit :=
  do! kupd (fun d => set_ops (upd (ops d) i0 (BlkReq (if write then VIRTIO_BLK_T_OUT else VIRTIO_BLK_T_IN) 0 (sector b))) d);
  do! kupd (fun d => set_desc (upd (desc d) i0 (VDesc (AOp i0) 16 VRING_DESC_F_NEXT i1)) d);
  do! kupd (fun d => set_desc (upd (desc d) i1
        (VDesc (AData b) BSIZE (Z.lor (if write then 0 else VRING_DESC_F_WRITE) VRING_DESC_F_NEXT) i2)) d);
  do! kupd (fun d => set_info_status (upd (info_status d) i0 0xff) d);
  do! kupd (fun d => set_desc (upd (desc d) i2 (VDesc (AStatus i0) 1 VRING_DESC_F_WRITE 0)) d);
  do! kupd (fun d => set_bdisk (upd (bdisk d) b 1) d);
  do! kupd (fun d => set_info_b (upd (info_b d) i0 (Some b)) d);
  do! kupd (fun d => set_avail (upd (avail_ring d) (avail_idx d mod NUM) i0) (avail_idx d) d);
  kupd (fun d => set_avail (avail_ring d) (u16 (avail_idx d + 1)) d).

(** Where a call of [virtio_disk_rw] is: before its first loop, or in its
    second one. *)
Inductive rwpc := PAlloc | PWait (i0 i1 i2 : Z).

(** How a pass ends: asleep, at a place, or returned. *)
Definition wait_done (b i0 i1 i2 : Z) : M vdisk (option rwpc) :=
  let! x := kget (fun d => bdisk d b) in
  if x =? 1 then kret (Some (PWait i0 i1 i2)) else
  do! kupd (fun d => set_info_b (upd (info_b d) i0 None) d);
  do! free_chain (Z.to_nat NUM) i0;
  kret None.

Definition virtio_disk_rw (b : Z) (write : bool) (p : rwpc) : M vdisk (option rwpc) :=
  match p with
  | PAlloc =>
      let! o := alloc3_desc in
      match o with
      | Some [i0; i1; i2] => do! submit b write i0 i1 i2; wait_done b i0 i1 i2
      | _ => kret (Some PAlloc)
      end
  | PWait i0 i1 i2 => wait_done b i0 i1 i2
  end.

(** ** Interrupts *)

Fixpoint intr_loop (fuel : nat) : M vdisk unit :=
  let! d := kget (fun d => d) in
  if used_idx d =? used_dev d then kret tt else
  match fuel with
  | O => khang
  | S f =>
      let id := used_ring d (used_idx d mod NUM) in
      if negb (info_status d id =? 0) then kpanic "virtio_disk_intr status" else
      match info_b d id with
      | None => kpanic "kerneltrap"
      | Some b =>
          do! kupd (fun d => set_bdisk (upd (bdisk d) b 0) d);
          do! vwakeup (ChBuf b);
          do! kupd (fun d => set_used_idx (u16 (used_idx d + 1)) d);
          intr_loop f
      end
  end.

Definition virtio_disk_intr : M vdisk unit := intr_loop (Z.to_nat NUM).

(** ** The device

    The device takes the heads of chains from the avail ring in order, and
    completes them in any order: it reads the header the first descriptor
    points to, moves the bytes between the disk and the memory the second
    one describes, stores 0 at the status byte of the third, and puts the
    head on the used ring. *)

Definition dev_take (d : vdisk) : option vdisk :=
  if dev_seen d =? avail_idx d then None
  else Some (set_dev (u16 (dev_seen d + 1)) (dev_taken d ++ [avail_ring d (dev_seen d mod NUM)]) d).

(** Bytes [0, n) of [src], from [from] on, at [to] in [dst]. *)
Definition blit (dst src : mem) (to from n : Z) : mem :=
  fun x => if (to <=? x) && (x <? to + n) then src (x - to + from) else dst x.

Definition dev_transfer (id : Z) (d : vdisk) : option vdisk :=
  let x0 := desc d id in
  let x1 := desc d (d_next x0) in
  let x2 := desc d (d_next x1) in
  match d_addr x0, d_addr x1, d_addr x2 with
  | AOp i, AData b, AStatus j =>
      let r := ops d i in
      let at_ := rq_sector r * 512 in
      let d := if rq_type r =? VIRTIO_BLK_T_OUT
               then set_vol (blit (vol d) (vb_data d b) at_ 0 (d_len x1)) d
               else set_vdata (upd (vb_data d) b (blit (vb_data d b) (vol d) 0 at_ (d_len x1))) d in
      Some (set_info_status (upd (info_status d) j 0) d)
  | _, _, _ => None
  end.

(** Completion of the [k]-th chain it works on. *)
Definition dev_done (k : nat) (d : vdisk) : option vdisk :=
  match dev_taken d !! k with
  | None => None
  | Some id =>
      match dev_transfer id d with
      | None => None
      | Some d => Some (set_usedring (upd (used_ring d) (used_dev d mod NUM) id) (u16 (used_dev d + 1)) (set_dev (dev_seen d) (delete k (dev_taken d)) d))
      end
  end.
End virtio.
