(* ===== verification/VirtioSpec.v ===== *)
(** * The disk driver and its device

    Calls of [virtio_disk_rw], interrupts and the device interleave.  On
    every such run the driver and the device together behave as a disk
    whose block reads and writes happen at one moment between call and
    return, and no call sleeps while it could go on. *)

From S2P Require Import Prelude Memory Virtio.

(** A call of [virtio_disk_rw] that has not returned. *)
Record call := Call { c_buf : Z; c_write : bool; c_pc : rwpc; c_asleep : bool }.

Definition sleeps_on (c : call) : vchan := match c_pc c with PAlloc => ChFree | PWait _ _ _ => ChBuf (c_buf c) end.
#[export] Instance vchan_eq_dec : EqDecision vchan.
Proof. solve_decision. Defined.

(** The effect of the wakeups of a step. *)
Definition awaken (w : list vchan) (c : call) : call :=
  if bool_decide (sleeps_on c ∈ w) then Call (c_buf c) (c_write c) (c_pc c) false else c.
Definition settle (d : vdisk) (cs : list call) : vdisk * list call := (set_wakes [] d, awaken (wakes d) <$> cs).

Section system.
Variable blockno : Z -> Z.

(** The variables of the driver are zero at boot, whatever the buffers and
    the disk hold. *)
Definition vboot (fl : Z -> Z) (data : Z -> mem) (v : mem) : vdisk :=
  VDisk (fun _ => VDesc ANull 0 0 0) (fun _ => 0) 0 (fun _ => 0) 0 (fun _ => 0) 0 (fun _ => None) (fun _ => 0)
    (fun _ => BlkReq 0 0 0) fl data v 0 [] [].

Inductive vstep : vdisk * list call -> vdisk * list call -> Prop :=
| v_call d cs b w :
    (* the caller has the buffer locked, and the disk has the block *)
    b ∉ c_buf <$> cs -> 0 <= blockno b < 2 ^ 31 ->
    vstep (d, cs) (d, cs ++ [Call b w PAlloc false])
| v_sleep d d' cs1 cs2 b w p p' :
    virtio_disk_rw blockno b w p d = Ret (Some p') d' ->
    vstep (d, cs1 ++ Call b w p false :: cs2)
      (set_wakes [] d', (awaken (wakes d') <$> cs1) ++ Call b w p' true :: (awaken (wakes d') <$> cs2))
| v_return d d' cs1 cs2 b w p :
    virtio_disk_rw blockno b w p d = Ret None d' ->
    vstep (d, cs1 ++ Call b w p false :: cs2) (settle d' (cs1 ++ cs2))
| v_intr d d' cs : virtio_disk_intr d = Ret tt d' -> vstep (d, cs) (settle d' cs)
| v_take d d' cs : dev_take d = Some d' -> vstep (d, cs) (d', cs)
| v_done d d' k cs : dev_done k d = Some d' -> vstep (d, cs) (d', cs)
| v_store d cs b m : b ∉ c_buf <$> cs -> vstep (d, cs) (set_vdata (upd (vb_data d) b m) d, cs).

Inductive vreach : vdisk * list call -> Prop :=
| vr_init R kd ka ku fl data v regs d :
    virtio_disk_init R kd ka ku ([], vboot fl data v) = Ret tt (regs, d) -> vreach (d, [])
| vr_step s s' : vreach s -> vstep s s' -> vreach s'.

(** ** The abstract disk *)

Record adisk := ADisk { a_vol : mem; a_data : Z -> mem; a_calls : list (Z * bool * bool) }.

Definition transfer (b : Z) (w : bool) (v : mem) (data : Z -> mem) : mem * (Z -> mem) :=
  if w then (blit v (data b) (blockno b * BSIZE) 0 BSIZE, data)
  else (v, upd data b (blit (data b) v 0 (blockno b * BSIZE) BSIZE)).

(** The calls carry whether their transfer has happened. *)
Inductive astep : adisk -> adisk -> Prop :=
| a_call v m cs b w : astep (ADisk v m cs) (ADisk v m (cs ++ [(b, w, false)]))
| a_perform v m cs1 cs2 b w v' m' :
    transfer b w v m = (v', m') ->
    astep (ADisk v m (cs1 ++ (b, w, false) :: cs2)) (ADisk v' m' (cs1 ++ (b, w, true) :: cs2))
| a_return v m cs1 cs2 b w : astep (ADisk v m (cs1 ++ (b, w, true) :: cs2)) (ADisk v m (cs1 ++ cs2))
| a_store v m cs b x : b ∉ (fun c => c.1.1) <$> cs -> astep (ADisk v m cs) (ADisk v (upd m b x) cs).

Definition performed (d : vdisk) (c : call) : bool :=
  match c_pc c with PAlloc => false | PWait i0 _ _ => info_status d i0 =? 0 end.
Definition abs_call (d : vdisk) (c : call) : Z * bool * bool := (c_buf c, c_write c, performed d c).
Definition abs (s : vdisk * list call) : adisk := ADisk (vol s.1) (vb_data s.1) (abs_call s.1 <$> s.2).

(** ** The invariant *)

Definition indices (c : call) : list Z := match c_pc c with PAlloc => [] | PWait i0 i1 i2 => [i0; i1; i2] end.
Definition heads (c : call) : list Z := match c_pc c with PAlloc => [] | PWait i0 _ _ => [i0] end.
Definition free_list (d : vdisk) : list Z := filter (fun i => dfree d i <> 0) (seqZ 0 NUM).

(** The entries of a ring between two 16-bit indices. *)
Definition window (ring : Z -> Z) (from to : Z) (l : list Z) : Prop :=
  0 <= from < 2 ^ 16 /\ to = u16 (from + Z.of_nat (length l)) /\
  forall k x, l !! k = Some x -> ring ((from + Z.of_nat k) mod NUM) = x.

Definition chain_of (d : vdisk) (c : call) : Prop :=
  match c_pc c with
  | PAlloc => True
  | PWait i0 i1 i2 =>
      desc d i0 = VDesc (AOp i0) 16 VRING_DESC_F_NEXT i1 /\
      desc d i1 = VDesc (AData (c_buf c)) BSIZE (Z.lor (if c_write c then 0 else VRING_DESC_F_WRITE) VRING_DESC_F_NEXT) i2 /\
      desc d i2 = VDesc (AStatus i0) 1 VRING_DESC_F_WRITE 0 /\
      ops d i0 = BlkReq (if c_write c then VIRTIO_BLK_T_OUT else VIRTIO_BLK_T_IN) 0 (sector blockno (c_buf c)) /\
      info_b d i0 = Some (c_buf c)
  end.

(** [q]: the heads the device still has to complete; [u]: those completed
    that no interrupt has seen. *)
Definition state_of (d : vdisk) (q u : list Z) (c : call) : Prop :=
  match c_pc c with
  | PAlloc => True
  | PWait i0 _ _ =>
      (info_status d i0 =? 0) = negb (bool_decide (i0 ∈ q)) /\
      (bdisk d (c_buf c) = if bool_decide (i0 ∈ q ++ u) then 1 else 0)
  end.

Definition rests (d : vdisk) (c : call) : Prop :=
  c_asleep c = true ->
  match c_pc c with
  | PAlloc => (length (free_list d) < 3)%nat
  | PWait _ _ _ => bdisk d (c_buf c) = 1
  end.

Record vcore (d : vdisk) (cs : list call) (qa u : list Z) : Prop := VCore {
  vi_perm : (cs ≫= indices) ++ free_list d ≡ₚ seqZ 0 NUM;
  vi_bufs : NoDup (c_buf <$> cs);
  vi_block : Forall (fun c => 0 <= blockno (c_buf c) < 2 ^ 31) cs;
  vi_chain : Forall (chain_of d) cs;
  vi_avail : window (avail_ring d) (dev_seen d) (avail_idx d) qa;
  vi_used : window (used_ring d) (used_idx d) (used_dev d) u;
  vi_heads : NoDup (qa ++ dev_taken d ++ u);
  vi_known : Forall (fun i => i ∈ (cs ≫= heads)) (qa ++ dev_taken d ++ u);
  vi_state : Forall (state_of d (qa ++ dev_taken d) u) cs
}.

Definition vinv (s : vdisk * list call) : Prop :=
  (exists qa u, vcore s.1 s.2 qa u) /\ Forall (rests s.1) s.2 /\ wakes s.1 = [].
End system.

(** ** Rings *)

Lemma window_push r f t l x :
  window r f t l -> (length l < 8)%nat -> window (upd r (t mod NUM) x) f (u16 (t + 1)) (l ++ [x]).
Proof.
  intros (Hf & -> & Hl) Hn. split; [done|split].
  - rewrite length_app. unfold u16. cbn [length]. Z.to_euclidean_division_equations; lia.
  - intros k y [Hk | [Hk Hy]]%lookup_app_Some.
    + rewrite upd_ne; [by apply Hl|]. apply lookup_lt_Some in Hk. unfold u16, NUM.
      Z.to_euclidean_division_equations; lia.
    + apply list_lookup_singleton_Some in Hy as [? ->].
      replace ((f + Z.of_nat k) mod NUM) with (u16 (f + Z.of_nat (length l)) mod NUM); [apply upd_eq|].
      replace k with (length l) by lia. unfold u16, NUM. Z.to_euclidean_division_equations; lia.
Qed.

Lemma window_pop r f t x l :
  window r f t (x :: l) -> r (f mod NUM) = x /\ window r (u16 (f + 1)) t l.
Proof.
  intros (Hf & -> & Hl). split; [|split; [|split]].
  - rewrite <- (Hl 0%nat x eq_refl). f_equal. f_equal. lia.
  - unfold u16. Z.to_euclidean_division_equations; lia.
  - cbn [length]. unfold u16. Z.to_euclidean_division_equations; lia.
  - intros k y Hk. rewrite <- (Hl (S k) y Hk). f_equal. unfold u16, NUM. Z.to_euclidean_division_equations; lia.
Qed.

Lemma window_end r f t l : window r f t l -> (length l < 8)%nat -> (f = t <-> l = []).
Proof.
  intros (Hf & -> & _) Hn. destruct l as [|x l]; cbn [length] in *; unfold u16; split; intros H; try done;
    Z.to_euclidean_division_equations; lia.
Qed.

(** ** Descriptors *)

Lemma list_find_head {A} (P : A -> Prop) `{!forall x, Decision (P x)} l : snd <$> list_find P l = head (filter P l).
Proof.
  induction l as [|x l IH]; [done|]. cbn [list_find]. rewrite filter_cons. destruct (decide (P x)); [done|].
  rewrite <- IH. by destruct (list_find P l) as [[??]|].
Qed.

Lemma alloc_desc_eq d :
  alloc_desc d = match free_list d with [] => Ret (-1) d | i :: _ => Ret i (set_dfree (upd (dfree d) i 0) d) end.
Proof.
  unfold alloc_desc, kbind, kget, free_list.
  pose proof (list_find_head (fun i => dfree d i <> 0) (seqZ 0 NUM)) as H.
  destruct (list_find _ _) as [[k i]|], (filter _ _); try done. by injection H as ->.
Qed.

Lemma NoDup_filter_cons `{EqDecision A} (P Q : A -> Prop) `{!forall x, Decision (P x), !forall x, Decision (Q x)} l x l' :
  NoDup l -> filter P l = x :: l' -> (forall y, Q y <-> P y /\ y <> x) -> filter Q l = l'.
Proof.
  intros Hn Hf HQ. trans (filter (fun y => y <> x) (filter P l)).
  - rewrite list_filter_filter. apply list_filter_iff. intros y. rewrite HQ. tauto.
  - assert (NoDup (x :: l')) as [Hx _]%NoDup_cons by (rewrite <- Hf; by apply NoDup_filter).
    rewrite Hf, filter_cons_False by tauto. clear -Hx.
    induction l' as [|y l' IH]; [done|]. apply not_elem_of_cons in Hx as [? Hx].
    by rewrite filter_cons_True, IH by done.
Qed.

Lemma free_list_take d i F :
  free_list d = i :: F -> free_list (set_dfree (upd (dfree d) i 0) d) = F.
Proof.
  intros H. eapply NoDup_filter_cons; [apply NoDup_seqZ|exact H|]. intros j. cbn. unfold upd.
  destruct (Z.eqb_spec j i); naive_solver.
Qed.

Lemma free_list_ext d d' : (forall i, dfree d' i <> 0 <-> dfree d i <> 0) -> free_list d' = free_list d.
Proof. intros H. apply list_filter_iff. exact H. Qed.

Definition freed_desc (i : Z) (d : vdisk) : vdisk :=
  set_wakes (ChFree :: wakes d) (set_dfree (upd (dfree d) i 1) (set_desc (upd (desc d) i (VDesc ANull 0 0 0)) d)).

(** A permutation: the place of a descriptor on the list depends on its index. *)
Lemma free_list_freed i d : 0 <= i < NUM -> dfree d i = 0 -> free_list (freed_desc i d) ≡ₚ i :: free_list d.
Proof.
  intros Hi H0. unfold free_list. apply NoDup_Permutation.
  - apply NoDup_filter, NoDup_seqZ.
  - apply NoDup_cons. split; [|apply NoDup_filter, NoDup_seqZ]. rewrite list_elem_of_filter. naive_solver.
  - intros j. rewrite elem_of_cons, !list_elem_of_filter, elem_of_seqZ. cbn. unfold upd.
    destruct (Z.eqb_spec j i); naive_solver lia.
Qed.

Lemma free_desc_eq i d : i < NUM -> dfree d i = 0 -> free_desc i d = Ret tt (freed_desc i d).
Proof.
  intros Hi H0. unfold free_desc. rewrite Z.geb_leb, (proj2 (Z.leb_gt _ _)) by done.
  unfold kbind, kget. cbn. by rewrite H0.
Qed.

Lemma elem_of_free_list d i : i ∈ free_list d <-> dfree d i <> 0 /\ 0 <= i < NUM.
Proof. unfold free_list. rewrite list_elem_of_filter, elem_of_seqZ. lia. Qed.

Lemma alloc_more_take k idx d i F :
  free_list d = i :: F -> alloc_more (S k) idx d = alloc_more k (idx ++ [i]) (set_dfree (upd (dfree d) i 0) d).
Proof.
  intros H. cbn [alloc_more]. unfold kbind at 1. rewrite alloc_desc_eq, H.
  assert (i ∈ free_list d) as [_ Hi]%elem_of_free_list by (rewrite H; left).
  by rewrite (proj2 (Z.ltb_ge _ _)) by lia.
Qed.

Lemma alloc_more_none k idx d :
  free_list d = [] -> alloc_more (S k) idx d = (do! for_each idx free_desc; kret None) d.
Proof. intros H. cbn [alloc_more]. unfold kbind at 1. by rewrite alloc_desc_eq, H. Qed.

(** The call has its three descriptors. *)
Definition took (d : vdisk) (i0 i1 i2 : Z) : vdisk := set_dfree (upd (upd (upd (dfree d) i0 0) i1 0) i2 0) d.

Lemma alloc3_desc_ok d i0 i1 i2 F :
  free_list d = i0 :: i1 :: i2 :: F ->
  alloc3_desc d = Ret (Some [i0; i1; i2]) (took d i0 i1 i2) /\ free_list (took d i0 i1 i2) = F.
Proof.
  intros H0. pose proof (free_list_take _ _ _ H0) as H1. pose proof (free_list_take _ _ _ H1) as H2.
  pose proof (free_list_take _ _ _ H2) as H3. unfold alloc3_desc.
  rewrite (alloc_more_take _ _ _ _ _ H0), (alloc_more_take _ _ _ _ _ H1), (alloc_more_take _ _ _ _ _ H2).
  split; [done|exact H3].
Qed.

(** What a failed allocation may have touched. *)
Definition tidied (d d' : vdisk) : Prop :=
  exists ds fr w, d' = set_wakes w (set_dfree fr (set_desc ds d)) /\ free_list d' = free_list d /\
    (forall i, i ∉ free_list d -> ds i = desc d i).

Lemma alloc3_desc_fails d : (length (free_list d) < 3)%nat -> exists d', alloc3_desc d = Ret None d' /\ tidied d d'.
Proof.
  intros Hl. destruct (free_list d) as [|i0 [|i1 [|i2 F]]] eqn:H0; cbn in Hl; try lia; unfold alloc3_desc.
  - rewrite alloc_more_none by done. eexists. split; [done|]. exists (desc d), (dfree d), (wakes d).
    by destruct d.
  - pose proof (free_list_take _ _ _ H0) as H1.
    assert (i0 ∈ free_list d) as [Hf0 Hi0]%elem_of_free_list by (rewrite H0; left).
    rewrite (alloc_more_take _ _ _ _ _ H0), alloc_more_none by done. cbn [app for_each]. unfold kbind.
    rewrite free_desc_eq by (cbn; first [lia | apply upd_eq]). eexists. split; [done|].
    exists (upd (desc d) i0 (VDesc ANull 0 0 0)). do 2 eexists. split; [done|]. split.
    + apply free_list_ext. intros i. cbn. unfold upd. destruct (Z.eqb_spec i i0); naive_solver.
    + rewrite H0. intros i Hi. cbn. rewrite upd_ne; [done|]. set_solver.
  - pose proof (free_list_take _ _ _ H0) as H1. pose proof (free_list_take _ _ _ H1) as H2.
    assert (i0 ∈ free_list d) as [Hf0 Hi0]%elem_of_free_list by (rewrite H0; left).
    assert (i1 ∈ free_list d) as [Hf1 Hi1]%elem_of_free_list by (rewrite H0; right; left).
    assert (NoDup (free_list d)) as Hn by apply NoDup_filter, NoDup_seqZ.
    rewrite H0, !NoDup_cons in Hn. destruct Hn as [Hn _]. assert (i0 <> i1) by set_solver.
    rewrite (alloc_more_take _ _ _ _ _ H0), (alloc_more_take _ _ _ _ _ H1), alloc_more_none by done.
    cbn [app for_each]. unfold kbind.
    rewrite free_desc_eq by (cbn; first [lia | rewrite upd_ne by done; apply upd_eq]).
    rewrite free_desc_eq by (cbn; first [lia | rewrite upd_ne by congruence; apply upd_eq]).
    eexists. split; [done|].
    exists (upd (upd (desc d) i0 (VDesc ANull 0 0 0)) i1 (VDesc ANull 0 0 0)). do 2 eexists. split; [done|]. split.
    + apply free_list_ext. intros i. cbn. unfold upd. destruct (Z.eqb_spec i i0), (Z.eqb_spec i i1); naive_solver.
    + rewrite H0. intros i Hi. cbn. rewrite !upd_ne; [done|set_solver..].
Qed.

(** ** Preservation *)

Section invariant.
Variable blockno : Z -> Z.
#[local] Notation "'core'" := (vcore blockno).

Lemma heads_indices c i : i ∈ heads c -> i ∈ indices c.
Proof. unfold heads, indices. destruct (c_pc c); set_solver. Qed.

Lemma chain_of_ext d d' c :
  chain_of blockno d c -> (forall i, i ∈ indices c -> desc d' i = desc d i) ->
  (forall i, i ∈ heads c -> ops d' i = ops d i /\ info_b d' i = info_b d i) -> chain_of blockno d' c.
Proof.
  unfold chain_of, indices, heads. destruct (c_pc c) as [|i0 i1 i2]; [done|]. intros H Hd Hh.
  destruct (Hh i0) as [-> ->]; [set_solver|]. by rewrite !Hd by set_solver.
Qed.

Lemma state_of_ext d d' q u q' u' c :
  state_of d q u c -> bdisk d' (c_buf c) = bdisk d (c_buf c) ->
  (forall i, i ∈ heads c -> info_status d' i = info_status d i /\ (i ∈ q' <-> i ∈ q) /\ (i ∈ q' ++ u' <-> i ∈ q ++ u)) ->
  state_of d' q' u' c.
Proof.
  unfold state_of, heads. destruct (c_pc c) as [|i0 i1 i2]; [done|]. intros [Hs Hb] -> Hh.
  destruct (Hh i0) as (-> & H1 & H2); [set_solver|]. rewrite Hs, Hb.
  by rewrite (bool_decide_ext _ _ H1), (bool_decide_ext _ _ H2).
Qed.

Lemma core_perm d cs cs' qa u : cs ≡ₚ cs' -> core d cs qa u -> core d cs' qa u.
Proof.
  intros Hp []. split; try done.
  all: try (by rewrite <- Hp). 
  eapply Forall_impl; [done|]. intros i Hi. by rewrite <- Hp.
Qed.

Lemma core_nodup d c cs qa u :
  core d (c :: cs) qa u -> NoDup (indices c ++ (cs ≫= indices) ++ free_list d).
Proof.
  intros []. assert (NoDup (seqZ 0 NUM)) as Hn by apply NoDup_seqZ. rewrite <- vi_perm0 in Hn.
  by rewrite app_assoc.
Qed.

(** A call shares neither descriptors nor its buffer with another one. *)
Lemma core_disjoint d c cs qa u c' :
  core d (c :: cs) qa u -> c' ∈ cs ->
  (forall i, i ∈ indices c' -> (i ∉ indices c) /\ (i ∉ free_list d)) /\ c_buf c' <> c_buf c.
Proof.
  intros H Hc. split.
  - pose proof (core_nodup _ _ _ _ _ H) as Hn. rewrite !NoDup_app in Hn.
    assert (forall i, i ∈ indices c' -> i ∈ (cs ≫= indices)) by (intros; apply list_elem_of_bind; eauto).
    set_solver.
  - destruct H. cbn in vi_bufs0. apply NoDup_cons in vi_bufs0 as [Hb _]. intros Heq. apply Hb.
    rewrite <- Heq. by apply list_elem_of_fmap_2.
Qed.

Lemma indices_heads_length cs : (3 * length (cs ≫= heads) = length (cs ≫= indices))%nat.
Proof.
  induction cs as [|c cs IH]; [done|]. cbn. rewrite !length_app. rewrite <- IH.
  unfold heads, indices. destruct (c_pc c); cbn; lia.
Qed.

Lemma core_short d cs qa u : core d cs qa u -> (length qa + length (dev_taken d) + length u <= 2)%nat.
Proof.
  intros []. pose proof (indices_heads_length cs). apply Permutation_length in vi_perm0.
  rewrite length_app, length_seqZ in vi_perm0. change (Z.to_nat NUM) with 8%nat in vi_perm0.
  enough (length (qa ++ dev_taken d ++ u) <= length (cs ≫= heads))%nat as Hl by (rewrite !length_app in Hl; lia).
  apply submseteq_length, NoDup_submseteq; [done|]. by apply Forall_forall.
Qed.

Lemma core_asleep d c cs qa u : core d (Call (c_buf c) (c_write c) (c_pc c) false :: cs) qa u <-> core d (c :: cs) qa u.
Proof.
  split; intros []; split; try done; cbn in *.
  all: rewrite Forall_cons in *; done.
Qed.

Lemma core_tidied d d' cs qa u : tidied d d' -> core d cs qa u -> core d' cs qa u.
Proof.
  intros (ds & fr & w & -> & Hf & Hd) H. destruct (H) as []. split; try done; cbn.
  - by rewrite Hf.
  - apply Forall_forall. intros c Hc. rewrite Forall_forall in vi_chain0. eapply chain_of_ext; [by apply vi_chain0| |done].
    intros i Hi. cbn. apply Hd. apply list_elem_of_split in Hc as (l1 & l2 & ->).
    apply (core_perm _ _ (c :: l1 ++ l2)) in H; [|symmetry; apply Permutation_middle].
    pose proof (core_nodup _ _ _ _ _ H) as Hn.
    rewrite !NoDup_app in Hn. set_solver.
Qed.

Lemma core_submit d b w a a' cs qa u i0 i1 i2 F :
  core d (Call b w PAlloc a :: cs) qa u -> free_list d = i0 :: i1 :: i2 :: F ->
  exists d', submit blockno b w i0 i1 i2 (took d i0 i1 i2) = Ret tt d' /\
    core d' (Call b w (PWait i0 i1 i2) a' :: cs) (qa ++ [i0]) u /\
    bdisk d' b = 1 /\ (forall b', b' <> b -> bdisk d' b' = bdisk d b') /\ free_list d' = F /\ wakes d' = wakes d /\
    vol d' = vol d /\ vb_data d' = vb_data d /\ abs_call d' (Call b w (PWait i0 i1 i2) a') = (b, w, false) /\
    (forall c, c ∈ cs -> abs_call d' c = abs_call d c).
Proof.
  intros H HF. pose proof (alloc3_desc_ok _ _ _ _ _ HF) as [_ HF'].
  pose proof (core_nodup _ _ _ _ _ H) as Hn. pose proof (core_short _ _ _ _ H) as Hlen.
  eexists. split; [reflexivity|]. 
  assert (forall c, c ∈ cs -> forall i, i ∈ indices c -> i <> i0 /\ i <> i1 /\ i <> i2) as Hne.
  { intros c Hc i Hi. destruct (core_disjoint _ _ _ _ _ _ H Hc) as [Hd _]. destruct (Hd i Hi) as [_ Hx].
    rewrite HF in Hx. set_solver. }
  assert (forall c, c ∈ cs -> c_buf c <> b) as Hnb by (intros c Hc; by destruct (core_disjoint _ _ _ _ _ _ H Hc)).
  assert (i0 ∉ qa ++ dev_taken d ++ u) as Hnq.
  { intros Hi. destruct H. rewrite Forall_forall in vi_known0. apply vi_known0 in Hi. cbn in Hi.
    apply list_elem_of_bind in Hi as (c & Hc & Hi). destruct (Hne c Hi i0); [by apply heads_indices|done]. }
  rewrite HF, app_nil_l in Hn. apply NoDup_app in Hn as (_ & _ & Hn). rewrite !NoDup_cons in Hn.
  destruct Hn as (Hn0 & Hn1 & _). assert (i0 <> i1 /\ i0 <> i2 /\ i1 <> i2) as (? & ? & ?) by set_solver.
  split; [|split_and!; cbn].
  2: apply upd_eq. 2: intros; by apply upd_ne. 2: exact HF'. 2-4: done.
  2: { unfold abs_call, performed. cbn. by rewrite upd_eq. }
  2: { intros c Hc. unfold abs_call, performed. destruct (c_pc c) as [|j0 j1 j2] eqn:Hpc; [done|]. cbn.
       rewrite upd_ne; [done|]. apply (Hne c Hc). unfold indices. rewrite Hpc. left. }
  destruct H. split; cbn -[window] in *.
  - change (free_list _) with (free_list (took d i0 i1 i2)). rewrite HF', <- vi_perm0, HF. 
    rewrite <- (Permutation_app_comm F). rewrite <- (Permutation_app_comm (_ :: _)). cbn. done.
  - done.
  - by apply Forall_cons in vi_block0 as [? ?]; apply Forall_cons.
  - apply Forall_cons in vi_chain0 as [_ Hc]. apply Forall_cons. split.
    + unfold chain_of. cbn. rewrite !upd_eq, !(upd_ne _ i2), !(upd_ne _ i1), !upd_eq by congruence. split_and!; reflexivity.
    + rewrite Forall_forall in Hc |- *. intros c Hin. eapply chain_of_ext; [by apply Hc| |].
      * intros i Hi. cbn. destruct (Hne c Hin i Hi) as (? & ? & ?). by rewrite !upd_ne.
      * intros i Hi%heads_indices. cbn. destruct (Hne c Hin i Hi) as (? & ? & ?). by rewrite !upd_ne.
  - apply window_push; [done|lia].
  - done.
  - rewrite <- app_assoc. cbn. rewrite <- Permutation_middle. apply NoDup_cons. done.
  - rewrite <- app_assoc. cbn. rewrite <- Permutation_middle. apply Forall_cons. split; [left|].
    eapply Forall_impl; [done|]. intros i Hi. by right.
  - apply Forall_cons in vi_state0 as [_ Hc]. apply Forall_cons. split.
    + unfold state_of. cbn. rewrite !upd_eq, !bool_decide_eq_true_2 by set_solver. done.
    + rewrite Forall_forall in Hc |- *. intros c Hin. eapply state_of_ext; [by apply Hc| |].
      * cbn. by apply upd_ne, Hnb.
      * intros i Hi%heads_indices. cbn. destruct (Hne c Hin i Hi) as (? & ? & ?). rewrite upd_ne by done. set_solver.
Qed.

Lemma free_chain_step f i d x :
  0 <= i < NUM -> dfree d i = 0 -> desc d i = x ->
  free_chain (S f) i d = (if negb (Z.land (d_flags x) VRING_DESC_F_NEXT =? 0) then free_chain f (d_next x) else kret tt) (freed_desc i d).
Proof. intros Hi H0 <-. cbn [free_chain]. unfold kbind at 1 2, kget. by rewrite free_desc_eq by lia. Qed.

(** The three descriptors of a call are in use, distinct and in the table. *)
Lemma core_taken d b w i0 i1 i2 a cs qa u :
  core d (Call b w (PWait i0 i1 i2) a :: cs) qa u ->
  (dfree d i0 = 0 /\ dfree d i1 = 0 /\ dfree d i2 = 0) /\
  (0 <= i0 < NUM /\ 0 <= i1 < NUM /\ 0 <= i2 < NUM) /\ i0 <> i1 /\ i0 <> i2 /\ i1 <> i2.
Proof.
  intros H. pose proof (core_nodup _ _ _ _ _ H) as Hn. destruct H. cbn in *.
  assert (forall i, i ∈ [i0; i1; i2] -> 0 <= i < NUM) as Hr.
  { intros i Hi. enough (i ∈ seqZ 0 NUM) as ?%elem_of_seqZ by lia. rewrite <- vi_perm0. set_solver. }
  assert (forall i, i ∈ [i0; i1; i2] -> dfree d i = 0) as Hz.
  { intros i Hi. destruct (decide (dfree d i = 0)) as [|Hz]; [done|].
    assert (i ∈ free_list d) by (apply elem_of_free_list; eauto).
    change (NoDup ([i0; i1; i2] ++ (cs ≫= indices) ++ free_list d)) in Hn. apply NoDup_app in Hn as (_ & Hd & _).
    destruct (Hd i Hi). apply elem_of_app. by right. }
  rewrite !NoDup_cons in Hn. destruct Hn as (Hn0 & Hn1 & _).
  split; [split_and!; apply Hz; set_solver|]. split; [split; [|split]; apply Hr; set_solver|].
  clear -Hn0 Hn1. set_solver.
Qed.

Lemma free_chain_eq d b w i0 i1 i2 a cs qa u :
  core d (Call b w (PWait i0 i1 i2) a :: cs) qa u ->
  let d1 := set_info_b (upd (info_b d) i0 None) d in
  free_chain (Z.to_nat NUM) i0 d1 = Ret tt (freed_desc i2 (freed_desc i1 (freed_desc i0 d1))).
Proof.
  intros H d1. destruct (core_taken _ _ _ _ _ _ _ _ _ _ H) as ((? & ? & ?) & (? & ? & ?) & ? & ? & ?).
  destruct H. apply Forall_cons in vi_chain0 as [(D0 & D1 & D2 & _) _]. cbn in D0, D1, D2.
  change (Z.to_nat NUM) with 8%nat.
  erewrite free_chain_step; [|done|done|exact D0]. cbn [d_flags d_next].
  replace (negb _) with true by done. cbv iota.
  erewrite free_chain_step; [|done|cbn; by rewrite upd_ne by congruence|cbn; rewrite upd_ne by congruence; exact D1].
  cbn [d_flags d_next]. replace (negb _) with true by (by destruct w). cbv iota.
  erewrite free_chain_step; [|done|cbn; by rewrite !upd_ne by congruence|cbn; rewrite !upd_ne by congruence; exact D2].
  done.
Qed.

Lemma core_return d b w i0 i1 i2 a cs qa u :
  core d (Call b w (PWait i0 i1 i2) a :: cs) qa u -> bdisk d b <> 1 ->
  exists d', wait_done b i0 i1 i2 d = Ret None d' /\ core d' cs qa u /\
    bdisk d' = bdisk d /\ ChFree ∈ wakes d' /\ performed d (Call b w (PWait i0 i1 i2) a) = true /\
    vol d' = vol d /\ vb_data d' = vb_data d /\ info_status d' = info_status d.
Proof.
  intros H Hb. pose proof (core_taken _ _ _ _ _ _ _ _ _ _ H) as ((? & ? & ?) & (? & ? & ?) & ? & ? & ?).
  pose proof (free_chain_eq _ _ _ _ _ _ _ _ _ _ H) as Hfc. cbn zeta in Hfc.
  unfold wait_done, kbind, kget, kupd. rewrite (proj2 (Z.eqb_neq _ _) Hb), Hfc.
  eexists. split; [reflexivity|].
  assert (forall c i, c ∈ cs -> i ∈ indices c -> i <> i0 /\ i <> i1 /\ i <> i2) as Hne.
  { intros c i Hc Hi. destruct (core_disjoint _ _ _ _ _ _ H Hc) as [Hd _]. destruct (Hd i Hi) as [Hx _].
    cbn in Hx. set_solver. }
  destruct H. apply Forall_cons in vi_state0 as [[Hs Hd] Hst]. cbn in Hs, Hd.
  unfold performed. cbn [c_pc]. rewrite Hs. destruct (bool_decide_reflect (i0 ∈ (qa ++ dev_taken d) ++ u)) as [Hin|Hin]; [done|].
  assert (i0 ∉ qa ++ dev_taken d) by set_solver. rewrite bool_decide_eq_false_2 by done.
  split_and!; try done; [|left].
  apply Forall_cons in vi_block0 as [_ Hblk]. apply Forall_cons in vi_chain0 as [_ Hch].
  cbn [fmap list_fmap] in vi_bufs0. apply NoDup_cons in vi_bufs0 as [_ Hbufs].
  split; try done; cbn -[free_list freed_desc].
  - rewrite !free_list_freed by (cbn; rewrite ?upd_ne by congruence; done).
    rewrite <- vi_perm0. cbn. change (free_list (set_info_b _ _)) with (free_list d). solve_Permutation.
  - rewrite Forall_forall in Hch |- *. intros c Hc. eapply chain_of_ext; [by apply Hch| |].
    + intros i Hi. destruct (Hne c i Hc Hi) as (? & ? & ?). cbn. by rewrite !upd_ne.
    + intros i Hi%heads_indices. destruct (Hne c i Hc Hi) as (? & ? & ?). cbn. by rewrite !upd_ne.
  - rewrite Forall_forall in vi_known0 |- *. intros i Hi. specialize (vi_known0 i Hi). cbn in vi_known0. set_solver.
Qed.

Lemma core_take d cs qa u :
  core d cs qa u ->
  match dev_take d with
  | None => qa = []
  | Some d' => exists x qa', qa = x :: qa' /\ core d' cs qa' u /\
      d' = set_dev (u16 (dev_seen d + 1)) (dev_taken d ++ [x]) d
  end.
Proof.
  intros H. pose proof (core_short _ _ _ _ H) as Hlen. unfold dev_take. destruct H.
  pose proof (window_end _ _ _ _ vi_avail0 ltac:(lia)) as He. destruct (Z.eqb_spec (dev_seen d) (avail_idx d)) as [E|E]; [by apply He|].
  destruct qa as [|x qa']; [naive_solver|]. destruct (window_pop _ _ _ _ _ vi_avail0) as [-> Hw].
  exists x, qa'. split; [done|]. split; [|done].
  assert ((x :: qa') ++ dev_taken d ≡ₚ qa' ++ dev_taken d ++ [x]) as Hp by solve_Permutation.
  split; try done; cbn -[window].
  - rewrite app_assoc, <- Hp, <- app_assoc. done.
  - rewrite app_assoc, <- Hp, <- app_assoc. done.
  - rewrite Forall_forall in vi_state0 |- *. intros c Hc. eapply state_of_ext; [by apply vi_state0|done|].
    intros i _. cbn [info_status set_dev]. by rewrite <- Hp.
Qed.

(** The call a known chain belongs to. *)
Lemma core_owner d cs qa u id :
  core d cs qa u -> id ∈ qa ++ dev_taken d ++ u ->
  exists cs1 b w i1 i2 a cs2, cs = cs1 ++ Call b w (PWait id i1 i2) a :: cs2.
Proof.
  intros [] Hid. rewrite Forall_forall in vi_known0. apply vi_known0, list_elem_of_bind in Hid as (c & Hi & Hc).
  apply list_elem_of_split in Hc as (cs1 & cs2 & ->). destruct c as [b w [|i0 i1 i2] a]; cbn in Hi; [set_solver|].
  apply list_elem_of_singleton in Hi as <-. eauto 10.
Qed.

Lemma core_middle d cs1 c cs2 qa u : core d (cs1 ++ c :: cs2) qa u <-> core d (c :: cs1 ++ cs2) qa u.
Proof. split; apply core_perm; [symmetry|]; apply Permutation_middle. Qed.

Lemma dev_transfer_eq d b w id i1 i2 a :
  chain_of blockno d (Call b w (PWait id i1 i2) a) -> 0 <= blockno b < 2 ^ 31 ->
  dev_transfer id d =
    let '(v, m) := transfer blockno b w (vol d) (vb_data d) in
    Some (set_info_status (upd (info_status d) id 0) (set_vdata m (set_vol v d))).
Proof.
  intros (D0 & D1 & D2 & D3 & _) Hb. cbn in *. unfold dev_transfer. rewrite D0. cbn. rewrite D1. cbn. rewrite D2, D3.
  cbn. assert (sector blockno b * 512 = blockno b * BSIZE) as ->.
  { unfold sector, u32, BSIZE. change (1024 / 512) with 2. Z.to_euclidean_division_equations; lia. }
  unfold transfer. by destruct w, d.
Qed.

Lemma core_done d cs qa u k id :
  core d cs qa u -> dev_taken d !! k = Some id ->
  exists d' cs1 b w i1 i2 a cs2, cs = cs1 ++ Call b w (PWait id i1 i2) a :: cs2 /\ dev_done k d = Some d' /\
    core d' cs qa (u ++ [id]) /\ transfer blockno b w (vol d) (vb_data d) = (vol d', vb_data d') /\
    wakes d' = wakes d /\ bdisk d' = bdisk d /\ free_list d' = free_list d /\
    info_status d' = upd (info_status d) id 0 /\ (info_status d id =? 0) = false.
Proof.
  intros H Hk. pose proof (core_short _ _ _ _ H) as Hlen. pose proof (list_elem_of_lookup_2 _ _ _ Hk) as Hin.
  destruct (core_owner _ _ _ _ id H ltac:(set_solver)) as (cs1 & b & w & i1 & i2 & a & cs2 & ->).
  pose proof (proj1 (core_middle _ _ _ _ _ _) H) as Hm. pose proof Hm as Hm'. destruct Hm'.
  apply Forall_cons in vi_chain0 as [Hch Hchs]. pose proof (Forall_inv vi_block0) as Hblk. cbn in Hblk.
  pose proof (dev_transfer_eq _ _ _ _ _ _ _ Hch Hblk) as Ht.
  destruct (transfer blockno b w (vol d) (vb_data d)) as [v m] eqn:Htr.
  eexists. exists cs1, b, w, i1, i2, a, cs2. split; [done|].
  split; [unfold dev_done; rewrite Hk, Ht; reflexivity|].
  assert ((info_status d id =? 0) = false) as Hst.
  { apply Forall_cons in vi_state0 as [[Hs _] _]. cbn in Hs. rewrite Hs, bool_decide_eq_true_2 by set_solver. done. }
  split; [|done]. apply core_middle.
  pose proof (take_drop_middle _ _ _ Hk) as Hspl. set (l1 := take k (dev_taken d)) in *. set (l2 := drop (S k) (dev_taken d)) in *.
  assert (delete k (dev_taken d) = l1 ++ l2) as Hdel by (apply delete_take_drop).
  assert (qa ++ dev_taken d ++ u ≡ₚ qa ++ (l1 ++ l2) ++ u ++ [id]) as Hp by (rewrite <- Hspl; solve_Permutation).
  assert (id ∉ qa ++ (l1 ++ l2)) as Hni.
  { assert (NoDup (id :: qa ++ l1 ++ l2 ++ u)) as [? _]%NoDup_cons; [|set_solver].
    eapply NoDup_Permutation_proper; [|exact vi_heads0]. rewrite Hp. solve_Permutation. }
  split; try done; cbn -[window]; rewrite ?Hdel.
  - apply Forall_cons. done.
  - apply window_push; [done|lia].
  - by rewrite <- Hp.
  - by rewrite <- Hp.
  - apply Forall_cons in vi_state0 as [[_ Hbd] Hss]. apply Forall_cons. split.
    + split; cbn.
      * by rewrite upd_eq, bool_decide_eq_false_2 by done.
      * cbn in Hbd. rewrite Hbd, !bool_decide_eq_true_2 by set_solver. done.
    + rewrite Forall_forall in Hss |- *. intros c Hc. eapply state_of_ext; [by apply Hss|done|].
      intros i Hi%heads_indices. cbn. destruct (core_disjoint _ _ _ _ _ _ Hm Hc) as [Hd _]. destruct (Hd i Hi) as [Hne _].
      cbn in Hne. rewrite upd_ne by set_solver. rewrite <- Hspl. set_solver.
Qed.

(** What the rest of the system sees of an interrupt. *)
Definition notified (d d' : vdisk) : Prop :=
  vol d' = vol d /\ vb_data d' = vb_data d /\ info_status d' = info_status d /\ dfree d' = dfree d /\
  (forall b, bdisk d' b = bdisk d b \/ ChBuf b ∈ wakes d') /\ (forall ch, ch ∈ wakes d -> ch ∈ wakes d').

Lemma notified_refl d : notified d d.
Proof. split_and!; eauto. Qed.

Lemma notified_trans d1 d2 d3 : notified d1 d2 -> notified d2 d3 -> notified d1 d3.
Proof.
  intros (? & ? & ? & ? & Hb1 & Hw1) (? & ? & ? & ? & Hb2 & Hw2). split_and!; try congruence; [|eauto].
  intros b. destruct (Hb1 b), (Hb2 b); eauto. left. congruence.
Qed.

Lemma core_notice d cs qa id u :
  core d cs qa (id :: u) ->
  used_ring d (used_idx d mod NUM) = id /\ info_status d id = 0 /\
  exists b, info_b d id = Some b /\
    let d' := set_used_idx (u16 (used_idx d + 1)) (set_wakes (ChBuf b :: wakes d) (set_bdisk (upd (bdisk d) b 0) d)) in
    core d' cs qa u /\ notified d d'.
Proof.
  intros H. destruct (core_owner _ _ _ _ id H) as (cs1 & b & w & i1 & i2 & a & cs2 & ->); [set_solver|].
  apply core_middle in H. pose proof H as H'. destruct H'.
  assert (NoDup (id :: qa ++ dev_taken d ++ u)) as Hn.
  { eapply NoDup_Permutation_proper; [|exact vi_heads0]. solve_Permutation. }
  apply NoDup_cons in Hn as [Hid Hn].
  destruct (window_pop _ _ _ _ _ vi_used0) as [Hr Hw]. split; [done|].
  apply Forall_cons in vi_state0 as [[Hs Hb] Hss]. cbn in Hs, Hb.
  rewrite bool_decide_eq_false_2 in Hs by set_solver. split; [by apply Z.eqb_eq|].
  exists b. split; [by apply Forall_cons in vi_chain0 as [(_ & _ & _ & _ & ?) _]|].
  split; cbn zeta.
  2: { split_and!; try done; cbn; [|set_solver]. intros b'. unfold upd. destruct (Z.eqb_spec b' b); set_solver. }
  apply core_middle. split; try done; cbn -[window].
  - rewrite Forall_forall in vi_known0 |- *. intros i Hi. apply vi_known0. set_solver.
  - apply Forall_cons. split.
    + split; cbn; [by rewrite Hs, bool_decide_eq_false_2 by set_solver|].
      rewrite upd_eq, bool_decide_eq_false_2 by set_solver. done.
    + rewrite Forall_forall in Hss |- *. intros c Hc. destruct (core_disjoint _ _ _ _ _ _ H Hc) as [Hd Hnb].
      eapply state_of_ext; [by apply Hss|cbn; by apply upd_ne|].
      intros i Hi%heads_indices. destruct (Hd i Hi) as [Hne _]. cbn in Hne. cbn. set_solver.
Qed.

Lemma core_intr fuel d cs qa u :
  core d cs qa u -> (length u <= fuel)%nat ->
  exists d', intr_loop fuel d = Ret tt d' /\ core d' cs qa [] /\ notified d d'.
Proof.
  revert d u. induction fuel as [|f IH]; intros d u H Hf.
  all: pose proof (core_short _ _ _ _ H) as Hlen; destruct (H) as [_ _ _ _ _ Hw _ _ _].
  all: pose proof (window_end _ _ _ _ Hw ltac:(lia)) as He; destruct u as [|id u].
  2: cbn in Hf; lia.
  1,2: exists d; cbn; unfold kbind, kget; rewrite (proj2 (Z.eqb_eq _ _)) by (by apply He); eauto using notified_refl.
  destruct (core_notice _ _ _ _ _ H) as (Hr & Hs & b & Hb & Hc & Hnt).
  cbn in Hf. destruct (IH _ _ Hc ltac:(lia)) as (d' & Hd' & Hc' & Hn').
  exists d'. split; [|split; [done|by eapply notified_trans]].
  cbn [intr_loop]. unfold kbind at 1, kget at 1. rewrite (proj2 (Z.eqb_neq _ _)) by (by intros E%He).
  rewrite Hr, Hs, Hb. exact Hd'.
Qed.

Lemma core_awaken w ws d cs qa u : core d cs qa u -> core (set_wakes ws d) (awaken w <$> cs) qa u.
Proof.
  assert (forall c, c_buf (awaken w c) = c_buf c /\ c_write (awaken w c) = c_write c /\ c_pc (awaken w c) = c_pc c) as Ha
    by (intros c; unfold awaken; by case_bool_decide).
  assert ((awaken w <$> cs) ≫= indices = cs ≫= indices) as Hi.
  { clear -Ha. induction cs as [|c cs IH]; [done|]. cbn. f_equal; [|exact IH]. unfold indices. by destruct (Ha c) as (_ & _ & ->). }
  assert ((awaken w <$> cs) ≫= heads = cs ≫= heads) as Hh.
  { clear -Ha. induction cs as [|c cs IH]; [done|]. cbn. f_equal; [|exact IH]. unfold heads. by destruct (Ha c) as (_ & _ & ->). }
  intros []. split; rewrite ?Hi, ?Hh; try done; cbn.
  - erewrite <- list_fmap_compose, list_fmap_ext; [exact vi_bufs0|]. intros; by apply Ha.
  - apply Forall_fmap. eapply Forall_impl; [exact vi_block0|]. intros c Hc. unfold compose. destruct (Ha c) as (-> & _). exact Hc.
  - apply Forall_fmap. eapply Forall_impl; [exact vi_chain0|]. intros c. unfold chain_of, compose. by destruct (Ha c) as (-> & -> & ->).
  - apply Forall_fmap. eapply Forall_impl; [exact vi_state0|]. intros c. unfold state_of, compose. by destruct (Ha c) as (-> & _ & ->).
Qed.

Lemma core_awaken_rest w ws d c cs qa u : core d (c :: cs) qa u -> core (set_wakes ws d) (c :: (awaken w <$> cs)) qa u.
Proof.
  intros H%(core_awaken w ws). rewrite fmap_cons in H. apply core_asleep in H. apply core_asleep.
  revert H. unfold awaken at 1 2 3. by case_bool_decide.
Qed.

Lemma rests_awaken w ws d d' cs :
  Forall (rests d) cs -> (forall c, c ∈ cs -> sleeps_on c ∉ w -> rests d c -> rests d' c) ->
  Forall (rests (set_wakes ws d')) (awaken w <$> cs).
Proof.
  rewrite !Forall_forall. intros H Hx c' (c & -> & Hc)%list_elem_of_fmap. unfold awaken. case_bool_decide as Hw; [done|].
  exact (Hx c Hc Hw (H c Hc)).
Qed.

(** What a pass of one call leaves for the other calls. *)
Definition unharmed (d d' : vdisk) (cs : list call) : Prop :=
  vol d' = vol d /\ vb_data d' = vb_data d /\ (forall c, c ∈ cs -> abs_call d' c = abs_call d c) /\
  (forall c, c ∈ cs -> sleeps_on c ∉ wakes d' -> rests d c -> rests d' c).

Lemma unharmed_eq d cs : unharmed d d cs.
Proof. split_and!; eauto. Qed.

(** A pass returns: the call sleeps where it has to wait, or its transfer is done. *)
Definition passed (d : vdisk) (b : Z) (w : bool) (p : rwpc) (cs : list call) (u : list Z) (r : option rwpc) (d' : vdisk) : Prop :=
  unharmed d d' cs /\
  match r with
  | Some p' => (exists qa, core d' (Call b w p' true :: cs) qa u) /\ rests d' (Call b w p' true) /\
      performed d' (Call b w p' true) = performed d (Call b w p false)
  | None => (exists qa, core d' cs qa u) /\ performed d (Call b w p false) = true
  end.

Lemma pass_wait d b w i0 i1 i2 cs qa u :
  core d (Call b w (PWait i0 i1 i2) false :: cs) qa u ->
  exists r d', wait_done b i0 i1 i2 d = Ret r d' /\ passed d b w (PWait i0 i1 i2) cs u r d'.
Proof.
  intros H. destruct (Z.eq_dec (bdisk d b) 1) as [E|E].
  - exists (Some (PWait i0 i1 i2)), d. split; [by unfold wait_done, kbind, kget; rewrite E|].
    split; [apply unharmed_eq|]. split; [|split; [intros _; exact E|done]]. exists qa. by apply core_asleep.
  - destruct (core_return _ _ _ _ _ _ _ _ _ _ H E) as (d' & Hr & Hc & Hb & Hw & Hp & Hv & Hm & Hi).
    exists None, d'. split; [done|]. split; [|eauto]. split_and!; try done.
    + intros c _. unfold abs_call, performed. by rewrite Hi.
    + intros c _ Hs. unfold rests, sleeps_on in *. destruct (c_pc c); [done|by rewrite Hb].
Qed.

Lemma pass_alloc_fails d b w cs qa u :
  core d (Call b w PAlloc false :: cs) qa u -> (length (free_list d) < 3)%nat ->
  exists d', virtio_disk_rw blockno b w PAlloc d = Ret (Some PAlloc) d' /\ passed d b w PAlloc cs u (Some PAlloc) d'.
Proof.
  intros H Hl. destruct (alloc3_desc_fails _ Hl) as (d' & Ha & Ht). exists d'.
  cbn [virtio_disk_rw]. unfold kbind. rewrite Ha. split; [done|].
  pose proof (core_tidied _ _ _ _ _ Ht H) as H'. destruct Ht as (ds & fr & ws & -> & Hf & Hd).
  split; [split_and!; try done|].
  - intros c _ _ Hr. unfold rests in *. by rewrite Hf.
  - split; [|split; [intros _; by rewrite Hf|done]]. exists qa. by apply core_asleep in H'; apply core_asleep.
Qed.

Lemma pass_ok d b w p cs qa u :
  core d (Call b w p false :: cs) qa u ->
  exists r d', virtio_disk_rw blockno b w p d = Ret r d' /\ passed d b w p cs u r d'.
Proof.
  intros H. destruct p as [|i0 i1 i2]; [|by eapply pass_wait].
  destruct (decide (length (free_list d) < 3)%nat) as [Hl|Hl].
  { destruct (pass_alloc_fails _ _ _ _ _ _ H Hl) as (d' & ? & ?). eauto. }
  destruct (free_list d) as [|i0 [|i1 [|i2 F]]] eqn:HF; cbn in Hl; try lia.
  destruct (core_submit _ _ _ _ true _ _ _ _ _ _ _ H HF) as (d' & Hs & Hc & Hb & Hbs & HF' & Hw & Hv & Hm & Hab & Habs).
  exists (Some (PWait i0 i1 i2)), d'. cbn [virtio_disk_rw]. unfold kbind at 1.
  destruct (alloc3_desc_ok _ _ _ _ _ HF) as [-> _]. unfold kbind at 1. rewrite Hs.
  split; [by unfold wait_done, kbind, kget; rewrite Hb|].
  split; [split_and!; try done|].
  - intros c Hin _ Hr Ha. specialize (Hr Ha). unfold rests in *. destruct (c_pc c).
    + rewrite HF', HF in *. cbn in Hr. lia.
    + rewrite Hbs; [done|]. by destruct (core_disjoint _ _ _ _ _ _ H Hin).
  - split; [eauto|]. split; [intros _; exact Hb|]. by injection Hab.
Qed.

Lemma abs_awaken d ws w (cs : list call) : abs_call (set_wakes ws d) <$> (awaken w <$> cs) = abs_call d <$> cs.
Proof.
  rewrite <- list_fmap_compose. apply list_fmap_ext. intros i c _. unfold compose, abs_call, performed, awaken.
  by case_bool_decide.
Qed.

Lemma vinv_init R kd ka ku fl data v regs d :
  virtio_disk_init R kd ka ku ([], vboot fl data v) = Ret tt (regs, d) -> vinv blockno (d, []).
Proof.
  unfold virtio_disk_init, reg, set_reg. intros H. generalize dependent (nil (A := Z * Z)). intros l H.
  repeat (apply kbind_inv in H as (? & [? ?] & [= <- <- <-] & H); cbn [fst snd] in H;
          repeat (case_match; [done|])).
  injection H as _ <-. split; [|done]. exists [], []. split; try done; try constructor; cbn; try lia.
Qed.

(** A step keeps the invariant and is a step of the abstract disk, or is invisible. *)
Definition simulated (s s' : vdisk * list call) : Prop :=
  vinv blockno s' /\ (abs s' = abs s \/ astep blockno (abs s) (abs s')).

Lemma abs_unharmed d d' (cs : list call) : unharmed d d' cs -> abs_call d' <$> cs = abs_call d <$> cs.
Proof.
  intros (_ & _ & H & _). apply list_fmap_ext. intros i c Hc%list_elem_of_lookup_2. auto.
Qed.

Lemma step_sleep d d' cs1 cs2 b w p p' :
  vinv blockno (d, cs1 ++ Call b w p false :: cs2) -> virtio_disk_rw blockno b w p d = Ret (Some p') d' ->
  simulated (d, cs1 ++ Call b w p false :: cs2)
    (set_wakes [] d', (awaken (wakes d') <$> cs1) ++ Call b w p' true :: (awaken (wakes d') <$> cs2)).
Proof.
  intros [(qa & u & H%core_middle) [Hr Hq]] Hp. cbn in *.
  destruct (pass_ok _ _ _ _ _ _ _ H) as (r & d2 & Hp' & Hu & Hps). rewrite Hp in Hp'. injection Hp' as <- <-.
  destruct Hps as ((qa' & H') & Hc & Hpf). rewrite Forall_app, Forall_cons in Hr. destruct Hr as (Hr1 & _ & Hr2).
  split; [split; [|split; [|done]]|left].
  - exists qa', u. cbn. apply core_middle. rewrite <- fmap_app.
    by apply core_awaken_rest.
  - cbn. apply Forall_app. split; [|apply Forall_cons; split; [exact Hc|]].
    all: eapply rests_awaken; [done|]. all: intros c Hin; apply Hu; set_solver.
  - unfold abs. cbn. destruct Hu as (-> & -> & Hu & _). rewrite !fmap_app, !fmap_cons, !abs_awaken.
    f_equal. f_equal; [|f_equal].
    + apply list_fmap_ext. intros i c Hin%list_elem_of_lookup_2. apply Hu. set_solver.
    + unfold abs_call at 1 2. cbn. f_equal. exact Hpf.
    + apply list_fmap_ext. intros i c Hin%list_elem_of_lookup_2. apply Hu. set_solver.
Qed.

Lemma step_return d d' cs1 cs2 b w p :
  vinv blockno (d, cs1 ++ Call b w p false :: cs2) -> virtio_disk_rw blockno b w p d = Ret None d' ->
  simulated (d, cs1 ++ Call b w p false :: cs2) (settle d' (cs1 ++ cs2)).
Proof.
  intros [(qa & u & H%core_middle) [Hr Hq]] Hp. cbn in *.
  destruct (pass_ok _ _ _ _ _ _ _ H) as (r & d2 & Hp' & Hu & Hps). rewrite Hp in Hp'. injection Hp' as <- <-.
  destruct Hps as ((qa' & H') & Hpf). rewrite Forall_app, Forall_cons in Hr. destruct Hr as (Hr1 & _ & Hr2).
  split; [split; [|split; [|done]]|right].
  - exists qa', u. by apply core_awaken.
  - eapply rests_awaken; [by apply Forall_app|]. intros c Hin. by apply Hu.
  - unfold abs, settle. cbn [fst snd]. rewrite abs_awaken, (abs_unharmed _ _ _ Hu), !fmap_app, fmap_cons.
    destruct Hu as (Hv & Hm & _). cbn [vol vb_data set_wakes]. rewrite Hv, Hm.
    change (abs_call d (Call b w p false)) with (b, w, performed d (Call b w p false)). rewrite Hpf. apply a_return.
Qed.

Lemma step_intr d d' cs :
  vinv blockno (d, cs) -> virtio_disk_intr d = Ret tt d' -> simulated (d, cs) (settle d' cs).
Proof.
  intros [(qa & u & H) [Hr Hq]] Hp. cbn in *. pose proof (core_short _ _ _ _ H) as Hlen.
  destruct (core_intr (Z.to_nat NUM) _ _ _ _ H) as (d2 & Hp' & Hc & Hv & Hm & Hi & Hf & Hb & _);
    [change (Z.to_nat NUM) with 8%nat; lia|].
  unfold virtio_disk_intr in Hp. rewrite Hp in Hp'. injection Hp' as <-.
  split; [split; [|split; [|done]]|left].
  - exists qa, []. by apply core_awaken.
  - eapply rests_awaken; [done|]. intros c Hin Hs Hrc Ha. specialize (Hrc Ha). unfold sleeps_on in Hs. destruct (c_pc c).
    + unfold free_list in *. by rewrite Hf.
    + destruct (Hb (c_buf c)); [congruence|done].
  - unfold abs, settle. cbn [fst snd]. rewrite abs_awaken. cbn. rewrite Hv, Hm. f_equal.
    apply list_fmap_ext. intros i c _. unfold abs_call, performed. by rewrite Hi.
Qed.

Lemma step_take d d' cs : vinv blockno (d, cs) -> dev_take d = Some d' -> simulated (d, cs) (d', cs).
Proof.
  intros [(qa & u & H) [Hr Hq]] Hp. cbn in *. apply core_take in H. rewrite Hp in H.
  destruct H as (x & qa' & -> & H & ->). split; [|by left]. split; [eauto|done].
Qed.

Lemma step_done d d' k cs : vinv blockno (d, cs) -> dev_done k d = Some d' -> simulated (d, cs) (d', cs).
Proof.
  intros [(qa & u & H) [Hr Hq]] Hp. cbn in *.
  destruct (dev_taken d !! k) as [id|] eqn:Hk; [|unfold dev_done in Hp; by rewrite Hk in Hp].
  destruct (core_done _ _ _ _ _ _ H Hk) as (d2 & cs1 & b & w & i1 & i2 & a & cs2 & -> & Hp' & Hc & Ht & Hw & Hb & Hf & Hi & Hs).
  rewrite Hp in Hp'. injection Hp' as <-. split; [split; [eauto|split; [|by rewrite <- Hq]]|right].
  - eapply Forall_impl; [exact Hr|]. intros c Hrc Ha. specialize (Hrc Ha). cbn. by rewrite Hf, Hb.
  - unfold abs. cbn. rewrite !fmap_app, !fmap_cons.
    assert (forall c, c ∈ cs1 ++ cs2 -> abs_call d' c = abs_call d c) as Hab.
    { intros c Hin. apply core_middle in H. destruct (core_disjoint _ _ _ _ _ _ H Hin) as [Hd _].
      unfold abs_call, performed, indices in *. destruct (c_pc c) as [|j0 j1 j2]; [done|]. rewrite Hi, upd_ne; [done|].
      destruct (Hd j0) as [Hn _]; [left|]. cbn in Hn. set_solver. }
    rewrite (list_fmap_ext (abs_call d') (abs_call d) cs1), (list_fmap_ext (abs_call d') (abs_call d) cs2).
    2,3: intros i c Hc'%list_elem_of_lookup_2; apply Hab; set_solver.
    change (abs_call d (Call b w (PWait id i1 i2) a)) with (b, w, info_status d id =? 0).
    change (abs_call d' (Call b w (PWait id i1 i2) a)) with (b, w, info_status d' id =? 0).
    rewrite Hs, Hi, upd_eq. by apply a_perform.
Qed.

Lemma core_call d cs qa u b w :
  core d cs qa u -> b ∉ c_buf <$> cs -> 0 <= blockno b < 2 ^ 31 -> core d (cs ++ [Call b w PAlloc false]) qa u.
Proof.
  intros [] Hb Hk. eapply core_perm; [apply Permutation_cons_append|]. split; try done.
  - cbn. by apply NoDup_cons.
  - by apply Forall_cons.
  - by apply Forall_cons.
  - by apply Forall_cons.
Qed.

Lemma step_call d cs b w :
  vinv blockno (d, cs) -> b ∉ c_buf <$> cs -> 0 <= blockno b < 2 ^ 31 ->
  simulated (d, cs) (d, cs ++ [Call b w PAlloc false]).
Proof.
  intros [(qa & u & H) [Hr Hq]] Hb Hk. split; [split; [|split; [|done]]|right].
  - exists qa, u. by apply core_call.
  - apply Forall_app. split; [done|]. by apply Forall_singleton.
  - unfold abs. cbn. rewrite fmap_app. apply a_call.
Qed.

Lemma step_store d cs b m :
  vinv blockno (d, cs) -> b ∉ c_buf <$> cs -> simulated (d, cs) (set_vdata (upd (vb_data d) b m) d, cs).
Proof.
  intros [(qa & u & []) [Hr Hq]] Hb. split; [split; [|done]|right].
  - exists qa, u. by split.
  - apply a_store. by rewrite <- list_fmap_compose.
Qed.

Lemma vstep_simulated s s' : vinv blockno s -> vstep blockno s s' -> simulated s s'.
Proof.
  intros H Hs. destruct Hs; eauto using step_call, step_sleep, step_return, step_intr, step_take, step_done, step_store.
Qed.

Lemma vreach_inv s : vreach blockno s -> vinv blockno s.
Proof. induction 1 as [|s s' _ IH Hs]; [by eapply vinv_init|]. by apply vstep_simulated in Hs as [? _]. Qed.

(** A call that waits for the device has a chain the device or the interrupt handler still has. *)
Lemma core_busy d cs qa u : core d cs qa u -> Forall (rests d) cs -> Forall (fun c => c_asleep c = true) cs -> cs <> [] ->
  exists id, id ∈ qa ++ dev_taken d ++ u.
Proof.
  intros [] Hr Ha Hne. rewrite Forall_forall in Hr, Ha.
  assert (exists c i0 i1 i2, c ∈ cs /\ c_pc c = PWait i0 i1 i2) as (c & i0 & i1 & i2 & Hc & Hpc).
  { destruct (cs ≫= indices) as [|i l] eqn:Hi.
    - destruct cs as [|c cs]; [done|]. destruct (c_pc c) as [|i0 i1 i2] eqn:Hpc; [|eauto 10 using list_elem_of_here].
      specialize (Hr c ltac:(left) (Ha c ltac:(left))). rewrite Hpc in Hr. cbn in vi_perm0.
      apply Permutation_length in vi_perm0. rewrite length_seqZ in vi_perm0. change (Z.to_nat NUM) with 8%nat in vi_perm0. lia.
    - assert (i ∈ cs ≫= indices) as (c & Hic & Hc)%list_elem_of_bind by (rewrite Hi; left).
      unfold indices in Hic. destruct (c_pc c) eqn:Hpc; [set_solver|eauto 10]. }
  exists i0. specialize (Hr c Hc (Ha c Hc)). rewrite Forall_forall in vi_state0. specialize (vi_state0 c Hc).
  unfold rests, state_of in *. rewrite Hpc in *. destruct vi_state0 as [_ Hb]. rewrite Hr in Hb. rewrite app_assoc.
  destruct (bool_decide_reflect (i0 ∈ (qa ++ dev_taken d) ++ u)); done.
Qed.

Lemma core_enabled d cs qa u id : core d cs qa u -> id ∈ qa ++ dev_taken d ++ u ->
  is_Some (dev_take d) \/ is_Some (dev_done 0 d) \/ used_idx d <> used_dev d.
Proof.
  intros H Hid. pose proof (core_short _ _ _ _ H) as Hlen. destruct qa as [|x qa].
  - destruct (dev_taken d) as [|y l] eqn:Ht.
    + right; right. destruct H. destruct u as [|z u]; [set_solver|]. 
      intros E%(window_end _ _ _ _ vi_used0); [done|lia].
    + right; left. destruct (core_done _ _ _ _ 0 y H ltac:(by rewrite Ht)) as (d' & ? & ? & ? & ? & ? & ? & ? & _ & -> & _). eauto.
  - left. pose proof (core_take _ _ _ _ H) as Hk. destruct (dev_take d); [eauto|done].
Qed.
End invariant.

(** ** The guarantees *)

(** C6. Driver and device together are a disk: in every reachable state, each step of calls, interrupts and device is
    invisible or is a step of the abstract disk, in which a call's transfer of its block happens once, at one moment,
    before the call returns. *)
Theorem virtio_refines blockno s s' :
  vreach blockno s -> vstep blockno s s' -> abs s' = abs s \/ astep blockno (abs s) (abs s').
Proof. intros H%vreach_inv Hs. by apply (vstep_simulated _ _ _ H) in Hs as [_ ?]. Qed.

(** A write of buffer 7 that the device has taken. *)
Definition demo_regs (_ : list (Z * Z)) (r : Z) : Z :=
  if r =? VIRTIO_MMIO_MAGIC_VALUE then 0x74726976 else
  if r =? VIRTIO_MMIO_VENDOR_ID then 0x554d4551 else
  if r =? VIRTIO_MMIO_STATUS then 11 else
  if r =? VIRTIO_MMIO_QUEUE_READY then 0 else
  if r =? VIRTIO_MMIO_QUEUE_NUM_MAX then 1024 else 2.
Definition demo_dev : vdev :=
  let s := ([], vboot (fun _ => 0) (fun b a => b + a) (fun _ => 0)) in
  match virtio_disk_init demo_regs 0x87fff000 0x87ffe000 0x87ffd000 s with Ret _ s => s | _ => s end.
Definition demo_start : vdisk := demo_dev.2.
Definition demo_pass : vdisk :=
  match virtio_disk_rw (fun b => b) 7 true PAlloc demo_start with Ret _ d => d | _ => demo_start end.
Definition demo_sent : vdisk := set_wakes [] demo_pass.
Definition demo_taken : vdisk := default demo_sent (dev_take demo_sent).
Definition demo_moved : vdisk := default demo_taken (dev_done 0 demo_taken).

Lemma demo_taken_reachable : vreach (fun b => b) (demo_taken, [Call 7 true (PWait 0 1 2) true]).
Proof.
  eapply vr_step; [|apply (v_take _ demo_sent); vm_compute; reflexivity].
  eapply vr_step; [|apply (v_sleep _ demo_start demo_pass [] [] 7 true PAlloc); vm_compute; reflexivity].
  eapply vr_step; [eapply (vr_init _ demo_regs 0x87fff000 0x87ffe000 0x87ffd000 _ _ _ demo_dev.1 demo_start); vm_compute; reflexivity|]. apply (v_call _ _ []); [set_solver|done].
Qed.

Lemma virtio_refines_witness :
  abs (demo_moved, [Call 7 true (PWait 0 1 2) true]) = abs (demo_taken, [Call 7 true (PWait 0 1 2) true]) \/
  astep (fun b => b) (abs (demo_taken, [Call 7 true (PWait 0 1 2) true])) (abs (demo_moved, [Call 7 true (PWait 0 1 2) true])).
Proof.
  apply (virtio_refines (fun b => b) (demo_taken, _)); [exact demo_taken_reachable|].
  apply (v_done _ demo_taken demo_moved 0). vm_compute. reflexivity.
Defined.

(** C7. In every reachable state each descriptor is free or belongs to one call, every awake call runs to its next sleep
    or return and the interrupt handler returns, without a panic; a sleeping call has to wait, and while there is a call
    the calls, the device or the handler can go on. *)
Theorem virtio_progress blockno d cs :
  vreach blockno (d, cs) ->
  (cs ≫= indices) ++ free_list d ≡ₚ seqZ 0 NUM /\
  (forall cs1 b w p cs2, cs = cs1 ++ Call b w p false :: cs2 -> exists r d', virtio_disk_rw blockno b w p d = Ret r d') /\
  (exists d', virtio_disk_intr d = Ret tt d') /\
  Forall (rests d) cs /\
  (cs <> [] -> Exists (fun c => c_asleep c = false) cs \/ is_Some (dev_take d) \/ is_Some (dev_done 0 d) \/ used_idx d <> used_dev d).
Proof.
  intros [(qa & u & H) [Hr _]]%vreach_inv. cbn in H, Hr. pose proof (core_short _ _ _ _ _ H) as Hlen.
  split; [by destruct H|]. split_and!; try done.
  - intros cs1 b w p cs2 ->. apply core_middle in H. destruct (pass_ok _ _ _ _ _ _ _ _ H) as (r & d' & ? & _). eauto.
  - destruct (core_intr blockno (Z.to_nat NUM) _ _ _ _ H) as (d' & ? & _); [change (Z.to_nat NUM) with 8%nat; lia|eauto].
  - intros Hne. destruct (decide (Exists (fun c => c_asleep c = false) cs)) as [|Ha]; [by left|right].
    destruct (core_busy _ _ _ _ _ H Hr) as [id Hid]; [|done|by eapply core_enabled].
    apply not_Exists_Forall in Ha; [|solve_decision]. eapply Forall_impl; [exact Ha|]. intros c Hc. cbn in Hc. by destruct (c_asleep c).
Qed.

Lemma virtio_progress_witness :
  vreach (fun b => b) (demo_taken, [Call 7 true (PWait 0 1 2) true]) /\ exists d', virtio_disk_intr demo_taken = Ret tt d'.
Proof.
  split; [exact demo_taken_reachable|].
  exact (proj1 (proj2 (proj2 (virtio_progress (fun b => b) demo_taken _ demo_taken_reachable)))).
Defined.
