(* ===== verification/Bio.v ===== *)
(** * kernel/bio.c: the buffer cache

    The buffers hang on a doubly linked list in order of recent use, kept
    by indices into the buffer array as the code keeps it by pointers; the
    list head has index [NBUF].  A process is known by its identifier [n].
    [acquiresleep] of a buffer another process holds would block the caller,
    which the model shows as [Hang]. *)

From stdpp Require Import sorting.
From S2P Require Import Prelude Memory StringC Sleeplock.

(** ** State *)

Definition NBUF : Z := 30.

Record buf := Buf {
  bvalid : Z;                   (* int valid *)
  bdev : Z;                     (* uint dev *)
  blockno : Z;                  (* uint blockno *)
  block : sleeplock;            (* struct sleeplock lock *)
  refcnt : Z;                   (* uint refcnt *)
  bprev : Z;                    (* struct buf *prev, *next *)
  bnext : Z;
  bdata : mem                   (* uchar data[BSIZE] *)
}.

Definition set_bvalid v b := Buf v (bdev b) (blockno b) (block b) (refcnt b) (bprev b) (bnext b) (bdata b).
Definition set_bdev v b := Buf (bvalid b) v (blockno b) (block b) (refcnt b) (bprev b) (bnext b) (bdata b).
Definition set_blockno v b := Buf (bvalid b) (bdev b) v (block b) (refcnt b) (bprev b) (bnext b) (bdata b).
Definition set_block v b := Buf (bvalid b) (bdev b) (blockno b) v (refcnt b) (bprev b) (bnext b) (bdata b).
Definition set_refcnt v b := Buf (bvalid b) (bdev b) (blockno b) (block b) v (bprev b) (bnext b) (bdata b).
Definition set_bprev v b := Buf (bvalid b) (bdev b) (blockno b) (block b) (refcnt b) v (bnext b) (bdata b).
Definition set_bnext v b := Buf (bvalid b) (bdev b) (blockno b) (block b) (refcnt b) (bprev b) v (bdata b).
Definition set_bdata v b := Buf (bvalid b) (bdev b) (blockno b) (block b) (refcnt b) (bprev b) (bnext b) v.

(** The cache, the disk behind it by block number, and the blocks written
    to it so far, the latest first. *)
Record bio := Bio { bufs : Z -> buf; disk : Z -> mem; writes : list (Z * mem) }.

Definition HEAD : Z := NBUF.

(** ** Operations *)

Definition get_buf (i : Z) : M bio buf := kget (fun s => bufs s i).
Definition upd_buf (i : Z) (f : buf -> buf) : M bio unit :=
  kupd (fun s => Bio (upd (bufs s) i (f (bufs s i))) (disk s) (writes s)).

(** [b] becomes the first of the list. *)
Definition push_front (b : Z) : M bio unit :=
  let! h := get_buf HEAD in
  do! upd_buf b (set_bnext (bnext h));
  do! upd_buf b (set_bprev HEAD);
  let! h' := get_buf HEAD in
  do! upd_buf (bnext h') (set_bprev b);
  upd_buf HEAD (set_bnext b).

Definition binit : M bio unit :=
  do! upd_buf HEAD (set_bprev HEAD);
  do! upd_buf HEAD (set_bnext HEAD);
  for_each (seqZ 0 NBUF) (fun b =>
    do! upd_buf b (set_block (Sleeplock 0 0));
    push_front b).

(** The two scans of [bget], [None] when the list ends; the list has
    [NBUF] buffers, so [NBUF + 1] steps are enough. *)
Fixpoint find_cached (fuel : nat) (t : Z -> buf) (dev bno b : Z) : option Z :=
  match fuel with
  | O => None
  | S f =>
      if b =? HEAD then None
      else if (bdev (t b) =? dev) && (blockno (t b) =? bno) then Some b
      else find_cached f t dev bno (bnext (t b))
  end.

Fixpoint find_free (fuel : nat) (t : Z -> buf) (b : Z) : option Z :=
  match fuel with
  | O => None
  | S f =>
      if b =? HEAD then None
      else if refcnt (t b) =? 0 then Some b
      else find_free f t (bprev (t b))
  end.

Definition ring_fuel : nat := S (Z.to_nat NBUF).

Definition lock_buf (n b : Z) : M bio unit :=
  let! x := get_buf b in
  match take_sleep n (block x) with
  | None => khang
  | Some l => upd_buf b (set_block l)
  end.

Definition bget (n dev bno : Z) : M bio Z :=
  let! t := kget bufs in
  match find_cached ring_fuel t dev bno (bnext (t HEAD)) with
  | Some b =>
      do! upd_buf b (fun x => set_refcnt (u32 (refcnt x + 1)) x);
      do! lock_buf n b;
      kret b
  | None =>
      match find_free ring_fuel t (bprev (t HEAD)) with
      | Some b =>
          do! upd_buf b (set_bdev dev);
          do! upd_buf b (set_blockno bno);
          do! upd_buf b (set_bvalid 0);
          do! upd_buf b (set_refcnt 1);
          do! lock_buf n b;
          kret b
      | None => kpanic "bget: no buffers"
      end
  end.

(** What [virtio_disk_rw] has done when it returns. *)
Definition disk_read (b : Z) : M bio unit :=
  kupd (fun s => Bio (upd (bufs s) b (set_bdata (disk s (blockno (bufs s b))) (bufs s b))) (disk s) (writes s)).
Definition disk_write (b : Z) : M bio unit :=
  kupd (fun s => let x := bufs s b in
    Bio (bufs s) (upd (disk s) (blockno x) (bdata x)) ((blockno x, bdata x) :: writes s)).

Definition bread (n dev bno : Z) : M bio Z :=
  let! b := bget n dev bno in
  let! x := get_buf b in
  if bvalid x =? 0 then do! disk_read b; do! upd_buf b (set_bvalid 1); kret b
  else kret b.

Definition bwrite (n b : Z) : M bio unit :=
  let! x := get_buf b in
  if negb (held_by n (block x)) then kpanic "bwrite" else disk_write b.

Definition unlink_buf (b : Z) : M bio unit :=
  let! x := get_buf b in
  do! upd_buf (bnext x) (set_bprev (bprev x));
  let! x' := get_buf b in
  upd_buf (bprev x') (set_bnext (bnext x')).

Definition brelse (n b : Z) : M bio unit :=
  let! x := get_buf b in
  if negb (held_by n (block x)) then kpanic "brelse" else
  do! upd_buf b (set_block drop_sleep);
  do! upd_buf b (fun y => set_refcnt (u32 (refcnt y - 1)) y);
  let! y := get_buf b in
  if refcnt y =? 0 then do! unlink_buf b; push_front b else kret tt.

Definition bpin (b : Z) : M bio unit := upd_buf b (fun x => set_refcnt (u32 (refcnt x + 1)) x).
Definition bunpin (b : Z) : M bio unit := upd_buf b (fun x => set_refcnt (u32 (refcnt x - 1)) x).

(** [memmove(dst->data, src->data, BSIZE)] between two buffers. *)
Definition two_blocks (dst src : mem) : mem := fun a => if a <? BSIZE then dst a else src (a - BSIZE).
Definition copy_block (dst src : mem) : mem := memmove (two_blocks dst src) 0 BSIZE BSIZE.

(** ** The list as a sequence of buffers *)

(** From [a], following [nx], come the elements of [l], then [b]. *)
Fixpoint chain (nx : Z -> Z) (a : Z) (l : list Z) (b : Z) : Prop :=
  match l with
  | [] => nx a = b
  | x :: l' => nx a = x /\ chain nx x l' b
  end.

Definition ring (nx pv : Z -> Z) (l : list Z) : Prop :=
  chain nx HEAD l HEAD /\ chain pv HEAD (reverse l) HEAD.

Lemma chain_app nx a l1 x l2 b : chain nx a (l1 ++ x :: l2) b <-> chain nx a l1 x /\ chain nx x l2 b.
Proof. revert a. induction l1 as [|y l1 IH]; intros a; simpl; [done|]. rewrite IH. tauto. Qed.

Lemma chain_ext nx nx' a l b : (forall x, x ∈ a :: l -> nx' x = nx x) -> chain nx a l b -> chain nx' a l b.
Proof.
  revert a. induction l as [|y l IH]; intros a H; simpl.
  - intros <-. apply H. by left.
  - intros [<- Hc]. split; [apply H; by left|]. apply IH; [|done]. intros x Hx. apply H. by right.
Qed.

Lemma chain_retarget nx a l b c :
  NoDup (a :: l) -> chain nx a l b -> chain (upd nx (default a (last l)) c) a l c.
Proof.
  revert a. induction l as [|y l IH]; intros a Hnd; simpl.
  - intros _. apply upd_eq.
  - intros [<- Hc]. rewrite last_cons. apply NoDup_cons in Hnd as [Hna Hnd].
    assert (Hl : default (nx a) (last l) ∈ nx a :: l).
    { destruct (last l) as [z|] eqn:E; simpl; [|by left]. right. by apply last_Some_elem_of. }
    split.
    + destruct (last l); simpl in *; apply upd_ne; intros Ha; apply Hna; by rewrite Ha at 1.
    + specialize (IH _ Hnd Hc). by destruct (last l).
Qed.

(** Taking [x] out of the ring, and putting one in front. *)

Lemma chain_first nx a l b : chain nx a l b -> nx a = default b (head l).
Proof. destruct l; simpl; [done|]. by intros [-> _]. Qed.

Lemma last_in {A} (a : A) l : default a (last l) ∈ a :: l.
Proof. destruct (last l) as [z|] eqn:E; [|by left]. right. by apply last_Some_elem_of. Qed.

Lemma chain_remove nx a l1 x l2 b :
  NoDup (a :: l1 ++ x :: l2) -> chain nx a (l1 ++ x :: l2) b ->
  chain (upd nx (default a (last l1)) (nx x)) a (l1 ++ l2) b.
Proof.
  intros Hnd [H1 H2]%chain_app. rewrite app_comm_cons in Hnd.
  apply NoDup_app in Hnd as (Hnd1 & Hd & _). pose proof (chain_first _ _ _ _ H2) as E. rewrite E.
  pose proof (chain_retarget nx a l1 x (default b (head l2)) Hnd1 H1) as H1'.
  destruct l2 as [|y l2]; simpl in *; [by rewrite app_nil_r|].
  apply chain_app. split; [done|]. destruct H2 as [_ H2].
  eapply chain_ext; [|exact H2]. intros z Hz. apply upd_ne. intros ->.
  eapply Hd; [apply last_in|]. by right.
Qed.

Lemma NoDup_ring_reverse l1 (x : Z) l2 :
  NoDup (HEAD :: l1 ++ x :: l2) -> NoDup (HEAD :: reverse l2 ++ x :: reverse l1).
Proof.
  assert (l1 ++ x :: l2 ≡ₚ reverse l2 ++ x :: reverse l1) as ->; [|done].
  rewrite !reverse_Permutation, (Permutation_app_comm l2). simpl. by rewrite Permutation_middle.
Qed.

Lemma ring_remove nx pv l1 x l2 :
  NoDup (HEAD :: l1 ++ x :: l2) -> ring nx pv (l1 ++ x :: l2) ->
  pv x = default HEAD (last l1) /\ nx x = default HEAD (head l2) /\
  ring (upd nx (pv x) (nx x)) (upd pv (nx x) (pv x)) (l1 ++ l2).
Proof.
  intros Hnd [Hn Hp]. pose proof (NoDup_ring_reverse _ _ _ Hnd) as Hnd'.
  rewrite reverse_app, reverse_cons, <- app_assoc in Hp. simpl in Hp.
  pose proof (proj2 (proj1 (chain_app _ _ _ _ _ _) Hn)) as En%chain_first.
  pose proof (proj2 (proj1 (chain_app _ _ _ _ _ _) Hp)) as Ep%chain_first. rewrite head_reverse in Ep.
  split_and!; [done|done|split].
  - rewrite Ep. by apply chain_remove.
  - rewrite reverse_app, En, <- last_reverse. by apply chain_remove.
Qed.

Lemma ring_push nx pv l x :
  NoDup (HEAD :: x :: l) -> ring nx pv l ->
  ring (upd (upd nx x (nx HEAD)) HEAD x) (upd (upd pv x HEAD) (nx HEAD) x) (x :: l).
Proof.
  intros Hnd [Hn Hp]. pose proof (chain_first _ _ _ _ Hn) as En.
  apply NoDup_cons in Hnd as [Hh Hnd]. apply not_elem_of_cons in Hh as [Hhx Hhl].
  apply NoDup_cons in Hnd as [Hx Hnd]. split.
  - split; [apply upd_eq|]. destruct l as [|y l]; simpl in *.
    + rewrite upd_ne, upd_eq by done. done.
    + destruct Hn as [Ey Hn]. split; [rewrite upd_ne, upd_eq by done; done|].
      eapply chain_ext; [|exact Hn]. intros z Hz. rewrite !upd_ne; [done| |]; intros ->; done.
  - rewrite reverse_cons. apply chain_app. split.
    + rewrite En, <- last_reverse. eapply chain_retarget.
      * constructor; [by rewrite elem_of_reverse|by rewrite reverse_Permutation].
      * eapply chain_ext; [|exact Hp]. intros z Hz. apply upd_ne. intros ->.
        apply elem_of_cons in Hz as [Hz|Hz]; [congruence|]. by rewrite elem_of_reverse in Hz.
    + simpl. rewrite upd_ne, upd_eq; [done|]. rewrite En. intros E.
      destruct l as [|y l]; simpl in *; [congruence|]. apply Hx. subst. by left.
Qed.

(** ** The invariant

    [l] is the list of buffers, most recently used first; the kernel has a
    single disk, [dev]. *)

Section cache.
Variable dev : Z.
Hypothesis Hdev : dev <> 0.

Definition nxs (s : bio) (i : Z) : Z := bnext (bufs s i).
Definition pvs (s : bio) (i : Z) : Z := bprev (bufs s i).

Record bio_ok (l : list Z) (s : bio) : Prop := {
  bo_perm : l ≡ₚ seqZ 0 NBUF;
  bo_ring : ring (nxs s) (pvs s) l;
  bo_uniq : forall i j, i ∈ l -> j ∈ l -> bdev (bufs s i) = dev -> bdev (bufs s j) = dev ->
              blockno (bufs s i) = blockno (bufs s j) -> i = j;
  bo_dev : forall i, i ∈ l -> bdev (bufs s i) = dev \/ (bdev (bufs s i) <> dev /\ refcnt (bufs s i) = 0);
  bo_ref : forall i, i ∈ l -> 0 <= refcnt (bufs s i);
  bo_lock : forall i, i ∈ l -> slocked (block (bufs s i)) <> 0 -> 0 < refcnt (bufs s i);
  bo_clean : forall i, i ∈ l -> bdev (bufs s i) = dev -> bvalid (bufs s i) <> 0 -> refcnt (bufs s i) = 0 ->
               bdata (bufs s i) = disk s (blockno (bufs s i))
}.

Lemma bio_range l s i : bio_ok l s -> i ∈ l <-> 0 <= i < NBUF.
Proof. intros H. rewrite (bo_perm _ _ H), elem_of_seqZ. lia. Qed.

Lemma bio_NoDup l s : bio_ok l s -> NoDup (HEAD :: l).
Proof.
  intros H. apply NoDup_cons. split; [rewrite (bio_range _ _ _ H); unfold HEAD; lia|].
  rewrite (bo_perm _ _ H). apply NoDup_seqZ.
Qed.

Lemma bio_length l s : bio_ok l s -> length l = Z.to_nat NBUF.
Proof. intros H. rewrite (bo_perm _ _ H). apply length_seqZ. Qed.

Lemma bio_not_head l s i : bio_ok l s -> i ∈ l -> i <> HEAD.
Proof. intros H Hi. rewrite (bio_range _ _ _ H) in Hi. unfold HEAD. lia. Qed.

(** The buffer of block [bno]. *)
Definition cached (s : bio) (bno i : Z) : Prop := bdev (bufs s i) = dev /\ blockno (bufs s i) = bno.

Lemma find_cached_spec l s bno :
  bio_ok l s ->
  match find_cached ring_fuel (bufs s) dev bno (bnext (bufs s HEAD)) with
  | Some b => b ∈ l /\ cached s bno b
  | None => forall b, b ∈ l -> ~ cached s bno b
  end.
Proof.
  intros H.
  cut (forall k fuel a, chain (nxs s) a k HEAD -> (forall x, x ∈ k -> x <> HEAD) -> (length k < fuel)%nat ->
    match find_cached fuel (bufs s) dev bno (nxs s a) with
    | Some b => b ∈ k /\ cached s bno b
    | None => forall b, b ∈ k -> ~ cached s bno b
    end).
  { intros Hc. apply Hc; [apply (bo_ring _ _ H)|intros x Hx; by eapply bio_not_head|].
    rewrite (bio_length _ _ H). unfold ring_fuel. lia. }
  induction k as [|x k IH]; intros fuel a Hc Hk Hf; (destruct fuel as [|fuel]; [simpl in Hf; lia|]); simpl in Hc |- *.
  { rewrite Hc, Z.eqb_refl. by intros b ?%elem_of_nil. }
  destruct Hc as [-> Hc]. rewrite (proj2 (Z.eqb_neq x HEAD)) by (apply Hk; by left).
  destruct ((bdev (bufs s x) =? dev) && (blockno (bufs s x) =? bno)) eqn:E.
  { cbool. split; [by left|by split]. }
  specialize (IH fuel x Hc ltac:(intros; apply Hk; by right) ltac:(simpl in Hf; lia)). fold (nxs s x).
  destruct (find_cached _ _ _ _ _) as [b|].
  - destruct IH. split; [by right|done].
  - intros b [->|Hb]%elem_of_cons; [|by apply IH]. intros [E1 E2]. rewrite E1, E2, !Z.eqb_refl in E. done.
Qed.

(** The buffer recycled is the least recently used of the unused ones. *)
Lemma find_free_spec l s :
  bio_ok l s ->
  match find_free ring_fuel (bufs s) (bprev (bufs s HEAD)) with
  | Some b => exists l1 l2, l = l1 ++ b :: l2 /\ refcnt (bufs s b) = 0 /\
                forall j, j ∈ l2 -> refcnt (bufs s j) <> 0
  | None => forall b, b ∈ l -> refcnt (bufs s b) <> 0
  end.
Proof.
  intros H.
  cut (forall k fuel a, chain (pvs s) a k HEAD -> (forall x, x ∈ k -> x <> HEAD) -> (length k < fuel)%nat ->
    match find_free fuel (bufs s) (pvs s a) with
    | Some b => exists l1 l2, k = l1 ++ b :: l2 /\ refcnt (bufs s b) = 0 /\
                  forall j, j ∈ l1 -> refcnt (bufs s j) <> 0
    | None => forall b, b ∈ k -> refcnt (bufs s b) <> 0
    end).
  { intros Hc. specialize (Hc (reverse l) ring_fuel HEAD (proj2 (bo_ring _ _ H))).
    fold (pvs s HEAD). destruct (find_free _ _ _) as [b|].
    - destruct Hc as (l1 & l2 & E & Hb & Hl).
      + intros x Hx. rewrite elem_of_reverse in Hx. by eapply bio_not_head.
      + rewrite length_reverse, (bio_length _ _ H). unfold ring_fuel. lia.
      + exists (reverse l2), (reverse l1). split_and!; [|done|intros j Hj; rewrite elem_of_reverse in Hj; by apply Hl].
        rewrite <- (reverse_involutive l), E, reverse_app, reverse_cons, <- app_assoc. done.
    - intros b Hb. apply Hc; [intros x Hx; rewrite elem_of_reverse in Hx; by eapply bio_not_head| |by rewrite elem_of_reverse].
      rewrite length_reverse, (bio_length _ _ H). unfold ring_fuel. lia. }
  induction k as [|x k IH]; intros fuel a Hc Hk Hf; (destruct fuel as [|fuel]; [simpl in Hf; lia|]); simpl in Hc |- *.
  { rewrite Hc, Z.eqb_refl. by intros b ?%elem_of_nil. }
  destruct Hc as [-> Hc]. rewrite (proj2 (Z.eqb_neq x HEAD)) by (apply Hk; by left).
  destruct (Z.eqb_spec (refcnt (bufs s x)) 0) as [E|E].
  { exists [], k. split_and!; [done|done|by intros j ?%elem_of_nil]. }
  specialize (IH fuel x Hc ltac:(intros; apply Hk; by right) ltac:(simpl in Hf; lia)). fold (pvs s x).
  destruct (find_free _ _ _) as [b|].
  - destruct IH as (l1 & l2 & -> & Hb & Hl). exists (x :: l1), l2. split_and!; [done|done|].
    intros j [->|Hj]%elem_of_cons; auto.
  - intros b [->|Hb]%elem_of_cons; auto.
Qed.

(** ** The cache seen by block number *)

Definition idx (s : bio) (bno : Z) : option Z :=
  find_cached ring_fuel (bufs s) dev bno (bnext (bufs s HEAD)).

(** The current contents of a block, its references, and whether a process
    holds it. *)
Definition content (s : bio) (bno : Z) : mem :=
  match idx s bno with
  | Some i => if bvalid (bufs s i) =? 0 then disk s bno else bdata (bufs s i)
  | None => disk s bno
  end.
Definition rc (s : bio) (bno : Z) : Z :=
  match idx s bno with Some i => refcnt (bufs s i) | None => 0 end.
Definition taken (s : bio) (bno : Z) : bool :=
  match idx s bno with Some i => negb (slocked (block (bufs s i)) =? 0) | None => false end.

Lemma idx_some l s bno i : bio_ok l s -> idx s bno = Some i <-> i ∈ l /\ cached s bno i.
Proof.
  intros H. pose proof (find_cached_spec l s bno H) as Hf. unfold idx. split.
  - intros E. by rewrite E in Hf.
  - intros [Hi [E1 E2]]. destruct (find_cached _ _ _ _ _) as [b|]; [|by destruct (Hf i Hi)].
    destruct Hf as [Hb [E3 E4]]. f_equal. apply (bo_uniq _ _ H); congruence.
Qed.

Lemma idx_none l s bno : bio_ok l s -> idx s bno = None <-> forall i, i ∈ l -> ~ cached s bno i.
Proof.
  intros H. split.
  - intros E i Hi Hc. rewrite (proj2 (idx_some l s bno i H)) in E by done. done.
  - intros Hn. destruct (idx s bno) as [i|] eqn:E; [|done].
    apply (idx_some l) in E as [Hi Hc]; [|done]. by destruct (Hn i Hi).
Qed.

Lemma ring_ext nx pv nx' pv' l :
  (forall x, nx' x = nx x) -> (forall x, pv' x = pv x) -> ring nx pv l -> ring nx' pv' l.
Proof. intros Hn Hp [H1 H2]. split; eapply chain_ext; eauto. Qed.

(** [s'] differs from [s] at buffer [i] only. *)
Definition only (i : Z) (s s' : bio) : Prop := forall j, j <> i -> bufs s' j = bufs s j.

Lemma only_trans i s1 s2 s3 : only i s1 s2 -> only i s2 s3 -> only i s1 s3.
Proof. intros H1 H2 j Hj. by rewrite H2, H1. Qed.

Lemma bio_ok_upd l s s' i :
  bio_ok l s -> i ∈ l -> only i s s' ->
  bnext (bufs s' i) = bnext (bufs s i) -> bprev (bufs s' i) = bprev (bufs s i) ->
  (bdev (bufs s' i) = dev -> forall j, j ∈ l -> j <> i -> ~ cached s (blockno (bufs s' i)) j) ->
  (bdev (bufs s' i) = dev \/ (bdev (bufs s' i) <> dev /\ refcnt (bufs s' i) = 0)) -> 0 <= refcnt (bufs s' i) ->
  (slocked (block (bufs s' i)) <> 0 -> 0 < refcnt (bufs s' i)) ->
  (bdev (bufs s' i) = dev -> bvalid (bufs s' i) <> 0 -> refcnt (bufs s' i) = 0 ->
     bdata (bufs s' i) = disk s' (blockno (bufs s' i))) ->
  (forall j, j ∈ l -> j <> i -> bdev (bufs s j) = dev -> disk s' (blockno (bufs s j)) = disk s (blockno (bufs s j))) ->
  bio_ok l s'.
Proof.
  intros H Hi Ho Hn Hp Hu Hdv Hr Hl Hc Hd.
  assert (Hcase : forall j, j = i \/ (j <> i /\ bufs s' j = bufs s j)).
  { intros j. destruct (Z.eq_dec j i); [by left|right; auto]. }
  split.
  - apply H.
  - eapply ring_ext; [..|apply (bo_ring _ _ H)]; intros j; unfold nxs, pvs; by destruct (Hcase j) as [->|[_ ->]].
  - intros j k Hj Hk. destruct (Hcase j) as [->|[Hji ->]], (Hcase k) as [->|[Hki ->]]; [done|..].
    + intros E1 E2 E3. by destruct (Hu E1 k Hk Hki).
    + intros E1 E2 E3. by destruct (Hu E2 j Hj Hji).
    + by apply H.
  - intros j Hj. destruct (Hcase j) as [->|[_ ->]]; [done|]. by apply H.
  - intros j Hj. destruct (Hcase j) as [->|[_ ->]]; [done|]. by apply (bo_ref _ _ H).
  - intros j Hj. destruct (Hcase j) as [->|[_ ->]]; [done|]. by apply H.
  - intros j Hj. destruct (Hcase j) as [->|[Hji ->]]; [done|]. intros E1 E2 E3.
    rewrite (bo_clean _ _ H j) by done. symmetry. by apply Hd.
Qed.

(** A buffer that stays with its block: only that block's view changes. *)
Lemma idx_same_block l s s' i bno :
  bio_ok l s -> bio_ok l s' -> i ∈ l -> only i s s' ->
  bdev (bufs s' i) = bdev (bufs s i) -> blockno (bufs s' i) = blockno (bufs s i) ->
  idx s' bno = idx s bno.
Proof.
  intros H H' Hi Ho E1 E2.
  assert (Hc : forall j, cached s' bno j <-> cached s bno j).
  { intros j. unfold cached. destruct (Z.eq_dec j i) as [->|Hj]; [by rewrite E1, E2|by rewrite Ho]. }
  destruct (idx s bno) as [j|] eqn:E.
  - apply (idx_some l) in E as [Hj Hcj]; [|done]. apply (idx_some l); [done|]. by rewrite Hc.
  - apply (idx_none l); [done|]. intros j Hj. rewrite Hc. by apply (idx_none l s bno H).
Qed.

(** Its effect on the views of all blocks. *)
Lemma views_same_block l s s' i bno :
  bio_ok l s -> bio_ok l s' -> idx s bno = Some i -> only i s s' ->
  bdev (bufs s' i) = bdev (bufs s i) -> blockno (bufs s' i) = blockno (bufs s i) ->
  (forall b, b <> bno -> disk s' b = disk s b) ->
  idx s' bno = Some i /\
  forall b, b <> bno -> content s' b = content s b /\ rc s' b = rc s b /\ taken s' b = taken s b.
Proof.
  intros H H' Hx Ho E1 E2 Hd. pose proof (proj1 (idx_some l s bno i H) Hx) as [Hi [Hc1 Hc2]].
  assert (Hs : forall b, idx s' b = idx s b) by (intros b; by apply (idx_same_block l s s' i)).
  split; [by rewrite Hs|]. intros b Hb. unfold content, rc, taken. rewrite Hs.
  destruct (idx s b) as [j|] eqn:E; [|by rewrite Hd].
  apply (idx_some l) in E as [Hj [Hj1 Hj2]]; [|done].
  assert (j <> i) by congruence. by rewrite (Ho j), Hd.
Qed.

(** Process [n] holds block [bno], in buffer [b]. *)
Definition has_buf (n : Z) (s : bio) (bno b : Z) : Prop :=
  idx s bno = Some b /\ block (bufs s b) = Sleeplock 1 n /\ bvalid (bufs s b) <> 0.

Lemma has_buf_view n s bno b :
  has_buf n s bno b -> content s bno = bdata (bufs s b) /\ rc s bno = refcnt (bufs s b) /\ taken s bno = true.
Proof.
  intros (E & Hl & Hv). unfold content, rc, taken. rewrite E, Hl. simpl.
  by rewrite (proj2 (Z.eqb_neq _ 0)).
Qed.

(** The other blocks processes hold stay held, in the same buffers. *)
Definition keeps_held (bno : Z) (s s' : bio) : Prop :=
  forall n b i, b <> bno -> has_buf n s b i -> has_buf n s' b i.

Lemma keeps_held_only l s s' bno i :
  bio_ok l s -> bio_ok l s' -> only i s s' -> (forall n b, b <> bno -> ~ has_buf n s b i) -> keeps_held bno s s'.
Proof.
  intros H H' Ho Hi n b j Hb Hj. assert (j <> i) as Hji by (intros ->; by apply (Hi n b)).
  destruct Hj as (E & Hl & Hv). split_and!; [|by rewrite Ho..].
  apply (idx_some l) in E as [Hin Hc]; [|done]. apply (idx_some l); [done|]. split; [done|].
  unfold cached. by rewrite Ho.
Qed.

Lemma not_has_other n l s bno i b : bio_ok l s -> idx s bno = Some i -> b <> bno -> ~ has_buf n s b i.
Proof.
  intros H E Hb (E' & _). apply (idx_some l) in E as [_ [_ E1]], E' as [_ [_ E2]]; [|done..]. congruence.
Qed.

(** ** Reading a block *)

Lemma upd_buf_eq i f s :
  exists s', upd_buf i f s = Ret tt s' /\ only i s s' /\ bufs s' i = f (bufs s i) /\
    disk s' = disk s /\ writes s' = writes s.
Proof.
  eexists. split; [reflexivity|]. split_and!; try done; simpl.
  - intros j Hj. simpl. by apply upd_ne.
  - apply upd_eq.
Qed.

Lemma lock_buf_eq n i s :
  slocked (block (bufs s i)) = 0 ->
  exists s', lock_buf n i s = Ret tt s' /\ only i s s' /\
    bufs s' i = set_block (Sleeplock 1 n) (bufs s i) /\ disk s' = disk s /\ writes s' = writes s.
Proof.
  intros Hl. unfold lock_buf, kbind, get_buf, kget, take_sleep. rewrite Hl. simpl. apply upd_buf_eq.
Qed.

Lemma bget_hit n s bno i :
  idx s bno = Some i -> slocked (block (bufs s i)) = 0 ->
  exists s', bget n dev bno s = Ret i s' /\ only i s s' /\
    bufs s' i = set_block (Sleeplock 1 n) (set_refcnt (u32 (refcnt (bufs s i) + 1)) (bufs s i)) /\
    disk s' = disk s /\ writes s' = writes s.
Proof.
  intros E Hl. unfold bget, kbind at 1, kget. fold (idx s bno). rewrite E.
  destruct (upd_buf_eq i (fun x => set_refcnt (u32 (refcnt x + 1)) x) s) as (s1 & E1 & O1 & B1 & D1 & W1).
  unfold kbind at 1. rewrite E1.
  destruct (lock_buf_eq n i s1) as (s2 & E2 & O2 & B2 & D2 & W2); [by rewrite B1|].
  unfold kbind. rewrite E2. exists s2.
  split_and!; [done|by eapply only_trans|by rewrite B2, B1|congruence|congruence].
Qed.

Lemma bget_miss n s bno j :
  idx s bno = None -> find_free ring_fuel (bufs s) (bprev (bufs s HEAD)) = Some j ->
  slocked (block (bufs s j)) = 0 ->
  exists s', bget n dev bno s = Ret j s' /\ only j s s' /\
    bufs s' j = Buf 0 dev bno (Sleeplock 1 n) 1 (bprev (bufs s j)) (bnext (bufs s j)) (bdata (bufs s j)) /\
    disk s' = disk s /\ writes s' = writes s.
Proof.
  intros E Ef Hl. unfold bget, kbind at 1, kget. fold (idx s bno). rewrite E, Ef.
  destruct (upd_buf_eq j (set_bdev dev) s) as (s1 & E1 & O1 & B1 & D1 & W1).
  destruct (upd_buf_eq j (set_blockno bno) s1) as (s2 & E2 & O2 & B2 & D2 & W2).
  destruct (upd_buf_eq j (set_bvalid 0) s2) as (s3 & E3 & O3 & B3 & D3 & W3).
  destruct (upd_buf_eq j (set_refcnt 1) s3) as (s4 & E4 & O4 & B4 & D4 & W4).
  destruct (lock_buf_eq n j s4) as (s5 & E5 & O5 & B5 & D5 & W5); [by rewrite B4, B3, B2, B1|].
  unfold kbind. rewrite E1, E2, E3, E4, E5. exists s5.
  split_and!; [done|eauto 10 using only_trans|by rewrite B5, B4, B3, B2, B1|congruence|congruence].
Qed.

Definition fill (d : mem) (x : buf) : buf := if bvalid x =? 0 then set_bvalid 1 (set_bdata d x) else x.

Lemma bread_of_bget n s bno i s1 :
  bget n dev bno s = Ret i s1 ->
  exists s', bread n dev bno s = Ret i s' /\ only i s1 s' /\
    bufs s' i = fill (disk s1 (blockno (bufs s1 i))) (bufs s1 i) /\ disk s' = disk s1 /\ writes s' = writes s1.
Proof.
  intros E. unfold bread, kbind at 1. rewrite E. unfold kbind at 1, get_buf, kget, fill.
  destruct (bvalid (bufs s1 i) =? 0).
  - unfold kbind at 1, disk_read, kupd. set (s2 := Bio _ _ _).
    destruct (upd_buf_eq i (set_bvalid 1) s2) as (s3 & E3 & O3 & B3 & D3 & W3).
    unfold kbind. rewrite E3. exists s3. split_and!; [done| |by rewrite B3; simpl; rewrite upd_eq|done|done].
    eapply only_trans; [|exact O3]. intros j Hj. simpl. by apply upd_ne.
  - exists s1. split_and!; try done.
Qed.

(** There is a buffer to read block [bno] into. *)
Definition room (l : list Z) (s : bio) (bno : Z) : Prop :=
  idx s bno <> None \/ exists j, j ∈ l /\ refcnt (bufs s j) = 0.

Lemma bread_view n l s bno :
  bio_ok l s -> taken s bno = false -> rc s bno < 2 ^ 32 - 1 -> room l s bno ->
  exists b s', bread n dev bno s = Ret b s' /\ bio_ok l s' /\ has_buf n s' bno b /\
    disk s' = disk s /\ writes s' = writes s /\
    (forall b', content s' b' = content s b') /\
    (forall b', rc s' b' = if b' =? bno then rc s b' + 1 else rc s b') /\
    (forall b', taken s' b' = if b' =? bno then true else taken s b') /\
    keeps_held bno s s' /\
    (idx s bno = None -> exists l1 l2, l = l1 ++ b :: l2 /\ refcnt (bufs s b) = 0 /\
       forall j, j ∈ l2 -> refcnt (bufs s j) <> 0).
Proof.
  intros H Ht Hrc Hroom. unfold taken, rc in Ht, Hrc. destruct (idx s bno) as [i|] eqn:E.
  - apply negb_false_iff, Z.eqb_eq in Ht. pose proof (proj1 (idx_some l s bno i H) E) as [Hi [Hc1 Hc2]].
    pose proof (bo_ref _ _ H i Hi) as Hr0.
    destruct (bget_hit n s bno i E Ht) as (s1 & E1 & O1 & B1 & D1 & W1).
    destruct (bread_of_bget n s bno i s1 E1) as (s2 & E2 & O2 & B2 & D2 & W2).
    rewrite B1 in B2. rewrite u32_small in B2 by lia.
    assert (Ex : bnext (bufs s2 i) = bnext (bufs s i) /\ bprev (bufs s2 i) = bprev (bufs s i) /\
      bdev (bufs s2 i) = dev /\ blockno (bufs s2 i) = bno /\ refcnt (bufs s2 i) = refcnt (bufs s i) + 1 /\
      block (bufs s2 i) = Sleeplock 1 n /\ bvalid (bufs s2 i) <> 0 /\
      bdata (bufs s2 i) = content s bno).
    { rewrite B2. unfold fill, content. simpl. rewrite E, Hc2, D1.
      destruct (Z.eqb_spec (bvalid (bufs s i)) 0); simpl; split_and!; done. }
    destruct Ex as (X1 & X2 & X3 & X4 & X5 & X6 & X7 & X8).
    assert (H2 : bio_ok l s2).
    { apply (bio_ok_upd l s s2 i); rewrite ?X3, ?X4, ?X5, ?X6; try done; try lia; try (by left).
      - by eapply only_trans.
      - intros _ j Hj Hji [Hj1 Hj2]. apply Hji, (bo_uniq _ _ H); congruence.
      - intros j _ _ _. by rewrite D2, D1. }
    destruct (views_same_block l s s2 i bno) as (Ei & Hv); [done|done|done|by eapply only_trans|congruence..| |].
    { intros b _. by rewrite D2, D1. }
    assert (Hb : has_buf n s2 bno i) by done. destruct (has_buf_view _ _ _ _ Hb) as (V1 & V2 & V3).
    assert (Hkh : keeps_held bno s s2).
    { apply (keeps_held_only l s s2 bno i); [done|done|by eapply only_trans|]. intros n' b. by eapply not_has_other. }
    exists i, s2. split_and!; [done..|congruence|congruence| | | |done|done]; intros b;
      destruct (Z.eqb_spec b bno) as [->|Hb']; try (by apply Hv).
    + by rewrite V1, X8.
    + rewrite V2, X5. unfold rc. by rewrite E.
    + done.
  - pose proof (find_free_spec l s H) as Hf.
    destruct (find_free ring_fuel (bufs s) (bprev (bufs s HEAD))) as [j|] eqn:Ef.
    2:{ destruct Hroom as [?|(j & Hj & Hz)]; [done|]. by destruct (Hf j Hj). }
    pose proof Hf as (l1 & l2 & El & Hz & _). assert (Hj : j ∈ l) by (rewrite El; set_solver).
    assert (Hlk : slocked (block (bufs s j)) = 0).
    { destruct (Z.eq_dec (slocked (block (bufs s j))) 0); [done|]. pose proof (bo_lock _ _ H j Hj). lia. }
    destruct (bget_miss n s bno j E Ef Hlk) as (s1 & E1 & O1 & B1 & D1 & W1).
    destruct (bread_of_bget n s bno j s1 E1) as (s2 & E2 & O2 & B2 & D2 & W2).
    rewrite B1 in B2. unfold fill in B2. simpl in B2.
    pose proof (proj1 (idx_none l s bno H) E) as Hnone.
    assert (O : only j s s2) by (by eapply only_trans).
    assert (H2 : bio_ok l s2).
    { apply (bio_ok_upd l s s2 j); rewrite ?B2; simpl; try done; try lia; try (by left).
      - intros _ k Hk _. by apply Hnone.
      - intros k _ _ _. by rewrite D2, D1. }
    assert (Ei : idx s2 bno = Some j) by (apply (idx_some l); [done|split; [done|unfold cached; by rewrite B2]]).
    assert (Hb : has_buf n s2 bno j) by (split_and!; [done|by rewrite B2..]).
    destruct (has_buf_view _ _ _ _ Hb) as (V1 & V2 & V3). rewrite B2 in V1, V2. simpl in V1, V2.
    assert (Hv : forall b, b <> bno -> content s2 b = content s b /\ rc s2 b = rc s b /\ taken s2 b = taken s b).
    { intros b Hbn. unfold content, rc, taken. rewrite D2, D1. destruct (idx s b) as [k|] eqn:Ek.
      - apply (idx_some l) in Ek as [Hk [Hk1 Hk2]]; [|done]. destruct (Z.eq_dec k j) as [->|Hkj].
        + assert (idx s2 b = None) as ->.
          { apply (idx_none l); [done|]. intros k Hk' [Hk3 Hk4]. destruct (Z.eq_dec k j) as [->|Hkj].
            - rewrite B2 in Hk4. simpl in Hk4. congruence.
            - rewrite O in Hk3, Hk4 by done. apply Hkj, (bo_uniq _ _ H); congruence. }
          rewrite Hlk. split_and!; [|done|done]. destruct (Z.eqb_spec (bvalid (bufs s j)) 0); [done|].
          rewrite (bo_clean _ _ H j) by done. by rewrite Hk2.
        + assert (idx s2 b = Some k) as ->.
          { apply (idx_some l); [done|]. split; [done|]. unfold cached. by rewrite O. }
          by rewrite O.
      - assert (idx s2 b = None) as ->; [|done]. apply (idx_none l); [done|].
        pose proof (proj1 (idx_none l s b H) Ek) as Hn. intros k Hk [Hk1 Hk2].
        destruct (Z.eq_dec k j) as [->|Hkj]; [rewrite B2 in Hk2; simpl in Hk2; congruence|].
        rewrite O in Hk1, Hk2 by done. by apply (Hn k Hk). }
    assert (Ec : content s bno = disk s bno) by (unfold content; by rewrite E).
    assert (Hkh : keeps_held bno s s2).
    { apply (keeps_held_only l s s2 bno j); [done..|]. intros n' b _ (_ & Hl' & _).
      rewrite Hl' in Hlk. done. }
    exists j, s2. split_and!; [done..|congruence|congruence| | | |done|done]; intros b;
      destruct (Z.eqb_spec b bno) as [->|Hb']; try (by apply Hv).
    + by rewrite V1, Ec, D1.
    + rewrite V2. unfold rc. by rewrite E.
    + done.
Qed.

(** ** Changing, writing and releasing a block *)

Lemma has_buf_in n l s bno b : bio_ok l s -> has_buf n s bno b -> b ∈ l /\ cached s bno b /\ 0 < refcnt (bufs s b).
Proof.
  intros H (E & Hl & _). apply (idx_some l) in E as [Hb Hc]; [|done]. split_and!; [done..|].
  apply (bo_lock _ _ H b Hb). by rewrite Hl.
Qed.

(** A held buffer may change its data, its reference count and the disk
    copy of its block. *)
Lemma held_upd n l s s' bno b :
  bio_ok l s -> has_buf n s bno b -> only b s s' ->
  bufs s' b = set_refcnt (refcnt (bufs s' b)) (set_bdata (bdata (bufs s' b)) (bufs s b)) ->
  0 < refcnt (bufs s' b) -> (forall b', b' <> bno -> disk s' b' = disk s b') ->
  bio_ok l s' /\ has_buf n s' bno b /\
  content s' bno = bdata (bufs s' b) /\ rc s' bno = refcnt (bufs s' b) /\ keeps_held bno s s' /\
  forall b', b' <> bno -> content s' b' = content s b' /\ rc s' b' = rc s b' /\ taken s' b' = taken s b'.
Proof.
  intros H Hb Ho Ex Hr Hd. destruct (has_buf_in _ _ _ _ _ H Hb) as (Hin & [Hc1 Hc2] & _).
  destruct Hb as (Ei & Hl & Hv).
  assert (Y : bdev (bufs s' b) = dev /\ blockno (bufs s' b) = bno /\ block (bufs s' b) = Sleeplock 1 n /\
    bvalid (bufs s' b) <> 0 /\ bnext (bufs s' b) = bnext (bufs s b) /\ bprev (bufs s' b) = bprev (bufs s b)).
  { rewrite Ex. simpl. done. }
  destruct Y as (Y1 & Y2 & Y3 & Y4 & Y5 & Y6).
  assert (H' : bio_ok l s').
  { apply (bio_ok_upd l s s' b); rewrite ?Y1, ?Y2; try done; try lia; try (by left).
    - intros _ j Hj Hjb [Hj1 Hj2]. apply Hjb, (bo_uniq _ _ H); congruence.
    - intros j Hj Hjb Hj1. apply Hd. intros E. apply Hjb, (bo_uniq _ _ H); congruence. }
  destruct (views_same_block l s s' b bno) as (Ei' & Hvs); [done..|congruence|congruence|done|].
  assert (Hb' : has_buf n s' bno b) by done. destruct (has_buf_view _ _ _ _ Hb') as (V1 & V2 & _).
  split_and!; try done. apply (keeps_held_only l s s' bno b); [done..|]. intros n' b'. by eapply not_has_other.
Qed.

Lemma set_data_view n l s bno b f :
  bio_ok l s -> has_buf n s bno b ->
  exists s', upd_buf b (fun x => set_bdata (f (bdata x)) x) s = Ret tt s' /\ bio_ok l s' /\ has_buf n s' bno b /\
    disk s' = disk s /\ writes s' = writes s /\
    (forall b', content s' b' = if b' =? bno then f (content s bno) else content s b') /\
    (forall b', rc s' b' = rc s b') /\ (forall b', taken s' b' = taken s b') /\ keeps_held bno s s'.
Proof.
  intros H Hb. destruct (has_buf_view _ _ _ _ Hb) as (V1 & V2 & V3).
  destruct (has_buf_in _ _ _ _ _ H Hb) as (_ & _ & Hr).
  destruct (upd_buf_eq b (fun x => set_bdata (f (bdata x)) x) s) as (s' & E & O & B & D & W).
  destruct (held_upd n l s s' bno b) as (H' & Hb' & C1 & R1 & Hkh & Hv); [done..|by rewrite B|by rewrite B|by rewrite D|].
  destruct (has_buf_view _ _ _ _ Hb') as (_ & _ & T1). rewrite B in C1, R1. simpl in C1, R1.
  exists s'. split_and!; [done..| | | |done]; intros b'.
  - destruct (Z.eqb_spec b' bno) as [->|Hne]; [by rewrite C1, V1|by apply Hv].
  - destruct (Z.eq_dec b' bno) as [->|Hne]; [by rewrite R1, V2|by apply Hv].
  - destruct (Z.eq_dec b' bno) as [->|Hne]; [by rewrite T1, V3|by apply Hv].
Qed.

Lemma count_view n l s bno b f :
  bio_ok l s -> has_buf n s bno b -> 0 < f (refcnt (bufs s b)) ->
  exists s', upd_buf b (fun x => set_refcnt (f (refcnt x)) x) s = Ret tt s' /\ bio_ok l s' /\ has_buf n s' bno b /\
    disk s' = disk s /\ writes s' = writes s /\
    (forall b', content s' b' = content s b') /\
    (forall b', rc s' b' = if b' =? bno then f (rc s bno) else rc s b') /\ (forall b', taken s' b' = taken s b') /\ keeps_held bno s s'.
Proof.
  intros H Hb Hf. destruct (has_buf_view _ _ _ _ Hb) as (V1 & V2 & V3).
  destruct (upd_buf_eq b (fun x => set_refcnt (f (refcnt x)) x) s) as (s' & E & O & B & D & W).
  destruct (held_upd n l s s' bno b) as (H' & Hb' & C1 & R1 & Hkh & Hv); [done..|by rewrite B|by rewrite B|by rewrite D|].
  destruct (has_buf_view _ _ _ _ Hb') as (_ & _ & T1). rewrite B in C1, R1. simpl in C1, R1.
  exists s'. split_and!; [done..| | | |done]; intros b'.
  - destruct (Z.eq_dec b' bno) as [->|Hne]; [by rewrite C1, V1|by apply Hv].
  - destruct (Z.eqb_spec b' bno) as [->|Hne]; [by rewrite R1, V2|by apply Hv].
  - destruct (Z.eq_dec b' bno) as [->|Hne]; [by rewrite T1, V3|by apply Hv].
Qed.

Lemma bwrite_view n l s bno b :
  bio_ok l s -> has_buf n s bno b ->
  exists s', bwrite n b s = Ret tt s' /\ bio_ok l s' /\ has_buf n s' bno b /\
    disk s' = upd (disk s) bno (content s bno) /\ writes s' = (bno, content s bno) :: writes s /\
    (forall b', content s' b' = content s b') /\ (forall b', rc s' b' = rc s b') /\ (forall b', taken s' b' = taken s b') /\
    keeps_held bno s s'.
Proof.
  intros H Hb. destruct (has_buf_view _ _ _ _ Hb) as (V1 & V2 & V3).
  destruct (has_buf_in _ _ _ _ _ H Hb) as (_ & [_ Hc2] & Hr). pose proof Hb as (_ & Hl & _).
  unfold bwrite, kbind, get_buf, kget, held_by. rewrite Hl. simpl. rewrite Z.eqb_refl. simpl.
  unfold disk_write, kupd. rewrite Hc2, <- V1. set (s' := Bio _ _ _).
  destruct (held_upd n l s s' bno b) as (H' & Hb' & C1 & R1 & Hkh & Hv); [done|done|by intros j Hj|unfold s'; simpl; by destruct (bufs s b)|done| |].
  { intros b' Hne. simpl. by apply upd_ne. }
  destruct (has_buf_view _ _ _ _ Hb') as (_ & _ & T1). simpl in C1, R1.
  exists s'. split_and!; [done..| | | |done]; intros b'; destruct (Z.eq_dec b' bno) as [->|Hne]; try (by apply Hv).
  - by rewrite C1, V1.
  - by rewrite R1, V2.
  - by rewrite T1, V3.
Qed.

(** [s'] has the links of the list [l'] and is otherwise [s]. *)
Definition relinked (s s' : bio) : Prop :=
  disk s' = disk s /\ writes s' = writes s /\
  forall i, bufs s' i = set_bprev (pvs s' i) (set_bnext (nxs s' i) (bufs s i)).

Lemma relinked_ok l l' s s' :
  bio_ok l s -> l' ≡ₚ l -> ring (nxs s') (pvs s') l' -> relinked s s' ->
  bio_ok l' s' /\
  (forall b, content s' b = content s b) /\ (forall b, rc s' b = rc s b) /\ (forall b, taken s' b = taken s b) /\
  (forall n b i, has_buf n s b i -> has_buf n s' b i).
Proof.
  intros H Hp Hr (Hd & _ & Hb).
  assert (F : forall i, bdev (bufs s' i) = bdev (bufs s i) /\ blockno (bufs s' i) = blockno (bufs s i) /\
    refcnt (bufs s' i) = refcnt (bufs s i) /\ block (bufs s' i) = block (bufs s i) /\
    bvalid (bufs s' i) = bvalid (bufs s i) /\ bdata (bufs s' i) = bdata (bufs s i)).
  { intros i. rewrite Hb. done. }
  assert (Hl : forall i, i ∈ l' <-> i ∈ l) by (intros i; by rewrite Hp).
  assert (H' : bio_ok l' s').
  { split.
    - rewrite Hp. apply H.
    - done.
    - intros i j. rewrite !Hl. destruct (F i) as (-> & -> & _), (F j) as (-> & -> & _). apply H.
    - intros i. rewrite Hl. destruct (F i) as (-> & _ & -> & _). apply H.
    - intros i. rewrite Hl. destruct (F i) as (_ & _ & -> & _). apply (bo_ref _ _ H).
    - intros i. rewrite Hl. destruct (F i) as (_ & _ & -> & -> & _). apply H.
    - intros i. rewrite Hl, Hd. destruct (F i) as (-> & -> & -> & _ & -> & ->). apply H. }
  assert (Hi : forall b, idx s' b = idx s b).
  { intros b. assert (Hc : forall i, cached s' b i <-> cached s b i).
    { intros i. unfold cached. by destruct (F i) as (-> & -> & _). }
    destruct (idx s b) as [i|] eqn:E.
    - apply (idx_some l) in E as [Hj Hcj]; [|done]. apply (idx_some l'); [done|]. by rewrite Hc, Hl.
    - apply (idx_none l'); [done|]. intros i. rewrite Hc, Hl. by apply (idx_none l s b H). }
  split; [done|]. split_and!; [..|intros n b i (E1 & E2 & E3); destruct (F i) as (_ & _ & _ & E4 & E5 & _);
    split_and!; [by rewrite Hi|congruence|congruence]];
    unfold content, rc, taken; intros b; rewrite Hi, ?Hd; (destruct (idx s b) as [i|]; [|done]);
    destruct (F i) as (E1 & E2 & E3 & E4 & E5 & E6); by rewrite ?E3, ?E4, ?E5, ?E6.
Qed.

(** The links after [unlink_buf] and [push_front]. *)
Lemma relinked_trans s1 s2 s3 : relinked s1 s2 -> relinked s2 s3 -> relinked s1 s3.
Proof.
  intros (D1 & W1 & B1) (D2 & W2 & B2). split_and!; [congruence..|]. intros i. rewrite B2, B1. done.
Qed.

Lemma set_bnext_links i v s :
  exists s', upd_buf i (set_bnext v) s = Ret tt s' /\ relinked s s' /\
    (forall j, nxs s' j = upd (nxs s) i v j) /\ (forall j, pvs s' j = pvs s j).
Proof.
  eexists. split; [reflexivity|]. unfold relinked, nxs, pvs, upd. simpl. split_and!; [done|done|..]; intros j;
    destruct (Z.eqb_spec j i) as [->|]; try done; by destruct (bufs s _).
Qed.

Lemma set_bprev_links i v s :
  exists s', upd_buf i (set_bprev v) s = Ret tt s' /\ relinked s s' /\
    (forall j, nxs s' j = nxs s j) /\ (forall j, pvs s' j = upd (pvs s) i v j).
Proof.
  eexists. split; [reflexivity|]. unfold relinked, nxs, pvs, upd. simpl. split_and!; [done|done|..]; intros j;
    destruct (Z.eqb_spec j i) as [->|]; try done; by destruct (bufs s _).
Qed.

Lemma upd_ext {A} (f g : Z -> A) a v i : (forall j, f j = g j) -> upd f a v i = upd g a v i.
Proof. intros H. unfold upd. by destruct (i =? a). Qed.

Lemma unlink_buf_links b s :
  nxs s b <> b ->
  exists s', unlink_buf b s = Ret tt s' /\ relinked s s' /\
    (forall i, nxs s' i = upd (nxs s) (pvs s b) (nxs s b) i) /\
    (forall i, pvs s' i = upd (pvs s) (nxs s b) (pvs s b) i).
Proof.
  intros Hne. unfold unlink_buf, kbind, get_buf, kget. fold (nxs s b) (pvs s b).
  destruct (set_bprev_links (nxs s b) (pvs s b) s) as (s1 & E1 & R1 & N1 & P1). rewrite E1.
  fold (nxs s1 b) (pvs s1 b). rewrite N1, P1, upd_ne by congruence.
  destruct (set_bnext_links (pvs s b) (nxs s b) s1) as (s2 & E2 & R2 & N2 & P2).
  exists s2. split_and!; [done|by eapply relinked_trans|..]; intros i.
  - rewrite N2. by apply upd_ext.
  - by rewrite P2.
Qed.

Lemma push_front_links b s :
  b <> HEAD ->
  exists s', push_front b s = Ret tt s' /\ relinked s s' /\
    (forall i, nxs s' i = upd (upd (nxs s) b (nxs s HEAD)) HEAD b i) /\
    (forall i, pvs s' i = upd (upd (pvs s) b HEAD) (nxs s HEAD) b i).
Proof.
  intros Hne. unfold push_front, kbind, get_buf, kget. fold (nxs s HEAD).
  destruct (set_bnext_links b (nxs s HEAD) s) as (s1 & E1 & R1 & N1 & P1). rewrite E1.
  destruct (set_bprev_links b HEAD s1) as (s2 & E2 & R2 & N2 & P2). rewrite E2. fold (nxs s2 HEAD).
  rewrite N2, N1, upd_ne by congruence.
  destruct (set_bprev_links (nxs s HEAD) b s2) as (s3 & E3 & R3 & N3 & P3). rewrite E3.
  destruct (set_bnext_links HEAD b s3) as (s4 & E4 & R4 & N4 & P4).
  exists s4. split_and!; [done|eauto using relinked_trans|..]; intros i.
  - rewrite N4. apply upd_ext. intros j. rewrite N3, N2. by rewrite N1.
  - rewrite P4, P3. apply upd_ext. intros j. rewrite P2. by apply upd_ext.
Qed.

(** Moving a buffer to the front. *)
Lemma move_front l1 b l2 s :
  bio_ok (l1 ++ b :: l2) s ->
  exists s', (do! unlink_buf b; push_front b) s = Ret tt s' /\ relinked s s' /\
    ring (nxs s') (pvs s') (b :: l1 ++ l2).
Proof.
  intros H. pose proof (bio_NoDup _ _ H) as Hnd. pose proof (bo_ring _ _ H) as Hr.
  destruct (ring_remove _ _ _ _ _ Hnd Hr) as (Ep & En & Hr1).
  assert (Hnd' : NoDup (HEAD :: b :: l1 ++ l2)) by (by rewrite Permutation_middle).
  assert (Hb : nxs s b <> b).
  { rewrite En. destruct l2 as [|y l2]; simpl.
    - apply NoDup_cons in Hnd' as [Hh _]. intros E. apply Hh. rewrite E. by left.
    - intros E. subst y. apply NoDup_cons in Hnd' as [_ [Hh _]%NoDup_cons]. apply Hh. set_solver. }
  destruct (unlink_buf_links b s Hb) as (s1 & E1 & R1 & N1 & P1).
  destruct (push_front_links b s1) as (s2 & E2 & R2 & N2 & P2).
  { apply NoDup_cons in Hnd' as [Hh _]. intros E. apply Hh. rewrite E. by left. }
  exists s2. split_and!; [unfold kbind; by rewrite E1, E2|by eapply relinked_trans|].
  assert (Hr1' : ring (nxs s1) (pvs s1) (l1 ++ l2)) by (by eapply ring_ext; [..|exact Hr1]).
  eapply ring_ext; [exact N2|exact P2|]. by apply ring_push.
Qed.

Lemma brelse_view n l s bno b :
  bio_ok l s -> has_buf n s bno b -> rc s bno < 2 ^ 32 -> (rc s bno = 1 -> content s bno = disk s bno) ->
  exists s' l', brelse n b s = Ret tt s' /\ bio_ok l' s' /\ l' ≡ₚ l /\
    (rc s bno = 1 -> exists l1 l2, l = l1 ++ b :: l2 /\ l' = b :: l1 ++ l2) /\ (rc s bno <> 1 -> l' = l) /\
    disk s' = disk s /\ writes s' = writes s /\
    (forall b', content s' b' = content s b') /\
    (forall b', rc s' b' = if b' =? bno then rc s b' - 1 else rc s b') /\
    (forall b', taken s' b' = if b' =? bno then false else taken s b') /\ keeps_held bno s s'.
Proof.
  intros H Hb Hlt Hcl. destruct (has_buf_view _ _ _ _ Hb) as (V1 & V2 & V3).
  destruct (has_buf_in _ _ _ _ _ H Hb) as (Hin & [Hc1 Hc2] & Hr). pose proof Hb as (Ei & Hl & Hv).
  unfold brelse, kbind at 1, get_buf, kget, held_by. rewrite Hl. simpl. rewrite Z.eqb_refl. simpl.
  destruct (upd_buf_eq b (set_block drop_sleep) s) as (s1 & E1 & O1 & B1 & D1 & W1).
  destruct (upd_buf_eq b (fun y => set_refcnt (u32 (refcnt y - 1)) y) s1) as (s2 & E2 & O2 & B2 & D2 & W2).
  unfold kbind at 1. rewrite E1. unfold kbind at 1. rewrite E2. rewrite B1 in B2. simpl in B2.
  rewrite u32_small in B2 by lia. assert (O : only b s s2) by (by eapply only_trans).
  assert (H2 : bio_ok l s2).
  { apply (bio_ok_upd l s s2 b); rewrite ?B2; simpl; try done; try lia; try (by left).
    - intros _ j Hj Hjb [Hj1 Hj2]. apply Hjb, (bo_uniq _ _ H); congruence.
    - intros _ _ Hz. rewrite D2, D1, Hc2, <- V1. apply Hcl. lia.
    - intros j _ _ _. by rewrite D2, D1. }
  destruct (views_same_block l s s2 b bno) as (Ei2 & Hvs); [done|done|done|done|by rewrite B2|by rewrite B2| |].
  { intros b' _. by rewrite D2, D1. }
  assert (Hviews : (forall b', content s2 b' = content s b') /\
    (forall b', rc s2 b' = if b' =? bno then rc s b' - 1 else rc s b') /\
    (forall b', taken s2 b' = if b' =? bno then false else taken s b')).
  { split_and!; intros b'; destruct (Z.eqb_spec b' bno) as [->|Hne]; try (by apply Hvs).
    - unfold content at 1. rewrite Ei2, B2. simpl. by rewrite (proj2 (Z.eqb_neq _ 0)), V1 by done.
    - unfold rc at 1. by rewrite Ei2, B2, V2.
    - unfold taken at 1. by rewrite Ei2, B2. }
  destruct Hviews as (C2 & R2 & T2).
  assert (Hkh : keeps_held bno s s2).
  { apply (keeps_held_only l s s2 bno b); [done..|]. intros n' b'. by eapply not_has_other. }
  unfold kbind at 1, get_buf, kget. rewrite B2. simpl.
  destruct (Z.eqb_spec (refcnt (bufs s b) - 1) 0) as [Hz|Hz].
  - destruct (list_elem_of_split l b Hin) as (l1 & l2 & El). rewrite El in H2.
    destruct (move_front _ _ _ _ H2) as (s3 & E3 & R3 & Hring). exists s3, (b :: l1 ++ l2).
    destruct (relinked_ok (l1 ++ b :: l2) (b :: l1 ++ l2) s2 s3 H2) as (H3 & C3 & Rc3 & T3 & Hh3); [by rewrite Permutation_middle|done|done|].
    pose proof R3 as (D3 & W3 & _).
    split_and!; [done|done|by rewrite El, Permutation_middle|intros _; by exists l1, l2|lia|congruence|congruence|..];
      [intros b'..|]; [by rewrite C3|by rewrite Rc3|by rewrite T3|]. intros n' b' i Hne Hh. by apply Hh3, Hkh.
  - exists s2, l. split_and!; [done|done|done|lia|done|congruence|congruence|done|done|done|done].
Qed.
(** ** The cache its users see

    [shows c P T s]: the blocks have contents [c], references [P] and are
    held where [T] says.  Each operation, in these terms. *)

Record shows (c : Z -> mem) (P : Z -> Z) (T : Z -> bool) (s : bio) : Prop := Shows {
  sh_ok : exists l, bio_ok l s;
  sh_content : forall b, content s b = c b;
  sh_rc : forall b, rc s b = P b;
  sh_taken : forall b, taken s b = T b
}.

Lemma shows_clean c P T s b : shows c P T s -> P b = 0 -> c b = disk s b.
Proof.
  intros [[l H] Hc Hp _] Hb. rewrite <- Hc. specialize (Hp b). rewrite Hb in Hp. unfold content, rc in *.
  destruct (idx s b) as [i|] eqn:E; [|done]. destruct (Z.eqb_spec (bvalid (bufs s i)) 0); [done|].
  apply (idx_some l) in E as [Hi [E1 E2]]; [|done]. rewrite (bo_clean _ _ H i) by done. by rewrite E2.
Qed.

Lemma shows_ext c P T c' P' T' s :
  (forall b, c' b = c b) -> (forall b, P' b = P b) -> (forall b, T' b = T b) -> shows c P T s -> shows c' P' T' s.
Proof. intros Ec Ep Et [H1 H2 H3 H4]. split; [done|intros b; congruence..]. Qed.

(** Fewer blocks in use than there are buffers: one is free. *)
Lemma room_of l s bno L :
  bio_ok l s -> (forall b, rc s b <> 0 -> b ∈ L) -> (length L < Z.to_nat NBUF)%nat -> room l s bno.
Proof.
  intros H HL Hlen. right.
  destruct (decide (Exists (fun j => refcnt (bufs s j) = 0) l)) as [He|Hn].
  { apply Exists_exists in He. naive_solver. }
  exfalso. apply not_Exists_Forall in Hn; [|intros j; apply _]. rewrite Forall_forall in Hn.
  assert (Hd : forall j, j ∈ l -> bdev (bufs s j) = dev).
  { intros j Hj. destruct (bo_dev _ _ H j Hj) as [|[_ ?]]; [done|]. by destruct (Hn j Hj). }
  assert (Hsub : (fun j => blockno (bufs s j)) <$> l ⊆ L).
  { intros b (j & -> & Hj)%list_elem_of_fmap. apply HL.
    assert (Ei : idx s (blockno (bufs s j)) = Some j) by (apply (idx_some l); [done|]; by split; [|split; [apply Hd|]]).
    unfold rc. rewrite Ei. by apply Hn. }
  assert (Hnd : NoDup ((fun j => blockno (bufs s j)) <$> l)).
  { apply NoDup_fmap_2_strong; [|by apply (NoDup_cons_1_2 HEAD), (bio_NoDup l s)]. intros i j Hi Hj E.
    apply (bo_uniq _ _ H); auto. }
  pose proof (NoDup_submseteq _ _ Hnd Hsub) as Hle.
  apply submseteq_length in Hle. rewrite length_fmap, (bio_length _ _ H) in Hle. lia.
Qed.

Lemma bread_shows n c P T s bno L :
  shows c P T s -> T bno = false -> P bno < 2 ^ 32 - 1 ->
  P bno <> 0 \/ (forall b, P b <> 0 -> b ∈ L) /\ (length L < Z.to_nat NBUF)%nat ->
  wp (bread n dev bno) (fun b s' =>
    shows c (upd P bno (P bno + 1)) (upd T bno true) s' /\ has_buf n s' bno b /\ keeps_held bno s s' /\
    disk s' = disk s /\ writes s' = writes s) s.
Proof.
  intros [[l H] Hc Hp Ht] HT HP HL. rewrite <- Ht in HT. rewrite <- Hp in HP.
  destruct (bread_view n l s bno H HT HP) as (b & s' & E & H' & Hb & D & W & C & R & K & Hk & _).
  { destruct HL as [Hb|[HL Hlen]]; [|apply (room_of l s bno L); [done|intros b; rewrite Hp; apply HL|done]].
    left. intros E. rewrite <- Hp in Hb. unfold rc in Hb. by rewrite E in Hb. }
  apply wp_ex. exists b, s'. split_and!; try done. split; [by exists l|..]; intros b'; unfold upd.
  - by rewrite C.
  - rewrite R, !Hp. by destruct (Z.eqb_spec b' bno) as [->|].
  - by rewrite K, Ht.
Qed.

Lemma set_data_shows n c P T s bno b f :
  shows c P T s -> has_buf n s bno b ->
  wp (upd_buf b (fun x => set_bdata (f (bdata x)) x)) (fun _ s' =>
    shows (upd c bno (f (c bno))) P T s' /\ has_buf n s' bno b /\ keeps_held bno s s' /\
    disk s' = disk s /\ writes s' = writes s) s.
Proof.
  intros [[l H] Hc Hp Ht] Hb.
  destruct (set_data_view n l s bno b f H Hb) as (s' & E & H' & Hb' & D & W & C & R & K & Hk).
  apply wp_ex. exists tt, s'. split_and!; try done. split; [by exists l|..]; intros b'; unfold upd; [|congruence..].
  by rewrite C, !Hc.
Qed.

Lemma bwrite_shows n c P T s bno b :
  shows c P T s -> has_buf n s bno b ->
  wp (bwrite n b) (fun _ s' =>
    shows c P T s' /\ has_buf n s' bno b /\ keeps_held bno s s' /\
    disk s' = upd (disk s) bno (c bno) /\ writes s' = (bno, c bno) :: writes s) s.
Proof.
  intros [[l H] Hc Hp Ht] Hb.
  destruct (bwrite_view n l s bno b H Hb) as (s' & E & H' & Hb' & D & W & C & R & K & Hk).
  rewrite Hc in D, W. apply wp_ex. exists tt, s'. split_and!; try done.
  split; [by exists l|intros b'; congruence..].
Qed.

Lemma brelse_shows n c P T s bno b :
  shows c P T s -> has_buf n s bno b -> P bno < 2 ^ 32 -> (P bno = 1 -> c bno = disk s bno) ->
  wp (brelse n b) (fun _ s' =>
    shows c (upd P bno (P bno - 1)) (upd T bno false) s' /\ keeps_held bno s s' /\
    disk s' = disk s /\ writes s' = writes s) s.
Proof.
  intros [[l H] Hc Hp Ht] Hb HP Hcl. rewrite <- Hp, <- Hc in Hcl. rewrite <- Hp in HP.
  destruct (brelse_view n l s bno b H Hb HP Hcl) as (s' & l' & E & H' & _ & _ & _ & D & W & C & R & K & Hk).
  apply wp_ex. exists tt, s'. split_and!; try done. split; [by exists l'|..]; intros b'; unfold upd.
  - by rewrite C.
  - rewrite R, !Hp. by destruct (Z.eqb_spec b' bno) as [->|].
  - by rewrite K, Ht.
Qed.

Lemma count_shows n c P T s bno b f :
  shows c P T s -> has_buf n s bno b -> 0 < f (P bno) ->
  wp (upd_buf b (fun x => set_refcnt (f (refcnt x)) x)) (fun _ s' =>
    shows c (upd P bno (f (P bno))) T s' /\ has_buf n s' bno b /\ keeps_held bno s s' /\
    disk s' = disk s /\ writes s' = writes s) s.
Proof.
  intros [[l H] Hc Hp Ht] Hb Hf. rewrite <- Hp in Hf. destruct (has_buf_view _ _ _ _ Hb) as (_ & V & _).
  rewrite V in Hf. destruct (count_view n l s bno b f H Hb Hf) as (s' & E & H' & Hb' & D & W & C & R & K & Hk).
  apply wp_ex. exists tt, s'. split_and!; try done. split; [by exists l|..]; intros b'; [congruence| |congruence].
  unfold upd. by rewrite R, !Hp.
Qed.
End cache.
