(* ===== verification/BioSpec.v ===== *)
(** * The buffer cache against an abstract cache

    [binit] sets up an empty cache, and whatever sequence of reads, edits,
    writes, pins and releases follows, the cache shows the contents of an
    abstract one that has no buffers at all: eviction is never visible. *)

From stdpp Require Import gmultiset.
From S2P Require Import Prelude Memory Sleeplock Bio.

(** ** binit *)

(** What [binit] keeps: a buffer belongs to no block. *)
Definition unused (s : bio) (i : Z) : Prop := bdev (bufs s i) = 0 /\ refcnt (bufs s i) = 0.

Lemma relinked_unused s s' i : relinked s s' -> unused s i -> unused s' i.
Proof. intros (_ & _ & B). unfold unused. by rewrite B. Qed.

Lemma binit_step s b pre :
  b <> HEAD -> NoDup (HEAD :: b :: reverse pre) ->
  ring (nxs s) (pvs s) (reverse pre) -> (forall i, unused s i) ->
  (forall i, i ∈ pre -> slocked (block (bufs s i)) = 0) ->
  wp (do! upd_buf b (set_block (Sleeplock 0 0)); push_front b) (fun _ s' =>
    ring (nxs s') (pvs s') (reverse (pre ++ [b])) /\ (forall i, unused s' i) /\
    (forall i, i ∈ pre ++ [b] -> slocked (block (bufs s' i)) = 0) /\ disk s' = disk s /\ writes s' = writes s) s.
Proof.
  intros Hb Hnd Hr Hu Hl. apply wp_bind, wp_ex.
  destruct (upd_buf_eq b (set_block (Sleeplock 0 0)) s) as (s1 & E1 & O1 & B1 & D1 & W1).
  exists tt, s1. split; [done|]. apply wp_ex.
  assert (F : forall i, nxs s1 i = nxs s i /\ pvs s1 i = pvs s i /\ unused s1 i).
  { intros i. specialize (Hu i). unfold nxs, pvs, unused in *. destruct (Z.eq_dec i b) as [->|Hi]; [by rewrite B1|by rewrite O1]. }
  destruct (push_front_links b s1 Hb) as (s2 & E2 & R2 & N2 & P2). exists tt, s2.
  split; [done|]. rewrite reverse_snoc. split_and!.
  - eapply ring_ext; [exact N2|exact P2|]. apply ring_push; [done|].
    eapply ring_ext; [..|exact Hr]; intros i; apply F.
  - intros i. eapply relinked_unused; [done|apply F].
  - destruct R2 as (_ & _ & B2). intros i. rewrite B2. simpl. rewrite elem_of_app, list_elem_of_singleton.
    destruct (Z.eq_dec i b) as [->|Hi]; [by rewrite B1|]. rewrite O1 by done. naive_solver.
  - destruct R2 as (-> & _ & _). done.
  - destruct R2 as (_ & -> & _). done.
Qed.

Lemma binit_ok dev s :
  dev <> 0 -> (forall i, unused s i) ->
  wp binit (fun _ s' => bio_ok dev (reverse (seqZ 0 NBUF)) s' /\ (forall i, unused s' i) /\
    disk s' = disk s /\ writes s' = writes s) s.
Proof.
  intros Hdev Hu. unfold binit.
  destruct (set_bprev_links HEAD HEAD s) as (s1 & E1 & R1 & N1 & P1).
  apply wp_bind, (wp_run _ _ _ _ _ E1). destruct (set_bnext_links HEAD HEAD s1) as (s2 & E2 & R2 & N2 & P2).
  apply wp_bind, (wp_run _ _ _ _ _ E2). assert (R : relinked s s2) by (by eapply relinked_trans).
  eapply wp_mono; [apply (wp_for_each _ _ (fun pre s' =>
    ring (nxs s') (pvs s') (reverse pre) /\ (forall i, unused s' i) /\
    (forall i, i ∈ pre -> slocked (block (bufs s' i)) = 0) /\ disk s' = disk s /\ writes s' = writes s))|].
  - split_and!; [|intros i; by eapply relinked_unused|by intros i ?%elem_of_nil|apply R|apply R].
    split; simpl; [by rewrite N2, upd_eq|by rewrite P2, P1, upd_eq].
  - intros pre b post s' Hpre (Hr & Hu' & Hl & D & W).
    assert (Hnd : NoDup (seqZ 0 NBUF)) by apply NoDup_seqZ. rewrite Hpre in Hnd.
    assert (Hrng : forall i, i ∈ pre ++ b :: post -> 0 <= i < NBUF) by (intros i; rewrite <- Hpre, elem_of_seqZ; lia).
    assert (Hb : b <> HEAD) by (pose proof (Hrng b ltac:(set_solver)); unfold HEAD; lia).
    eapply wp_mono; [apply (binit_step s' b pre); try done|].
    + rewrite reverse_Permutation. apply NoDup_cons. split.
      * intros Hin. assert (0 <= HEAD < NBUF) as Hh by (apply Hrng; set_solver). unfold HEAD in Hh. lia.
      * apply NoDup_app in Hnd as (N & Hx & _). apply NoDup_cons. split; [|done]. intros Hin. apply (Hx b Hin). by left.
    + intros [] s3 (A1 & A2 & A3 & A4 & A5). split_and!; congruence || done.
  - intros [] s' (Hr & Hu' & Hl & D & W). split_and!; try done.
    assert (Hd : forall i, bdev (bufs s' i) <> dev) by (intros i; destruct (Hu' i) as [-> _]; congruence).
    split; [apply reverse_Permutation|done|..]; intros i; rewrite ?elem_of_reverse.
    + intros j _ _ E. by destruct (Hd i).
    + intros _. right. split; [apply Hd|apply Hu'].
    + intros _. destruct (Hu' i) as [_ ->]. done.
    + intros Hi Hne. by destruct Hne; apply Hl.
    + intros _ E. by destruct (Hd i).
Qed.

(** ** The abstract cache

    Contents, disk, which blocks were changed since they were last written,
    the references to each block, and who holds it. *)
Record acache := ACache {
  a_content : Z -> mem;
  a_disk : Z -> mem;
  a_dirty : Z -> bool;
  a_refs : gmultiset Z;
  a_holder : Z -> option Z
}.

(** What processes [n] do with block [b]. *)
Inductive cop : Type :=
  | ReadB (n b : Z) | EditB (n b : Z) (f : mem -> mem) | WriteB (n b : Z)
  | PinB (n b : Z) | UnpinB (n b : Z) | ReleaseB (n b : Z).

Definition holds (a : acache) (n b : Z) : bool := bool_decide (a_holder a b = Some n).
Definition refs (a : acache) (b : Z) : Z := Z.of_nat (multiplicity b (a_refs a)).

(** [None] when the callers broke the rules: they use a block only while
    they hold it, keep a changed block referenced, and reference fewer
    than [NBUF] blocks at a time. *)
Definition astep (o : cop) (a : acache) : option acache :=
  match o with
  | ReadB n b =>
      if bool_decide (a_holder a b = None) && (refs a b <? 2 ^ 32 - 1) &&
         ((0 <? refs a b) || bool_decide (length (elements (dom (a_refs a))) < Z.to_nat NBUF)%nat)
      then Some (ACache (a_content a) (a_disk a) (a_dirty a) (a_refs a ⊎ {[+ b +]}) (upd (a_holder a) b (Some n)))
      else None
  | EditB n b f =>
      if holds a n b
      then Some (ACache (upd (a_content a) b (f (a_content a b))) (a_disk a) (upd (a_dirty a) b true)
                        (a_refs a) (a_holder a))
      else None
  | WriteB n b =>
      if holds a n b
      then Some (ACache (a_content a) (upd (a_disk a) b (a_content a b)) (upd (a_dirty a) b false)
                        (a_refs a) (a_holder a))
      else None
  | PinB n b =>
      if holds a n b && (refs a b <? 2 ^ 32 - 1)
      then Some (ACache (a_content a) (a_disk a) (a_dirty a) (a_refs a ⊎ {[+ b +]}) (a_holder a))
      else None
  | UnpinB n b =>
      if holds a n b && (1 <? refs a b)
      then Some (ACache (a_content a) (a_disk a) (a_dirty a) (a_refs a ∖ {[+ b +]}) (a_holder a))
      else None
  | ReleaseB n b =>
      if holds a n b && ((1 <? refs a b) || negb (a_dirty a b))
      then Some (ACache (a_content a) (a_disk a) (a_dirty a) (a_refs a ∖ {[+ b +]}) (upd (a_holder a) b None))
      else None
  end.

Fixpoint arun (l : list cop) (a : acache) : option acache :=
  match l with [] => Some a | o :: l' => a' ← astep o a; arun l' a' end.

(** The same operations on the cache; [hd] is the buffer each block's
    holder got from [bread]. *)
Definition cstep (dev : Z) (o : cop) (hd : Z -> Z) : M bio (Z -> Z) :=
  match o with
  | ReadB n b => let! i := bread n dev b in kret (upd hd b i)
  | EditB n b f => do! upd_buf (hd b) (fun x => set_bdata (f (bdata x)) x); kret hd
  | WriteB n b => do! bwrite n (hd b); kret hd
  | PinB n b => do! bpin (hd b); kret hd
  | UnpinB n b => do! bunpin (hd b); kret hd
  | ReleaseB n b => do! brelse n (hd b); kret hd
  end.

Fixpoint crun (dev : Z) (l : list cop) (hd : Z -> Z) : M bio (Z -> Z) :=
  match l with [] => kret hd | o :: l' => let! hd' := cstep dev o hd in crun dev l' hd' end.

(** ** Simulation *)
Section sim.
Variable dev : Z.
Hypothesis Hdev : dev <> 0.

Record sim (a : acache) (hd : Z -> Z) (s : bio) : Prop := Sim {
  si_shows : shows dev (a_content a) (refs a) (fun b => bool_decide (is_Some (a_holder a b))) s;
  si_disk : disk s = a_disk a;
  si_held : forall n b, a_holder a b = Some n -> has_buf dev n s b (hd b);
  si_clean : forall b, a_dirty a b = false -> a_content a b = a_disk a b;
  si_refs : forall b, refs a b < 2 ^ 32
}.

Lemma refs_add a b c d y h x : refs (ACache c d y (a_refs a ⊎ {[+ b +]}) h) x = upd (refs a) b (refs a b + 1) x.
Proof.
  unfold refs, upd. simpl. rewrite multiplicity_disj_union, multiplicity_singleton.
  case_decide; cif; cbool; subst; lia || done.
Qed.

Lemma refs_del a b c d y h x :
  0 < refs a b -> refs (ACache c d y (a_refs a ∖ {[+ b +]}) h) x = upd (refs a) b (refs a b - 1) x.
Proof.
  unfold refs, upd. simpl. intros Hp. rewrite multiplicity_difference, multiplicity_singleton.
  case_decide; cif; cbool; subst; lia || done.
Qed.

Lemma refs_nonneg a b : 0 <= refs a b.
Proof. unfold refs. lia. Qed.

Lemma refs_in a b : refs a b <> 0 -> b ∈ elements (dom (a_refs a)).
Proof. unfold refs. intros Hb. apply elem_of_elements, gmultiset_elem_of_dom, elem_of_multiplicity. lia. Qed.

Lemma taken_upd (h : Z -> option Z) b v x :
  bool_decide (is_Some (upd h b v x)) = upd (fun b => bool_decide (is_Some (h b))) b (bool_decide (is_Some v)) x.
Proof. unfold upd. by cif. Qed.

(** The other holders keep their buffers. *)
Lemma held_kept a hd s s' b :
  keeps_held dev b s s' -> (forall n x, a_holder a x = Some n -> has_buf dev n s x (hd x)) ->
  forall n x, x <> b -> a_holder a x = Some n -> has_buf dev n s' x (hd x).
Proof. intros Hk Hh n x Hx E. apply Hk; [done|by apply Hh]. Qed.

Lemma still_held a hd s s' b n :
  keeps_held dev b s s' -> (forall n x, a_holder a x = Some n -> has_buf dev n s x (hd x)) ->
  a_holder a b = Some n -> has_buf dev n s' b (hd b) ->
  forall n x, a_holder a x = Some n -> has_buf dev n s' x (hd x).
Proof.
  intros Hk Hh Hb Hb' n' x Hx. destruct (Z.eq_dec x b) as [->|Hne]; [|by apply (held_kept a hd s s' b)].
  congruence.
Qed.

Ltac guards H :=
  case_match eqn:G; [injection H as <-|done]; cbool;
  repeat match goal with E : bool_decide _ = true |- _ => apply bool_decide_eq_true in E end.

Lemma sim_step o a a' hd s :
  sim a hd s -> astep o a = Some a' -> wp (cstep dev o hd) (fun hd' s' => sim a' hd' s') s.
Proof.
  intros [Hs Hd Hh Hc Hr] Ho. assert (Hx : forall n b, a_holder a b = Some n -> 0 < refs a b).
  { intros n b E. destruct (has_buf_view _ _ _ _ _ (Hh n b E)) as (_ & V & _), (sh_ok _ _ _ _ _ Hs) as [l Hl].
    rewrite <- (sh_rc _ _ _ _ _ Hs), V.
    by destruct (has_buf_in dev n l s b (hd b) Hl (Hh n b E)) as (_ & _ & ?). }
  destruct o as [n b|n b f|n b|n b|n b|n b]; simpl in Ho |- *; unfold holds in Ho; guards Ho; apply wp_bind.
  - eapply wp_mono; [apply (bread_shows dev Hdev n _ _ _ s b (elements (dom (a_refs a))) Hs)|].
    + apply bool_decide_eq_false. by apply eq_None_not_Some.
    + lia.
    + destruct H0 as [?%Z.ltb_lt|?%bool_decide_eq_true]; [left; lia|right]. split; [apply refs_in|done].
    + intros i s' (S & Hb & Hk & D & W). apply wp_ret. split; simpl; try done; try congruence.
      * eapply shows_ext; [done| | |exact S]; intros x; [apply refs_add|apply taken_upd].
      * intros n' x. unfold upd. destruct (Z.eqb_spec x b) as [->|Hxb]; [by intros [= <-]|].
        by apply (held_kept a hd s s' b).
      * intros x. rewrite refs_add. unfold upd. cif; cbool; subst; [lia|done].
  - eapply wp_mono; [apply (set_data_shows dev n _ _ _ s b (hd b) f Hs (Hh n b G))|].
    intros [] s' (S & Hb & Hk & D & W). apply wp_ret. split; simpl; try done; try congruence.
    + eauto using still_held.
    + intros x. unfold upd. cif; [done|apply Hc].
  - eapply wp_mono; [apply (bwrite_shows dev n _ _ _ s b (hd b) Hs (Hh n b G))|].
    intros [] s' (S & Hb & Hk & D & W). apply wp_ret. split; simpl; try done; try congruence.
    + eauto using still_held.
    + intros x. unfold upd. cif; cbool; subst; [done|apply Hc].
  - eapply wp_mono; [apply (count_shows dev n _ _ _ s b (hd b) (fun z => u32 (z + 1)) Hs (Hh n b H))|].
    { pose proof (refs_nonneg a b). rewrite u32_small; lia. }
    intros [] s' (S & Hb & Hk & D & W). apply wp_ret. pose proof (refs_nonneg a b). rewrite u32_small in S by lia.
    split; simpl; try done; try congruence; [|eauto using still_held|].
    + eapply shows_ext; [..|exact S]; try done. intros x. apply refs_add.
    + intros x. rewrite refs_add. unfold upd. cif; cbool; subst; [lia|done].
  - eapply wp_mono; [apply (count_shows dev n _ _ _ s b (hd b) (fun z => u32 (z - 1)) Hs (Hh n b H))|].
    { specialize (Hr b). rewrite u32_small; lia. }
    intros [] s' (S & Hb & Hk & D & W). apply wp_ret. specialize (Hr b) as Hrb. rewrite u32_small in S by lia.
    split; simpl; try done; try congruence; [|eauto using still_held|].
    + eapply shows_ext; [..|exact S]; try done. intros x. apply refs_del. lia.
    + intros x. rewrite refs_del by lia. unfold upd. cif; cbool; subst; [lia|done].
  - specialize (Hx n b H) as Hxb. eapply wp_mono; [apply (brelse_shows dev Hdev n _ _ _ s b (hd b) Hs (Hh n b H) (Hr b))|].
    { intros E1. rewrite Hd. apply Hc. destruct H0 as [?%Z.ltb_lt|?%negb_true_iff]; [lia|done]. }
    intros [] s' (S & Hk & D & W). apply wp_ret. split; simpl; try done; try congruence.
    + eapply shows_ext; [done| | |exact S]; intros x; [by apply refs_del|apply taken_upd].
    + intros n' x. unfold upd. destruct (Z.eqb_spec x b) as [->|Hne]; [done|]. by apply (held_kept a hd s s' b).
    + intros x. rewrite refs_del by done. specialize (Hr x). unfold upd. cif; cbool; subst; lia.
Qed.
Lemma sim_run l a a' hd s :
  sim a hd s -> arun l a = Some a' -> wp (crun dev l hd) (fun hd' s' => sim a' hd' s') s.
Proof.
  revert a hd s. induction l as [|o l IH]; intros a hd s Hs; simpl.
  { intros [= <-]. by apply wp_ret. }
  intros (a1 & E1 & E2)%bind_Some. apply wp_bind. eapply wp_mono; [by eapply sim_step|].
  intros hd' s' Hs'. by apply (IH a1).
Qed.
End sim.

(** The cache and the abstract cache at boot, over disk [d]. *)
Definition boot_cache (d : Z -> mem) : bio := Bio (fun _ => Buf 0 0 0 (Sleeplock 0 0) 0 0 0 (fun _ => 0)) d [].
Definition boot_acache (d : Z -> mem) : acache := ACache d d (fun _ => false) ∅ (fun _ => None).

Lemma boot_sim dev d hd : dev <> 0 -> wp binit (fun _ s => sim dev (boot_acache d) hd s /\ writes s = []) (boot_cache d).
Proof.
  intros Hdev. eapply wp_mono; [by apply (binit_ok dev)|]. intros [] s (Hok & Hu & D & W).
  assert (Hi : forall b, idx dev s b = None).
  { intros b. apply (idx_none dev _ _ _ Hok). intros i _ [E _]. destruct (Hu i) as [E' _]. congruence. }
  split; [|done]. split; simpl; try done. split; [by eexists|..]; intros b; unfold content, rc, taken; rewrite Hi; [by rewrite D| |done].
  unfold refs. simpl. by rewrite multiplicity_empty.
Qed.

(** C5. The buffer cache is transparent.  After [binit], any sequence of
    [bread], edits, [bwrite], [bpin], [bunpin] and [brelse] calls that the
    abstract cache allows (blocks used only while held, changed blocks kept
    referenced until written, fewer than [NBUF] blocks referenced at once)
    runs to its end without panic or deadlock; every block then has the
    contents and the disk copy the abstract cache gives it, whatever was
    recycled on the way, and each holder's buffer is locked by it and
    contains its block. *)
Theorem cache_refines (dev : Z) (d : Z -> mem) (l : list cop) (hd : Z -> Z) (a : acache) :
  dev <> 0 -> arun l (boot_acache d) = Some a ->
  wp (do! binit; crun dev l hd) (fun hd' s =>
    (forall b, content dev s b = a_content a b /\ disk s b = a_disk a b /\ rc dev s b = refs a b) /\
    (forall n b, a_holder a b = Some n ->
       blockno (bufs s (hd' b)) = b /\ block (bufs s (hd' b)) = Sleeplock 1 n /\
       bdata (bufs s (hd' b)) = a_content a b)) (boot_cache d).
Proof.
  intros Hdev Hrun. apply wp_bind. eapply wp_mono; [by apply (boot_sim dev d hd)|]. intros [] s1 [Hs1 _].
  eapply wp_mono; [by eapply (sim_run dev Hdev l)|]. intros hd' s [Hs Hd Hh _ _]. split.
  - intros b. split_and!; [apply Hs|by rewrite Hd|apply Hs].
  - intros n b E. specialize (Hh n b E). destruct (has_buf_view _ _ _ _ _ Hh) as (V & _ & _).
    destruct (sh_ok _ _ _ _ _ Hs) as [k Hk]. destruct (has_buf_in dev n k s b _ Hk Hh) as (_ & [_ Hb] & _).
    split_and!; [done|apply Hh|]. rewrite <- V. apply Hs.
Qed.

(** Forty blocks go through the thirty buffers; then block 3 is read again. *)
Definition churn : list cop :=
  mjoin ((fun b => [ReadB 1 b; EditB 1 b (fun m => upd m 0 (100 + b)); WriteB 1 b; ReleaseB 1 b]) <$> seqZ 0 40) ++ [ReadB 2 3].

Lemma cache_refines_witness :
  exists hd s, (do! binit; crun 1 churn (fun _ => 0)) (boot_cache (fun _ _ => 0)) = Ret hd s /\
    bdata (bufs s (hd 3)) 0 = 103 /\ block (bufs s (hd 3)) = Sleeplock 1 2.
Proof.
  destruct (arun churn (boot_acache (fun _ _ => 0))) as [a|] eqn:E; [|exfalso].
  - assert (Ha : a_holder a 3 = Some 2 /\ a_content a 3 0 = 103).
    { assert (Hb : match arun churn (boot_acache (fun _ _ => 0)) with
                   | Some a => bool_decide (a_holder a 3 = Some 2) && (a_content a 3 0 =? 103) | None => false end = true)
        by (vm_compute; reflexivity).
      rewrite E in Hb. apply andb_prop in Hb as [H1%bool_decide_eq_true H2%Z.eqb_eq]. split; assumption. }
    destruct Ha as [Ha1 Ha2]. pose proof (cache_refines 1 (fun _ _ => 0) churn (fun _ => 0) a ltac:(discriminate) E) as Hw.
    apply (proj1 (wp_ex _ _ _)) in Hw as (hd & s & Er & _ & Hh). destruct (Hh 2 3 Ha1) as (_ & E2 & E3).
    exists hd, s. rewrite E3. split; [assumption|split; assumption].
  - assert (Hb : match arun churn (boot_acache (fun _ _ => 0)) with Some _ => true | None => false end = true)
      by (vm_compute; reflexivity).
    rewrite E in Hb. discriminate Hb.
Defined.
