(* ===== verification/Log.v ===== *)
(** * kernel/log.c: the write-ahead log

    System calls bracket their disk updates with [begin_op] and [end_op];
    the last [end_op] commits the logged blocks: to the log, then the header
    that makes the transaction count, then to their home places, then the
    empty header.  The model runs over the buffer cache of Bio.v, whose
    trace of disk writes gives the states a crash can leave behind. *)

From S2P Require Import Prelude Memory StringC Sleeplock Bio.

(** ** State *)

Definition MAXOPBLOCKS : Z := 10.
Definition LOGBLOCKS : Z := MAXOPBLOCKS * 3.

Record log := Log {
  cache : bio;
  lstart : Z;                   (* int start *)
  outstanding : Z;              (* int outstanding *)
  committing : Z;               (* int committing *)
  ldev : Z;                     (* int dev *)
  lh_n : Z;                     (* struct logheader lh *)
  lh_block : Z -> Z
}.

Definition set_cache v s := Log v (lstart s) (outstanding s) (committing s) (ldev s) (lh_n s) (lh_block s).
Definition set_lstart v s := Log (cache s) v (outstanding s) (committing s) (ldev s) (lh_n s) (lh_block s).
Definition set_outstanding v s := Log (cache s) (lstart s) v (committing s) (ldev s) (lh_n s) (lh_block s).
Definition set_committing v s := Log (cache s) (lstart s) (outstanding s) v (ldev s) (lh_n s) (lh_block s).
Definition set_ldev v s := Log (cache s) (lstart s) (outstanding s) (committing s) v (lh_n s) (lh_block s).
Definition set_lh_n v s := Log (cache s) (lstart s) (outstanding s) (committing s) (ldev s) v (lh_block s).
Definition set_lh_block v s := Log (cache s) (lstart s) (outstanding s) (committing s) (ldev s) (lh_n s) v.

(** ** Operations *)

Definition in_cache {A} (c : M bio A) : M log A := fun s =>
  match c (cache s) with
  | Ret a b => Ret a (set_cache b s)
  | Panic e => Panic e
  | Hang => Hang
  end.

(** Block numbers are [uint]s; the log keeps them as [int]s. *)
Definition lbread (n bno : Z) : M log Z :=
  let! d := kget ldev in in_cache (bread n d (u32 bno)).

(** The two fields of the header in a block: [n] at 0, [block[i]] at 4 + 4i. *)
Definition head_n (m : mem) : Z := s32 (ld32 m 0).
Definition head_block (m : mem) (i : Z) : Z := s32 (ld32 m (4 + 4 * i)).

Definition read_head (n : Z) : M log unit :=
  let! st := kget lstart in
  let! b := lbread n st in
  let! x := in_cache (get_buf b) in
  do! kupd (set_lh_n (head_n (bdata x)));
  do! for_each (seqZ 0 (head_n (bdata x))) (fun i =>
        kupd (fun s => set_lh_block (upd (lh_block s) i (head_block (bdata x) i)) s));
  in_cache (brelse n b).

(** The header a block gets from the log's [cnt] and [blk]. *)
Fixpoint store_blocks (l : list Z) (blk : Z -> Z) (m : mem) : mem :=
  match l with
  | [] => m
  | i :: l' => store_blocks l' blk (st32 m (4 + 4 * i) (u32 (blk i)))
  end.
Definition store_head (cnt : Z) (blk : Z -> Z) (m : mem) : mem :=
  store_blocks (seqZ 0 cnt) blk (st32 m 0 (u32 cnt)).

Definition write_head (n : Z) : M log unit :=
  let! st := kget lstart in
  let! b := lbread n st in
  let! cnt := kget lh_n in
  let! blk := kget lh_block in
  do! in_cache (upd_buf b (fun x => set_bdata (store_head cnt blk (bdata x)) x));
  do! in_cache (bwrite n b);
  in_cache (brelse n b).

(** One block of [install_trans]. *)
Definition install_block (n : Z) (recovering : bool) (tail : Z) : M log unit :=
  let! st := kget lstart in
  let! lbuf := lbread n (st + tail + 1) in
  let! blk := kget lh_block in
  let! dbuf := lbread n (blk tail) in
  let! x := in_cache (get_buf lbuf) in
  do! in_cache (upd_buf dbuf (fun y => set_bdata (copy_block (bdata y) (bdata x)) y));
  do! in_cache (bwrite n dbuf);
  do! (if recovering then kret tt else in_cache (bunpin dbuf));
  do! in_cache (brelse n lbuf);
  in_cache (brelse n dbuf).

Definition install_trans (n : Z) (recovering : bool) : M log unit :=
  let! cnt := kget lh_n in
  for_each (seqZ 0 cnt) (install_block n recovering).

Definition recover_from_log (n : Z) : M log unit :=
  do! read_head n;
  do! install_trans n true;
  do! kupd (set_lh_n 0);
  write_head n.

Definition initlog (n dev logstart : Z) : M log unit :=
  do! kupd (set_lstart logstart);
  do! kupd (set_ldev dev);
  recover_from_log n.

(** A pass of [begin_op]: [true] when it returns, [false] when it sleeps. *)
Definition begin_op : M log bool :=
  let! c := kget committing in
  let! cnt := kget lh_n in
  let! o := kget outstanding in
  if negb (c =? 0) then kret false
  else if cnt + (o + 1) * MAXOPBLOCKS >? LOGBLOCKS then kret false
  else do! kupd (set_outstanding (o + 1)); kret true.

Definition write_log_block (n tail : Z) : M log unit :=
  let! st := kget lstart in
  let! to := lbread n (st + tail + 1) in
  let! blk := kget lh_block in
  let! from := lbread n (blk tail) in
  let! x := in_cache (get_buf from) in
  do! in_cache (upd_buf to (fun y => set_bdata (copy_block (bdata y) (bdata x)) y));
  do! in_cache (bwrite n to);
  do! in_cache (brelse n from);
  in_cache (brelse n to).

Definition write_log (n : Z) : M log unit :=
  let! cnt := kget lh_n in
  for_each (seqZ 0 cnt) (write_log_block n).

Definition commit (n : Z) : M log unit :=
  let! cnt := kget lh_n in
  if cnt >? 0 then
    do! write_log n;
    do! write_head n;
    do! install_trans n false;
    do! kupd (set_lh_n 0);
    write_head n
  else kret tt.

(** [wakeup(&log)] concerns the processes and is left to its callers. *)
Definition end_op (n : Z) : M log unit :=
  do! kupd (fun s => set_outstanding (outstanding s - 1) s);
  let! c := kget committing in
  if negb (c =? 0) then kpanic "log.committing" else
  let! o := kget outstanding in
  if o =? 0 then
    do! kupd (set_committing 1);
    do! commit n;
    kupd (set_committing 0)
  else kret tt.

(** The scan of [log_write] for the block, [cnt] when it is new. *)
Fixpoint find_logged (l : list Z) (blk : Z -> Z) (bno cnt : Z) : Z :=
  match l with
  | [] => cnt
  | i :: l' => if u32 (blk i) =? bno then i else find_logged l' blk bno cnt
  end.

Definition log_write (b : Z) : M log unit :=
  let! cnt := kget lh_n in
  let! o := kget outstanding in
  if cnt >=? LOGBLOCKS then kpanic "too big a transaction"
  else if o <? 1 then kpanic "log_write outside of trans"
  else
    let! x := in_cache (get_buf b) in
    let! blk := kget lh_block in
    let i := find_logged (seqZ 0 cnt) blk (blockno x) cnt in
    do! kupd (set_lh_block (upd blk i (s32 (blockno x))));
    if i =? cnt then
      do! in_cache (bpin b);
      kupd (set_lh_n (cnt + 1))
    else kret tt.
