(* ===== verification/LogSpec.v ===== *)
(** * The log makes transactions atomic

    A transaction is a list of block edits between [begin_op] and [end_op].
    The state between transactions shows a file system contents [c]; the
    transaction's disk writes come in an order such that, whatever prefix of
    them reaches the disk before a crash, booting on that disk recovers the
    contents before the transaction or the contents after it. *)

From S2P Require Import Prelude Memory StringC Sleeplock Bio BioSpec Log.

(** ** Copies and headers *)

Definition same_block (m m' : mem) : Prop := forall x, 0 <= x < BSIZE -> m x = m' x.

#[export] Instance same_block_equiv : Equivalence same_block.
Proof.
  split; [by intros m x|intros m m' H x Hx; symmetry; by apply H|].
  intros m1 m2 m3 H1 H2 x Hx. by rewrite H1, H2.
Qed.

Lemma copy_block_same d s : same_block (copy_block d s) s.
Proof.
  intros x Hx. unfold copy_block. pose proof (memmove_in (two_blocks d s) 0 BSIZE BSIZE x Hx) as E.
  rewrite Z.add_0_l in E. rewrite E. unfold two_blocks. cif; [lia|f_equal; lia].
Qed.

#[local] Hint Resolve copy_block_same : core.
#[local] Opaque copy_block.

Lemma store_blocks_n l blk m :
  Forall (fun i => 0 <= i) l -> head_n (store_blocks l blk m) = head_n m.
Proof.
  revert m. induction l as [|i l IH]; intros m Hl; simpl; [done|]. apply Forall_cons in Hl as [Hi Hl].
  rewrite IH by done. unfold head_n. rewrite ld32_st32_other by lia. done.
Qed.

Lemma store_blocks_other l blk m i :
  i ∉ l -> head_block (store_blocks l blk m) i = head_block m i.
Proof.
  revert m. induction l as [|j l IH]; intros m Hi; simpl; [done|].
  apply not_elem_of_cons in Hi as [Hij Hi]. rewrite IH by done.
  unfold head_block. rewrite ld32_st32_other by lia. done.
Qed.

Lemma s32_u32 x : - 2 ^ 31 <= x < 2 ^ 31 -> s32 (u32 x) = x.
Proof.
  intros H. rewrite <- (s32_small x H) at 2. unfold s32, u32. by rewrite Zmod_mod.
Qed.

Lemma store_blocks_in l blk m i :
  NoDup l -> i ∈ l -> - 2 ^ 31 <= blk i < 2 ^ 31 -> head_block (store_blocks l blk m) i = blk i.
Proof.
  revert m. induction l as [|j l IH]; intros m Hnd Hi Hb; [by apply elem_of_nil in Hi|].
  apply NoDup_cons in Hnd as [Hj Hnd]. simpl. apply elem_of_cons in Hi as [->|Hi]; [|by apply IH].
  rewrite store_blocks_other by done. unfold head_block. rewrite ld32_st32_same by apply u32_range. by apply s32_u32.
Qed.

(** The header comes back as it was written. *)
Lemma store_head_n cnt blk m : 0 <= cnt < 2 ^ 31 -> head_n (store_head cnt blk m) = cnt.
Proof.
  intros H. unfold store_head. rewrite store_blocks_n.
  - unfold head_n. rewrite ld32_st32_same by apply u32_range. apply s32_u32. lia.
  - apply Forall_forall. intros i. rewrite elem_of_seqZ. lia.
Qed.

Lemma store_head_block cnt blk m i :
  0 <= i < cnt -> - 2 ^ 31 <= blk i < 2 ^ 31 -> head_block (store_head cnt blk m) i = blk i.
Proof. intros H Hb. apply store_blocks_in; [apply NoDup_seqZ|rewrite elem_of_seqZ; lia|done]. Qed.

(** ** The loops of the log, over the cache *)

Lemma wp_in_cache {A} (c : M bio A) Q s :
  wp c (fun a k => Q a (set_cache k s)) (cache s) -> wp (in_cache c) Q s.
Proof. unfold wp, in_cache. by destruct (c (cache s)). Qed.

Definition free : Z -> bool := fun _ => false.

Section log.
Variables dev st n : Z.
Hypothesis Hdev : dev <> 0.

Lemma wp_lbread bno s Q :
  ldev s = dev -> 0 <= bno < 2 ^ 32 ->
  wp (bread n dev bno) (fun b k => Q b (set_cache k s)) (cache s) -> wp (lbread n bno) Q s.
Proof.
  intros <- Hb H. unfold lbread. apply wp_bind, wp_get. rewrite u32_small by done. by apply wp_in_cache.
Qed.

(** The data of a held buffer. *)
Lemma held_data c P T k bno b : shows dev c P T k -> has_buf dev n k bno b -> bdata (bufs k b) = c bno.
Proof. intros Hs Hb. destruct (has_buf_view _ _ _ _ _ Hb) as (<- & _). apply Hs. Qed.

Lemma upd_back {A} (f : Z -> A) a v x : upd (upd f a v) a (f a) x = f x.
Proof. unfold upd. by destruct (Z.eqb_spec x a) as [->|]. Qed.

Lemma write_log_block_ok c P s j L t f :
  ldev s = dev -> t = lstart s + j + 1 -> f = lh_block s j ->
  0 <= t < 2 ^ 32 -> 0 <= f < 2 ^ 32 -> t <> f -> P t = 0 -> 1 <= P f < 2 ^ 32 - 1 ->
  shows dev c P free (cache s) -> (forall b, P b <> 0 -> b ∈ L) -> (length L < Z.to_nat NBUF)%nat ->
  wp (write_log_block n j) (fun _ s' => exists k, s' = set_cache k s /\
    shows dev (upd c t (copy_block (c t) (c f))) P free k /\
    disk k = upd (disk (cache s)) t (copy_block (c t) (c f)) /\
    writes k = (t, copy_block (c t) (c f)) :: writes (cache s)) s.
Proof.
  intros Ed -> -> Ht Hf Htf Pt Pf Hs HL Hlen. set (t := lstart s + j + 1) in *. set (f := lh_block s j) in *.
  unfold write_log_block. apply wp_bind, wp_get, wp_bind, wp_lbread; [done..|].
  eapply wp_mono; [eapply (bread_shows dev Hdev n _ _ _ _ t L Hs); [done|lia|by right]|].
  intros to k1 (S1 & B1 & K1 & D1 & W1). apply wp_bind, wp_get, wp_bind, wp_lbread; [done..|].
  eapply wp_mono; [eapply (bread_shows dev Hdev n _ _ _ _ f L S1)|].
  { by rewrite upd_ne. } { rewrite upd_ne by done. lia. } { left. rewrite upd_ne by done. lia. }
  intros from k2 (S2 & B2 & K2 & D2 & W2). apply K2 in B1; [|done].
  apply wp_bind, wp_in_cache, wp_get. cbn [cache set_cache]. rewrite (held_data _ _ _ _ _ _ S2 B2).
  apply wp_bind, wp_in_cache. eapply wp_mono; [apply (set_data_shows dev n _ _ _ _ t to (fun m => copy_block m (c f)) S2 B1)|].
  intros [] k3 (S3 & B3 & K3 & D3 & W3). apply K3 in B2; [|done].
  apply wp_bind, wp_in_cache. eapply wp_mono; [apply (bwrite_shows dev n _ _ _ _ t to S3 B3)|].
  intros [] k4 (S4 & B4 & K4 & D4 & W4). apply K4 in B2; [|done]. rewrite upd_eq in D4, W4.
  apply wp_bind, wp_in_cache. eapply wp_mono; [apply (brelse_shows dev Hdev n _ _ _ _ f from S4 B2)|].
  { rewrite upd_eq, upd_ne by done. lia. } { rewrite upd_eq, upd_ne by done. lia. }
  intros [] k5 (S5 & K5 & D5 & W5). apply K5 in B4; [|done].
  apply wp_in_cache. eapply wp_mono; [apply (brelse_shows dev Hdev n _ _ _ _ t to S5 B4)|].
  { rewrite !upd_ne, upd_eq by done. lia. } { intros _. by rewrite D5, D4, !upd_eq. }
  intros [] k6 (S6 & _ & D6 & W6). exists k6. split; [done|].
  split_and!; [|congruence|congruence]. eapply shows_ext; [..|exact S6]; [done|..]; intros b; unfold upd, free.
  - rewrite !Z.eqb_refl. rewrite (proj2 (Z.eqb_neq f t)), (proj2 (Z.eqb_neq t f)) by done.
    repeat cif; cbool; subst; lia || done.
  - by repeat cif.
Qed.
Lemma install_block_ok (recovering : bool) c P s j L t f :
  ldev s = dev -> t = lstart s + j + 1 -> f = lh_block s j ->
  0 <= t < 2 ^ 32 -> 0 <= f < 2 ^ 32 -> t <> f -> P t = 0 ->
  (if recovering then P f = 0 else P f = 1) ->
  shows dev c P free (cache s) -> (forall b, P b <> 0 -> b ∈ L) ->
  (length L + (if recovering then 1 else 0) < Z.to_nat NBUF)%nat ->
  wp (install_block n recovering j) (fun _ s' => exists k, s' = set_cache k s /\
    shows dev (upd c f (copy_block (c f) (c t))) (upd P f 0) free k /\
    disk k = upd (disk (cache s)) f (copy_block (c f) (c t)) /\
    writes k = (f, copy_block (c f) (c t)) :: writes (cache s)) s.
Proof.
  intros Ed -> -> Ht Hf Htf Pt Pf Hs HL Hlen. set (t := lstart s + j + 1) in *. set (f := lh_block s j) in *.
  assert (Hft : f <> t) by done. assert (Pf' : 0 <= P f <= 1) by (destruct recovering; lia).
  unfold install_block. apply wp_bind, wp_get, wp_bind, wp_lbread; [done..|].
  eapply wp_mono; [eapply (bread_shows dev Hdev n _ _ _ _ t L Hs); [done|lia|right; split; [done|lia]]|].
  intros lbuf k1 (S1 & B1 & K1 & D1 & W1). apply wp_bind, wp_get, wp_bind, wp_lbread; [done..|].
  eapply wp_mono; [eapply (bread_shows dev Hdev n _ _ _ _ f (t :: L) S1)|].
  { by rewrite upd_ne. } { rewrite upd_ne by done. lia. }
  { rewrite (upd_ne P) by done. destruct recovering; [right|left; lia]. split; [|simpl; lia].
    intros b. unfold upd. destruct (Z.eqb_spec b t) as [->|]; [by left|]. right. by apply HL. }
  intros dbuf k2 (S2 & B2 & K2 & D2 & W2). apply K2 in B1; [|done].
  apply wp_bind, wp_in_cache, wp_get. cbn [cache set_cache]. rewrite (held_data _ _ _ _ _ _ S2 B1).
  apply wp_bind, wp_in_cache. eapply wp_mono; [apply (set_data_shows dev n _ _ _ _ f dbuf (fun m => copy_block m (c t)) S2 B2)|].
  intros [] k3 (S3 & B3 & K3 & D3 & W3). apply K3 in B1; [|done].
  apply wp_bind, wp_in_cache. eapply wp_mono; [apply (bwrite_shows dev n _ _ _ _ f dbuf S3 B3)|].
  intros [] k4 (S4 & B4 & K4 & D4 & W4). apply K4 in B1; [|done]. rewrite upd_eq in D4, W4.
  apply wp_bind. eapply (wp_mono _ (fun _ s' => exists k, s' = set_cache k s /\
    shows dev (upd c f (copy_block (c f) (c t))) (upd (upd P t 1) f 1) (upd (upd free t true) f true) k /\
    has_buf dev n k f dbuf /\ has_buf dev n k t lbuf /\ disk k = disk k4 /\ writes k = writes k4)).
  { rewrite Pt, (upd_ne P) in S4 by done. destruct recovering.
    - apply wp_ret. exists k4. split_and!; try done. by rewrite Pf in S4.
    - rewrite Pf in S4. apply wp_in_cache. unfold bunpin.
      eapply wp_mono; [apply (count_shows dev n _ _ _ _ f dbuf (fun z => u32 (z - 1)) S4 B4); by rewrite upd_eq|].
      intros [] k (S5 & B5 & K5 & D5 & W5). exists k. split_and!; try done; [|by apply K5].
      eapply shows_ext; [..|exact S5]; try done. intros b. unfold upd. repeat cif; cbool; subst; done. }
  intros [] s5 (k5 & -> & S5 & B5 & A5 & D5 & W5).
  apply wp_bind, wp_in_cache. eapply wp_mono; [apply (brelse_shows dev Hdev n _ _ _ _ t lbuf S5 A5)|].
  { by rewrite upd_ne, upd_eq by done. }
  { intros _. rewrite D5, D4, !upd_ne, D3, D2, D1 by done. by apply (shows_clean dev _ _ _ _ _ Hs). }
  intros [] k6 (S6 & K6 & D6 & W6). apply K6 in B5; [|done].
  apply wp_in_cache. eapply wp_mono; [apply (brelse_shows dev Hdev n _ _ _ _ f dbuf S6 B5)|].
  { by rewrite upd_ne, upd_eq by done. } { intros _. by rewrite D6, D5, D4, !upd_eq. }
  intros [] k7 (S7 & _ & D7 & W7). exists k7. split; [done|].
  split_and!; [|congruence|congruence]. eapply shows_ext; [..|exact S7]; [done|..]; intros b; unfold upd, free.
  - rewrite !Z.eqb_refl. rewrite (proj2 (Z.eqb_neq f t)), (proj2 (Z.eqb_neq t f)) by done.
    repeat cif; cbool; subst; lia || done.
  - by repeat cif.
Qed.

Lemma write_head_ok c P s L :
  ldev s = dev -> 0 <= lstart s < 2 ^ 32 -> P (lstart s) = 0 -> shows dev c P free (cache s) ->
  (forall b, P b <> 0 -> b ∈ L) -> (length L < Z.to_nat NBUF)%nat ->
  wp (write_head n) (fun _ s' => exists k, s' = set_cache k s /\
    shows dev (upd c (lstart s) (store_head (lh_n s) (lh_block s) (c (lstart s)))) P free k /\
    disk k = upd (disk (cache s)) (lstart s) (store_head (lh_n s) (lh_block s) (c (lstart s))) /\
    writes k = (lstart s, store_head (lh_n s) (lh_block s) (c (lstart s))) :: writes (cache s)) s.
Proof.
  intros Ed Hst Pt Hs HL Hlen. unfold write_head. apply wp_bind, wp_get, wp_bind, wp_lbread; [done..|].
  set (t := lstart s) in *.
  eapply wp_mono; [eapply (bread_shows dev Hdev n _ _ _ _ t L Hs); [done|lia|by right]|].
  intros b k1 (S1 & B1 & K1 & D1 & W1). apply wp_bind, wp_get, wp_bind, wp_get, wp_bind, wp_in_cache.
  eapply wp_mono; [apply (set_data_shows dev n _ _ _ _ t b (store_head (lh_n s) (lh_block s)) S1 B1)|].
  intros [] k3 (S3 & B3 & K3 & D3 & W3).
  apply wp_bind, wp_in_cache. eapply wp_mono; [apply (bwrite_shows dev n _ _ _ _ t b S3 B3)|].
  intros [] k4 (S4 & B4 & K4 & D4 & W4). rewrite upd_eq in D4, W4.
  apply wp_in_cache. eapply wp_mono; [apply (brelse_shows dev Hdev n _ _ _ _ t b S4 B4)|].
  { rewrite upd_eq. lia. } { intros _. by rewrite D4, !upd_eq. }
  intros [] k6 (S6 & _ & D6 & W6). exists k6. split; [done|].
  split_and!; [|congruence|congruence]. eapply shows_ext; [..|exact S6]; [done|..]; intros x; unfold upd, free.
  - rewrite Z.eqb_refl. cif; cbool; subst; lia || done.
  - by repeat cif.
Qed.

Lemma read_head_ok c P s L :
  ldev s = dev -> 0 <= lstart s < 2 ^ 32 -> P (lstart s) = 0 -> shows dev c P free (cache s) ->
  (forall b, P b <> 0 -> b ∈ L) -> (length L < Z.to_nat NBUF)%nat -> 0 <= head_n (c (lstart s)) ->
  wp (read_head n) (fun _ s' => exists k blk, s' = set_lh_block blk (set_lh_n (head_n (c (lstart s))) (set_cache k s)) /\
    (forall j, 0 <= j < head_n (c (lstart s)) -> blk j = head_block (c (lstart s)) j) /\
    shows dev c P free k /\ disk k = disk (cache s) /\ writes k = writes (cache s)) s.
Proof.
  intros Ed Hst Pt Hs HL Hlen Hn. unfold read_head. apply wp_bind, wp_get, wp_bind, wp_lbread; [done..|].
  set (t := lstart s) in *.
  eapply wp_mono; [eapply (bread_shows dev Hdev n _ _ _ _ t L Hs); [done|lia|by right]|].
  intros b k1 (S1 & B1 & K1 & D1 & W1). apply wp_bind, wp_in_cache, wp_get. cbn [cache set_cache].
  rewrite (held_data _ _ _ _ _ _ S1 B1). apply wp_bind, wp_upd, wp_bind.
  eapply wp_mono; [apply (wp_for_range _ _ (fun i s' => exists blk,
    s' = set_lh_block blk (set_lh_n (head_n (c t)) (set_cache k1 s)) /\
    forall j, 0 <= j < i -> blk j = head_block (c t) j)); [done| |]|].
  - exists (lh_block s). split; [done|]. intros j Hj. lia.
  - intros i s' Hi (blk & -> & Hb). apply wp_upd. eexists. split; [done|]. intros j Hj. simpl.
    destruct (Z.eq_dec j i) as [->|Hji]; [by rewrite upd_eq|]. rewrite upd_ne by done. apply Hb. lia.
  - intros [] s' (blk & -> & Hb). apply wp_in_cache.
    eapply wp_mono; [apply (brelse_shows dev Hdev n _ _ _ _ t b S1 B1)|].
    { rewrite upd_eq. lia. } { intros _. rewrite D1. by apply (shows_clean dev _ _ _ _ _ Hs). }
    intros [] k6 (S6 & _ & D6 & W6). exists k6, blk. split_and!; try done; [|congruence|congruence].
    eapply shows_ext; [..|exact S6]; [done|..]; intros x; unfold upd, free.
    + rewrite Z.eqb_refl. cif; cbool; subst; lia || done.
    + by repeat cif.
Qed.
(** ** Traces of writes *)

Definition play (ws : list (Z * mem)) (d : Z -> mem) : Z -> mem := foldl (fun d w => upd d w.1 w.2) d ws.

Lemma play_app ws ws' d : play (ws ++ ws') d = play ws' (play ws d).
Proof. apply foldl_app. Qed.

Lemma play_cons w ws d : play (w :: ws) d = play ws (upd d w.1 w.2).
Proof. done. Qed.

Lemma play_other ws d b : b ∉ ws.*1 -> play ws d b = d b.
Proof.
  revert d. induction ws as [|w ws IH]; intros d Hb; [done|].
  simpl in Hb. apply not_elem_of_cons in Hb as [H1 H2]. rewrite play_cons, IH by done. by apply upd_ne.
Qed.

Lemma play_lookup ws d j b v : NoDup ws.*1 -> ws !! j = Some (b, v) -> play ws d b = v.
Proof.
  intros Hnd Hj%take_drop_middle. rewrite <- Hj in Hnd |- *. rewrite fmap_app in Hnd.
  apply NoDup_app in Hnd as (_ & _ & [Hnd _]%NoDup_cons).
  rewrite play_app, play_cons, play_other by done. apply upd_eq.
Qed.

(** [s'] is [s] with the writes [ws] made: contents [c] became [play ws c]. *)
Definition traced (c : Z -> mem) (P : Z -> Z) (ws : list (Z * mem)) (s s' : log) : Prop :=
  exists k, s' = set_cache k s /\ shows dev (play ws c) P free k /\
    disk k = play ws (disk (cache s)) /\ writes k = reverse ws ++ writes (cache s).

Lemma traced_snoc c P P' ws s s' s'' b v :
  traced c P ws s s' ->
  (exists k, s'' = set_cache k s' /\ shows dev (upd (play ws c) b v) P' free k /\
     disk k = upd (disk (cache s')) b v /\ writes k = (b, v) :: writes (cache s')) ->
  traced c P' (ws ++ [(b, v)]) s s''.
Proof.
  intros (k & -> & S & D & W) (k' & -> & S' & D' & W'). exists k'. rewrite !play_app, reverse_snoc. simpl in D', W'.
  split_and!; [done|done|by rewrite D', D|by rewrite W', W].
Qed.

(** ** The four phases of a commit *)

Definition logat (j : nat) : Z := st + Z.of_nat j + 1.
Definition log_writes (c : Z -> mem) (L : list Z) : list (Z * mem) :=
  imap (fun j f => (logat j, copy_block (c (logat j)) (c f))) L.
Definition home_writes (c : Z -> mem) (L : list Z) : list (Z * mem) :=
  imap (fun j f => (f, copy_block (c f) (c (logat j)))) L.
Definition pins (L : list Z) (b : Z) : Z := if bool_decide (b ∈ L) then 1 else 0.

Definition in_log (b : Z) : Prop := st <= b <= st + LOGBLOCKS.
Definition home (b : Z) : Prop := 0 <= b < 2 ^ 31 /\ ~ in_log b.

(** The log holds blocks [L], in this order. *)
Record logging (L : list Z) (s : log) : Prop := {
  lg_dev : ldev s = dev;
  lg_start : lstart s = st;
  lg_st : 0 <= st /\ st + LOGBLOCKS < 2 ^ 31;
  lg_n : lh_n s = Z.of_nat (length L);
  lg_block : forall j f, L !! j = Some f -> lh_block s (Z.of_nat j) = f;
  lg_len : (length L < Z.to_nat NBUF)%nat;
  lg_nodup : NoDup L;
  lg_home : forall b, b ∈ L -> home b
}.

Lemma logging_cache L s k : logging L s -> logging L (set_cache k s).
Proof. intros []. by split. Qed.

Lemma logat_in L s j : logging L s -> (j < length L)%nat -> in_log (logat j).
Proof. intros H Hj. pose proof (lg_len _ _ H). unfold in_log, logat, LOGBLOCKS, MAXOPBLOCKS, NBUF in *. lia. Qed.

Lemma home_not_logat L s f j : logging L s -> f ∈ L -> (j < length L)%nat -> f <> logat j.
Proof. intros H Hf Hj ->. apply (lg_home _ _ H) in Hf as [_ Hn]. by eapply Hn, logat_in. Qed.

Lemma log_writes_at i c L b :
  b ∈ (take i (log_writes c L)).*1 -> exists j, (j < i)%nat /\ (j < length L)%nat /\ b = logat j.
Proof.
  intros ([b' v] & -> & [j Hj]%list_elem_of_lookup)%list_elem_of_fmap. apply lookup_take_Some in Hj as [Hj Hji].
  unfold log_writes in Hj. rewrite list_lookup_imap in Hj. destruct (L !! j) as [f|] eqn:E; [|done].
  apply (inj Some), pair_equal_spec in Hj as [<- _]. exists j. split_and!; [done|by eapply lookup_lt_Some|done].
Qed.

Lemma home_writes_at i c L b :
  b ∈ (take i (home_writes c L)).*1 -> exists j, (j < i)%nat /\ L !! j = Some b.
Proof.
  intros ([b' v] & -> & [j Hj]%list_elem_of_lookup)%list_elem_of_fmap. apply lookup_take_Some in Hj as [Hj Hji].
  unfold home_writes in Hj. rewrite list_lookup_imap in Hj. destruct (L !! j) as [f|] eqn:E; [|done].
  apply (inj Some), pair_equal_spec in Hj as [<- _]. by exists j.
Qed.

Lemma home_writes_fst c L : (home_writes c L).*1 = L.
Proof.
  apply list_eq. intros i. unfold home_writes. rewrite list_lookup_fmap, list_lookup_imap. by destruct (L !! i).
Qed.

Lemma log_writes_len c L : length (log_writes c L) = length L.
Proof. apply length_imap. Qed.
Lemma home_writes_len c L : length (home_writes c L) = length L.
Proof. apply length_imap. Qed.

Lemma log_writes_nodup c L : NoDup (log_writes c L).*1.
Proof.
  apply NoDup_alt. intros i j b. rewrite !list_lookup_fmap. unfold log_writes. rewrite !list_lookup_imap.
  destruct (L !! i), (L !! j); simpl; try done. unfold logat. intros [= <-] [= E]. lia.
Qed.

Lemma pins_in L b : pins L b <> 0 -> b ∈ L.
Proof. unfold pins. by case_bool_decide. Qed.

Lemma log_writes_lookup c L j f :
  L !! j = Some f -> log_writes c L !! j = Some (logat j, copy_block (c (logat j)) (c f)).
Proof. intros Hj. unfold log_writes. by rewrite list_lookup_imap, Hj. Qed.
Lemma home_writes_lookup c L j f :
  L !! j = Some f -> home_writes c L !! j = Some (f, copy_block (c f) (c (logat j))).
Proof. intros Hj. unfold home_writes. by rewrite list_lookup_imap, Hj. Qed.
#[local] Opaque log_writes home_writes.

Lemma write_log_ok c L s :
  logging L s -> shows dev c (pins L) free (cache s) ->
  wp (write_log n) (fun _ s' => traced c (pins L) (log_writes c L) s s') s.
Proof.
  intros HL Hs. unfold write_log. apply wp_bind, wp_get. rewrite (lg_n _ _ HL).
  eapply wp_mono; [apply (wp_for_range _ _ (fun i s' => traced c (pins L) (take (Z.to_nat i) (log_writes c L)) s s')); [lia| |]|].
  - exists (cache s). by destruct s.
  - intros i s' Hi (k & -> & S & D & W). destruct (lookup_lt_is_Some_2 L (Z.to_nat i)) as [f Hf]; [lia|].
    assert (HfL : f ∈ L) by (by eapply list_elem_of_lookup_2). pose proof (lg_home _ _ HL f HfL) as [Hfr Hfn].
    assert (Ht : st + i + 1 = logat (Z.to_nat i)) by (unfold logat; lia).
    pose proof (logat_in L s (Z.to_nat i) HL ltac:(lia)) as Hin. destruct (lg_st _ _ HL).
    assert (Etake : take (Z.to_nat (i + 1)) (log_writes c L) = take (Z.to_nat i) (log_writes c L) ++
      [(logat (Z.to_nat i), copy_block (c (logat (Z.to_nat i))) (c f))]).
    { rewrite Z2Nat.inj_add, Nat.add_1_r by lia. apply take_S_r. by apply log_writes_lookup. }
    assert (Hpt : play (take (Z.to_nat i) (log_writes c L)) c (logat (Z.to_nat i)) = c (logat (Z.to_nat i))).
    { apply play_other. intros (j & Hj & _ & E)%log_writes_at. unfold logat in E. lia. }
    assert (Hpf : play (take (Z.to_nat i) (log_writes c L)) c f = c f).
    { apply play_other. intros (j & Hj & Hj' & E)%log_writes_at. by eapply home_not_logat. }
    rewrite Etake. eapply wp_mono; [apply (write_log_block_ok (play (take (Z.to_nat i) (log_writes c L)) c)
      (pins L) (set_cache k s) i L (logat (Z.to_nat i)) f)|]; try done.
    + apply HL.
    + by rewrite <- Ht, <- (lg_start _ _ HL).
    + rewrite <- (lg_block _ _ HL _ _ Hf). simpl. f_equal. lia.
    + unfold in_log in Hin. lia.
    + lia.
    + symmetry. eapply home_not_logat; [done|done|lia].
    + unfold pins. rewrite bool_decide_eq_false_2; [done|]. intros Hl. eapply home_not_logat; [done|done| |done]. lia.
    + unfold pins. by rewrite bool_decide_eq_true_2.
    + intros b. apply pins_in.
    + apply HL.
    + intros [] s'' Hpost. cbv beta in Hpost. rewrite Hpt, Hpf in Hpost. eapply traced_snoc; [|exact Hpost]. by exists k.
  - intros [] s' Ht. rewrite Nat2Z.id, take_ge in Ht; [done|]. by rewrite log_writes_len.
Qed.
Lemma traced_ext c P P' ws s s' : (forall b, P' b = P b) -> traced c P ws s s' -> traced c P' ws s s'.
Proof. intros E (k & -> & S & D & W). exists k. split_and!; try done. by eapply shows_ext; [..|exact S]. Qed.

(** The blocks still pinned before iteration [i] of [install_trans]. *)
Definition still (recovering : bool) (L : list Z) (i : nat) : list Z := if recovering then [] else drop i L.

Lemma pins_still recovering L i f :
  NoDup L -> L !! i = Some f ->
  forall b, pins (still recovering L (S i)) b = upd (pins (still recovering L i)) f 0 b.
Proof.
  intros Hnd Hf b. unfold pins, upd. destruct (Z.eqb_spec b f) as [->|Hb]; unfold still; destruct recovering; try done.
  - rewrite <- (take_drop_middle _ _ _ Hf) in Hnd. apply NoDup_app in Hnd as (_ & _ & [Hn _]%NoDup_cons).
    by rewrite bool_decide_eq_false_2.
  - rewrite (drop_S _ _ _ Hf). erewrite bool_decide_ext; [reflexivity|]. set_solver.
Qed.

Lemma install_trans_ok recovering c L s :
  logging L s -> shows dev c (pins (still recovering L 0)) free (cache s) ->
  wp (install_trans n recovering) (fun _ s' => traced c (pins []) (home_writes c L) s s') s.
Proof.
  intros HL Hs. unfold install_trans. apply wp_bind, wp_get. rewrite (lg_n _ _ HL).
  eapply wp_mono; [apply (wp_for_range _ _ (fun i s' =>
    traced c (pins (still recovering L (Z.to_nat i))) (take (Z.to_nat i) (home_writes c L)) s s')); [lia| |]|].
  - exists (cache s). by destruct s.
  - intros i s' Hi (k & -> & S & D & W). destruct (lookup_lt_is_Some_2 L (Z.to_nat i)) as [f Hf]; [lia|].
    assert (HfL : f ∈ L) by (by eapply list_elem_of_lookup_2). pose proof (lg_home _ _ HL f HfL) as [Hfr Hfn].
    pose proof (logat_in L s (Z.to_nat i) HL ltac:(lia)) as Hin. destruct (lg_st _ _ HL).
    assert (Hsub : forall b, pins (still recovering L (Z.to_nat i)) b <> 0 -> b ∈ L).
    { intros b Hb%pins_in. unfold still in Hb. destruct recovering; [by apply elem_of_nil in Hb|].
      by apply (subseteq_drop (Z.to_nat i)). }
    assert (Etake : take (Z.to_nat (i + 1)) (home_writes c L) = take (Z.to_nat i) (home_writes c L) ++
      [(f, copy_block (c f) (c (logat (Z.to_nat i))))]).
    { rewrite Z2Nat.inj_add, Nat.add_1_r by lia. apply take_S_r. by apply home_writes_lookup. }
    assert (Hpf : play (take (Z.to_nat i) (home_writes c L)) c f = c f).
    { apply play_other. intros (j & Hj & E)%home_writes_at. assert (j = Z.to_nat i); [|lia].
      by eapply NoDup_lookup; [apply HL|..]. }
    assert (Hpt : play (take (Z.to_nat i) (home_writes c L)) c (logat (Z.to_nat i)) = c (logat (Z.to_nat i))).
    { apply play_other. intros (j & Hj & E%list_elem_of_lookup_2)%home_writes_at.
      eapply home_not_logat; [done|done| |done]. lia. }
    rewrite Etake. eapply wp_mono; [apply (install_block_ok recovering (play (take (Z.to_nat i) (home_writes c L)) c)
      (pins (still recovering L (Z.to_nat i))) (set_cache k s) i (still recovering L (Z.to_nat i)) (logat (Z.to_nat i)) f)|]; try done.
    + apply HL.
    + unfold logat. rewrite <- (lg_start _ _ HL), Z2Nat.id by lia. done.
    + rewrite <- (lg_block _ _ HL _ _ Hf). simpl. f_equal. lia.
    + unfold in_log in Hin. lia.
    + lia.
    + symmetry. eapply home_not_logat; [done|done|lia].
    + destruct (Z.eq_dec (pins (still recovering L (Z.to_nat i)) (logat (Z.to_nat i))) 0) as [|Hl%Hsub]; [done|].
      exfalso. eapply home_not_logat; [done|done| |done]. lia.
    + unfold pins, still. destruct recovering; [done|]. rewrite bool_decide_eq_true_2; [done|].
      rewrite (drop_S _ _ _ Hf). by left.
    + intros b. apply pins_in.
    + pose proof (lg_len _ _ HL). unfold still. destruct recovering; [unfold NBUF; simpl; lia|]. rewrite length_drop. lia.
    + intros [] s'' Hpost. cbv beta in Hpost. rewrite Hpt, Hpf in Hpost.
      rewrite Z2Nat.inj_add, Nat.add_1_r by lia.
      eapply traced_ext; [by apply pins_still; [apply HL|]|]. eapply traced_snoc; [|exact Hpost]. by exists k.
  - intros [] s' Ht. rewrite Nat2Z.id, take_ge in Ht.
    + unfold still in Ht. destruct recovering; [done|]. by rewrite drop_all in Ht.
    + by rewrite home_writes_len.
Qed.
(** ** commit *)

Definition head_write (L : list Z) (c : Z -> mem) (blk : Z -> Z) : Z * mem :=
  (st, store_head (Z.of_nat (length L)) blk (c st)).

(** The writes of a commit: the log, the header, the blocks, the header. *)
Definition commit_writes (c : Z -> mem) (L : list Z) (blk : Z -> Z) : list (Z * mem) :=
  let w1 := log_writes c L in
  let w2 := w1 ++ [head_write L (play w1 c) blk] in
  let w3 := w2 ++ home_writes (play w2 c) L in
  w3 ++ [head_write [] (play w3 c) blk].

Lemma commit_writes_len c L blk : length (commit_writes c L blk) = (2 * length L + 2)%nat.
Proof.
  unfold commit_writes. rewrite !length_app, log_writes_len. rewrite home_writes_len. cbn [length]. lia.
Qed.

Lemma st_free L s : logging L s -> pins L st = 0.
Proof.
  intros H. unfold pins. rewrite bool_decide_eq_false_2; [done|]. intros [_ Hn]%(lg_home _ _ H).
  apply Hn. unfold in_log, LOGBLOCKS, MAXOPBLOCKS. lia.
Qed.

Lemma traced_trans c P P' ws ws' s s' s'' :
  traced c P ws s s' -> traced (play ws c) P' ws' s' s'' -> traced c P' (ws ++ ws') s s''.
Proof.
  intros (k & -> & S & D & W) (k' & -> & S' & D' & W'). exists k'. rewrite !play_app, reverse_app, <- app_assoc.
  split_and!; [done|done|by rewrite D', <- D|by rewrite W', <- W].
Qed.

Lemma traced_shows c P ws s s' : traced c P ws s s' -> shows dev (play ws c) P free (cache s').
Proof. by intros (k & -> & S & _). Qed.

Lemma traced_logging c P ws L s s' : traced c P ws s s' -> logging L s -> logging L s'.
Proof. intros (k & -> & _) H. by apply logging_cache. Qed.

Lemma traced_block c P ws s s' : traced c P ws s s' -> lh_block s' = lh_block s.
Proof. by intros (k & -> & _). Qed.

Lemma write_head_traced c L Lp s :
  logging L s -> logging Lp s \/ Lp = [] -> shows dev c (pins Lp) free (cache s) ->
  wp (write_head n) (fun _ s' => traced c (pins Lp) [head_write L c (lh_block s)] s s') s.
Proof.
  intros H Hp Hs. pose proof (lg_st _ _ H). unfold LOGBLOCKS, MAXOPBLOCKS in *.
  assert (Hlen : (length Lp < Z.to_nat NBUF)%nat) by (destruct Hp as [Hp| ->]; [apply Hp|unfold NBUF; simpl; lia]).
  eapply wp_mono; [apply (write_head_ok c (pins Lp) s Lp)|]; try done.
  - apply H.
  - rewrite (lg_start _ _ H). lia.
  - rewrite (lg_start _ _ H). destruct Hp as [Hp| ->]; [by eapply st_free|done].
  - intros b. apply pins_in.
  - intros [] s' Hk. cbv beta in Hk. rewrite (lg_start _ _ H), (lg_n _ _ H) in Hk. done.
Qed.

Lemma commit_ok c L s :
  logging L s -> L <> [] -> shows dev c (pins L) free (cache s) ->
  wp (commit n) (fun _ s' => exists s1, s' = set_lh_n 0 s1 /\ traced c (pins []) (commit_writes c L (lh_block s)) s s1) s.
Proof.
  intros H Hne Hs. unfold commit. apply wp_bind, wp_get. rewrite (lg_n _ _ H).
  destruct (Z.gtb_spec (Z.of_nat (length L)) 0) as [_|Hz]; [|destruct L; simpl in *; [done|lia]].
  apply wp_bind. eapply wp_mono; [by apply write_log_ok|]. intros [] s1 T1.
  apply wp_bind. eapply wp_mono; [eapply (write_head_traced _ L L)|];
    [by eapply traced_logging|left; by eapply traced_logging|by eapply traced_shows|].
  intros [] s2 T2. rewrite (traced_block _ _ _ _ _ T1) in T2. pose proof (traced_trans _ _ _ _ _ _ _ _ T1 T2) as T3.
  apply wp_bind. eapply wp_mono; [eapply (install_trans_ok false _ L)|];
    [by eapply traced_logging|by eapply traced_shows|].
  intros [] s3 T4. pose proof (traced_trans _ _ _ _ _ _ _ _ T3 T4) as T5.
  apply wp_bind, wp_upd. pose proof (traced_logging _ _ _ _ _ _ T5 H) as H3.
  eapply wp_mono; [eapply (write_head_traced _ [] [] (set_lh_n 0 s3))|]; [|by right|by eapply (traced_shows _ _ _ _ _ T5)|].
  - destruct H3. split; try done; [unfold NBUF; simpl; lia|apply NoDup_nil_2|by intros b ?%elem_of_nil].
  - intros [] s4 (k4 & -> & S4 & D4 & W4). exists (set_cache k4 s3). split; [done|].
    cbn [lh_block set_lh_n] in *. rewrite (traced_block _ _ _ _ _ T5) in *.
    eapply traced_trans; [exact T5|]. by exists k4.
Qed.
(** ** Recovery *)

(** The header on disk [d] names the blocks [L]. *)
Definition header (L : list Z) (d : Z -> mem) : Prop :=
  head_n (d st) = Z.of_nat (length L) /\
  forall j f, L !! j = Some f -> head_block (d st) (Z.of_nat j) = f.

Definition log_list (L : list Z) : Prop := NoDup L /\ (length L < Z.to_nat NBUF)%nat /\ forall b, b ∈ L -> home b.

(** Between transactions, with contents [c]. *)
Record idle (c : Z -> mem) (s : log) : Prop := {
  id_logging : logging [] s;
  id_shows : shows dev c (pins []) free (cache s);
  id_header : header [] c;
  id_out : outstanding s = 0;
  id_com : committing s = 0
}.

Lemma idle_disk c s b : idle c s -> disk (cache s) b = c b.
Proof. intros H. symmetry. by apply (shows_clean dev _ _ _ _ _ (id_shows _ _ H)). Qed.

(** The writes of a recovery of disk [d]. *)
Definition recovery_writes (d : Z -> mem) (L : list Z) (blk : Z -> Z) : list (Z * mem) :=
  home_writes d L ++ [head_write [] (play (home_writes d L) d) blk].

Definition boot_log (d : Z -> mem) : log := Log (boot_cache d) 0 0 0 0 0 (fun _ => 0).
Definition reboot : M log unit := do! in_cache binit; initlog n dev st.

Hypothesis Hst : 0 <= st /\ st + LOGBLOCKS < 2 ^ 31.

Lemma logging_nil s : ldev s = dev -> lstart s = st -> lh_n s = 0 -> logging [] s.
Proof. intros. split; try done; [unfold NBUF; simpl; lia|apply NoDup_nil_2|by intros b ?%elem_of_nil]. Qed.

Lemma recover_ok c L s :
  ldev s = dev -> lstart s = st -> shows dev c (pins []) free (cache s) -> header L c -> log_list L ->
  wp (recover_from_log n) (fun _ s' => exists blk,
    traced c (pins []) (recovery_writes c L blk) (set_lh_n 0 (set_lh_block blk s)) s') s.
Proof.
  intros Ed Es Hs [Hn Hb] (Hnd & Hlen & Hh). unfold recover_from_log. unfold LOGBLOCKS, MAXOPBLOCKS in Hst.
  apply wp_bind. eapply wp_mono; [apply (read_head_ok c (pins []) s [])|]; try done;
    [rewrite Es; lia|unfold NBUF; simpl; lia|rewrite Es, Hn; lia|].
  intros [] s1 (k1 & blk & -> & Hblk & S1 & D1 & W1). rewrite Es, Hn in *.
  set (s1 := set_lh_block _ _). assert (H1 : logging L s1).
  { split; try done. intros j f Hj. simpl. rewrite Hblk; [by apply Hb|]. apply lookup_lt_Some in Hj. lia. }
  apply wp_bind. eapply wp_mono; [by apply (install_trans_ok true c L s1)|]. intros [] s2 (k2 & -> & S2 & D2 & W2).
  apply wp_bind, wp_upd. eapply wp_mono; [eapply (write_head_traced _ [] []); [by apply logging_nil|by right|exact S2]|].
  intros [] s3 (k3 & -> & S3 & D3 & W3). exists blk, k3. unfold recovery_writes. rewrite !play_app, reverse_app, <- app_assoc.
  subst s1. cbn [cache set_cache set_lh_n set_lh_block] in *. split_and!; [done|done|by rewrite D3, D2, <- D1|by rewrite W3, W2, <- W1].
Qed.

Lemma recovered_header d L blk : head_n (play (recovery_writes d L blk) d st) = 0.
Proof.
  unfold recovery_writes. rewrite play_app. cbn [play foldl head_write fst snd]. rewrite upd_eq. by apply store_head_n.
Qed.

Lemma home_not_st b : home b -> b <> st.
Proof. intros [_ Hn] ->. apply Hn. unfold in_log, LOGBLOCKS, MAXOPBLOCKS. lia. Qed.

Lemma recovered_home d L blk b :
  log_list L -> home b ->
  same_block (play (recovery_writes d L blk) d b)
    (match list_find (eq b) L with Some (j, _) => d (logat j) | None => d b end).
Proof.
  intros (Hnd & _ & _) Hb. unfold recovery_writes. rewrite play_app. cbn [play foldl head_write fst snd].
  rewrite upd_ne by (by apply home_not_st). destruct (list_find (eq b) L) as [[j f]|] eqn:E.
  - apply list_find_Some in E as (Hj & <- & _).
    rewrite (play_lookup _ _ j b (copy_block (d b) (d (logat j)))); [done|by rewrite home_writes_fst|].
    by apply home_writes_lookup.
  - rewrite play_other; [done|]. rewrite home_writes_fst. intros Hin. apply list_find_None in E.
    rewrite Forall_forall in E. by apply (E b).
Qed.

Lemma boot_shows d : wp binit (fun _ k => shows dev d (pins []) free k /\ disk k = d /\ writes k = []) (boot_cache d).
Proof.
  eapply wp_mono; [by apply (boot_sim dev d (fun _ => 0))|]. intros [] k [[S D _ _ _] W]. split; [|done].
  by eapply shows_ext; [..|exact S].
Qed.

Lemma reboot_ok d L :
  header L d -> log_list L ->
  wp reboot (fun _ s' => exists blk, idle (play (recovery_writes d L blk) d) s' /\
    writes (cache s') = reverse (recovery_writes d L blk)) (boot_log d).
Proof.
  intros Hh HL. unfold reboot, initlog. apply wp_bind, wp_in_cache. eapply wp_mono; [apply boot_shows|].
  intros [] k (S & D & W). apply wp_bind, wp_upd, wp_bind, wp_upd.
  eapply wp_mono; [by apply (recover_ok d L)|]. intros [] s' (blk & k' & -> & S' & D' & W'). exists blk.
  split; [|by rewrite <- (app_nil_r (reverse _)), <- W]. split; try done.
  - by apply logging_nil.
  - split; [apply recovered_header|done].
Qed.
(** ** The disk after a crash

    [d] is the disk before the commit, which differs from the contents [c]
    only in the logged blocks [L]. *)
Section crash.
Variables (c d : Z -> mem) (L : list Z) (blk : Z -> Z).
Hypothesis HL : log_list L.
Hypothesis Hblk : forall j f, L !! j = Some f -> blk (Z.of_nat j) = f.
Hypothesis Hclean : forall b, b ∉ L -> c b = d b.
Hypothesis Hhead : header [] d.

Lemma L_logat f j : f ∈ L -> (j < length L)%nat -> f <> logat j.
Proof.
  intros Hf Hj ->. destruct HL as (_ & Hl & Hh). destruct (Hh _ Hf) as [_ Hn]. apply Hn.
  unfold in_log, logat, LOGBLOCKS, MAXOPBLOCKS, NBUF in *. lia.
Qed.

Lemma st_logat j : st <> logat j.
Proof. unfold logat. lia. Qed.

Lemma not_logged_disk k b : home b \/ b = st -> play (take k (log_writes c L)) d b = d b.
Proof.
  intros Hb. apply play_other. intros (j & _ & Hj & ->)%log_writes_at. destruct Hb as [[_ Hn]|E].
  - apply Hn. destruct HL as (_ & Hl & _). unfold in_log, logat, LOGBLOCKS, MAXOPBLOCKS, NBUF in *. lia.
  - by apply (st_logat j).
Qed.

(** After [m] writes to the home blocks: the log entries are complete. *)
Let c2 := play (log_writes c L ++ [head_write L (play (log_writes c L) c) blk]) c.
Let committed (m : nat) (x : Z -> mem) : Z -> mem :=
  play (take m (home_writes c2 L)) (play (log_writes c L ++ [head_write L (play (log_writes c L) c) blk]) x).

Lemma logged_entry x j f : L !! j = Some f ->
  play (log_writes c L ++ [head_write L (play (log_writes c L) c) blk]) x (logat j) = copy_block (c (logat j)) (c f).
Proof.
  intros Hj. rewrite play_app. cbn [play foldl head_write fst snd]. rewrite upd_ne by (symmetry; apply st_logat).
  eapply play_lookup; [apply log_writes_nodup|]. by apply log_writes_lookup.
Qed.

Lemma committed_entry m x j f : L !! j = Some f -> same_block (committed m x (logat j)) (c f).
Proof.
  intros Hj. unfold committed. rewrite play_other; [by rewrite (logged_entry _ _ _ Hj)|].
  intros (i & _ & Hi)%home_writes_at. eapply L_logat; [by eapply list_elem_of_lookup_2| |done]. by eapply lookup_lt_Some.
Qed.

Lemma committed_other m x b : home b -> b ∉ L -> committed m x b = x b.
Proof.
  intros Hb Hn. unfold committed. rewrite play_other.
  - rewrite play_app. cbn [play foldl head_write fst snd]. rewrite upd_ne by (by apply home_not_st).
    apply play_other. intros Hin. rewrite <- (firstn_all (log_writes c L)) in Hin.
    apply log_writes_at in Hin as (j & _ & Hj & ->). destruct Hb as [_ Hb]. apply Hb. destruct HL as (_ & Hl & _).
    unfold in_log, logat, LOGBLOCKS, MAXOPBLOCKS, NBUF in *. lia.
  - intros (i & _ & Hi%list_elem_of_lookup_2)%home_writes_at. done.
Qed.

Lemma committed_header m x : header L (committed m x).
Proof.
  assert (E : committed m x st = store_head (Z.of_nat (length L)) blk (play (log_writes c L) c st)).
  { unfold committed. rewrite play_other.
    - rewrite play_app. cbn [play foldl head_write fst snd]. apply upd_eq.
    - intros (i & _ & Hi%list_elem_of_lookup_2)%home_writes_at. destruct HL as (_ & _ & Hh).
      by apply (home_not_st st (Hh _ Hi)). }
  destruct HL as (_ & Hl & Hh). unfold NBUF in Hl. split; rewrite E.
  - apply store_head_n. lia.
  - intros j f Hj. rewrite store_head_block.
    + by apply Hblk.
    + apply lookup_lt_Some in Hj. lia.
    + rewrite (Hblk _ _ Hj). destruct (Hh f) as [Hf _]; [by eapply list_elem_of_lookup_2|]. lia.
Qed.

(** Recovery of the disk a crash left after [k] of the commit's writes. *)
Lemma crash_before k : (k <= length L)%nat ->
  header [] (play (take k (commit_writes c L blk)) d) /\
  forall b, home b -> play (take k (commit_writes c L blk)) d b = d b.
Proof.
  intros Hk. unfold commit_writes. rewrite <- !app_assoc, take_app_le by (by rewrite log_writes_len).
  split; [|intros b Hb; apply not_logged_disk; by left]. unfold header. rewrite not_logged_disk by (by right). apply Hhead.
Qed.

Lemma crash_done k : (2 * length L + 1 < k)%nat ->
  header [] (play (take k (commit_writes c L blk)) d) /\
  forall b, home b -> same_block (play (take k (commit_writes c L blk)) d b) (c b).
Proof.
  intros Hgt. set (e := play (take k (commit_writes c L blk)) d).
  assert (Ee : e = upd (committed (length L) d) st (store_head 0 blk (play (log_writes c L ++
      [head_write L (play (log_writes c L) c) blk] ++ home_writes c2 L) c st))).
  { unfold e. rewrite take_ge.
    - unfold commit_writes, committed. rewrite take_ge by (rewrite home_writes_len; lia). rewrite <- !play_app.
      rewrite play_app. by rewrite <- !app_assoc.
    - rewrite commit_writes_len. lia. }
  rewrite Ee. split.
  + split; [|done]. rewrite upd_eq. by apply store_head_n.
  + intros b Hb. rewrite upd_ne by (by apply home_not_st). destruct (decide (b ∈ L)) as [Hin|Hn].
    * apply list_elem_of_lookup in Hin as [j Hj]. unfold committed. rewrite take_ge by (rewrite home_writes_len; lia).
      rewrite (play_lookup _ _ j b (copy_block (c2 b) (c2 (logat j)))).
      -- rewrite copy_block_same. unfold c2. by rewrite (logged_entry _ _ _ Hj).
      -- rewrite home_writes_fst. apply HL.
      -- by apply home_writes_lookup.
    * rewrite committed_other by done. by rewrite Hclean.
Qed.

Lemma crash_after k : (length L < k)%nat ->
  exists L', (L' = [] \/ L' = L) /\ header L' (play (take k (commit_writes c L blk)) d) /\
  forall b, home b ->
    same_block (match list_find (eq b) L' with
                | Some (j, _) => play (take k (commit_writes c L blk)) d (logat j)
                | None => play (take k (commit_writes c L blk)) d b end) (c b).
Proof.
  intros Hk. set (e := play (take k (commit_writes c L blk)) d).
  destruct (Nat.le_gt_cases k (2 * length L + 1)) as [Hle|Hgt].
  - assert (Ee : e = committed (k - length L - 1) d).
    { unfold e, commit_writes, committed. rewrite <- app_assoc, take_app_ge.
      - rewrite play_app. f_equal. rewrite length_app. cbn [length]. rewrite log_writes_len, take_app_le by (rewrite home_writes_len; lia).
        f_equal. lia.
      - rewrite length_app. cbn [length]. rewrite log_writes_len. lia. }
    exists L. split; [by right|]. rewrite Ee. split; [apply committed_header|]. intros b Hb.
    destruct (list_find (eq b) L) as [[j f]|] eqn:E.
    + apply list_find_Some in E as (Hj & <- & _). by apply committed_entry.
    + apply list_find_None in E. rewrite Forall_forall in E. assert (b ∉ L) by (intros Hin; by apply (E b)).
      rewrite committed_other by done. by rewrite Hclean.
  - exists []. split; [by left|]. split; [apply crash_done; lia|]. intros b Hb. apply crash_done; [lia|done].
Qed.
End crash.
(** ** Transactions *)

(** One logged update of a block, as the file system makes them. *)
Definition update (u : Z * (mem -> mem)) : M log unit :=
  let! b := lbread n u.1 in
  do! in_cache (upd_buf b (fun x => set_bdata (u.2 (bdata x)) x));
  do! log_write b;
  in_cache (brelse n b).

(** [m] operations whose updates are [us], committed together; [Hang] is
    the sleep of a [begin_op] that does not fit. *)
Definition transaction (m : Z) (us : list (Z * (mem -> mem))) : M log unit :=
  do! for_each (seqZ 0 m) (fun _ => let! ok := begin_op in if ok then kret tt else khang);
  do! for_each us update;
  for_each (seqZ 0 m) (fun _ => end_op n).

Definition edit (us : list (Z * (mem -> mem))) (c : Z -> mem) : Z -> mem :=
  foldl (fun c u => upd c u.1 (u.2 (c u.1))) c us.

Definition add (L : list Z) (b : Z) : list Z := if bool_decide (b ∈ L) then L else L ++ [b].

Lemma find_logged_spec L blk b :
  (forall j f, L !! j = Some f -> blk (Z.of_nat j) = f) -> (forall f, f ∈ L -> 0 <= f < 2 ^ 31) ->
  let i := find_logged (seqZ 0 (Z.of_nat (length L))) blk b (Z.of_nat (length L)) in
  (b ∈ L -> exists j, i = Z.of_nat j /\ L !! j = Some b) /\ (b ∉ L -> i = Z.of_nat (length L)).
Proof.
  intros Hblk Hr. cut (forall k, (k <= length L)%nat ->
    let i := find_logged (seqZ (Z.of_nat k) (Z.of_nat (length L - k))) blk b (Z.of_nat (length L)) in
    (b ∈ drop k L -> exists j, i = Z.of_nat j /\ L !! j = Some b) /\ (b ∉ drop k L -> i = Z.of_nat (length L))).
  { intros Hc. specialize (Hc 0%nat ltac:(lia)). by rewrite Nat.sub_0_r in Hc. }
  intros k Hk. remember (length L - k)%nat as r eqn:Er. revert k Hk Er.
  induction r as [|r IH]; intros k Hk Er.
  { rewrite drop_ge by lia. split; [by intros ?%elem_of_nil|done]. }
  destruct (lookup_lt_is_Some_2 L k) as [f Hf]; [lia|]. rewrite seqZ_cons by lia.
  replace (Z.succ (Z.of_nat k)) with (Z.of_nat (S k)) by lia.
  replace (Z.pred (Z.of_nat (S r))) with (Z.of_nat r) by lia. simpl find_logged.
  rewrite (Hblk _ _ Hf), (drop_S _ _ _ Hf).
  assert (Hfr : 0 <= f < 2 ^ 31) by (apply Hr; by eapply list_elem_of_lookup_2).
  rewrite u32_small by lia. destruct (Z.eqb_spec f b) as [->|Hfb].
  - split; [intros _; by exists k|]. intros Hn. destruct Hn. by left.
  - destruct (IH (S k)) as [IH1 IH2]; [lia|lia|]. split; [intros [?|?]%elem_of_cons; [done|by apply IH1]|].
    intros [_ ?]%not_elem_of_cons. by apply IH2.
Qed.

(** A transaction that has reached contents [c], logging [L]. *)
Record busy (d : Z -> mem) (w : list (Z * mem)) (c : Z -> mem) (L : list Z) (o : Z) (s : log) : Prop := {
  by_logging : logging L s;
  by_shows : shows dev c (pins L) free (cache s);
  by_disk : disk (cache s) = d;
  by_writes : writes (cache s) = w;
  by_out : outstanding s = o;
  by_com : committing s = 0
}.

Lemma log_write_ok c L s i b P T k :
  logging L s -> 1 <= outstanding s -> home b -> (length (add L b) < Z.to_nat NBUF)%nat ->
  shows dev c P T k -> has_buf dev n k b i -> P b = pins L b + 1 ->
  wp (log_write i) (fun _ s' => exists k' cnt blk, s' = set_lh_n cnt (set_lh_block blk (set_cache k' s)) /\
    logging (add L b) s' /\ shows dev c (upd P b (pins (add L b) b + 1)) T k' /\ has_buf dev n k' b i /\
    disk k' = disk k /\ writes k' = writes k /\ keeps_held dev b k k') (set_cache k s).
Proof.
  intros HL Hop Hb Hlen Hs Hh HP. unfold log_write. apply wp_bind, wp_get, wp_bind, wp_get.
  cbn [lh_n outstanding set_cache]. rewrite (lg_n _ _ HL). pose proof (lg_len _ _ HL) as Hl.
  destruct (Z.geb_spec (Z.of_nat (length L)) LOGBLOCKS) as [Hx|_]; [unfold LOGBLOCKS, MAXOPBLOCKS, NBUF in *; lia|].
  destruct (Z.ltb_spec (outstanding s) 1) as [Hx|_]; [lia|].
  apply wp_bind, wp_in_cache, wp_get, wp_bind, wp_get. cbn [cache set_cache lh_block].
  destruct (sh_ok _ _ _ _ _ Hs) as [l Hok]. destruct (has_buf_in dev n l k b i Hok Hh) as (_ & [_ Hbn] & _). rewrite Hbn.
  pose proof Hb as [Hbr _]. rewrite s32_small by lia.
  destruct (find_logged_spec L (lh_block s) b) as [Fin Fnot]; [apply HL|intros f Hf; apply (lg_home _ _ HL f Hf)|].
  apply wp_bind, wp_upd. unfold add in Hlen |- *. case_bool_decide as Hin.
  - destruct (Fin Hin) as (j & -> & Hj). pose proof (lookup_lt_Some _ _ _ Hj) as Hjl.
    rewrite (proj2 (Z.eqb_neq _ _)) by lia. apply wp_ret. exists k, (lh_n s), (upd (lh_block s) (Z.of_nat j) b).
    split_and!; try done.
    + destruct HL. split; try done. intros j' f Hj'. simpl. unfold upd. destruct (Z.eqb_spec (Z.of_nat j') (Z.of_nat j)); [|auto].
      assert (j' = j) by lia. congruence.
    + eapply shows_ext; [..|exact Hs]; try done. intros x. unfold upd. destruct (Z.eqb_spec x b) as [->|]; [|done]. by rewrite HP.
    + by intros n' b' i' _.
  - rewrite (Fnot Hin), Z.eqb_refl. apply wp_bind, wp_in_cache. unfold bpin.
    assert (Hp0 : pins L b = 0) by (unfold pins; by rewrite bool_decide_eq_false_2).
    eapply wp_mono; [apply (count_shows dev n _ _ _ _ b i (fun z => u32 (z + 1)) Hs Hh); by rewrite HP, Hp0|].
    intros [] k' (S' & B' & K' & D' & W'). apply wp_upd.
    exists k', (Z.of_nat (length L) + 1), (upd (lh_block s) (Z.of_nat (length L)) b).
    split_and!; try done.
    + destruct HL. split; try done; simpl.
      * rewrite length_app. simpl. lia.
      * intros j f Hj. unfold upd. destruct (Z.eqb_spec (Z.of_nat j) (Z.of_nat (length L))) as [E|E].
        -- apply Nat2Z.inj in E. subst j. rewrite lookup_app_r, Nat.sub_diag in Hj by lia. simpl in Hj. congruence.
        -- pose proof (lookup_lt_Some _ _ _ Hj) as Hjl. rewrite length_app in Hjl. simpl in Hjl.
           rewrite lookup_app_l in Hj by lia. auto.
      * apply NoDup_app. split_and!; [done|intros x Hx ->%list_elem_of_singleton; done|apply NoDup_singleton].
      * intros x [Hx| ->%list_elem_of_singleton]%elem_of_app; auto.
    + eapply shows_ext; [..|exact S']; try done. intros x. unfold upd. destruct (Z.eqb_spec x b) as [->|]; [|done].
      rewrite HP, Hp0. unfold pins. rewrite bool_decide_eq_true_2 by set_solver. done.
Qed.
Lemma pins_add L b x : pins (add L b) x = upd (pins L) b 1 x.
Proof.
  clear Hdev Hst. unfold pins, add, upd. destruct (Z.eqb_spec x b) as [->|Hx].
  - rewrite bool_decide_eq_true_2; [done|]. case_bool_decide; set_solver.
  - erewrite bool_decide_ext; [reflexivity|]. case_bool_decide; set_solver.
Qed.

Lemma pins_range L b : 0 <= pins L b <= 1.
Proof. unfold pins. case_bool_decide; lia. Qed.

Lemma update_ok d w c L o s b f :
  busy d w c L o s -> 1 <= o -> home b -> (length (add L b) < Z.to_nat NBUF)%nat ->
  wp (update (b, f)) (fun _ s' => busy d w (upd c b (f (c b))) (add L b) o s') s.
Proof.
  intros HB Ho Hb Hlen. pose proof HB as [HL Hs Hd Hw Hout Hcom]. pose proof Hb as [Hbr _]. pose proof (pins_range L b).
  unfold update. cbn [fst snd]. apply wp_bind, wp_lbread; [apply HL|lia|].
  eapply wp_mono; [apply (bread_shows dev Hdev n _ _ _ _ b L Hs); [done|lia|right; split; [intros x; apply pins_in|apply HL]]|].
  intros i k1 (S1 & B1 & _ & D1 & W1). apply wp_bind, wp_in_cache.
  eapply wp_mono; [apply (set_data_shows dev n _ _ _ _ b i f S1 B1)|]. intros [] k2 (S2 & B2 & _ & D2 & W2). apply wp_bind.
  eapply wp_mono; [eapply (log_write_ok _ L s i b _ _ k2 HL); [lia|done|done|exact S2|done|by rewrite upd_eq]|].
  intros [] s3 (k3 & cnt & blk & -> & HL3 & S3 & B3 & D3 & W3 & _). apply wp_in_cache.
  rewrite pins_add, upd_eq in S3.
  eapply wp_mono; [apply (brelse_shows dev Hdev n _ _ _ _ b i S3 B3)|]; [by rewrite upd_eq|by rewrite upd_eq|].
  intros [] k4 (S4 & _ & D4 & W4). split; try done; [by apply logging_cache|..]; simpl; try congruence.
  eapply shows_ext; [..|exact S4]; intros x; [done|..].
  - rewrite pins_add. unfold upd. rewrite Z.eqb_refl. by cif.
  - unfold upd, free. by cif.
Qed.

Definition adds (L : list Z) (us : list (Z * (mem -> mem))) : list Z := foldl (fun L u => add L u.1) L us.

Lemma adds_len L us : (length L <= length (adds L us))%nat.
Proof.
  revert L. induction us as [|u us IH]; intros L; simpl; [done|]. etransitivity; [|apply IH].
  unfold add. case_bool_decide; rewrite ?length_app; lia.
Qed.

Lemma updates_ok d w o us : forall c L s,
  busy d w c L o s -> 1 <= o -> Forall (fun u => home u.1) us -> (length (adds L us) < Z.to_nat NBUF)%nat ->
  wp (for_each us update) (fun _ s' => busy d w (edit us c) (adds L us) o s') s.
Proof.
  induction us as [|[b f] us IH]; intros c L s HB Ho Hus Hlen; simpl.
  { by apply wp_ret. }
  apply Forall_cons in Hus as [Hb Hus]. pose proof (adds_len (add L b) us). simpl in Hlen.
  apply wp_bind. eapply wp_mono; [apply (update_ok d w c L o s b f HB Ho Hb); lia|].
  intros [] s' HB'. by apply IH.
Qed.

(** [k] more operations begin; [k] of them end without committing. *)
Lemma begins_ok d w c s k :
  busy d w c [] 0 s -> 0 <= k -> k * MAXOPBLOCKS <= LOGBLOCKS ->
  wp (for_each (seqZ 0 k) (fun _ => let! ok := begin_op in if ok then kret tt else khang))
     (fun _ s' => busy d w c [] k s') s.
Proof.
  intros HB Hk Hfit. apply (wp_for_range k _ (fun i s' => busy d w c [] i s')); [done|done|].
  intros i s' Hi [HL Hs Hd Hw Ho Hc]. apply wp_bind. unfold begin_op.
  apply wp_bind, wp_get, wp_bind, wp_get, wp_bind, wp_get. rewrite Hc, Ho, (lg_n _ _ HL). cbn [negb Z.eqb]. change (Z.of_nat (length [])) with 0.
  destruct (Z.gtb_spec (0 + (i + 1) * MAXOPBLOCKS) LOGBLOCKS) as [Hx|_]; [unfold LOGBLOCKS, MAXOPBLOCKS in *; lia|].
  apply wp_bind, wp_upd, wp_ret, wp_ret. split; try done. by destruct HL.
Qed.

Lemma end_op_more d w c L o s : busy d w c L o s -> 1 < o -> wp (end_op n) (fun _ s' => busy d w c L (o - 1) s') s.
Proof.
  intros [HL Hs Hd Hw Ho Hc] H1. unfold end_op. apply wp_bind, wp_upd, wp_bind, wp_get.
  cbn [committing outstanding set_outstanding]. rewrite Hc. apply wp_bind, wp_get.
  cbn [outstanding set_outstanding]. rewrite Ho. destruct (Z.eqb_spec (o - 1) 0) as [|_]; [lia|]. apply wp_ret.
  split; try done. by destruct HL.
Qed.
Lemma crash_recovering d L blk k :
  log_list L -> header L d -> (k <= length L)%nat ->
  header L (play (take k (recovery_writes d L blk)) d) /\
  (forall j, (j < length L)%nat -> play (take k (recovery_writes d L blk)) d (logat j) = d (logat j)) /\
  forall b, home b -> b ∉ L -> play (take k (recovery_writes d L blk)) d b = d b.
Proof.
  intros HL Hh Hk. unfold recovery_writes. rewrite take_app_le by (by rewrite home_writes_len).
  assert (Ho : forall b, b ∉ L -> play (take k (home_writes d L)) d b = d b).
  { intros b Hb. apply play_other. intros (i & _ & Hi%list_elem_of_lookup_2)%home_writes_at. done. }
  split_and!; [|intros j Hj; apply Ho; intros Hin; by apply (L_logat L HL (logat j) j)|intros b _; apply Ho].
  unfold header. rewrite Ho; [done|]. intros Hin. destruct HL as (_ & _ & Hho). by apply (home_not_st st (Hho _ Hin)).
Qed.

(** What a crash after any number of the writes [ws] recovers to: [old] up
    to the commit point, [new] after it. *)
Definition atomic (d : Z -> mem) (ws : list (Z * mem)) (old new : Z -> mem) : Prop :=
  exists m, forall k,
    wp reboot (fun _ s => exists c, idle c s /\
      forall b, home b -> same_block (c b) (if bool_decide (k <= m)%nat then old b else new b))
      (boot_log (play (take k ws) d)).

Lemma reboot_home d L (new : Z -> mem) :
  header L d -> log_list L ->
  (forall b, home b -> same_block (match list_find (eq b) L with Some (j, _) => d (logat j) | None => d b end) (new b)) ->
  wp reboot (fun _ s => exists c, idle c s /\ forall b, home b -> same_block (c b) (new b)) (boot_log d).
Proof.
  intros Hh HL Hn. eapply wp_mono; [by apply (reboot_ok d L)|]. intros [] s (blk & Hi & _). eexists. split; [exact Hi|].
  intros b Hb. rewrite <- (Hn b Hb). by apply recovered_home.
Qed.

Lemma log_list_nil : log_list [].
Proof. split_and!; [apply NoDup_nil_2|unfold NBUF; simpl; lia|by intros b ?%elem_of_nil]. Qed.

Lemma logging_list L s : logging L s -> log_list L.
Proof. intros []. by split_and!. Qed.

Lemma end_op_last d w c L s :
  busy d w c L 1 s -> header [] d ->
  wp (end_op n) (fun _ s' => exists c' ws, idle c' s' /\ (forall b, home b -> same_block (c' b) (c b)) /\
    writes (cache s') = reverse ws ++ w /\ atomic d ws d c) s.
Proof.
  intros [HL Hs Hd Hw Ho Hc] Hh. assert (Hcl : forall b, b ∉ L -> c b = d b).
  { intros b Hb. rewrite <- Hd. apply (shows_clean dev _ _ _ _ _ Hs). unfold pins. by rewrite bool_decide_eq_false_2. }
  assert (Hhc : header [] c).
  { unfold header. rewrite Hcl; [done|]. intros Hin%(lg_home _ _ HL). by apply (home_not_st st). }
  unfold end_op. apply wp_bind, wp_upd, wp_bind, wp_get.
  cbn [committing outstanding set_outstanding]. rewrite Hc. apply wp_bind, wp_get.
  cbn [outstanding set_outstanding]. rewrite Ho. apply wp_bind, wp_upd, wp_bind.
  set (s1 := set_committing 1 _). assert (HL1 : logging L s1) by (by destruct HL).
  destruct (decide (L = [])) as [->|Hne].
  - unfold commit. apply wp_bind, wp_get. rewrite (lg_n _ _ HL1). apply wp_ret, wp_upd.
    exists c, []. split_and!; try done.
    + split; try done. by destruct HL.
    + exists 0%nat. intros k. rewrite take_nil. apply (reboot_home d []); [done|apply log_list_nil|].
      intros b _. case_bool_decide; [done|]. rewrite Hcl by apply not_elem_of_nil. done.
  - eapply wp_mono; [by apply (commit_ok c L s1)|]. intros [] s2 (s3 & -> & k3 & -> & S3 & D3 & W3). apply wp_upd.
    exists (play (commit_writes c L (lh_block s)) c), (commit_writes c L (lh_block s)).
    pose proof (logging_list _ _ HL) as HLL.
    pose proof (crash_done c c L (lh_block s) HLL (fun _ _ => eq_refl) (2 * length L + 2)) as Hdone.
    rewrite take_ge in Hdone by (by rewrite commit_writes_len).
    destruct Hdone as [Hdh Hdb]; [lia|]. split_and!.
    + split; try done. by apply logging_nil; destruct HL.
    + done.
    + by rewrite <- Hw.
    + exists (length L). intros k. case_bool_decide as Hk.
      * destruct (crash_before c d L (lh_block s) HLL Hh k Hk) as [H1 H2].
        apply (reboot_home _ []); [done|apply log_list_nil|]. intros b Hb. simpl. by rewrite H2.
      * destruct (crash_after c d L (lh_block s) HLL (lg_block _ _ HL) Hcl k) as (L' & HL' & H1 & H2); [lia|].
        apply (reboot_home _ L'); [done|destruct HL' as [->| ->]; [apply log_list_nil|done]|done].
Qed.

(** C4. Transactions are atomic and durable.  From an idle log that shows
    contents [c], [m] file system operations ([m * MAXOPBLOCKS] fitting the
    log) whose updates are [us] (of home blocks, fewer than [NBUF] of them
    distinct) run without panic, deadlock or waiting and leave the log
    idle with every home block as edited.  And if the machine stops after
    any number [k] of the disk writes they made, the kernel that boots on
    that disk recovers every block as it was before the operations ([k] up
    to the commit point) or every block as edited (after it). *)
Theorem transaction_atomic (c : Z -> mem) (s : log) (m : Z) (us : list (Z * (mem -> mem))) :
  idle c s -> 1 <= m -> m * MAXOPBLOCKS <= LOGBLOCKS ->
  Forall (fun u => home u.1) us -> (length (adds [] us) < Z.to_nat NBUF)%nat ->
  wp (transaction m us) (fun _ s' => exists c' ws,
    idle c' s' /\ (forall b, home b -> same_block (c' b) (edit us c b)) /\
    writes (cache s') = reverse ws ++ writes (cache s) /\
    atomic (disk (cache s)) ws (disk (cache s)) (edit us c)) s.
Proof.
  intros Hid Hm Hfit Hus Hlen. pose proof Hid as [HL Hs Hh Ho Hc]. set (d := disk (cache s)).
  assert (Hd : header [] d) by (unfold header, d; by rewrite (idle_disk c s st Hid)).
  unfold transaction. apply wp_bind. eapply wp_mono; [apply (begins_ok d (writes (cache s)) c s m); [done|lia|done]|].
  intros [] s1 HB1. apply wp_bind. eapply wp_mono; [by apply (updates_ok d (writes (cache s)) m us c [])|]. intros [] s2 HB2.
  set (Q := fun s' => exists c' ws, idle c' s' /\ (forall b, home b -> same_block (c' b) (edit us c b)) /\
    writes (cache s') = reverse ws ++ writes (cache s) /\ atomic d ws d (edit us c)).
  eapply wp_mono; [apply (wp_for_range m _ (fun i s' =>
    if bool_decide (i < m) then busy d (writes (cache s)) (edit us c) (adds [] us) (m - i) s' else Q s')); [lia| |]|].
  - rewrite bool_decide_eq_true_2, Z.sub_0_r by lia. done.
  - intros i s3 Hi HB3. rewrite bool_decide_eq_true_2 in HB3 by lia. destruct (Z.eq_dec (m - i) 1) as [E|E].
    + rewrite bool_decide_eq_false_2 by lia. rewrite E in HB3. by eapply end_op_last.
    + rewrite bool_decide_eq_true_2, Z.sub_add_distr by lia. apply end_op_more; [done|lia].
  - intros [] s3. by rewrite bool_decide_eq_false_2 by lia.
Qed.
(** C8. Recovery may itself be cut short.  On a disk whose header names the
    blocks [L], booting runs [recover_from_log] to an idle log in which the
    home blocks have their logged copies where they have one and are
    unchanged elsewhere; and a machine that stops after any number of the
    recovery's writes recovers to the same contents when it boots again. *)
Theorem recovery_restartable (d : Z -> mem) (L : list Z) :
  header L d -> log_list L ->
  wp reboot (fun _ s => exists c ws,
    idle c s /\ writes (cache s) = reverse ws /\
    (forall b, home b ->
       same_block (c b) (match list_find (eq b) L with Some (j, _) => d (logat j) | None => d b end)) /\
    forall k, wp reboot (fun _ s2 => exists c2, idle c2 s2 /\ forall b, home b -> same_block (c2 b) (c b))
                (boot_log (play (take k ws) d))) (boot_log d).
Proof.
  intros Hh HL. eapply wp_mono; [by apply (reboot_ok d L)|]. intros [] s (blk & Hi & Hw).
  exists (play (recovery_writes d L blk) d), (recovery_writes d L blk).
  split_and!; [done|done|intros b Hb; by apply recovered_home|]. intros k.
  destruct (Nat.le_gt_cases k (length L)) as [Hk|Hk].
  - destruct (crash_recovering d L blk k HL Hh Hk) as (H1 & H2 & H3). apply (reboot_home _ L); [done|done|].
    intros b Hb. rewrite recovered_home by done. destruct (list_find (eq b) L) as [[j f]|] eqn:E.
    + apply list_find_Some in E as (Hj & _ & _). rewrite H2; [done|]. by eapply lookup_lt_Some.
    + apply list_find_None in E. rewrite Forall_forall in E. rewrite H3; [done|done|]. intros Hin. by apply (E b).
  - rewrite take_ge by (unfold recovery_writes; rewrite length_app, home_writes_len; simpl; lia).
    apply (reboot_home _ []); [split; [apply recovered_header|done]|apply log_list_nil|done].
Qed.

(** The log header round trip: what [write_head] stores in the header
    block is what [read_head] loads from it, for any count and block
    numbers an [int] holds. *)
Theorem log_header_roundtrip (cnt : Z) (blk : Z -> Z) (m : mem) :
  0 <= cnt < 2 ^ 31 -> (forall i, 0 <= i < cnt -> - 2 ^ 31 <= blk i < 2 ^ 31) ->
  head_n (store_head cnt blk m) = cnt /\
  forall i, 0 <= i < cnt -> head_block (store_head cnt blk m) i = blk i.
Proof. intros Hc Hb. split; [by apply store_head_n|]. intros i Hi. apply store_head_block; auto. Qed.
End log.

Lemma log_header_roundtrip_witness :
  head_n (store_head 3 (fun i => 40 + i) (fun _ => 9)) = 3 /\ head_block (store_head 3 (fun i => 40 + i) (fun _ => 9)) 2 = 42.
Proof.
  destruct (log_header_roundtrip 3 (fun i => 40 + i) (fun _ => 9)) as [H1 H2]; [lia|intros; lia|].
  split; [exact H1|]. apply (H2 2). lia.
Defined.

(** A disk whose log holds one committed block, 60. *)
Definition demo_disk : Z -> mem :=
  upd (upd (fun _ _ => 0) 2 (store_head 1 (fun _ => 60) (fun _ => 0))) 3 (fun _ => 7).

Lemma demo_header : header 2 [60] demo_disk.
Proof. split; [vm_compute; reflexivity|]. intros [|j] f Hj; [|by destruct j]. injection Hj as <-. vm_compute. reflexivity. Qed.

Lemma demo_home b : 40 <= b < 100 -> home 2 b.
Proof. unfold home, in_log, LOGBLOCKS, MAXOPBLOCKS. lia. Qed.

Lemma demo_list : log_list 2 [60].
Proof.
  split_and!; [apply NoDup_singleton|unfold NBUF; simpl; lia|].
  intros b ->%list_elem_of_singleton. apply demo_home. lia.
Qed.

Lemma recovery_restartable_witness :
  exists s, reboot 1 2 9 (boot_log demo_disk) = Ret tt s /\ disk (cache s) 60 0 = 7.
Proof.
  assert (Hst : 0 <= 2 /\ 2 + LOGBLOCKS < 2 ^ 31) by (unfold LOGBLOCKS, MAXOPBLOCKS; lia).
  pose proof (recovery_restartable 1 2 9 ltac:(discriminate) Hst demo_disk [60] demo_header demo_list) as Hw.
  apply (proj1 (wp_ex _ _ _)) in Hw as ([] & s & E & c & ws & Hi & _ & Hb & _). exists s. split; [exact E|].
  rewrite (idle_disk 1 2 c s 60 Hi). rewrite (Hb 60); [reflexivity|apply demo_home; lia|unfold BSIZE; lia].
Defined.

Definition demo_edits : list (Z * (mem -> mem)) := [(50, fun m => upd m 0 5); (60, fun m => upd m 1 6)].

Lemma transaction_atomic_witness :
  exists s s' c ws, reboot 1 2 9 (boot_log demo_disk) = Ret tt s /\
    transaction 9 2 demo_edits s = Ret tt s' /\ disk (cache s') 50 0 = 5 /\ disk (cache s') 60 0 = 7 /\
    atomic 1 2 9 (disk (cache s)) ws (disk (cache s)) (edit demo_edits c).
Proof.
  assert (Hst : 0 <= 2 /\ 2 + LOGBLOCKS < 2 ^ 31) by (unfold LOGBLOCKS, MAXOPBLOCKS; lia).
  pose proof (reboot_ok 1 2 9 ltac:(discriminate) Hst demo_disk [60] demo_header demo_list) as Hw.
  apply (proj1 (wp_ex _ _ _)) in Hw as ([] & s & E & blk & Hi & _).
  pose proof (transaction_atomic 1 2 9 ltac:(discriminate) Hst _ s 2 demo_edits Hi) as Ht.
  apply (proj1 (wp_ex _ _ _)) in Ht as ([] & s' & E' & c' & ws & Hi' & Hb & _ & Ha).
  - exists s, s', (play (recovery_writes 2 demo_disk [60] blk) demo_disk), ws. split; [exact E|]. split; [exact E'|].
    rewrite !(idle_disk 1 2 c' s' _ Hi'), !Hb by (unfold BSIZE; lia || (apply demo_home; lia)).
    split; [reflexivity|]. split; [|exact Ha]. vm_compute. reflexivity.
  - lia.
  - unfold MAXOPBLOCKS, LOGBLOCKS, MAXOPBLOCKS. lia.
  - repeat constructor; apply demo_home; simpl; lia.
  - vm_compute. lia.
Defined.

