(* ===== verification/Fs.v ===== *)
(** * kernel/fs.c: the file system

    Disk blocks, inodes, directories and path names.  The code reaches the
    disk through [bread], [log_write] and [brelse]: here the operations of
    the class [BlockLayer], which the log and buffer cache of Log.v
    implement.  Code that copies to or from memory ([readi], [writei] and
    the directories, whose entries are on the kernel stack) runs in a state
    that also has that memory, the class [FsEnv].  Messages to the console
    are left out. *)

From S2P Require Import Prelude Memory StringC Sleeplock.

(** ** The layer below *)

Class BlockLayer (B : Type) := {
  bl_read : Z -> Z -> Z -> M B Z;       (* bread, by process, device and block; a buffer *)
  bl_data : B -> Z -> mem;              (* bp->data *)
  bl_set : Z -> mem -> M B unit;        (* stores to bp->data *)
  bl_log_write : Z -> M B unit;         (* log_write *)
  bl_relse : Z -> Z -> M B unit;        (* brelse, by process *)
  bl_begin : M B bool;                  (* begin_op, false when it sleeps *)
  bl_end : Z -> M B unit;               (* end_op, by process *)
  bl_init : Z -> Z -> Z -> M B unit     (* initlog, by process, device and start *)
}.

(** ** kernel/fs.h, kernel/file.h *)

Definition ROOTDEV : Z := 1.
Definition ROOTINO : Z := 1.
Definition FSMAGIC : Z := 0x10203040.
Definition NDIRECT : Z := 12.
Definition NINDIRECT : Z := BSIZE / 4.
Definition MAXFILE : Z := NDIRECT + NINDIRECT.
Definition NINODE : Z := 50.
Definition DIRSIZ : Z := 14.
Definition MAXPATH : Z := 128.
Definition T_DIR : Z := 1.
Definition T_FILE : Z := 2.
Definition T_DEVICE : Z := 3.

Record superblock := Superblock {
  magic : Z; fssize : Z; nblocks : Z; ninodes : Z; nlog : Z; logstart : Z; inodestart : Z; bmapstart : Z
}.

(** [struct inode]: the table's entry, its lock, and the copy of the
    on-disk inode. *)
Record inode := Inode {
  idev : Z; inum : Z; iref : Z; ilk : sleeplock; ivalid : Z;
  itype : Z; imajor : Z; iminor : Z; inlink : Z; isize : Z; iaddrs : Z -> Z
}.

Definition set_iref v i := Inode (idev i) (inum i) v (ilk i) (ivalid i) (itype i) (imajor i) (iminor i) (inlink i) (isize i) (iaddrs i).
Definition set_ilk v i := Inode (idev i) (inum i) (iref i) v (ivalid i) (itype i) (imajor i) (iminor i) (inlink i) (isize i) (iaddrs i).
Definition set_ivalid v i := Inode (idev i) (inum i) (iref i) (ilk i) v (itype i) (imajor i) (iminor i) (inlink i) (isize i) (iaddrs i).
Definition set_itype v i := Inode (idev i) (inum i) (iref i) (ilk i) (ivalid i) v (imajor i) (iminor i) (inlink i) (isize i) (iaddrs i).
Definition set_imajor v i := Inode (idev i) (inum i) (iref i) (ilk i) (ivalid i) (itype i) v (iminor i) (inlink i) (isize i) (iaddrs i).
Definition set_iminor v i := Inode (idev i) (inum i) (iref i) (ilk i) (ivalid i) (itype i) (imajor i) v (inlink i) (isize i) (iaddrs i).
Definition set_inlink v i := Inode (idev i) (inum i) (iref i) (ilk i) (ivalid i) (itype i) (imajor i) (iminor i) v (isize i) (iaddrs i).
Definition set_isize v i := Inode (idev i) (inum i) (iref i) (ilk i) (ivalid i) (itype i) (imajor i) (iminor i) (inlink i) v (iaddrs i).
Definition set_iaddrs v i := Inode (idev i) (inum i) (iref i) (ilk i) (ivalid i) (itype i) (imajor i) (iminor i) (inlink i) (isize i) v.

Record fs (B : Type) := Fs { blocks : B; sb : superblock; itable : Z -> inode }.
Arguments Fs {B} _ _ _.
Arguments blocks {B} _.
Arguments sb {B} _.
Arguments itable {B} _.

(** The block of an inode and of a block's bit in the free map. *)
Definition DINODE : Z := 64.
Definition IPB : Z := BSIZE / DINODE.
Definition IBLOCK (i : Z) (b : superblock) : Z := u32 (i / IPB + inodestart b).
Definition BPB : Z := BSIZE * 8.
Definition BBLOCK (i : Z) (b : superblock) : Z := u32 (i / BPB + bmapstart b).

(** [struct dinode] at offset [o] of a block. *)
Fixpoint ld_addrs (l : list Z) (m : mem) (o : Z) (a : Z -> Z) : Z -> Z :=
  match l with
  | [] => a
  | i :: l' => ld_addrs l' m o (upd a i (ld32 m (o + 12 + 4 * i)))
  end.
Fixpoint st_addrs (l : list Z) (m : mem) (o : Z) (a : Z -> Z) : mem :=
  match l with
  | [] => m
  | i :: l' => st_addrs l' (st32 m (o + 12 + 4 * i) (u32 (a i))) o a
  end.

Definition load_dinode (m : mem) (o : Z) (i : inode) : inode :=
  let i := set_itype (s16 (ld16 m o)) i in
  let i := set_imajor (s16 (ld16 m (o + 2))) i in
  let i := set_iminor (s16 (ld16 m (o + 4))) i in
  let i := set_inlink (s16 (ld16 m (o + 6))) i in
  let i := set_isize (ld32 m (o + 8)) i in
  set_iaddrs (ld_addrs (seqZ 0 (NDIRECT + 1)) m o (iaddrs i)) i.

Definition store_dinode (m : mem) (o : Z) (i : inode) : mem :=
  let m := st16 m o (u16 (itype i)) in
  let m := st16 m (o + 2) (u16 (imajor i)) in
  let m := st16 m (o + 4) (u16 (iminor i)) in
  let m := st16 m (o + 6) (u16 (inlink i)) in
  let m := st32 m (o + 8) (u32 (isize i)) in
  st_addrs (seqZ 0 (NDIRECT + 1)) m o (iaddrs i).

(** ** Operations *)
Section fs.
Context {B : Type} `{BlockLayer B}.
Implicit Types n dev : Z.

Definition in_blocks {A} (c : M B A) : M (fs B) A := fun s =>
  match c (blocks s) with
  | Ret a b => Ret a (Fs b (sb s) (itable s))
  | Panic e => Panic e
  | Hang => Hang
  end.

Definition get_sb : M (fs B) superblock := kget sb.
Definition get_inode (i : Z) : M (fs B) inode := kget (fun s => itable s i).
Definition upd_inode (i : Z) (f : inode -> inode) : M (fs B) unit :=
  kupd (fun s => Fs (blocks s) (sb s) (upd (itable s) i (f (itable s i)))).
Definition get_data (bp : Z) : M (fs B) mem := in_blocks (kget (fun b => bl_data b bp)).
Definition set_data (bp : Z) (m : mem) : M (fs B) unit := in_blocks (bl_set bp m).
Definition bread n dev bno : M (fs B) Z := in_blocks (bl_read n dev (u32 bno)).
Definition log_write (bp : Z) : M (fs B) unit := in_blocks (bl_log_write bp).
Definition brelse n (bp : Z) : M (fs B) unit := in_blocks (bl_relse n bp).

Definition readsb n dev : M (fs B) unit :=
  let! bp := bread n dev 1 in
  let! m := get_data bp in
  let w i := ld32 m (4 * i) in
  do! kupd (fun s => Fs (blocks s) (Superblock (w 0) (w 1) (w 2) (w 3) (w 4) (w 5) (w 6) (w 7)) (itable s));
  brelse n bp.

Definition bzero n dev bno : M (fs B) unit :=
  let! bp := bread n dev bno in
  let! m := get_data bp in
  do! set_data bp (memset m 0 0 BSIZE);
  do! log_write bp;
  brelse n bp.

(** The scan of one block of the free map for a clear bit, [k] bits from
    [bi]. *)
Fixpoint find_bit (k : nat) (m : mem) (bi : Z) : option Z :=
  match k with
  | O => None
  | S k' => if Z.land (u8 (m (bi / 8))) (Z.shiftl 1 (bi mod 8)) =? 0 then Some bi
            else find_bit k' m (bi + 1)
  end.

Definition mark_bit (m : mem) (bi : Z) : mem :=
  upd m (bi / 8) (u8 (Z.lor (u8 (m (bi / 8))) (Z.shiftl 1 (bi mod 8)))).
Definition clear_bit (m : mem) (bi : Z) : mem :=
  upd m (bi / 8) (u8 (Z.land (u8 (m (bi / 8))) (Z.lnot (Z.shiftl 1 (bi mod 8))))).

Fixpoint balloc_loop n dev (l : list Z) : M (fs B) Z :=
  match l with
  | [] => kret 0
  | b :: l' =>
      let! t := get_sb in
      let! bp := bread n dev (BBLOCK b t) in
      let! m := get_data bp in
      match find_bit (Z.to_nat (Z.min BPB (fssize t - b))) m 0 with
      | Some bi =>
          do! set_data bp (mark_bit m bi);
          do! log_write bp;
          do! brelse n bp;
          do! bzero n dev (b + bi);
          kret (b + bi)
      | None => do! brelse n bp; balloc_loop n dev l'
      end
  end.

(** The first bits of the blocks of the free map: 0, BPB, 2 BPB, ... *)
Definition map_blocks (t : superblock) : list Z :=
  (fun i => i * BPB) <$> seqZ 0 ((fssize t + BPB - 1) / BPB).

Definition balloc n dev : M (fs B) Z :=
  let! t := get_sb in balloc_loop n dev (map_blocks t).

Definition bfree n dev b : M (fs B) unit :=
  let! t := get_sb in
  let! bp := bread n dev (BBLOCK b t) in
  let bi := b mod BPB in
  let! m := get_data bp in
  if Z.land (u8 (m (bi / 8))) (Z.shiftl 1 (bi mod 8)) =? 0 then kpanic "freeing free block" else
  do! set_data bp (clear_bit m bi);
  do! log_write bp;
  brelse n bp.

(** *** Inodes *)

Definition inodes : list Z := seqZ 0 NINODE.

Definition iinit : M (fs B) unit :=
  for_each inodes (fun i => upd_inode i (set_ilk (Sleeplock 0 0))).

Definition iupdate n (ip : Z) : M (fs B) unit :=
  let! t := get_sb in
  let! i := get_inode ip in
  let! bp := bread n (idev i) (IBLOCK (inum i) t) in
  let! m := get_data bp in
  do! set_data bp (store_dinode m (inum i mod IPB * DINODE) i);
  do! log_write bp;
  brelse n bp.

(** The scan of [iget]: the entry of the inode, or the first free one. *)
Fixpoint iget_scan (l : list Z) (tab : Z -> inode) (dev ino : Z) (empty : option Z) : Z + option Z :=
  match l with
  | [] => inr empty
  | i :: l' =>
      if (iref (tab i) >? 0) && (idev (tab i) =? dev) && (inum (tab i) =? ino) then inl i
      else iget_scan l' tab dev ino
             (match empty with None => if iref (tab i) =? 0 then Some i else None | Some _ => empty end)
  end.

Definition iget (dev ino : Z) : M (fs B) Z :=
  let! tab := kget itable in
  match iget_scan inodes tab dev ino None with
  | inl ip => do! upd_inode ip (fun i => set_iref (s32 (iref i + 1)) i); kret ip
  | inr None => kpanic "iget: no inodes"
  | inr (Some ip) =>
      do! upd_inode ip (fun i => Inode dev ino 1 (ilk i) 0 (itype i) (imajor i) (iminor i) (inlink i) (isize i) (iaddrs i));
      kret ip
  end.

Fixpoint ialloc_loop n dev (type : Z) (l : list Z) : M (fs B) (option Z) :=
  match l with
  | [] => kret None
  | ino :: l' =>
      let! t := get_sb in
      let! bp := bread n dev (IBLOCK ino t) in
      let! m := get_data bp in
      let o := ino mod IPB * DINODE in
      if s16 (ld16 m o) =? 0 then
        do! set_data bp (st16 (memset m o 0 DINODE) o (u16 type));
        do! log_write bp;
        do! brelse n bp;
        let! ip := iget dev ino in
        kret (Some ip)
      else do! brelse n bp; ialloc_loop n dev type l'
  end.

Definition ialloc n dev (type : Z) : M (fs B) (option Z) :=
  let! t := get_sb in ialloc_loop n dev type (seqZ 1 (ninodes t - 1)).

Definition idup (ip : Z) : M (fs B) Z :=
  do! upd_inode ip (fun i => set_iref (s32 (iref i + 1)) i); kret ip.

(** A lock that another process holds: the caller would sleep. *)
Definition lock_inode n (ip : Z) : M (fs B) unit :=
  let! i := get_inode ip in
  match take_sleep n (ilk i) with
  | Some l => upd_inode ip (set_ilk l)
  | None => khang
  end.

Definition ilock n (ip : Z) : M (fs B) unit :=
  let! i := get_inode ip in
  if iref i <? 1 then kpanic "ilock" else
  do! lock_inode n ip;
  let! i := get_inode ip in
  if ivalid i =? 0 then
    let! t := get_sb in
    let! bp := bread n (idev i) (IBLOCK (inum i) t) in
    let! m := get_data bp in
    do! upd_inode ip (load_dinode m (inum i mod IPB * DINODE));
    do! brelse n bp;
    do! upd_inode ip (set_ivalid 1);
    let! i := get_inode ip in
    if itype i =? 0 then kpanic "ilock: no type" else kret tt
  else kret tt.

Definition iunlock n (ip : Z) : M (fs B) unit :=
  let! i := get_inode ip in
  if negb (held_by n (ilk i)) || (iref i <? 1) then kpanic "iunlock"
  else upd_inode ip (set_ilk drop_sleep).

(** *** Inode content *)

(** Entry [j] of a block that holds block numbers, [a[j]]. *)
Definition entry (m : mem) (j : Z) : Z := ld32 m (4 * j).

Definition set_addr (ip i v : Z) : M (fs B) unit :=
  upd_inode ip (fun x => set_iaddrs (upd (iaddrs x) i v) x).

Definition bmap_indirect n (ip bn : Z) : M (fs B) Z :=
  let! i := get_inode ip in
  let! addr := (if iaddrs i NDIRECT =? 0 then
                  let! addr := balloc n (idev i) in
                  if addr =? 0 then kret 0 else
                  do! set_addr ip NDIRECT addr; kret addr
                else kret (iaddrs i NDIRECT)) in
  if addr =? 0 then kret 0 else
  let! bp := bread n (idev i) addr in
  let! m := get_data bp in
  if entry m bn =? 0 then
    let! addr := balloc n (idev i) in
    do! (if negb (addr =? 0) then
           let! m := get_data bp in
           do! set_data bp (st32 m (4 * bn) addr); log_write bp
         else kret tt);
    do! brelse n bp;
    kret addr
  else do! brelse n bp; kret (entry m bn).

Definition bmap n (ip bn : Z) : M (fs B) Z :=
  let! i := get_inode ip in
  if bn <? NDIRECT then
    if iaddrs i bn =? 0 then
      let! addr := balloc n (idev i) in
      if addr =? 0 then kret 0 else
      do! set_addr ip bn addr; kret addr
    else kret (iaddrs i bn)
  else if bn - NDIRECT <? NINDIRECT then bmap_indirect n ip (bn - NDIRECT)
  else kpanic "bmap: out of range".

Definition itrunc n (ip : Z) : M (fs B) unit :=
  do! for_each (seqZ 0 NDIRECT) (fun i =>
        let! x := get_inode ip in
        if negb (iaddrs x i =? 0) then do! bfree n (idev x) (iaddrs x i); set_addr ip i 0 else kret tt);
  let! x := get_inode ip in
  do! (if negb (iaddrs x NDIRECT =? 0) then
         let! bp := bread n (idev x) (iaddrs x NDIRECT) in
         do! for_each (seqZ 0 NINDIRECT) (fun j =>
               let! m := get_data bp in
               if negb (entry m j =? 0) then bfree n (idev x) (entry m j) else kret tt);
         do! brelse n bp;
         do! bfree n (idev x) (iaddrs x NDIRECT);
         set_addr ip NDIRECT 0
       else kret tt);
  do! upd_inode ip (set_isize 0);
  iupdate n ip.

Definition iput n (ip : Z) : M (fs B) unit :=
  let! i := get_inode ip in
  do! (if (iref i =? 1) && negb (ivalid i =? 0) && (inlink i =? 0) then
         do! lock_inode n ip;
         do! itrunc n ip;
         do! upd_inode ip (set_itype 0);
         do! iupdate n ip;
         do! upd_inode ip (set_ivalid 0);
         upd_inode ip (set_ilk drop_sleep)
       else kret tt);
  upd_inode ip (fun i => set_iref (s32 (iref i - 1)) i).

Definition iunlockput n (ip : Z) : M (fs B) unit :=
  do! iunlock n ip; iput n ip.

Definition ireclaim n dev : M (fs B) unit :=
  let! t := get_sb in
  for_each (seqZ 1 (ninodes t - 1)) (fun ino =>
    let! bp := bread n dev (IBLOCK ino t) in
    let! m := get_data bp in
    let o := ino mod IPB * DINODE in
    let! oip := (if negb (s16 (ld16 m o) =? 0) && (s16 (ld16 m (o + 6)) =? 0)
                 then let! ip := iget dev ino in kret (Some ip) else kret None) in
    do! brelse n bp;
    match oip with
    | None => kret tt
    | Some ip =>
        let! ok := in_blocks bl_begin in
        if negb ok then khang else
        do! ilock n ip;
        do! iunlock n ip;
        do! iput n ip;
        in_blocks (bl_end n)
    end).

Definition fsinit n dev : M (fs B) unit :=
  do! readsb n dev;
  let! t := get_sb in
  if negb (magic t =? FSMAGIC) then kpanic "invalid file system" else
  do! in_blocks (bl_init n dev (logstart t));
  ireclaim n dev.
End fs.

(** ** Reading and writing files

    The state [T] has the file system and the kernel's memory.
    [env_copyout user dst data off len] is
    [either_copyout(user, dst, data + off, len)], and [env_copyin] is
    [either_copyin(data + off, user, src, len)], which also gives the
    block's data as the copy left it. *)
Class FsEnv (B T : Type) := {
  env_fs : T -> fs B;
  put_fs : fs B -> T -> T;
  env_mem : T -> mem;
  put_mem : mem -> T -> T;
  env_copyout : bool -> Z -> mem -> Z -> Z -> M T Z;
  env_copyin : mem -> Z -> bool -> Z -> Z -> M T (Z * mem)
}.

Section content.
Context {B T : Type} `{BlockLayer B} `{FsEnv B T}.
Implicit Types n dev : Z.
(** [struct dirent de], on the kernel stack. *)
Variable de_at : Z.

Definition in_fs {A} (c : M (fs B) A) : M T A := fun s =>
  match c (env_fs s) with
  | Ret a f => Ret a (put_fs f s)
  | Panic e => Panic e
  | Hang => Hang
  end.
Definition get_mem : M T mem := kget env_mem.
Definition set_mem (f : mem -> mem) : M T unit := kupd (fun s => put_mem (f (env_mem s)) s).

(** Each iteration ends at a block boundary or at the end. *)
Definition io_fuel (cnt : Z) : nat := Z.to_nat (cnt / BSIZE + 2).

Fixpoint readi_loop (fuel : nat) n (ip : Z) (user_dst : bool) (dst off cnt tot : Z) : M T Z :=
  if tot <? cnt then
    match fuel with
    | O => khang
    | S f =>
        let! addr := in_fs (bmap n ip (off / BSIZE)) in
        if addr =? 0 then kret tot else
        let! i := in_fs (get_inode ip) in
        let! bp := in_fs (bread n (idev i) addr) in
        let m := Z.min (cnt - tot) (BSIZE - off mod BSIZE) in
        let! d := in_fs (get_data bp) in
        let! r := env_copyout user_dst dst d (off mod BSIZE) m in
        if r =? -1 then do! in_fs (brelse n bp); kret (-1) else
        do! in_fs (brelse n bp);
        readi_loop f n ip user_dst (u64 (dst + m)) (off + m) cnt (tot + m)
    end
  else kret tot.

Definition readi n (ip : Z) (user_dst : bool) (dst off cnt : Z) : M T Z :=
  let! i := in_fs (get_inode ip) in
  if (off >? isize i) || (u32 (off + cnt) <? off) then kret 0 else
  let cnt := if u32 (off + cnt) >? isize i then isize i - off else cnt in
  let! tot := readi_loop (io_fuel cnt) n ip user_dst dst off cnt 0 in
  kret (s32 tot).

Fixpoint writei_loop (fuel : nat) n (ip : Z) (user_src : bool) (src off cnt tot : Z) : M T (Z * Z) :=
  if tot <? cnt then
    match fuel with
    | O => khang
    | S f =>
        let! addr := in_fs (bmap n ip (off / BSIZE)) in
        if addr =? 0 then kret (tot, off) else
        let! i := in_fs (get_inode ip) in
        let! bp := in_fs (bread n (idev i) addr) in
        let m := Z.min (cnt - tot) (BSIZE - off mod BSIZE) in
        let! d := in_fs (get_data bp) in
        let! r := env_copyin d (off mod BSIZE) user_src src m in
        do! in_fs (set_data bp (snd r));
        if fst r =? -1 then do! in_fs (brelse n bp); kret (tot, off) else
        do! in_fs (log_write bp);
        do! in_fs (brelse n bp);
        writei_loop f n ip user_src (u64 (src + m)) (off + m) cnt (tot + m)
    end
  else kret (tot, off).

Definition writei n (ip : Z) (user_src : bool) (src off cnt : Z) : M T Z :=
  let! i := in_fs (get_inode ip) in
  if (off >? isize i) || (u32 (off + cnt) <? off) then kret (-1) else
  if u32 (off + cnt) >? MAXFILE * BSIZE then kret (-1) else
  let! r := writei_loop (io_fuel cnt) n ip user_src src off cnt 0 in
  do! in_fs (upd_inode ip (fun i => if snd r >? isize i then set_isize (snd r) i else i));
  do! in_fs (iupdate n ip);
  kret (s32 (fst r)).

(** [struct stat] from an inode: the values of its fields. *)
Record stat := Stat { st_dev : Z; st_ino : Z; st_type : Z; st_nlink : Z; st_size : Z }.
Definition stati (ip : Z) : M T stat :=
  let! i := in_fs (get_inode ip) in
  kret (Stat (idev i) (inum i) (itype i) (inlink i) (isize i)).

(** ** Directories *)

Definition DIRENT : Z := 16.
Definition de_inum (m : mem) : Z := ld16 m de_at.
Definition de_name : Z := de_at + 2.

Definition namecmp (m : mem) (s t : Z) : Z := strncmp m s t DIRSIZ.

(** The offsets of a directory's entries. *)
Definition entries (size : Z) : list Z := (fun i => i * DIRENT) <$> seqZ 0 ((size + DIRENT - 1) / DIRENT).

Fixpoint dirlookup_loop n (dp name : Z) (l : list Z) : M T (option (Z * Z)) :=
  match l with
  | [] => kret None
  | off :: l' =>
      let! r := readi n dp false de_at off DIRENT in
      if negb (r =? DIRENT) then kpanic "dirlookup read" else
      let! m := get_mem in
      if de_inum m =? 0 then dirlookup_loop n dp name l' else
      if namecmp m name de_name =? 0 then
        let! d := in_fs (get_inode dp) in
        let! ip := in_fs (iget (idev d) (de_inum m)) in
        kret (Some (ip, off))
      else dirlookup_loop n dp name l'
  end.

(** The inode of the entry and the entry's offset. *)
Definition dirlookup n (dp name : Z) : M T (option (Z * Z)) :=
  let! d := in_fs (get_inode dp) in
  if negb (itype d =? T_DIR) then kpanic "dirlookup not DIR" else
  dirlookup_loop n dp name (entries (isize d)).

(** The first free entry of a directory, the end of it when there is none. *)
Fixpoint dirlink_scan n (dp : Z) (l : list Z) (last : Z) : M T Z :=
  match l with
  | [] => kret last
  | off :: l' =>
      let! r := readi n dp false de_at off DIRENT in
      if negb (r =? DIRENT) then kpanic "dirlink read" else
      let! m := get_mem in
      if de_inum m =? 0 then kret off else dirlink_scan n dp l' (off + DIRENT)
  end.

Definition dirlink n (dp name ino : Z) : M T Z :=
  let! o := dirlookup n dp name in
  match o with
  | Some (ip, _) => do! in_fs (iput n ip); kret (-1)
  | None =>
      let! d := in_fs (get_inode dp) in
      let! off := dirlink_scan n dp (entries (isize d)) 0 in
      do! set_mem (fun m => strncpy m de_name name DIRSIZ);
      do! set_mem (fun m => st16 m de_at (u16 ino));
      let! r := writei n dp false de_at off DIRENT in
      kret (if negb (r =? DIRENT) then -1 else 0)
  end.

(** ** Path names *)

(** The pointer past the bytes that satisfy [c]; a path in memory is at most [MAXPATH] bytes. *)
Fixpoint skip_while (fuel : nat) (c : Z -> bool) (m : mem) (p : Z) : Z :=
  match fuel with
  | O => p
  | S f => if c (u8 (m p)) then skip_while f c m (p + 1) else p
  end.

Definition slash : Z := 47.
Definition path_fuel : nat := Z.to_nat MAXPATH.

(** The memory with the element copied to [name], and the rest of the path,
    0 when there is no element. *)
Definition skipelem (m : mem) (path name : Z) : mem * option Z :=
  let p := skip_while path_fuel (fun c => c =? slash) m path in
  if u8 (m p) =? 0 then (m, None) else
  let e := skip_while path_fuel (fun c => negb (c =? slash) && negb (c =? 0)) m p in
  let len := e - p in
  let m' := if len >=? DIRSIZ then memmove m name p DIRSIZ
            else upd (memmove m name p len) (name + len) 0 in
  (m', Some (skip_while path_fuel (fun c => c =? slash) m' e)).

Fixpoint namex_loop (fuel : nat) n (ip : Z) (parent : bool) (path name : Z) : M T (option Z) :=
  match fuel with
  | O => khang
  | S f =>
      let! m := get_mem in
      let (m', r) := skipelem m path name in
      do! set_mem (fun _ => m');
      match r with
      | None => if parent then do! in_fs (iput n ip); kret None else kret (Some ip)
      | Some path' =>
          do! in_fs (ilock n ip);
          let! i := in_fs (get_inode ip) in
          if negb (itype i =? T_DIR) then do! in_fs (iunlockput n ip); kret None else
          let! m := get_mem in
          if parent && (u8 (m path') =? 0) then do! in_fs (iunlock n ip); kret (Some ip) else
          let! o := dirlookup n ip name in
          match o with
          | None => do! in_fs (iunlockput n ip); kret None
          | Some (next, _) => do! in_fs (iunlockput n ip); namex_loop f n next parent path' name
          end
      end
  end.

Definition namex n (cwd : Z) (path : Z) (parent : bool) (name : Z) : M T (option Z) :=
  let! m := get_mem in
  let! ip := in_fs (if u8 (m path) =? slash then iget ROOTDEV ROOTINO else idup cwd) in
  namex_loop (S path_fuel) n ip parent path name.

(** [name] is the array of [namei]. *)
Definition namei n (cwd path name : Z) : M T (option Z) := namex n cwd path false name.
Definition nameiparent n (cwd path name : Z) : M T (option Z) := namex n cwd path true name.
End content.
