(* ===== verification/FsLayer.v ===== *)
(** * What the file system needs of the layer below it

    [BlockLaws]: a process uses a few blocks at a time, changes a block
    only while it holds it, logs the change before it releases it, and then
    sees the contents it wrote.  The log and the buffer cache satisfy the
    laws inside a transaction, so what is proved of the file system from
    the laws holds over them; and whatever a routine of the file system
    changes between [begin_op] and [end_op] is atomic. *)

From S2P Require Import Prelude Memory Sleeplock Bio BioSpec Log LogSpec Fs.

(** [bl_state c H D k s]: blocks have contents [c], the process holds the
    blocks of [H] (with their buffers), block [D] is changed and not yet
    logged, and [k] more blocks may be logged. *)
Class BlockLaws (B : Type) `{BlockLayer B} (n dev : Z) := {
  bl_valid : Z -> Prop;
  bl_state : (Z -> mem) -> list (Z * Z) -> option Z -> nat -> B -> Prop;
  bl_ext c c' H D k s : (forall b, c' b = c b) -> bl_state c H D k s -> bl_state c' H D k s;
  bl_less c H D k s : bl_state c H D (S k) s -> bl_state c H D k s;
  law_data c H D k s b h : bl_state c H D k s -> (b, h) ∈ H -> bl_data s h = c b;
  law_read c H k s b :
    bl_state c H None k s -> bl_valid b -> b ∉ H.*1 -> (length H < 3)%nat ->
    wp (bl_read n dev b) (fun h s' => bl_state c ((b, h) :: H) None k s') s;
  law_set c H k s b h m :
    bl_state c H None k s -> (b, h) ∈ H ->
    wp (bl_set h m) (fun _ s' => bl_state (upd c b m) H (Some b) k s') s;
  law_log_write c H k s b h :
    bl_state c H (Some b) (S k) s -> (b, h) ∈ H ->
    wp (bl_log_write h) (fun _ s' => bl_state c H None k s') s;
  law_relse c H k s b h :
    bl_state c ((b, h) :: H) None k s ->
    wp (bl_relse n h) (fun _ s' => bl_state c H None k s') s
}.

(** Copies between kernel memory and a block, outside the memory the copies
    themselves use. *)
Class FsEnvOk (B T : Type) `{FsEnv B T} := {
  env_scratch : Z -> Prop;         (* memory the copies may use *)
  env_fs_put f (x : T) : env_fs (put_fs f x) = f;
  env_mem_put f (x : T) : env_mem (put_fs f x) = env_mem x;
  law_copyout dst d off len (x : T) :
    0 <= off -> 0 <= len -> off + len <= BSIZE -> (forall a, dst <= a < dst + len -> ~ env_scratch a) ->
    wp (env_copyout false dst d off len) (fun r x' => r = 0 /\ env_fs x' = env_fs x /\
      forall a, ~ env_scratch a ->
        env_mem x' a = if bool_decide (dst <= a < dst + len) then d (off + (a - dst)) else env_mem x a) x;
  law_copyin d off src len (x : T) :
    0 <= off -> 0 <= len -> off + len <= BSIZE -> (forall a, src <= a < src + len -> ~ env_scratch a) ->
    wp (env_copyin d off false src len) (fun r x' => fst r = 0 /\ env_fs x' = env_fs x /\
      (forall a, ~ env_scratch a -> env_mem x' a = env_mem x a) /\
      forall o, 0 <= o < BSIZE ->
        snd r o = if bool_decide (off <= o < off + len) then env_mem x (src + (o - off)) else d o) x
}.

(** ** The log and the buffer cache *)

#[export] Instance log_layer : BlockLayer log := {
  bl_read n dev b := in_cache (Bio.bread n dev b);
  bl_data s h := bdata (bufs (cache s) h);
  bl_set h m := in_cache (upd_buf h (set_bdata m));
  bl_log_write := Log.log_write;
  bl_relse n h := in_cache (Bio.brelse n h);
  bl_begin := begin_op;
  bl_end := end_op;
  bl_init := initlog
}.

Section log_laws.
Variables dev st n : Z.
Hypothesis Hdev : dev <> 0.
Hypothesis Hst : 0 <= st /\ st + LOGBLOCKS < 2 ^ 31.
(** The disk and its writes, the operations under way and whether a commit
    is: an operation that logs nothing needs no transaction. *)
Variables (d : Z -> mem) (w : list (Z * mem)) (o cm : Z).

Definition held (H : list (Z * Z)) (b : Z) : bool := bool_decide (b ∈ H.*1).

Record log_with (L : list Z) (c : Z -> mem) (H : list (Z * Z)) (D : option Z) (k : nat) (s : log) : Prop := {
  ls_logging : logging dev st L s;
  ls_out : outstanding s = o /\ committing s = cm /\ ((0 < k)%nat -> 1 <= o);
  ls_budget : (length L + k + 3 < Z.to_nat NBUF)%nat;
  ls_shows : shows dev c (fun b => pins L b + Z.b2z (held H b)) (held H) (cache s);
  ls_bufs : forall b h, (b, h) ∈ H -> has_buf dev n (cache s) b h;
  ls_nodup : NoDup H.*1;
  ls_home : forall b, b ∈ H.*1 -> home st b;
  ls_len : (length H <= 3)%nat;
  ls_disk : disk (cache s) = d;
  ls_writes : writes (cache s) = w;
  ls_clean : forall b, b ∉ L -> D <> Some b -> c b = d b
}.
Definition log_state c H D k s : Prop := exists L, log_with L c H D k s.

Lemma held_cons b h H x : held ((b, h) :: H) x = upd (held H) b true x.
Proof.
  unfold held, upd. simpl. destruct (Z.eqb_spec x b) as [->|Hx].
  - apply bool_decide_eq_true_2. by left.
  - apply bool_decide_ext. set_solver.
Qed.

Lemma held_in b h H : (b, h) ∈ H -> held H b = true.
Proof. intros Hb. apply bool_decide_eq_true_2, list_elem_of_fmap. by exists (b, h). Qed.

Lemma held_unique b h h' (H : list (Z * Z)) : NoDup H.*1 -> (b, h) ∈ H -> (b, h') ∈ H -> h = h'.
Proof.
  intros Hnd [i Hi]%list_elem_of_lookup [j Hj]%list_elem_of_lookup.
  assert (i = j) as ->; [|congruence]. eapply NoDup_lookup; [done|..]; rewrite list_lookup_fmap; [by rewrite Hi|by rewrite Hj].
Qed.

Lemma log_ext c c' H D k s : (forall b, c' b = c b) -> log_state c H D k s -> log_state c' H D k s.
Proof.
  intros E [L []]. exists L. split; try done; [by eapply shows_ext; [..|eassumption]|].
  intros b Hb HD. rewrite E. auto.
Qed.

Lemma log_less c H D k s : log_state c H D (S k) s -> log_state c H D k s.
Proof. intros [L []]. exists L. split; try done; [|lia]. split_and!; lia. Qed.

Lemma log_data c H D k s b h : log_state c H D k s -> (b, h) ∈ H -> bl_data s h = c b.
Proof. intros [L Hs] Hb. eapply (held_data dev n); [apply Hs|by apply (ls_bufs _ _ _ _ _ _ Hs)]. Qed.

Lemma log_read c H k s b :
  log_state c H None k s -> home st b -> b ∉ H.*1 -> (length H < 3)%nat ->
  wp (bl_read n dev b) (fun h s' => log_state c ((b, h) :: H) None k s') s.
Proof.
  intros [L Hs] Hb Hn Hlen. pose proof Hs as [HL Ho Hk Hsh Hbuf Hnd Hho Hl Hd Hw Hcl].
  assert (Hnb : held H b = false) by (by apply bool_decide_eq_false_2).
  pose proof (pins_range L b). apply wp_in_cache.
  eapply wp_mono; [apply (bread_shows dev Hdev n _ _ _ _ b (L ++ H.*1) Hsh)|].
  - done.
  - rewrite Hnb. simpl. lia.
  - right. split; [|rewrite length_app, length_fmap; lia]. intros x Hx. apply elem_of_app. unfold held in Hx.
    case_bool_decide; [by right|left]. apply pins_in. simpl in Hx. lia.
  - intros h k' (S' & B' & K' & D' & W'). exists L. split; simpl; try done; try congruence.
    + by apply logging_cache.
    + eapply shows_ext; [..|exact S']; intros x; [done|..]; [|apply held_cons].
      rewrite held_cons. unfold upd. destruct (Z.eqb_spec x b) as [->|]; [|done]. rewrite Hnb. simpl. lia.
    + intros x hx [E|Hx]%elem_of_cons; [by simplify_eq|]. apply K'; [|by apply Hbuf]. intros ->. apply Hn.
      apply list_elem_of_fmap. by exists (b, hx).
    + by apply NoDup_cons.
    + intros x [->|Hx]%elem_of_cons; auto.
Qed.

Lemma log_set c H k s b h m :
  log_state c H None k s -> (b, h) ∈ H ->
  wp (bl_set h m) (fun _ s' => log_state (upd c b m) H (Some b) k s') s.
Proof.
  intros [L Hs] Hb. pose proof Hs as [HL Ho Hk Hsh Hbuf Hnd Hho Hl Hd Hw Hcl].
  apply wp_in_cache. eapply wp_mono; [apply (set_data_shows dev n _ _ _ _ b h (fun _ => m) Hsh (Hbuf _ _ Hb))|].
  intros [] k' (S' & B' & K' & D' & W'). exists L. split; simpl; try done; try congruence.
  - by apply logging_cache.
  - intros x hx Hx. destruct (Z.eq_dec x b) as [->|Hxb]; [|by apply K', Hbuf].
    assert (hx = h) as -> by (eapply held_unique; eauto). done.
  - intros x Hx Hx'. rewrite upd_ne by congruence. by apply Hcl.
Qed.
Lemma log_log_write c H k s b h :
  log_state c H (Some b) (S k) s -> (b, h) ∈ H ->
  wp (bl_log_write h) (fun _ s' => log_state c H None k s') s.
Proof.
  intros [L Hs] Hb. pose proof Hs as [HL Ho Hk Hsh Hbuf Hnd Hho Hl Hd Hw Hcl].
  assert (Hadd : (length (add L b) <= length L + 1)%nat) by (unfold add; case_bool_decide; rewrite ?length_app; simpl; lia).
  replace s with (set_cache (cache s) s) at 1 by (by destruct s). cbn [bl_log_write log_layer].
  eapply wp_mono; [eapply (log_write_ok dev st n Hdev Hst c L s h b _ _ (cache s) HL)|].
  - destruct Ho as (-> & _ & Ho). apply Ho. lia.
  - apply Hho, list_elem_of_fmap. by exists (b, h).
  - lia.
  - exact Hsh.
  - by apply Hbuf.
  - cbv beta. by rewrite (held_in _ _ _ Hb).
  - intros [] s' (k' & cnt & blk & -> & HL' & S' & B' & D' & W' & K'). exists (add L b). split; simpl; try done; try congruence.
    + destruct Ho as (Ho1 & Ho2 & Ho3). split_and!; [done|done|]. intros _. apply Ho3. lia.
    + lia.
    + eapply shows_ext; [..|exact S']; [done| |done]. intros x. rewrite !pins_add. unfold upd.
      destruct (Z.eqb_spec x b) as [->|]; [|done]. by rewrite ?Z.eqb_refl, (held_in _ _ _ Hb).
    + intros x hx Hx. destruct (Z.eq_dec x b) as [->|Hxb]; [|by apply K', Hbuf].
      assert (hx = h) as -> by (eapply held_unique; eauto). done.
    + intros x Hx _. destruct (decide (x ∈ L)) as [Hin|Hn].
      { destruct Hx. unfold add. case_bool_decide; set_solver. }
      apply Hcl; [done|]. intros [= ->]. destruct Hx. unfold add. case_bool_decide; set_solver.
Qed.

Lemma log_relse c H k s b h :
  log_state c ((b, h) :: H) None k s ->
  wp (bl_relse n h) (fun _ s' => log_state c H None k s') s.
Proof.
  intros [L Hs]. pose proof Hs as [HL Ho Hk Hsh Hbuf Hnd Hho Hl Hd Hw Hcl].
  simpl in Hnd, Hl. apply NoDup_cons in Hnd as [Hn Hnd]. pose proof (pins_range L b).
  assert (Hb : held ((b, h) :: H) b = true) by (eapply held_in; by left).
  assert (Hnb : held H b = false) by (by apply bool_decide_eq_false_2).
  apply wp_in_cache. eapply wp_mono; [apply (brelse_shows dev Hdev n _ _ _ _ b h Hsh)|].
  - apply Hbuf. by left.
  - rewrite Hb. simpl. lia.
  - rewrite Hb. simpl. intros E. rewrite Hd. apply Hcl; [|done]. intros Hin. unfold pins in E.
    rewrite bool_decide_eq_true_2 in E by done. lia.
  - intros [] k' (S' & K' & D' & W'). exists L. split; simpl; try done; try congruence.
    + by apply logging_cache.
    + eapply shows_ext; [..|exact S']; intros x; [done|..]; unfold upd.
      * destruct (Z.eqb_spec x b) as [->|Hx]; [rewrite Hb, Hnb; simpl; lia|].
        rewrite held_cons, upd_ne by done. done.
      * destruct (Z.eqb_spec x b) as [->|Hx]; [done|]. by rewrite held_cons, upd_ne.
    + intros x hx Hx. apply K'; [|apply Hbuf; by right]. intros ->. apply Hn, list_elem_of_fmap. by exists (b, hx).
    + intros x Hx. apply Hho. by right.
    + lia.
Qed.

Definition log_laws : BlockLaws log n dev := {|
  bl_valid := home st; bl_state := log_state; bl_ext := log_ext; bl_less := log_less; law_data := log_data; law_read := log_read;
  law_set := log_set; law_log_write := log_log_write; law_relse := log_relse |}.
End log_laws.

(** Blocks a routine may log: what remains of the buffers when it holds
    three more. *)
Definition op_budget : nat := Z.to_nat NBUF - 4.

(** [begin_op(); op; end_op()]; the sleep of a [begin_op] that does not fit
    is [Hang]. *)
Definition in_transaction {B T A} `{BlockLayer B} `{FsEnv B T} (n : Z) (op : M T A) : M T A :=
  let! ok := in_fs (in_blocks bl_begin) in
  if ok then let! a := op in do! in_fs (in_blocks (bl_end n)); kret a else khang.

Definition set_blocks {B} (b : B) (s : fs B) : fs B := Fs b (sb s) (itable s).

Lemma wp_in_blocks {B A} `{BlockLayer B} (p : M B A) Q (s : fs B) :
  wp p (fun a b => Q a (set_blocks b s)) (blocks s) -> wp (in_blocks p) Q s.
Proof. unfold wp, in_blocks. by destruct (p (blocks s)). Qed.

Lemma wp_in_fs {B T A} `{FsEnv B T} (p : M (fs B) A) Q (x : T) :
  wp p (fun a f => Q a (put_fs f x)) (env_fs x) -> wp (in_fs p) Q x.
Proof. unfold wp, in_fs. by destruct (p (env_fs x)). Qed.

Section op.
Context {T A : Type} `{HE : FsEnv log T} `{HO : !FsEnvOk log T}.
Variables dev st n : Z.
Hypothesis Hdev : dev <> 0.
Hypothesis Hst : 0 <= st /\ st + LOGBLOCKS < 2 ^ 31.

Definition the_log (x : T) : log := blocks (env_fs x).

(** The log while a single operation runs: [log_state] over the disk [x]
    started from. *)
Definition running (x : T) c k (x1 : T) : Prop :=
  log_state dev st n (disk (cache (the_log x))) (writes (cache (the_log x))) 1 0 c [] None k (the_log x1).

(** A routine proved against the laws of the block layer to take contents
    [c] to contents related by [R] to its result, run as a transaction on an
    idle log, is atomic. *)
Lemma op_atomic (op : M T A) (c : Z -> mem) (R : A -> (Z -> mem) -> T -> Prop) (x : T) :
  idle dev st c (the_log x) ->
  (forall x1, sb (env_fs x1) = sb (env_fs x) -> itable (env_fs x1) = itable (env_fs x) -> env_mem x1 = env_mem x ->
     running x c op_budget x1 ->
     wp op (fun a x2 => exists c' k, (forall f, R a c' (put_fs (set_blocks f (env_fs x2)) x2)) /\ running x c' k x2) x1) ->
  wp (in_transaction n op) (fun a x' => exists c' c2 ws,
    R a c' x' /\ idle dev st c2 (the_log x') /\ (forall b, home st b -> same_block (c2 b) (c' b)) /\
    writes (cache (the_log x')) = reverse ws ++ writes (cache (the_log x)) /\
    atomic dev st n (disk (cache (the_log x))) ws (disk (cache (the_log x))) c') x.
Proof.
  intros Hid Hop. unfold running in Hop. set (s := the_log x) in *. pose proof Hid as [HL Hs Hh Ho Hc].
  set (d := disk (cache s)) in *. set (w := writes (cache s)) in *.
  unfold in_transaction. apply wp_bind, wp_in_fs, wp_in_blocks. cbn [bl_begin log_layer].
  unfold begin_op. apply wp_bind, wp_get, wp_bind, wp_get, wp_bind, wp_get. fold (the_log x). fold s.
  rewrite Hc, Ho, (lg_n _ _ _ _ HL). apply wp_bind, wp_upd, wp_ret. fold (the_log x). fold s. set (s1 := set_outstanding _ s).
  assert (H1 : log_state dev st n d w 1 0 c [] None op_budget s1).
  { exists []. split; try done.
    - by destruct HL.
    - vm_compute. lia.
    - by intros b h ?%elem_of_nil.
    - apply NoDup_nil_2.
    - by intros b ?%elem_of_nil.
    - simpl. lia.
    - intros b _ _. symmetry. by apply (idle_disk dev st). }
  apply wp_bind. eapply wp_mono; [apply Hop|].
  1-3: rewrite ?env_fs_put, ?env_mem_put; done.
  { unfold the_log. by rewrite env_fs_put. }
  intros a x2 (c' & k & HR & L & [HL2 (Ho2 & Hc2 & _) Hk2 Hs2 _ _ _ _ Hd2 Hw2 Hcl2]).
  apply wp_bind, wp_in_fs, wp_in_blocks. cbn [bl_end log_layer].
  eapply wp_mono; [eapply (end_op_last dev st n Hdev Hst d w c' L (the_log x2))|].
  - split; try done. eapply shows_ext; [..|exact Hs2]; try done. intros b. simpl. lia.
  - unfold header, d. by rewrite (idle_disk dev st c s st Hid).
  - intros [] s3 (c2 & ws & Hi & Hb & Hw & Ha). apply wp_ret. exists c', c2, ws.
    assert (E3 : the_log (put_fs (set_blocks s3 (env_fs x2)) x2) = s3) by (unfold the_log; by rewrite env_fs_put).
    rewrite E3. split_and!; try done.
Qed.
End op.

(** ** The file system with a memory *)

(** A state that is a file system and a memory; user copies fail. *)
#[export] Instance plain_env (B : Type) : FsEnv B (fs B * mem) := {
  env_fs x := x.1;
  put_fs f x := (f, x.2);
  env_mem x := x.2;
  put_mem m x := (x.1, m);
  env_copyout user dst d off len := fun x =>
    if user then Ret (-1) x
    else Ret 0 (x.1, fun a => if bool_decide (dst <= a < dst + len) then d (off + (a - dst)) else x.2 a);
  env_copyin d off user src len := fun x =>
    if user then Ret (-1, d) x
    else Ret (0, fun o => if bool_decide (off <= o < off + len) then x.2 (src + (o - off)) else d o) x
}.

#[export] Instance plain_env_ok (B : Type) : FsEnvOk B (fs B * mem).
Proof. by apply (Build_FsEnvOk B (fs B * mem) _ (fun _ => False)). Defined.

(** Blocks in memory: a buffer is the block itself and logging does
    nothing. *)
#[export] Instance ram_layer : BlockLayer (Z -> mem) := {
  bl_read n dev b := kret b;
  bl_data s h := s h;
  bl_set h m := kupd (fun s => upd s h m);
  bl_log_write h := kret tt;
  bl_relse n h := kret tt;
  bl_begin := kret true;
  bl_end n := kret tt;
  bl_init n dev st := kret tt
}.

#[export] Instance ram_laws n dev : BlockLaws (Z -> mem) n dev.
Proof.
  apply (Build_BlockLaws (Z -> mem) _ n dev (fun _ => True)
           (fun c H D k s => (forall b, s b = c b) /\ forall b h, (b, h) ∈ H -> h = b)).
  - intros c c' H D k s E [H1 H2]. split; [|done]. intros b. by rewrite H1, E.
  - done.
  - intros c H D k s b h [H1 H2] Hb. rewrite (H2 _ _ Hb). apply H1.
  - intros c H k s b [H1 H2] _ _ _. apply wp_ret. split; [done|].
    intros x h [E|Hx]%elem_of_cons; [by simplify_eq|by apply H2].
  - intros c H k s b h m [H1 H2] Hb. apply wp_upd. rewrite (H2 _ _ Hb). split; [|done].
    intros x. unfold upd. destruct (Z.eqb_spec x b); [done|apply H1].
  - done.
  - intros c H k s b h [H1 H2]. apply wp_ret. split; [done|]. intros x h' Hx. apply H2. by right.
Defined.
