(* ===== verification/FsSpec.v ===== *)
(** * The file system, against the laws of the block layer

    The free map, inodes on disk and in memory, and the contents of files:
    what each routine of Fs.v does to the blocks [c] that the layer below
    shows, for every layer that satisfies [BlockLaws]. *)

From S2P Require Import Prelude Memory StringC Sleeplock Fs FsLayer.

(** ** The bits of the free map *)

Definition bit (m : mem) (i : Z) : bool := Z.testbit (u8 (m (i / 8))) (i mod 8).

Lemma land_bit x j : 0 <= j -> (Z.land x (Z.shiftl 1 j) =? 0) = negb (Z.testbit x j).
Proof.
  intros Hj. destruct (Z.testbit x j) eqn:E; simpl.
  - apply Z.eqb_neq. intros Hz. assert (Ht : Z.testbit (Z.land x (Z.shiftl 1 j)) j = true).
    { rewrite Z.land_spec, E, Z.shiftl_spec, Z.sub_diag by lia. done. }
    by rewrite Hz, Z.testbit_0_l in Ht.
  - apply Z.eqb_eq, Z.bits_inj'. intros k Hk. rewrite Z.land_spec, Z.shiftl_spec, Z.testbit_0_l by lia.
    destruct (Z.eq_dec k j) as [->|Hkj]; [by rewrite E|].
    rewrite andb_false_iff. right. destruct (Z_lt_le_dec k j); [apply Z.testbit_neg_r; lia|].
    apply (Z.bits_above_log2 1); simpl; lia.
Qed.

Lemma testbit_one j k : 0 <= j -> 0 <= k -> Z.testbit (Z.shiftl 1 j) k = (k =? j).
Proof.
  intros Hj Hk. rewrite Z.shiftl_spec by lia. destruct (Z.eqb_spec k j) as [->|Hkj]; [by rewrite Z.sub_diag|].
  destruct (Z_lt_le_dec k j); [apply Z.testbit_neg_r; lia|]. apply (Z.bits_above_log2 1); simpl; lia.
Qed.

Lemma u8_testbit x j : 0 <= j < 8 -> Z.testbit (u8 x) j = Z.testbit x j.
Proof. intros Hj. unfold u8. by rewrite Z.mod_pow2_bits_low by lia. Qed.

Lemma upd_bit m i v j :
  0 <= i -> 0 <= j -> bit (upd m (i / 8) (u8 v)) j = if j / 8 =? i / 8 then Z.testbit v (j mod 8) else bit m j.
Proof.
  intros Hi Hj. unfold bit, upd. pose proof (Z.mod_pos_bound j 8 ltac:(lia)).
  destruct (j / 8 =? i / 8); [|done]. rewrite !u8_testbit by lia. done.
Qed.

Lemma same_bit i j : 0 <= i -> 0 <= j -> j / 8 = i / 8 -> (j mod 8 =? i mod 8) = (j =? i).
Proof.
  intros Hi Hj E. pose proof (Z.div_mod i 8 ltac:(lia)). pose proof (Z.div_mod j 8 ltac:(lia)).
  destruct (Z.eqb_spec (j mod 8) (i mod 8)), (Z.eqb_spec j i); try done; lia.
Qed.

Lemma mark_bit_spec m i j : 0 <= i -> 0 <= j -> bit (mark_bit m i) j = (j =? i) || bit m j.
Proof.
  intros Hi Hj. unfold mark_bit. rewrite upd_bit by done.
  pose proof (Z.mod_pos_bound j 8 ltac:(lia)). pose proof (Z.mod_pos_bound i 8 ltac:(lia)).
  destruct (Z.eqb_spec (j / 8) (i / 8)) as [E|E].
  - rewrite Z.lor_spec, testbit_one, (same_bit i j), orb_comm by lia. unfold bit. by rewrite E.
  - destruct (Z.eqb_spec j i) as [->|]; [done|]. done.
Qed.

Lemma clear_bit_spec m i j : 0 <= i -> 0 <= j -> bit (clear_bit m i) j = negb (j =? i) && bit m j.
Proof.
  intros Hi Hj. unfold clear_bit. rewrite upd_bit by done.
  pose proof (Z.mod_pos_bound j 8 ltac:(lia)). pose proof (Z.mod_pos_bound i 8 ltac:(lia)).
  destruct (Z.eqb_spec (j / 8) (i / 8)) as [E|E].
  - rewrite Z.land_spec, Z.lnot_spec, testbit_one, (same_bit i j), andb_comm by lia. unfold bit. by rewrite E.
  - destruct (Z.eqb_spec j i) as [->|]; [done|]. done.
Qed.

Lemma find_bit_spec k m i :
  0 <= i ->
  match find_bit k m i with
  | Some r => i <= r < i + Z.of_nat k /\ bit m r = false /\ forall j, i <= j < r -> bit m j = true
  | None => forall j, i <= j < i + Z.of_nat k -> bit m j = true
  end.
Proof.
  revert i. induction k as [|k IH]; intros i Hi; cbn [find_bit]; [lia|].
  rewrite land_bit by (apply Z.mod_pos_bound; lia). fold (bit m i). destruct (bit m i) eqn:E; simpl.
  - specialize (IH (i + 1) ltac:(lia)). destruct (find_bit k m (i + 1)) as [r|].
    + destruct IH as (H1 & H2 & H3). split_and!; [lia|lia|done|]. intros j Hj.
      destruct (Z.eq_dec j i) as [->|]; [done|]. apply H3. lia.
    + intros j Hj. destruct (Z.eq_dec j i) as [->|]; [done|]. apply IH. lia.
  - split_and!; [lia|lia|done|]. intros j Hj. lia.
Qed.

(** ** Blocks of the disk *)

Section spec.
Context {B : Type} `{HB : BlockLayer B} {n dev : Z} `{HL : !BlockLaws B n dev}.
Implicit Types (s : fs B) (c : Z -> mem) (H : list (Z * Z)).

Lemma wp_bread c H k s b Q :
  bl_state c H None k (blocks s) -> bl_valid b -> 0 <= b < 2 ^ 32 -> b ∉ H.*1 -> (length H < 3)%nat ->
  (forall h x, bl_state c ((b, h) :: H) None k x -> Q h (set_blocks x s)) ->
  wp (bread n dev b) Q s.
Proof.
  intros Hs Hv Hr Hn Hl HQ. apply wp_in_blocks. rewrite u32_small by done.
  eapply wp_mono; [by apply (law_read c H k)|]. intros h x Hx. by apply HQ.
Qed.

Lemma wp_get_data c H D k s b h Q :
  bl_state c H D k (blocks s) -> (b, h) ∈ H -> Q (c b) s -> wp (get_data h) Q s.
Proof.
  intros Hs Hb HQ. apply wp_in_blocks, wp_get. rewrite (law_data c H D k _ b h Hs Hb). by destruct s.
Qed.

(** A change of a held block, with its [log_write]. *)
Lemma wp_set_log {A} c H k s b h m (K : M (fs B) A) Q :
  bl_state c H None (S k) (blocks s) -> (b, h) ∈ H ->
  (forall x, bl_state (upd c b m) H None k x -> wp K Q (set_blocks x s)) ->
  wp (do! set_data h m; do! log_write h; K) Q s.
Proof.
  intros Hs Hb HQ. apply wp_bind, wp_in_blocks. eapply wp_mono; [by apply (law_set c H (S k) _ b)|].
  intros [] x1 Hx1. apply wp_bind, wp_in_blocks. eapply wp_mono; [by apply (law_log_write (upd c b m) H k _ b)|].
  intros [] x2 Hx2. by apply HQ.
Qed.

Lemma wp_brelse c H k s b h Q :
  bl_state c ((b, h) :: H) None k (blocks s) ->
  (forall x, bl_state c H None k x -> Q tt (set_blocks x s)) -> wp (brelse n h) Q s.
Proof.
  intros Hs HQ. apply wp_in_blocks. eapply wp_mono; [by apply (law_relse c H k _ b)|]. intros [] x Hx. by apply HQ.
Qed.

(** [s'] is [s] with other blocks. *)
Definition same_tables s s' : Prop := sb s' = sb s /\ itable s' = itable s.

Lemma same_tables_blocks x s : same_tables s (set_blocks x s).
Proof. done. Qed.

Lemma bzero_ok c H k s b :
  bl_state c H None (S k) (blocks s) -> bl_valid b -> 0 <= b < 2 ^ 32 -> b ∉ H.*1 -> (length H < 3)%nat ->
  wp (bzero n dev b) (fun _ s' => same_tables s s' /\
    bl_state (upd c b (memset (c b) 0 0 BSIZE)) H None k (blocks s')) s.
Proof.
  intros Hs Hv Hr Hn Hl. unfold bzero. apply wp_bind, (wp_bread c H (S k)); [done..|]. intros h x1 H1.
  apply wp_bind, (wp_get_data c ((b, h) :: H) None (S k) _ b); [done|by left|].
  apply (wp_set_log c ((b, h) :: H) k _ b); [done|by left|]. intros x2 H2.
  eapply wp_brelse; [exact H2|]. intros x3 H3. done.
Qed.

(** ** The layout of the disk *)
Variable t : superblock.

(** The first data block. *)
Definition dstart : Z := bmapstart t + (fssize t - 1) / BPB + 1.

Record layout : Prop := {
  ly_size : 0 < fssize t < 2 ^ 31;
  ly_inodes : 0 < inodestart t /\ 0 < ninodes t /\ inodestart t + (ninodes t - 1) / IPB < bmapstart t;
  ly_data : dstart <= fssize t;
  ly_valid : forall b, inodestart t <= b < fssize t -> bl_valid b
}.

Hypothesis Hlay : layout.

Lemma meta_range : 0 < inodestart t < bmapstart t /\ bmapstart t < dstart <= fssize t.
Proof.
  destruct Hlay as [H1 (H2 & H3 & H4) H5 _]. unfold dstart in *.
  assert (0 <= (ninodes t - 1) / IPB) by (apply Z.div_pos; [lia|done]).
  assert (0 <= (fssize t - 1) / BPB) by (apply Z.div_pos; [lia|done]). lia.
Qed.

Lemma BBLOCK_range b : 0 <= b < fssize t -> bmapstart t <= BBLOCK b t < dstart /\ BBLOCK b t = b / BPB + bmapstart t.
Proof.
  intros Hb. destruct Hlay as [H1 [H2 [H3 H4]] H5 _]. unfold dstart in *.
  assert (0 <= b / BPB <= (fssize t - 1) / BPB) by (split; [apply Z.div_pos; unfold BPB, BSIZE; lia|apply Z.div_le_mono; unfold BPB, BSIZE; lia]).
  assert (0 <= (ninodes t - 1) / IPB) by (apply Z.div_pos; [lia|done]).
  unfold BBLOCK. rewrite u32_small by lia. lia.
Qed.

(** Block [b] is marked in use. *)
Definition used c (b : Z) : bool := bit (c (BBLOCK b t)) (b mod BPB).

Lemma used_ext c c' b : c' (BBLOCK b t) = c (BBLOCK b t) -> used c' b = used c b.
Proof. unfold used. by intros ->. Qed.

Lemma same_map b r : 0 <= b < fssize t -> 0 <= r < fssize t -> BBLOCK b t = BBLOCK r t -> (b mod BPB =? r mod BPB) = (b =? r).
Proof.
  intros Hb Hr E. destruct (BBLOCK_range b Hb) as [_ E1], (BBLOCK_range r Hr) as [_ E2].
  assert (E3 : b / BPB = r / BPB) by lia. pose proof (Z.div_mod b BPB ltac:(done)). pose proof (Z.div_mod r BPB ltac:(done)).
  destruct (Z.eqb_spec (b mod BPB) (r mod BPB)), (Z.eqb_spec b r); try done; congruence || lia.
Qed.

Lemma BPB_mod b : 0 <= b mod BPB < BPB.
Proof. apply Z.mod_pos_bound. done. Qed.

(** The map with the bit of [r] set or clear. *)
Definition set_used c (r : Z) : Z -> mem := upd c (BBLOCK r t) (mark_bit (c (BBLOCK r t)) (r mod BPB)).
Definition clear_used c (r : Z) : Z -> mem := upd c (BBLOCK r t) (clear_bit (c (BBLOCK r t)) (r mod BPB)).

Lemma set_used_spec c r b :
  0 <= r < fssize t -> 0 <= b < fssize t -> used (set_used c r) b = (b =? r) || used c b.
Proof.
  intros Hr Hb. unfold used, set_used, upd. destruct (Z.eqb_spec (BBLOCK b t) (BBLOCK r t)) as [E|E].
  - rewrite mark_bit_spec by apply BPB_mod. rewrite same_map by done. by rewrite E.
  - destruct (Z.eqb_spec b r) as [->|]; done.
Qed.

Lemma clear_used_spec c r b :
  0 <= r < fssize t -> 0 <= b < fssize t -> used (clear_used c r) b = negb (b =? r) && used c b.
Proof.
  intros Hr Hb. unfold used, clear_used, upd. destruct (Z.eqb_spec (BBLOCK b t) (BBLOCK r t)) as [E|E].
  - rewrite clear_bit_spec by apply BPB_mod. rewrite same_map by done. by rewrite E.
  - destruct (Z.eqb_spec b r) as [->|]; done.
Qed.

(** The blocks before the data are in use. *)
Definition meta_used c : Prop := forall b, 0 <= b < dstart -> used c b = true.

(** What [balloc] does with the first free block [r]. *)
Definition fresh c (r : Z) : Z -> mem := upd (set_used c r) r (memset (c r) 0 0 BSIZE).
Definition first_free c (r : Z) : Prop :=
  dstart <= r < fssize t /\ used c r = false /\ forall b, 0 <= b < r -> used c b = true.

(** Blocks the process holds that [balloc] and [bfree] do not touch. *)
Definition data_held c H : Prop := forall b, b ∈ H.*1 -> dstart <= b < fssize t /\ used c b = true.

Lemma map_block i bi :
  0 <= i -> 0 <= bi < BPB -> i * BPB + bi < fssize t ->
  BBLOCK (i * BPB + bi) t = BBLOCK (i * BPB) t /\ (i * BPB + bi) mod BPB = bi.
Proof.
  intros Hi Hbi Hlt. unfold BBLOCK.
  rewrite Z.div_add_l, Z.div_mul, (Z.div_small bi), Z.add_0_r by (done || lia). split; [done|].
  rewrite Z.add_comm, Z_mod_plus_full. by apply Z.mod_small.
Qed.

Lemma meta_valid b : bmapstart t <= b < fssize t -> bl_valid b.
Proof.
  intros Hb. apply (ly_valid Hlay). destruct (ly_inodes Hlay) as (H1 & H2 & H3).
  assert (0 <= (ninodes t - 1) / IPB) by (apply Z.div_pos; [lia|done]). lia.
Qed.

Lemma BBLOCK_facts c H b :
  data_held c H -> 0 <= b < fssize t ->
  bl_valid (BBLOCK b t) /\ 0 <= BBLOCK b t < 2 ^ 32 /\ (BBLOCK b t ∉ H.*1) /\ BBLOCK b t < dstart.
Proof.
  intros Hh Hb. destruct (BBLOCK_range b Hb) as [Hr _]. destruct Hlay as [H1 (H2 & H3 & H4) H5 _].
  assert (0 <= (ninodes t - 1) / IPB) by (apply Z.div_pos; [lia|done]).
  split_and!; [apply meta_valid; lia|lia|lia| |lia]. intros Hin. destruct (Hh _ Hin). lia.
Qed.

Lemma balloc_loop_ok c H k N r s :
  bl_state c H None (S (S k)) (blocks s) -> sb s = t -> meta_used c -> data_held c H -> (length H < 3)%nat ->
  N = (fssize t + BPB - 1) / BPB -> 0 <= r <= N -> (forall b, 0 <= b < (N - r) * BPB -> b < fssize t -> used c b = true) ->
  wp (balloc_loop n dev ((fun i => i * BPB) <$> seqZ (N - r) r)) (fun a s' => same_tables s s' /\
    ((a = 0 /\ bl_state c H None (S (S k)) (blocks s') /\ forall b, 0 <= b < fssize t -> used c b = true) \/
     (first_free c a /\ bl_state (fresh c a) H None k (blocks s')))) s.
Proof.
  intros Hs Et Hm Hh Hl HeqN Hr. assert (Hsize : fssize t <= N * BPB).
  { subst N. pose proof (Z.div_mod (fssize t + BPB - 1) BPB ltac:(done)). pose proof (BPB_mod (fssize t + BPB - 1)). lia. }
  assert (HN : (N - 1) * BPB < fssize t).
  { subst N. pose proof (Z.div_mod (fssize t + BPB - 1) BPB ltac:(done)). pose proof (BPB_mod (fssize t + BPB - 1)). lia. }
  clear HeqN. revert s Hs Et. replace r with (Z.of_nat (Z.to_nat r)) by lia. set (r' := Z.to_nat r).
  assert (Hr' : Z.of_nat r' <= N) by lia. clearbody r'. clear r Hr. revert Hr'.
  induction r' as [|r IH]; intros Hr s Hs Et Hbelow.
  { apply wp_ret. split; [done|]. left. split_and!; [done|done|].
    intros b Hb. apply Hbelow; lia. }
  set (i := N - Z.of_nat (S r)) in *. rewrite seqZ_cons by lia. cbn [fmap list_fmap balloc_loop].
  assert (Hi : 0 <= i) by lia. assert (HiB : 0 <= i * BPB < fssize t) by (unfold BPB, BSIZE in *; lia).
  apply wp_bind, wp_get. rewrite Et. destruct (BBLOCK_facts c H (i * BPB) Hh HiB) as (Hv & Hbr & Hn & _).
  apply wp_bind, (wp_bread c H (S (S k))); [done..|]. intros h x1 H1.
  apply wp_bind, (wp_get_data c ((BBLOCK (i * BPB) t, h) :: H) None (S (S k)) _ (BBLOCK (i * BPB) t)); [done|by left|].
  pose proof (find_bit_spec (Z.to_nat (Z.min BPB (fssize t - i * BPB))) (c (BBLOCK (i * BPB) t)) 0 ltac:(lia)) as Hf.
  assert (Hbits : forall bi, 0 <= bi < Z.of_nat (Z.to_nat (Z.min BPB (fssize t - i * BPB))) ->
    used c (i * BPB + bi) = bit (c (BBLOCK (i * BPB) t)) bi).
  { intros bi Hbi. destruct (map_block i bi) as [E1 E2]; [lia|lia|lia|]. unfold used. by rewrite E1, E2. }
  destruct (find_bit _ _ 0) as [bi|].
  - destruct Hf as (Hbi & Hfree & Hset). destruct (map_block i bi) as [E1 E2]; [lia|lia|lia|].
    set (a := i * BPB + bi) in *. assert (Ha : 0 <= a < fssize t) by lia.
    assert (Hff : first_free c a).
    { assert (Hua : used c a = false) by (unfold a; rewrite Hbits by lia; done). split_and!; [|lia|done|].
      - destruct (Z_lt_le_dec a dstart); [|done]. rewrite Hm in Hua by lia. done.
      - intros b Hb. destruct (Z_lt_le_dec b (i * BPB)); [apply Hbelow; lia|].
        replace b with (i * BPB + (b - i * BPB)) by lia. rewrite Hbits by lia. apply Hset. lia. }
    apply (wp_set_log c ((BBLOCK (i * BPB) t, h) :: H) (S k) _ (BBLOCK (i * BPB) t)); [done|by left|]. intros x2 H2.
    apply wp_bind. eapply wp_brelse; [exact H2|]. intros x3 H3.
    assert (Hc3 : upd c (BBLOCK (i * BPB) t) (mark_bit (c (BBLOCK (i * BPB) t)) bi) = set_used c a) by (unfold set_used; by rewrite E1, E2).
    rewrite Hc3 in H3. destruct Hff as (Hda & Hua & Hlow). destruct (BBLOCK_facts c H a Hh Ha) as (_ & _ & _ & Hba).
    apply wp_bind. eapply wp_mono; [apply (bzero_ok (set_used c a) H k)|].
    + exact H3.
    + apply meta_valid. destruct (BBLOCK_range a Ha). lia.
    + destruct (ly_size Hlay). lia.
    + intros Hin. destruct (Hh _ Hin) as [_ Hu]. congruence.
    + done.
    + intros [] s4 [Hst H4]. apply wp_ret. split; [done|]. right. split; [done|].
      unfold fresh. unfold set_used in H4 at 2. rewrite upd_ne in H4 by lia. done.
  - apply wp_bind. eapply wp_brelse; [exact H1|]. intros x2 H2.
    replace (Z.succ i) with (N - Z.of_nat r) by lia. replace (Z.pred (Z.of_nat (S r))) with (Z.of_nat r) by lia.
    eapply wp_mono; [apply (IH ltac:(lia) (set_blocks x2 s) H2 Et)|].
    + intros b Hb Hlt. destruct (Z_lt_le_dec b (i * BPB)); [apply Hbelow; lia|].
      replace b with (i * BPB + (b - i * BPB)) by lia. rewrite Hbits; [apply Hf|]; unfold BPB, BSIZE in *; lia.
    + intros a s' [Hst Hp]. split; [done|exact Hp].
Qed.

Lemma balloc_ok c H k s :
  bl_state c H None (S (S k)) (blocks s) -> sb s = t -> meta_used c -> data_held c H -> (length H < 3)%nat ->
  wp (balloc n dev) (fun a s' => same_tables s s' /\
    ((a = 0 /\ bl_state c H None (S (S k)) (blocks s') /\ forall b, 0 <= b < fssize t -> used c b = true) \/
     (first_free c a /\ bl_state (fresh c a) H None k (blocks s')))) s.
Proof.
  intros Hs Et Hm Hh Hl. unfold balloc. apply wp_bind, wp_get. rewrite Et. unfold map_blocks.
  pose proof (balloc_loop_ok c H k _ ((fssize t + BPB - 1) / BPB) s Hs Et Hm Hh Hl eq_refl) as Hb.
  rewrite Z.sub_diag in Hb. apply Hb; [|lia]. split; [apply Z.div_pos; [destruct (ly_size Hlay); unfold BPB, BSIZE; lia|done]|lia].
Qed.

Lemma bfree_ok c H k s b :
  bl_state c H None (S k) (blocks s) -> sb s = t -> data_held c H -> (length H < 3)%nat ->
  0 <= b < fssize t -> used c b = true ->
  wp (bfree n dev b) (fun _ s' => same_tables s s' /\ bl_state (clear_used c b) H None k (blocks s')) s.
Proof.
  intros Hs Et Hh Hl Hb Hu. unfold bfree. apply wp_bind, wp_get. rewrite Et.
  destruct (BBLOCK_facts c H b Hh Hb) as (Hv & Hbr & Hn & _).
  apply wp_bind, (wp_bread c H (S k)); [done..|]. intros h x1 H1.
  apply wp_bind, (wp_get_data c ((BBLOCK b t, h) :: H) None (S k) _ (BBLOCK b t)); [done|by left|].
  rewrite land_bit by (apply Z.mod_pos_bound; lia). fold (bit (c (BBLOCK b t)) (b mod BPB)). fold (used c b).
  rewrite Hu. cbn [negb]. apply (wp_set_log c ((BBLOCK b t, h) :: H) k _ (BBLOCK b t)); [done|by left|]. intros x2 H2.
  eapply wp_brelse; [exact H2|]. intros x3 H3. done.
Qed.

Lemma fresh_other c r x :
  0 <= r < fssize t -> x <> r -> x < bmapstart t \/ dstart <= x -> fresh c r x = c x.
Proof.
  intros Hr Hx Hd. destruct (BBLOCK_range r Hr). unfold fresh, set_used. rewrite !upd_ne by lia. done.
Qed.

Lemma fresh_zero c r o : 0 <= o < BSIZE -> fresh c r r o = 0.
Proof.
  intros Ho. unfold fresh. rewrite upd_eq. replace o with (0 + o) by lia. rewrite memset_in by lia. done.
Qed.

Lemma used_data c (m : mem) b x :
  0 <= b < fssize t -> dstart <= x -> used (upd c x m) b = used c b.
Proof. intros Hb Hx. apply used_ext. destruct (BBLOCK_range b Hb). rewrite upd_ne by lia. done. Qed.

Lemma fresh_used c r b :
  dstart <= r < fssize t -> 0 <= b < fssize t -> used (fresh c r) b = (b =? r) || used c b.
Proof.
  intros Hr Hb. unfold fresh. rewrite used_data by lia. apply set_used_spec; [|done].
  pose proof meta_range. lia.
Qed.

(** ** The blocks and the bytes of a file *)

(** The disk block of block [bn] of the file, 0 for a hole. *)
Definition fblock c (i : inode) (bn : Z) : Z :=
  if bn <? NDIRECT then iaddrs i bn
  else if iaddrs i NDIRECT =? 0 then 0 else entry (c (iaddrs i NDIRECT)) (bn - NDIRECT).

(** Byte [o] of the file. *)
Definition fbyte c (i : inode) (o : Z) : Z :=
  let b := fblock c i (o / BSIZE) in if b =? 0 then 0 else c b (o mod BSIZE).

Definition data_block c (b : Z) : Prop := dstart <= b < fssize t /\ used c b = true.

Record inode_ok c (i : inode) : Prop := {
  io_block : forall bn, 0 <= bn < MAXFILE -> fblock c i bn <> 0 -> data_block c (fblock c i bn);
  io_ind : iaddrs i NDIRECT <> 0 -> data_block c (iaddrs i NDIRECT);
  io_inj : forall bn bn', 0 <= bn < MAXFILE -> 0 <= bn' < MAXFILE ->
             fblock c i bn <> 0 -> fblock c i bn = fblock c i bn' -> bn = bn';
  io_not_ind : forall bn, 0 <= bn < MAXFILE -> fblock c i bn <> 0 -> fblock c i bn <> iaddrs i NDIRECT
}.

(** The file keeps its bytes while blocks are added to it. *)
Record grows c c' (i i' : inode) : Prop := {
  gr_meta : meta_used c';
  gr_ok : inode_ok c' i';
  gr_inode : exists a, i' = set_iaddrs a i;
  gr_bytes : forall o, 0 <= o < MAXFILE * BSIZE -> fbyte c' i' o = fbyte c i o;
  gr_blocks : forall bn, 0 <= bn < MAXFILE -> fblock c i bn <> 0 -> fblock c' i' bn = fblock c i bn;
  gr_used : forall b, 0 <= b < fssize t -> used c b = true -> used c' b = true;
  gr_ind : iaddrs i' NDIRECT = iaddrs i NDIRECT \/ (iaddrs i NDIRECT = 0 /\ used c (iaddrs i' NDIRECT) = false);
  gr_new : forall bn, 0 <= bn < MAXFILE -> fblock c' i' bn <> 0 ->
             fblock c' i' bn = fblock c i bn \/ used c (fblock c' i' bn) = false;
  gr_frame : forall x, x < bmapstart t \/ (data_block c x /\ x <> iaddrs i NDIRECT) -> c' x = c x
}.

Lemma grows_refl c i : meta_used c -> inode_ok c i -> grows c c i i.
Proof. intros Hm Hi. split; try done; [by exists (iaddrs i); destruct i|by left|by left]. Qed.

Lemma unused_before c1 c2 i1 i2 b : grows c1 c2 i1 i2 -> 0 <= b < fssize t -> used c2 b = false -> used c1 b = false.
Proof.
  intros G Hb U2. destruct (used c1 b) eqn:E; [|done]. rewrite (gr_used _ _ _ _ G) in U2 by done. done.
Qed.

Lemma grows_trans c1 c2 c3 i1 i2 i3 : grows c1 c2 i1 i2 -> grows c2 c3 i2 i3 -> grows c1 c3 i1 i3.
Proof.
  intros G1 G2. pose proof meta_range as Hmr. split; try apply G2.
  - destruct (gr_inode _ _ _ _ G1) as [a1 ->], (gr_inode _ _ _ _ G2) as [a2 ->]. by exists a2.
  - intros o Ho. rewrite (gr_bytes _ _ _ _ G2), (gr_bytes _ _ _ _ G1) by done. done.
  - intros bn Hbn Hz. rewrite (gr_blocks _ _ _ _ G2); [by apply (gr_blocks _ _ _ _ G1)|done|].
    by rewrite (gr_blocks _ _ _ _ G1).
  - intros b Hb Hu. apply (gr_used _ _ _ _ G2), (gr_used _ _ _ _ G1); done.
  - destruct (gr_ind _ _ _ _ G2) as [E2|[E2 U2]].
    + rewrite E2. apply (gr_ind _ _ _ _ G1).
    + assert (Hu1 : used c1 (iaddrs i3 NDIRECT) = false).
      { eapply unused_before; [exact G1| |done]. destruct (Z.eq_dec (iaddrs i3 NDIRECT) 0) as [Ez|Hnz]; [lia|].
        destruct (io_ind _ _ (gr_ok _ _ _ _ G2) Hnz). lia. }
      right. split; [|done]. destruct (gr_ind _ _ _ _ G1) as [E1|[E1 _]]; congruence.
  - intros bn Hbn Hnz. destruct (gr_new _ _ _ _ G2 bn Hbn Hnz) as [E|U].
    + rewrite E in *. by apply (gr_new _ _ _ _ G1).
    + right. eapply unused_before; [exact G1| |done]. destruct (io_block _ _ (gr_ok _ _ _ _ G2) bn Hbn Hnz). lia.
  - intros x Hx. rewrite (gr_frame _ _ _ _ G2); [by apply (gr_frame _ _ _ _ G1)|].
    destruct Hx as [Hx|[[Hr Hu] Hne]]; [by left|right]. split; [split; [done|]|].
    + apply (gr_used _ _ _ _ G1); [lia|done].
    + destruct (gr_ind _ _ _ _ G1) as [E1|[E1 U1]]; congruence.
Qed.

Lemma fblock_ext c c' i bn :
  (iaddrs i NDIRECT <> 0 -> c' (iaddrs i NDIRECT) = c (iaddrs i NDIRECT)) -> fblock c' i bn = fblock c i bn.
Proof.
  intros E. unfold fblock. destruct (bn <? NDIRECT); [done|].
  destruct (Z.eqb_spec (iaddrs i NDIRECT) 0); [done|]. by rewrite E.
Qed.

Lemma off_block o : 0 <= o < MAXFILE * BSIZE -> 0 <= o / BSIZE < MAXFILE /\ 0 <= o mod BSIZE < BSIZE.
Proof.
  intros Ho. split; [|by apply Z.mod_pos_bound]. split; [apply Z.div_pos; done || lia|].
  apply Z.div_lt_upper_bound; [done|lia].
Qed.

(** A free block taken for file block [bn0], or for the indirect block when
    [bn0] is [MAXFILE]: what the two have in common. *)
Lemma grows_intro c c' i i' r bn0 :
  meta_used c -> inode_ok c i -> first_free c r ->
  (exists a, i' = set_iaddrs a i) ->
  (forall x, x <> r -> x < bmapstart t \/ (dstart <= x /\ (x <> iaddrs i NDIRECT)) -> c' x = c x) ->
  (forall o, 0 <= o < BSIZE -> c' r o = 0) ->
  (forall b, 0 <= b < fssize t -> used c' b = (b =? r) || used c b) ->
  (forall bn, 0 <= bn < MAXFILE -> fblock c' i' bn = if bn =? bn0 then r else fblock c i bn) ->
  (fblock c i bn0 = 0 /\ 0 <= bn0 < MAXFILE /\ iaddrs i' NDIRECT = iaddrs i NDIRECT) \/
  (bn0 = MAXFILE /\ iaddrs i NDIRECT = 0 /\ iaddrs i' NDIRECT = r) ->
  grows c c' i i'.
Proof.
  intros Hm Hi (Hr & Hur & _) Hin Hc Hz Hu Hf Hbn0. pose proof meta_range as Hmr.
  assert (Hold : forall bn, 0 <= bn < MAXFILE -> fblock c i bn <> 0 ->
    bn <> bn0 /\ fblock c' i' bn = fblock c i bn /\ fblock c i bn <> r).
  { intros bn Hbn Hnz. assert (bn <> bn0) by (intros ->; destruct Hbn0 as [[? _]|[? _]]; [done|lia]).
    rewrite Hf by done. destruct (Z.eqb_spec bn bn0); [done|]. split_and!; [done..|]. intros E.
    destruct (io_block _ _ Hi bn Hbn Hnz) as [_ Hx]. congruence. }
  assert (Hind : iaddrs i NDIRECT <> 0 -> iaddrs i NDIRECT <> r).
  { intros Hnz E. destruct (io_ind _ _ Hi Hnz) as [_ Hx]. congruence. }
  assert (Hdb : forall b, data_block c b -> data_block c' b).
  { intros b [H1 H2]. split; [done|]. rewrite Hu by lia. by rewrite H2, orb_true_r. }
  assert (Hrb : data_block c' r) by (split; [lia|]; rewrite Hu by lia; by rewrite Z.eqb_refl).
  split; try done.
  - intros b Hb. rewrite Hu by lia. rewrite Hm by done. by rewrite orb_true_r.
  - split.
    + intros bn Hbn. rewrite Hf by done. destruct (bn =? bn0); [done|]. intros Hnz. by apply Hdb, (io_block _ _ Hi).
    + destruct Hbn0 as [(_ & _ & ->)|(_ & _ & ->)]; [|done]. intros Hnz. by apply Hdb, (io_ind _ _ Hi).
    + intros bn bn' Hbn Hbn'. rewrite !Hf by done.
      destruct (Z.eqb_spec bn bn0) as [->|H1], (Z.eqb_spec bn' bn0) as [->|H2]; [done|..].
      * intros _ E. symmetry in E. assert (fblock c i bn' <> 0) as Hnz by lia. by destruct (Hold bn' Hbn' Hnz) as (_ & _ & ?).
      * intros Hnz E. by destruct (Hold bn Hbn Hnz) as (_ & _ & ?).
      * by apply (io_inj _ _ Hi).
    + intros bn Hbn. rewrite Hf by done. destruct (Z.eqb_spec bn bn0) as [->|H1].
      * intros _ E. destruct Hbn0 as [(_ & _ & E')|(E' & _)]; [|lia].
        assert (iaddrs i NDIRECT <> 0) by lia. apply Hind; [done|congruence].
      * intros Hnz. destruct Hbn0 as [(_ & _ & ->)|(_ & _ & ->)]; [by apply (io_not_ind _ _ Hi)|].
        by apply (Hold bn Hbn Hnz).
  - intros o Ho. destruct (off_block o Ho) as [Hbn Hmod]. unfold fbyte. cbv zeta.
    destruct (Z.eqb_spec (fblock c i (o / BSIZE)) 0) as [E|E].
    + rewrite Hf by done. destruct (Z.eqb_spec (o / BSIZE) bn0) as [E0|E0]; [|by rewrite E].
      cif; [done|]. by apply Hz.
    + destruct (Hold _ Hbn E) as (_ & -> & Hne). rewrite (proj2 (Z.eqb_neq _ 0)) by done.
      rewrite Hc; [done|done|]. right. destruct (io_block _ _ Hi _ Hbn E) as [Hb _].
      split; [lia|]. by apply (io_not_ind _ _ Hi).
  - intros bn Hbn Hnz. by apply Hold.
  - intros b Hb Hub. rewrite Hu by done. by rewrite Hub, orb_true_r.
  - destruct Hbn0 as [(_ & _ & ->)|(_ & E1 & E2)]; [by left|right]. by rewrite E2.
  - intros bn Hbn _. rewrite Hf by done. destruct (bn =? bn0); [by right|by left].
  - intros x Hx. apply Hc.
    + intros ->. destruct Hx as [Hx|[[_ Hux] _]]; [lia|congruence].
    + destruct Hx as [Hx|[[Hxr _] Hne]]; [by left|right]. lia.
Qed.

(** ** bmap *)

Lemma grows_direct c i r bn :
  meta_used c -> inode_ok c i -> first_free c r -> 0 <= bn < NDIRECT -> iaddrs i bn = 0 ->
  grows c (fresh c r) i (set_iaddrs (upd (iaddrs i) bn r) i) /\
  fblock (fresh c r) (set_iaddrs (upd (iaddrs i) bn r) i) bn = r.
Proof.
  intros Hm Hi Hf Hbn Hz. pose proof meta_range. pose proof Hf as (Hr & Hur & _).
  assert (Hb : forall bn', 0 <= bn' < MAXFILE ->
    fblock (fresh c r) (set_iaddrs (upd (iaddrs i) bn r) i) bn' = if bn' =? bn then r else fblock c i bn').
  { intros bn' Hbn'. unfold fblock. simpl. rewrite (upd_ne _ _ _ NDIRECT) by lia.
    destruct (Z.ltb_spec bn' NDIRECT) as [Hlt|Hge]; [done|]. rewrite (proj2 (Z.eqb_neq bn' bn)) by lia.
    destruct (Z.eqb_spec (iaddrs i NDIRECT) 0) as [E|E]; [done|]. destruct (io_ind _ _ Hi E) as [Hx Hxu].
    rewrite fresh_other; [done|lia| |lia]. congruence. }
  assert (Hmax : NDIRECT <= MAXFILE) by done.
  split; [|rewrite Hb by lia; by rewrite Z.eqb_refl].
  apply (grows_intro c _ i _ r bn); try done.
  - by eexists.
  - intros x Hx Hd. apply fresh_other; [lia|done|lia].
  - apply fresh_zero.
  - intros b Hb'. by apply fresh_used.
  - left. split_and!; [|lia|lia|simpl; rewrite upd_ne by lia; done]. unfold fblock. by rewrite (proj2 (Z.ltb_lt _ _)) by lia.
Qed.

Lemma indirect_entry_zero m j : (forall o, 0 <= o < BSIZE -> m o = 0) -> 0 <= j < NINDIRECT -> entry m j = 0.
Proof.
  intros Hm Hj. unfold entry. apply (ldn_zero 4). intros o Ho. apply Hm.
  unfold NINDIRECT in Hj. change (BSIZE / 4) with 256 in Hj. unfold BSIZE. lia.
Qed.

Lemma grows_indirect c i r :
  meta_used c -> inode_ok c i -> first_free c r -> iaddrs i NDIRECT = 0 ->
  grows c (fresh c r) i (set_iaddrs (upd (iaddrs i) NDIRECT r) i).
Proof.
  intros Hm Hi Hf Hz. pose proof meta_range. pose proof Hf as (Hr & Hur & _).
  apply (grows_intro c _ i _ r MAXFILE); try done.
  - by eexists.
  - intros x Hx Hd. apply fresh_other; [lia|done|lia].
  - apply fresh_zero.
  - intros b Hb'. by apply fresh_used.
  - intros bn Hbn. rewrite (proj2 (Z.eqb_neq bn MAXFILE)) by lia. unfold fblock. simpl. rewrite upd_eq, Hz.
    destruct (Z.ltb_spec bn NDIRECT) as [Hlt|Hge]; [rewrite upd_ne by lia; done|].
    rewrite (proj2 (Z.eqb_neq r 0)) by lia. apply indirect_entry_zero; [apply fresh_zero|]. unfold MAXFILE in Hbn. lia.
  - right. simpl. by rewrite upd_eq.
Qed.

Lemma entry_st32 m j v j' : 0 <= v < 2 ^ 32 -> entry (st32 m (4 * j) v) j' = if j' =? j then v else entry m j'.
Proof.
  intros Hv. unfold entry. destruct (Z.eqb_spec j' j) as [->|Hj]; [by apply ld32_st32_same|].
  apply ld32_st32_other. lia.
Qed.

Lemma grows_entry c i r bn :
  meta_used c -> inode_ok c i -> first_free c r -> NDIRECT <= bn < MAXFILE -> iaddrs i NDIRECT <> 0 ->
  fblock c i bn = 0 ->
  let c' := upd (fresh c r) (iaddrs i NDIRECT) (st32 (fresh c r (iaddrs i NDIRECT)) (4 * (bn - NDIRECT)) r) in
  grows c c' i i /\ fblock c' i bn = r.
Proof.
  intros Hm Hi Hf Hbn Hnz Hz c'. pose proof meta_range. pose proof Hf as (Hr & Hur & _).
  destruct (ly_size Hlay) as [_ Hsz]. destruct (io_ind _ _ Hi Hnz) as [Hx Hxu]. assert (Hne : iaddrs i NDIRECT <> r) by congruence.
  assert (Hb : forall bn', 0 <= bn' < MAXFILE -> fblock c' i bn' = if bn' =? bn then r else fblock c i bn').
  { intros bn' Hbn'. unfold fblock, c'. destruct (Z.ltb_spec bn' NDIRECT) as [Hlt|Hge].
    { by rewrite (proj2 (Z.eqb_neq bn' bn)) by lia. }
    rewrite (proj2 (Z.eqb_neq (iaddrs i NDIRECT) 0)), upd_eq, entry_st32, fresh_other by lia.
    destruct (Z.eqb_spec (bn' - NDIRECT) (bn - NDIRECT)), (Z.eqb_spec bn' bn); try done; lia. }
  assert (0 <= NDIRECT) by done. split; [|rewrite Hb by lia; by rewrite Z.eqb_refl].
  apply (grows_intro c c' i i r bn); try done.
  - exists (iaddrs i). by destruct i.
  - intros x Hxr Hd. unfold c'. rewrite upd_ne by lia. apply fresh_other; [lia|done|lia].
  - intros o Ho. unfold c'. rewrite upd_ne by done. by apply fresh_zero.
  - intros b Hb'. unfold c'. rewrite used_data by lia. by apply fresh_used.
  - left. split_and!; [done|lia|lia|done].
Qed.

(** [s'] has [i] at [ip] of the inode table and is otherwise [s], blocks
    aside. *)
Definition with_inode s (ip : Z) (i : inode) s' : Prop :=
  sb s' = sb s /\ forall j, itable s' j = if j =? ip then i else itable s j.

Lemma with_inode_refl s ip s' : same_tables s s' -> with_inode s ip (itable s ip) s'.
Proof. intros [E1 E2]. split; [done|]. intros j. rewrite E2. by destruct (Z.eqb_spec j ip) as [->|]. Qed.

Lemma with_inode_trans s ip i s' i' s'' : with_inode s ip i s' -> with_inode s' ip i' s'' -> with_inode s ip i' s''.
Proof.
  intros [E1 H1] [E2 H2]. split; [congruence|]. intros j. rewrite H2. specialize (H1 j). by destruct (j =? ip).
Qed.

Lemma with_inode_at s ip i s' : with_inode s ip i s' -> itable s' ip = i.
Proof. intros [_ E]. rewrite E. by rewrite Z.eqb_refl. Qed.

Lemma wp_set_addr s ip j v Q :
  (forall s', with_inode s ip (set_iaddrs (upd (iaddrs (itable s ip)) j v) (itable s ip)) s' -> blocks s' = blocks s -> Q tt s') ->
  wp (set_addr ip j v) Q s.
Proof. intros HQ. apply wp_upd. apply HQ; done. Qed.

(** All blocks are in use. *)
Definition disk_full c : Prop := forall b, 0 <= b < fssize t -> used c b = true.

Definition bmap_post c (i : inode) k s ip bn (a : Z) s' : Prop :=
  exists c' i', with_inode s ip i' s' /\ grows c c' i i' /\ bl_state c' [] None k (blocks s') /\
    ((a = 0 /\ disk_full c') \/ (a <> 0 /\ a = fblock c' i' bn)).

Lemma bl_less_n c H D j k x : bl_state c H D (j + k) x -> bl_state c H D k x.
Proof. induction j as [|j IH]; [done|]. intros Hx. by apply IH, bl_less. Qed.

Lemma bmap_entry_ok c i k s ip bn :
  bl_state c [] None (3 + k) (blocks s) -> sb s = t -> itable s ip = i -> meta_used c -> inode_ok c i ->
  NDIRECT <= bn < MAXFILE -> iaddrs i NDIRECT <> 0 ->
  wp (let! bp := bread n dev (iaddrs i NDIRECT) in
      let! m := get_data bp in
      if entry m (bn - NDIRECT) =? 0 then
        let! addr := balloc n dev in
        do! (if negb (addr =? 0) then
               let! m := get_data bp in
               do! set_data bp (st32 m (4 * (bn - NDIRECT)) addr); log_write bp
             else kret tt);
        do! brelse n bp;
        kret addr
      else do! brelse n bp; kret (entry m (bn - NDIRECT)))
     (bmap_post c i k s ip bn) s.
Proof.
  intros Hs Et Hip Hm Hi Hbn Hnz. pose proof meta_range. destruct (io_ind _ _ Hi Hnz) as [Hx Hxu].
  destruct (ly_size Hlay) as [_ Hsz].
  apply wp_bind, (wp_bread c [] (3 + k)); [done|apply meta_valid; lia|lia|apply not_elem_of_nil|simpl; lia|].
  intros h x1 H1. set (ind := iaddrs i NDIRECT) in *.
  apply wp_bind, (wp_get_data c [(ind, h)] None (3 + k) _ ind); [done|by left|].
  assert (Ef : fblock c i bn = entry (c ind) (bn - NDIRECT)).
  { unfold fblock. rewrite (proj2 (Z.ltb_ge _ _)) by lia. fold ind. by rewrite (proj2 (Z.eqb_neq ind 0)). }
  rewrite <- Ef. destruct (Z.eqb_spec (fblock c i bn) 0) as [Ez|Enz].
  2:{ apply wp_bind. eapply wp_brelse; [exact H1|]. intros x2 H2. apply wp_ret. exists c, i.
      split_and!; [by rewrite <- Hip; apply with_inode_refl|by apply grows_refl|by apply (bl_less_n _ _ _ 3)|by right]. }
  apply wp_bind. eapply wp_mono; [apply (balloc_ok c [(ind, h)] (1 + k)); try done|].
  { intros b Hb. simpl in Hb. apply list_elem_of_singleton in Hb as ->. done. }
  { simpl. lia. }
  intros a s2 [Hst [(-> & H2 & Hfull)|(Hff & H2)]].
  - apply wp_bind, wp_ret, wp_bind. eapply wp_brelse; [exact H2|]. intros x3 H3. apply wp_ret. exists c, i.
    split_and!; [rewrite <- Hip; by apply with_inode_refl|by apply grows_refl|by apply (bl_less_n _ _ _ 3)|by left].
  - pose proof Hff as (Hr & Hur & _). rewrite (proj2 (Z.eqb_neq a 0)) by lia. cbn [negb].
    apply wp_bind, wp_bind, (wp_get_data _ _ None _ _ ind h _ H2); [by left|].
    assert (Hset : forall Q, (forall x, bl_state (upd (fresh c a) ind (st32 (fresh c a ind) (4 * (bn - NDIRECT)) a)) [(ind, h)] None k x -> Q tt (set_blocks x s2)) ->
      wp (do! set_data h (st32 (fresh c a ind) (4 * (bn - NDIRECT)) a); log_write h) Q s2).
    { intros Q HQ. apply wp_bind, wp_in_blocks. eapply wp_mono; [apply (law_set _ _ _ _ ind h _ H2); by left|].
      intros [] x3 H3. apply wp_in_blocks. eapply wp_mono; [apply (law_log_write _ _ _ _ ind h H3); by left|].
      intros [] x4 H4. by apply HQ. }
    apply Hset. intros x4 H4. apply wp_bind. eapply wp_brelse; [exact H4|]. intros x5 H5. apply wp_ret.
    destruct (grows_entry c i a bn Hm Hi Hff Hbn Hnz Ez) as [Hg Hb].
    eexists _, i. split_and!; [rewrite <- Hip; by apply with_inode_refl|exact Hg|exact H5|right; split; [lia|by rewrite Hb]].
Qed.

Lemma no_held c : data_held c [].
Proof. by intros b ?%elem_of_nil. Qed.

Lemma bmap_direct_ok c i k s ip bn :
  bl_state c [] None (2 + k) (blocks s) -> sb s = t -> itable s ip = i -> idev i = dev -> meta_used c -> inode_ok c i ->
  0 <= bn < NDIRECT -> wp (bmap n ip bn) (bmap_post c i k s ip bn) s.
Proof.
  intros Hs Et Hip Hd Hm Hi Hbn. unfold bmap. apply wp_bind, wp_get. rewrite Hip, (proj2 (Z.ltb_lt _ _)) by lia.
  destruct (Z.eqb_spec (iaddrs i bn) 0) as [Ez|Enz].
  - apply wp_bind. rewrite Hd. eapply wp_mono; [apply (balloc_ok c [] k); try done; [apply no_held|simpl; lia]|].
    intros a s1 [Hst [(-> & H1 & Hfull)|(Hff & H1)]].
    + apply wp_ret. exists c, i.
      split_and!; [rewrite <- Hip; by apply with_inode_refl|by apply grows_refl|by apply (bl_less_n _ _ _ 2)|by left].
    + pose proof Hff as (Hr & _). pose proof meta_range. rewrite (proj2 (Z.eqb_neq a 0)) by lia.
      apply wp_bind, wp_set_addr. intros s2 Hw Hb. apply wp_ret.
      destruct (grows_direct c i a bn Hm Hi Hff Hbn Ez) as [Hg Hfb]. destruct Hst as [E1 E2]. rewrite E2, Hip in Hw.
      eexists _, _. split_and!; [|exact Hg|by rewrite Hb|right; split; [lia|by rewrite Hfb]].
      destruct Hw as [W1 W2]. split; [congruence|]. intros j. rewrite W2, E2. done.
  - apply wp_ret. exists c, i.
    split_and!; [rewrite <- Hip; by apply with_inode_refl|by apply grows_refl|by apply (bl_less_n _ _ _ 2)|right].
    split; [done|]. unfold fblock. by rewrite (proj2 (Z.ltb_lt _ _)) by lia.
Qed.

Lemma bmap_post_grow c1 c i1 i k s1 s ip bn a s' :
  grows c1 c i1 i -> with_inode s1 ip i s -> bmap_post c i k s ip bn a s' -> bmap_post c1 i1 k s1 ip bn a s'.
Proof.
  intros G W (c' & i' & W' & G' & Hs & Ha). exists c', i'.
  split_and!; [by eapply with_inode_trans|by eapply grows_trans|done|done].
Qed.

Lemma bmap_ok c i k s ip bn :
  bl_state c [] None (5 + k) (blocks s) -> sb s = t -> itable s ip = i -> idev i = dev -> meta_used c -> inode_ok c i ->
  0 <= bn < MAXFILE -> wp (bmap n ip bn) (bmap_post c i k s ip bn) s.
Proof.
  intros Hs Et Hip Hd Hm Hi Hbn. destruct (Z_lt_le_dec bn NDIRECT) as [Hlt|Hge].
  { apply bmap_direct_ok; try done; [by apply (bl_less_n _ _ _ 3)|lia]. }
  unfold bmap. apply wp_bind, wp_get. rewrite (proj2 (Z.ltb_ge _ _)) by lia.
  rewrite (proj2 (Z.ltb_lt _ _)) by (unfold MAXFILE in Hbn; lia).
  unfold bmap_indirect. apply wp_bind, wp_get, wp_bind. rewrite Hip, Hd. pose proof meta_range.
  destruct (Z.eqb_spec (iaddrs i NDIRECT) 0) as [Ez|Enz].
  - apply wp_bind. eapply wp_mono; [apply (balloc_ok c [] (3 + k)); try done; [apply no_held|simpl; lia]|].
    intros a s1 [Hst [(-> & H1 & Hfull)|(Hff & H1)]].
    + apply wp_ret, wp_ret. exists c, i.
      split_and!; [rewrite <- Hip; by apply with_inode_refl|by apply grows_refl|by apply (bl_less_n _ _ _ 5)|by left].
    + pose proof Hff as (Hr & _). rewrite (proj2 (Z.eqb_neq a 0)) by lia. apply wp_bind, wp_set_addr. intros s2 Hw Hb.
      apply wp_ret. destruct Hst as [E1 E2]. rewrite E2, Hip in Hw. set (i2 := set_iaddrs _ i) in Hw.
      assert (Ea : iaddrs i2 NDIRECT = a) by apply upd_eq. rewrite (proj2 (Z.eqb_neq a 0)) by lia.
      pose proof (grows_indirect c i a Hm Hi Hff Ez) as Hg. fold i2 in Hg.
      assert (Hw' : with_inode s ip i2 s2) by (destruct Hw as [W1 W2]; split; [congruence|]; intros j; rewrite W2, E2; done).
      pose proof (bmap_entry_ok (fresh c a) i2 k s2 ip bn) as He. rewrite Ea in He.
      eapply wp_mono; [apply He|].
      * by rewrite Hb.
      * destruct Hw' as [W1 _]. congruence.
      * by apply (with_inode_at s).
      * apply Hg.
      * apply Hg.
      * lia.
      * lia.
      * intros a' s' Hp. by eapply bmap_post_grow.
  - apply wp_ret. rewrite (proj2 (Z.eqb_neq _ 0)) by done. apply bmap_entry_ok; try done; [by apply (bl_less_n _ _ _ 2)|lia].
Qed.

(** ** Changes to one file

    Blocks are added to the file and its blocks change; the blocks of
    other files and the inodes do not. *)
Record evolves c c' (i i' : inode) : Prop := {
  ev_meta : meta_used c';
  ev_ok : inode_ok c' i';
  ev_inode : exists a, i' = set_iaddrs a i;
  ev_used : forall b, 0 <= b < fssize t -> used c b = true -> used c' b = true;
  ev_ind : iaddrs i' NDIRECT = iaddrs i NDIRECT \/ (iaddrs i NDIRECT = 0 /\ used c (iaddrs i' NDIRECT) = false);
  ev_new : forall bn, 0 <= bn < MAXFILE -> fblock c' i' bn <> 0 ->
             fblock c' i' bn = fblock c i bn \/ used c (fblock c' i' bn) = false;
  ev_keep : forall bn, 0 <= bn < MAXFILE -> fblock c i bn <> 0 -> fblock c' i' bn = fblock c i bn;
  ev_frame : forall x, x < bmapstart t \/
               (data_block c x /\ x <> iaddrs i NDIRECT /\ forall bn, 0 <= bn < MAXFILE -> fblock c i bn <> x) -> c' x = c x
}.

Lemma grows_evolves c c' i i' : grows c c' i i' -> evolves c c' i i'.
Proof. intros []. split; try done. intros x [?|(? & ? & _)]; auto. Qed.

Lemma evolves_unused c1 c2 i1 i2 b : evolves c1 c2 i1 i2 -> 0 <= b < fssize t -> used c2 b = false -> used c1 b = false.
Proof.
  intros G Hb U2. destruct (used c1 b) eqn:E; [|done]. rewrite (ev_used _ _ _ _ G) in U2 by done. done.
Qed.

Lemma evolves_trans c1 c2 c3 i1 i2 i3 : evolves c1 c2 i1 i2 -> evolves c2 c3 i2 i3 -> evolves c1 c3 i1 i3.
Proof.
  intros G1 G2. pose proof meta_range as Hmr.
  assert (Hnew : forall bn, 0 <= bn < MAXFILE -> fblock c3 i3 bn <> 0 -> fblock c3 i3 bn = fblock c1 i1 bn \/ used c1 (fblock c3 i3 bn) = false).
  { intros bn Hbn Hnz. destruct (ev_new _ _ _ _ G2 bn Hbn Hnz) as [E|U]; [rewrite E in *; by apply (ev_new _ _ _ _ G1)|].
    right. eapply evolves_unused; [exact G1| |done]. destruct (io_block _ _ (ev_ok _ _ _ _ G2) bn Hbn Hnz). lia. }
  split; try apply G2; try done.
  - destruct (ev_inode _ _ _ _ G1) as [a1 ->], (ev_inode _ _ _ _ G2) as [a2 ->]. by exists a2.
  - intros b Hb Hu. apply (ev_used _ _ _ _ G2), (ev_used _ _ _ _ G1); done.
  - destruct (ev_ind _ _ _ _ G2) as [E2|[E2 U2]]; [rewrite E2; apply (ev_ind _ _ _ _ G1)|].
    assert (Hu1 : used c1 (iaddrs i3 NDIRECT) = false).
    { eapply evolves_unused; [exact G1| |done]. destruct (Z.eq_dec (iaddrs i3 NDIRECT) 0) as [Ez|Hnz]; [lia|].
      destruct (io_ind _ _ (ev_ok _ _ _ _ G2) Hnz). lia. }
    right. split; [|done]. destruct (ev_ind _ _ _ _ G1) as [E1|[E1 _]]; congruence.
  - intros bn Hbn Hnz. rewrite (ev_keep _ _ _ _ G2); [by apply (ev_keep _ _ _ _ G1)|done|]. by rewrite (ev_keep _ _ _ _ G1).
  - intros x Hx. rewrite (ev_frame _ _ _ _ G2); [by apply (ev_frame _ _ _ _ G1)|].
    destruct Hx as [Hx|([Hr Hu] & Hne & Hnf)]; [by left|right]. split_and!.
    + split; [done|]. apply (ev_used _ _ _ _ G1); [lia|done].
    + destruct (ev_ind _ _ _ _ G1) as [E1|[E1 U1]]; congruence.
    + intros bn Hbn E. destruct (ev_new _ _ _ _ G1 bn Hbn) as [E'|U]; [lia|by apply (Hnf bn Hbn); congruence|congruence].
Qed.

(** New data in a block of the file. *)
Lemma evolves_write c i bn (m : mem) :
  meta_used c -> inode_ok c i -> 0 <= bn < MAXFILE -> fblock c i bn <> 0 ->
  evolves c (upd c (fblock c i bn) m) i i /\
  forall o, 0 <= o < MAXFILE * BSIZE ->
    fbyte (upd c (fblock c i bn) m) i o = if o / BSIZE =? bn then m (o mod BSIZE) else fbyte c i o.
Proof.
  intros Hm Hi Hbn Hnz. set (b := fblock c i bn) in *. pose proof meta_range as Hmr.
  destruct (io_block _ _ Hi bn Hbn Hnz) as [Hb Hu]. fold b in Hb, Hu.
  assert (Hf : forall bn', fblock (upd c b m) i bn' = fblock c i bn').
  { intros bn'. apply fblock_ext. intros _. rewrite upd_ne; [done|]. intros E. by apply (io_not_ind _ _ Hi bn Hbn Hnz). }
  assert (Hus : forall x, 0 <= x < fssize t -> used (upd c b m) x = used c x) by (intros x Hx; apply used_data; lia).
  assert (Hdb : forall x, data_block c x -> data_block (upd c b m) x).
  { intros x [H1 H2]. split; [done|]. rewrite Hus by lia. done. }
  split.
  - split; try done.
    + intros x Hx. rewrite Hus by lia. by apply Hm.
    + destruct Hi as [I1 I2 I3 I4]. split.
      * intros bn' Hbn'. rewrite Hf. intros H1. by apply Hdb, I1.
      * intros H1. by apply Hdb, I2.
      * intros bn1 bn2 H1 H2. rewrite !Hf. by apply I3.
      * intros bn' Hbn'. rewrite Hf. by apply I4.
    + exists (iaddrs i). by destruct i.
    + intros x Hx. by rewrite Hus.
    + by left.
    + intros bn' _ _. left. apply Hf.
    + intros x Hx. apply upd_ne. intros ->. destruct Hx as [Hx|(_ & _ & Hn)]; [lia|]. by apply (Hn bn).
  - intros o Ho. destruct (off_block o Ho) as [Hob _]. unfold fbyte. cbv zeta. rewrite Hf.
    destruct (Z.eqb_spec (o / BSIZE) bn) as [->|Hne].
    + fold b. rewrite (proj2 (Z.eqb_neq b 0)) by done. by rewrite upd_eq.
    + destruct (Z.eqb_spec (fblock c i (o / BSIZE)) 0) as [|Hnz']; [done|]. rewrite upd_ne; [done|].
      intros E. apply Hne. by apply (io_inj _ _ Hi).
Qed.

(** ** Copies between the file and memory *)
Context {T : Type} `{HE : FsEnv B T} `{HO : !FsEnvOk B T}.

(** The blocks that [rem] bytes from offset [off] are in. *)
Definition nblocks (off rem : Z) : Z :=
  if rem <=? 0 then 0 else (off + rem - 1) / BSIZE - off / BSIZE + 1.

Definition chunk (off rem : Z) : Z := Z.min rem (BSIZE - off mod BSIZE).

Lemma nblocks_step off rem :
  0 <= off -> 0 < rem -> 0 < chunk off rem <= rem /\ off mod BSIZE + chunk off rem <= BSIZE /\
  nblocks (off + chunk off rem) (rem - chunk off rem) = nblocks off rem - 1 /\ 1 <= nblocks off rem.
Proof.
  intros Ho Hr. unfold chunk. pose proof (Z.mod_pos_bound off BSIZE ltac:(done)) as Hm.
  pose proof (Z.div_mod off BSIZE ltac:(done)) as Hd. unfold nblocks. rewrite (proj2 (Z.leb_gt rem 0)) by lia.
  assert (off / BSIZE <= (off + rem - 1) / BSIZE) by (apply Z.div_le_mono; [done|lia]).
  destruct (Z.min_spec rem (BSIZE - off mod BSIZE)) as [[Hlt ->]|[Hge ->]]; split_and!; try lia.
  - rewrite (proj2 (Z.leb_le _ 0)) by lia.
    assert ((off + rem - 1) / BSIZE = off / BSIZE); [|lia]. symmetry. apply (Z.div_unique_pos _ _ _ (off mod BSIZE + rem - 1)); lia.
  - assert (E : (off + (BSIZE - off mod BSIZE)) / BSIZE = off / BSIZE + 1) by (symmetry; apply (Z.div_unique_pos _ _ _ 0); unfold BSIZE in *; lia).
    rewrite E. destruct (Z.leb_spec (rem - (BSIZE - off mod BSIZE)) 0) as [Hz|Hz].
    + assert ((off + rem - 1) / BSIZE = off / BSIZE); [|lia]. symmetry. apply (Z.div_unique_pos _ _ _ (off mod BSIZE + rem - 1)); lia.
    + replace (off + (BSIZE - off mod BSIZE) + (rem - (BSIZE - off mod BSIZE)) - 1) with (off + rem - 1) by lia. lia.
Qed.

Lemma chunk_block off rem o :
  0 <= off -> 0 < rem -> off <= o < off + chunk off rem ->
  o / BSIZE = off / BSIZE /\ o mod BSIZE = off mod BSIZE + (o - off).
Proof.
  intros Ho Hr Hc. destruct (nblocks_step off rem Ho Hr) as (_ & Hle & _). pose proof (Z.mod_pos_bound off BSIZE ltac:(done)).
  pose proof (Z.div_mod off BSIZE ltac:(done)).
  assert (o / BSIZE = off / BSIZE) by (symmetry; apply (Z.div_unique_pos _ _ _ (off mod BSIZE + (o - off))); lia).
  split; [done|]. pose proof (Z.div_mod o BSIZE ltac:(done)). lia.
Qed.

Definition written c c' (i i' : inode) (off w : Z) (f : Z -> Z) : Prop :=
  forall o, 0 <= o < MAXFILE * BSIZE ->
    fbyte c' i' o = if bool_decide (off <= o < off + w) then f (o - off) else fbyte c i o.

(** The operations on blocks from the state with the memory: [x'] differs
    from [x] in the blocks only. *)
Definition next_blocks (x x' : T) : Prop := same_tables (env_fs x) (env_fs x') /\ env_mem x' = env_mem x.

Lemma next_put f (x : T) : same_tables (env_fs x) f -> next_blocks x (put_fs f x).
Proof. intros Hs. split; [by rewrite env_fs_put|apply env_mem_put]. Qed.

Lemma next_blocks_trans x1 x2 x3 : next_blocks x1 x2 -> next_blocks x2 x3 -> next_blocks x1 x3.
Proof. intros [[A1 A2] A3] [[B1 B2] B3]. split; [split|]; congruence. Qed.

Lemma wpT_bread c H k (x : T) b Q :
  bl_state c H None k (blocks (env_fs x)) -> bl_valid b -> 0 <= b < 2 ^ 32 -> b ∉ H.*1 -> (length H < 3)%nat ->
  (forall h x', bl_state c ((b, h) :: H) None k (blocks (env_fs x')) -> next_blocks x x' -> Q h x') ->
  wp (in_fs (bread n dev b)) Q x.
Proof.
  intros Hs Hv Hr Hn Hl HQ. apply wp_in_fs, (wp_bread c H k); [done..|]. intros h f Hf.
  apply HQ; [by rewrite env_fs_put|by apply next_put].
Qed.

Lemma wpT_get {A} (p : fs B -> A) (x : T) Q :
  (forall x', env_fs x' = env_fs x -> env_mem x' = env_mem x -> Q (p (env_fs x)) x') -> wp (in_fs (kget p)) Q x.
Proof. intros HQ. apply wp_in_fs, wp_get, HQ; [apply env_fs_put|apply env_mem_put]. Qed.

Lemma wpT_data c H D k (x : T) b h Q :
  bl_state c H D k (blocks (env_fs x)) -> (b, h) ∈ H ->
  (forall x', env_fs x' = env_fs x -> env_mem x' = env_mem x -> Q (c b) x') -> wp (in_fs (get_data h)) Q x.
Proof.
  intros Hs Hb HQ. apply wp_in_fs, (wp_get_data c H D k _ b); [done..|]. apply HQ; [apply env_fs_put|apply env_mem_put].
Qed.

Lemma wpT_set c H k (x : T) b h m Q :
  bl_state c H None k (blocks (env_fs x)) -> (b, h) ∈ H ->
  (forall x', bl_state (upd c b m) H (Some b) k (blocks (env_fs x')) -> next_blocks x x' -> Q tt x') ->
  wp (in_fs (set_data h m)) Q x.
Proof.
  intros Hs Hb HQ. apply wp_in_fs, wp_in_blocks. eapply wp_mono; [by apply (law_set c H k _ b)|]. intros [] f Hf.
  apply HQ; [by rewrite env_fs_put|by apply next_put].
Qed.

Lemma wpT_log_write c H k (x : T) b h Q :
  bl_state c H (Some b) (S k) (blocks (env_fs x)) -> (b, h) ∈ H ->
  (forall x', bl_state c H None k (blocks (env_fs x')) -> next_blocks x x' -> Q tt x') ->
  wp (in_fs (log_write h)) Q x.
Proof.
  intros Hs Hb HQ. apply wp_in_fs, wp_in_blocks. eapply wp_mono; [by apply (law_log_write c H k _ b)|]. intros [] f Hf.
  apply HQ; [by rewrite env_fs_put|by apply next_put].
Qed.

Lemma wpT_brelse c H k (x : T) b h Q :
  bl_state c ((b, h) :: H) None k (blocks (env_fs x)) ->
  (forall x', bl_state c H None k (blocks (env_fs x')) -> next_blocks x x' -> Q tt x') ->
  wp (in_fs (brelse n h)) Q x.
Proof.
  intros Hs HQ. apply wp_in_fs. eapply wp_brelse; [exact Hs|]. intros f Hf.
  apply HQ; [by rewrite env_fs_put|by apply next_put].
Qed.

Lemma with_inode_next s ip i x x' : with_inode s ip i (env_fs x) -> next_blocks x x' -> with_inode s ip i (env_fs x').
Proof. intros [W1 W2] [[E1 E2] _]. split; [congruence|]. intros j. by rewrite E2. Qed.

Lemma data_valid c b : data_block c b -> bl_valid b /\ 0 <= b < 2 ^ 32.
Proof. intros [Hb _]. pose proof meta_range. destruct (ly_size Hlay). split; [apply meta_valid; lia|lia]. Qed.

Lemma written_zero c c' i i' off f :
  (forall o, 0 <= o < MAXFILE * BSIZE -> fbyte c' i' o = fbyte c i o) -> written c c' i i' off 0 f.
Proof. intros E o Ho. rewrite bool_decide_eq_false_2 by lia. by apply E. Qed.

Lemma writei_loop_ok fuel : forall c i k (x : T) ip src off cnt tot,
  bl_state c [] None (6 * Z.to_nat (nblocks off (cnt - tot)) + k) (blocks (env_fs x)) ->
  sb (env_fs x) = t -> itable (env_fs x) ip = i -> idev i = dev -> meta_used c -> inode_ok c i ->
  0 <= off -> 0 <= tot <= cnt -> off + (cnt - tot) <= MAXFILE * BSIZE -> nblocks off (cnt - tot) <= Z.of_nat fuel ->
  0 <= src -> src + (cnt - tot) < 2 ^ 64 -> (forall a, src <= a < src + (cnt - tot) -> ~ env_scratch a) ->
  wp (writei_loop fuel n ip false src off cnt tot) (fun r x' => exists c' i' w,
    fst r = tot + w /\ snd r = off + w /\ 0 <= w <= cnt - tot /\ with_inode (env_fs x) ip i' (env_fs x') /\
    evolves c c' i i' /\ bl_state c' [] None k (blocks (env_fs x')) /\
    written c c' i i' off w (fun j => env_mem x (src + j)) /\
    (forall o, off <= o < off + w -> fblock c' i' (o / BSIZE) <> 0) /\
    (forall a, ~ env_scratch a -> env_mem x' a = env_mem x a) /\ (w < cnt - tot -> disk_full c')) x.
Proof.
  induction fuel as [|fuel IH]; intros c i k x ip src off cnt tot Hs Et Hip Hd Hm Hi Ho Ht Hmax Hf Hsrc Hsrc' Hscr;
    cbn [writei_loop]; destruct (Z.ltb_spec tot cnt) as [Hlt|Hge];
    try (destruct (nblocks_step off (cnt - tot) Ho ltac:(lia)) as (Hc1 & Hc2 & Hc3 & Hc4)).
  2,4: apply wp_ret; exists c, i, 0; split_and!; simpl fst; simpl snd; try done; try lia;
    [rewrite <- Hip; by apply with_inode_refl|by apply grows_evolves, grows_refl|by eapply bl_less_n|by apply written_zero].
  { lia. }
  fold (chunk off (cnt - tot)). set (m := chunk off (cnt - tot)) in *. set (nb := nblocks off (cnt - tot)) in *.
  destruct (off_block off ltac:(lia)) as [Hbn Hmod].
  apply wp_bind, wp_in_fs. eapply wp_mono; [apply (bmap_ok c i (1 + 6 * Z.to_nat (nb - 1) + k) (env_fs x) ip (off / BSIZE)); try done|].
  { replace (5 + (1 + 6 * Z.to_nat (nb - 1) + k))%nat with (6 * Z.to_nat nb + k)%nat by lia. done. }
  intros a f (c1 & i1 & W1 & G1 & H1 & Ha). destruct Ha as [[-> Hfull]|[Hnz Hab]].
  { apply wp_ret. exists c1, i1, 0. rewrite env_fs_put. split_and!; simpl; try lia; try done.
    - by apply grows_evolves.
    - by eapply bl_less_n.
    - apply written_zero, G1.
    - intros b _. by rewrite env_mem_put. }
  destruct (gr_inode _ _ _ _ G1) as [ad Ei1]. assert (Hd1 : idev i1 = dev) by (by rewrite Ei1).
  assert (Hdb : data_block c1 a) by (rewrite Hab; apply (io_block _ _ (gr_ok _ _ _ _ G1)); [done|congruence]).
  destruct (data_valid _ _ Hdb) as [Hav Har].
  rewrite (proj2 (Z.eqb_neq a 0)) by done. set (x1 := put_fs f x).
  assert (F1 : env_fs x1 = f) by apply env_fs_put. assert (M1 : env_mem x1 = env_mem x) by apply env_mem_put.
  apply wp_bind, wpT_get. intros x2 F2 M2. rewrite F1, (with_inode_at _ _ _ _ W1), Hd1.
  apply wp_bind, (wpT_bread c1 [] (1 + 6 * Z.to_nat (nb - 1) + k)); [by rewrite F2, F1|done|done|apply not_elem_of_nil|simpl; lia|].
  intros h x3 H3 N3. apply wp_bind, (wpT_data c1 [(a, h)] None (1 + 6 * Z.to_nat (nb - 1) + k) _ a); [done|by left|]. intros x4 F4 M4.
  assert (M4' : env_mem x4 = env_mem x) by (destruct N3 as [_ N3]; congruence).
  apply wp_bind. eapply wp_mono; [apply (law_copyin (c1 a) (off mod BSIZE) src m); [lia..|intros b Hb; apply Hscr; lia]|].
  intros [r d'] x5 (Er & F5 & M5 & Hd'). simpl in Er, Hd'. subst r.
  apply wp_bind, (wpT_set c1 [(a, h)] (1 + 6 * Z.to_nat (nb - 1) + k) _ a); [by rewrite F5, F4|by left|]. intros x6 H6 N6. cbn [fst snd].
  apply wp_bind, (wpT_log_write _ [(a, h)] (6 * Z.to_nat (nb - 1) + k) _ a _ _ H6); [by left|]. intros x7 H7 N7.
  apply wp_bind, (wpT_brelse _ _ _ _ _ _ _ H7). intros x8 H8 N8. set (c2 := upd c1 a d') in *.
  assert (N58 : next_blocks x5 x8) by (eauto using next_blocks_trans).
  assert (W8 : with_inode (env_fs x) ip i1 (env_fs x8)).
  { eapply with_inode_next; [|exact N58]. rewrite F5, F4. eapply with_inode_next; [|exact N3]. by rewrite F2, F1. }
  destruct (evolves_write c1 i1 (off / BSIZE) d' (gr_meta _ _ _ _ G1) (gr_ok _ _ _ _ G1) Hbn) as [E2 B2]; [congruence|].
  rewrite <- Hab in E2, B2. fold c2 in E2, B2.
  assert (Hmem8 : forall b, ~ env_scratch b -> env_mem x8 b = env_mem x b).
  { intros b Hb. destruct N58 as [_ ->]. rewrite M5, M4' by done. done. }
  assert (Hstep : written c c2 i i1 off m (fun j => env_mem x (src + j))).
  { intros o Hoo. rewrite B2 by done. case_bool_decide as Hin.
    - destruct (chunk_block off (cnt - tot) o Ho ltac:(lia) Hin) as [-> Hom]. rewrite Z.eqb_refl.
      rewrite Hd' by (apply off_block; done). rewrite bool_decide_eq_true_2 by lia. rewrite M4', Hom. f_equal. lia.
    - destruct (Z.eqb_spec (o / BSIZE) (off / BSIZE)) as [E|E]; [|by apply (gr_bytes _ _ _ _ G1)].
      rewrite Hd' by (apply off_block; done). pose proof (Z.div_mod o BSIZE ltac:(done)). pose proof (Z.div_mod off BSIZE ltac:(done)).
      rewrite bool_decide_eq_false_2 by lia. rewrite <- (gr_bytes _ _ _ _ G1 o Hoo). unfold fbyte. cbv zeta.
      rewrite E, <- Hab. by rewrite (proj2 (Z.eqb_neq a 0)). }
  rewrite u64_small by lia.
  eapply wp_mono; [apply (IH c2 i1 k x8 ip (src + m) (off + m) cnt (tot + m)); try done; try lia|].
  { replace (cnt - (tot + m)) with (cnt - tot - m) by lia. rewrite Hc3. done. }
  { destruct W8 as [W8 _]. congruence. } { by apply (with_inode_at (env_fs x)). } { apply E2. } { apply E2. }
  { replace (cnt - (tot + m)) with (cnt - tot - m) by lia. lia. }
  { intros b Hb. apply Hscr. lia. }
  intros r x9 (c3 & i3 & w & R1 & R2 & Rw & W9 & E3 & H9 & Hw & Hcov & Hm9 & Hfull). exists c3, i3, (m + w).
  split_and!; try lia; try done.
  - by eapply with_inode_trans.
  - eapply evolves_trans; [by apply grows_evolves|]. by eapply evolves_trans.
  - intros o Hoo. rewrite Hw by done. case_bool_decide as H1'.
    + rewrite bool_decide_eq_true_2 by lia. rewrite Hmem8 by (apply Hscr; lia). f_equal. lia.
    + rewrite Hstep by done. case_bool_decide as H2'; case_bool_decide; try lia; done.
  - intros o Hoo. destruct (Z_lt_le_dec o (off + m)); [|apply Hcov; lia].
    destruct (chunk_block off (cnt - tot) o Ho ltac:(lia) ltac:(lia)) as [-> _].
    assert (Eb : fblock c2 i1 (off / BSIZE) = a) by (rewrite (ev_keep _ _ _ _ E2); congruence || done).
    rewrite (ev_keep _ _ _ _ E3); [congruence|done|congruence].
  - intros b Hb. rewrite Hm9, Hmem8 by done. done.
  - intros Hlt'. apply Hfull. lia.
Qed.

(** ** iupdate and writei *)

Lemma IBLOCK_range ino : 0 <= ino < ninodes t -> inodestart t <= IBLOCK ino t < bmapstart t.
Proof.
  intros Hi. destruct (ly_inodes Hlay) as (H1 & H2 & H3). pose proof meta_range as Hmr. destruct (ly_size Hlay) as [Hz1 Hz2].
  assert (0 <= ino / IPB <= (ninodes t - 1) / IPB) by (split; [apply Z.div_pos; done || lia|apply Z.div_le_mono; done || lia]).
  unfold IBLOCK. rewrite u32_small; lia.
Qed.

(** The on-disk inode [ino] becomes [i]. *)
Definition put_dinode c (i : inode) : Z -> mem :=
  upd c (IBLOCK (inum i) t) (store_dinode (c (IBLOCK (inum i) t)) (inum i mod IPB * DINODE) i).

Lemma iupdate_ok c k s ip i :
  bl_state c [] None (S k) (blocks s) -> sb s = t -> itable s ip = i -> idev i = dev -> 0 <= inum i < ninodes t ->
  wp (iupdate n ip) (fun _ s' => same_tables s s' /\ bl_state (put_dinode c i) [] None k (blocks s')) s.
Proof.
  intros Hs Et Hip Hd Hino. unfold iupdate. apply wp_bind, wp_get, wp_bind, wp_get. rewrite Et, Hip, Hd.
  pose proof (IBLOCK_range _ Hino) as Hr. pose proof meta_range as Hmr. destruct (ly_size Hlay) as [Hz1 Hz2].
  apply wp_bind, (wp_bread c [] (S k)); [done|apply (ly_valid Hlay); lia|lia|apply not_elem_of_nil|simpl; lia|].
  intros h x1 H1. apply wp_bind, (wp_get_data c [(IBLOCK (inum i) t, h)] None (S k) _ (IBLOCK (inum i) t)); [done|by left|].
  apply (wp_set_log c [(IBLOCK (inum i) t, h)] k _ (IBLOCK (inum i) t)); [done|by left|]. intros x2 H2.
  eapply wp_brelse; [exact H2|]. intros x3 H3. done.
Qed.

(** A change to a block before the free map leaves files alone. *)
Lemma meta_write c i b (m : mem) :
  meta_used c -> inode_ok c i -> b < bmapstart t ->
  meta_used (upd c b m) /\ inode_ok (upd c b m) i /\ (forall bn, 0 <= bn < MAXFILE -> fblock (upd c b m) i bn = fblock c i bn) /\
  (forall o, 0 <= o < MAXFILE * BSIZE -> fbyte (upd c b m) i o = fbyte c i o).
Proof.
  intros Hm Hi Hb. pose proof meta_range as Hmr.
  assert (Hd : forall x, dstart <= x -> upd c b m x = c x) by (intros x Hx; apply upd_ne; lia).
  assert (Hu : forall x, 0 <= x < fssize t -> used (upd c b m) x = used c x).
  { intros x Hx. apply used_ext, upd_ne. destruct (BBLOCK_range x Hx). lia. }
  assert (Hf : forall bn, fblock (upd c b m) i bn = fblock c i bn).
  { intros bn. apply fblock_ext. intros Hnz. apply Hd. destruct (io_ind _ _ Hi Hnz). lia. }
  assert (Hdb : forall x, data_block c x -> data_block (upd c b m) x).
  { intros x [H1 H2]. split; [done|]. rewrite Hu by lia. done. }
  split_and!.
  - intros x Hx. rewrite Hu by lia. by apply Hm.
  - destruct Hi as [I1 I2 I3 I4]. split.
    + intros bn Hbn. rewrite Hf. intros H1. by apply Hdb, I1.
    + intros H1. by apply Hdb, I2.
    + intros bn1 bn2 H1 H2. rewrite !Hf. by apply I3.
    + intros bn Hbn. rewrite Hf. by apply I4.
  - intros bn _. apply Hf.
  - intros o Ho. unfold fbyte. cbv zeta. rewrite Hf. destruct (off_block o Ho) as [Hob _].
    destruct (Z.eqb_spec (fblock c i (o / BSIZE)) 0) as [|Hnz]; [done|]. rewrite Hd; [done|].
    destruct (io_block _ _ Hi _ Hob Hnz). lia.
Qed.

(** No block below the size of the file is missing. *)
Definition filled c (i : inode) : Prop := forall o, 0 <= o < isize i -> fblock c i (o / BSIZE) <> 0.

(** The size does not matter to the blocks. *)
Lemma inode_ok_size c i z : inode_ok c i -> inode_ok c (set_isize z i).
Proof. intros []. by split. Qed.

Record wrote c c' (i i' : inode) (off w : Z) (f : Z -> Z) : Prop := {
  wr_meta : meta_used c';
  wr_ok : inode_ok c' i';
  wr_inode : exists a, i' = set_isize (Z.max (isize i) (off + w)) (set_iaddrs a i);
  wr_filled : filled c i -> filled c' i';
  wr_bytes : written c c' i i' off w f;
  wr_disk : c' (IBLOCK (inum i) t) = store_dinode (c (IBLOCK (inum i) t)) (inum i mod IPB * DINODE) i';
  wr_used : forall b, 0 <= b < fssize t -> used c b = true -> used c' b = true;
  wr_frame : forall x, (x < bmapstart t /\ x <> IBLOCK (inum i) t) \/
               (data_block c x /\ x <> iaddrs i NDIRECT /\ forall bn, 0 <= bn < MAXFILE -> fblock c i bn <> x) -> c' x = c x
}.

Lemma wrote_intro c c' i a off w f :
  evolves c c' i (set_iaddrs a i) -> written c c' i (set_iaddrs a i) off w f ->
  (forall o, off <= o < off + w -> fblock c' (set_iaddrs a i) (o / BSIZE) <> 0) ->
  0 <= off <= isize i -> 0 <= w -> off + w <= MAXFILE * BSIZE -> isize i <= MAXFILE * BSIZE -> 0 <= inum i < ninodes t ->
  let i' := set_isize (Z.max (isize i) (off + w)) (set_iaddrs a i) in wrote c (put_dinode c' i') i i' off w f.
Proof.
  intros [E1 E2 _ E4 _ _ E7 E8] Hw Hcov Ho Hw0 Hmax Hsz Hino i'. pose proof (IBLOCK_range _ Hino) as Hr. pose proof meta_range as Hmr.
  destruct (meta_write c' i' (IBLOCK (inum i) t) (store_dinode (c' (IBLOCK (inum i) t)) (inum i mod IPB * DINODE) i') E1 (inode_ok_size _ _ _ E2) ltac:(lia)) as (M1 & M2 & M3 & M4).
  unfold put_dinode. change (inum i') with (inum i). split; try done.
  - by exists a.
  - intros Hf o Hoo. simpl in Hoo. destruct (off_block o ltac:(lia)) as [Hob _]. rewrite M3 by done.
    change (fblock c' i' (o / BSIZE)) with (fblock c' (set_iaddrs a i) (o / BSIZE)).
    destruct (Z_lt_le_dec o (isize i)) as [Hlt|Hge]; [|apply Hcov; lia].
    rewrite E7; [apply Hf; lia|done|apply Hf; lia].
  - intros o Hoo. rewrite M4 by done. apply Hw. done.
  - rewrite upd_eq. by rewrite E8 by lia.
  - intros b Hb Hu. rewrite <- (E4 b Hb Hu). apply used_ext, upd_ne. destruct (BBLOCK_range b Hb). lia.
  - intros x Hx. rewrite upd_ne.
    + apply E8. destruct Hx as [[? _]|?]; [by left|by right].
    + destruct Hx as [[_ ?]|[[? _] _]]; [done|lia].
Qed.

Lemma fuel_enough off cnt : 0 <= off -> nblocks off cnt <= Z.of_nat (io_fuel cnt).
Proof.
  intros Ho. unfold io_fuel, nblocks. destruct (Z.leb_spec cnt 0) as [?|?]; [lia|].
  rewrite Z2Nat.id by (pose proof (Z.div_pos cnt BSIZE); unfold BSIZE in *; lia).
  pose proof (Z.div_mod cnt BSIZE ltac:(done)). pose proof (Z.mod_pos_bound cnt BSIZE ltac:(done)).
  pose proof (Z.div_mod off BSIZE ltac:(done)). pose proof (Z.mod_pos_bound off BSIZE ltac:(done)).
  assert ((off + cnt - 1) / BSIZE < off / BSIZE + cnt / BSIZE + 2); [|lia].
  apply Z.div_lt_upper_bound; [done|]. unfold BSIZE in *. lia.
Qed.

Lemma writei_ok c i k (x : T) ip src off cnt :
  bl_state c [] None (6 * Z.to_nat (nblocks off cnt) + S k) (blocks (env_fs x)) ->
  sb (env_fs x) = t -> itable (env_fs x) ip = i -> idev i = dev -> 0 <= inum i < ninodes t ->
  meta_used c -> inode_ok c i -> isize i <= MAXFILE * BSIZE ->
  0 <= off <= isize i -> 0 <= cnt -> off + cnt <= MAXFILE * BSIZE ->
  0 <= src -> src + cnt < 2 ^ 64 -> (forall a, src <= a < src + cnt -> ~ env_scratch a) ->
  wp (writei n ip false src off cnt) (fun w x' => exists c' i',
    0 <= w <= cnt /\ with_inode (env_fs x) ip i' (env_fs x') /\ bl_state c' [] None k (blocks (env_fs x')) /\
    wrote c c' i i' off w (fun j => env_mem x (src + j)) /\
    (forall a, ~ env_scratch a -> env_mem x' a = env_mem x a) /\ (w < cnt -> disk_full c')) x.
Proof.
  intros Hs Et Hip Hd Hino Hm Hi Hsz Hoff Hcnt Hmax Hsrc Hsrc' Hscr. unfold writei.
  assert (Hmx : MAXFILE * BSIZE < 2 ^ 31) by (vm_compute; done).
  apply wp_bind, wpT_get. intros x1 F1 M1. rewrite Hip. rewrite u32_small by lia.
  destruct (Z.gtb_spec off (isize i)) as [?|_]; [lia|]. destruct (Z.ltb_spec (off + cnt) off) as [?|_]; [lia|]. cbn [orb].
  destruct (Z.gtb_spec (off + cnt) (MAXFILE * BSIZE)) as [?|_]; [lia|].
  apply wp_bind. eapply wp_mono; [apply (writei_loop_ok (io_fuel cnt) c i (S k) x1 ip src off cnt 0); try done; rewrite ?F1, ?Z.sub_0_r; try done; try lia|].
  { apply fuel_enough; lia. }
  intros r x2 (c2 & i2 & w & R1 & R2 & Rw & W2 & E2 & H2 & Hw & Hcov & Hm2 & Hfull).
  rewrite F1 in W2. rewrite Z.add_0_l in R1. destruct (ev_inode _ _ _ _ E2) as [a Ei2].
  apply wp_bind, wp_in_fs, wp_upd. apply wp_bind. rewrite (with_inode_at _ _ _ _ W2), R1, R2.
  assert (Esz : (if off + w >? isize i2 then set_isize (off + w) i2 else i2) = set_isize (Z.max (isize i) (off + w)) (set_iaddrs a i)).
  { subst i2. cbn [isize set_iaddrs]. destruct (Z.gtb_spec (off + w) (isize i)); [by rewrite Z.max_r by lia|].
    rewrite Z.max_l by lia. by destruct i. }
  rewrite Esz. clear Esz. set (i3 := set_isize _ _). set (x3 := put_fs _ x2).
  assert (F3 : env_fs x3 = Fs (blocks (env_fs x2)) (sb (env_fs x2)) (upd (itable (env_fs x2)) ip i3)) by apply env_fs_put.
  assert (W3 : with_inode (env_fs x) ip i3 (env_fs x3)).
  { rewrite F3. destruct W2 as [W2 W2']. split; [done|]. intros j. simpl. unfold upd. destruct (j =? ip) eqn:E; [done|]. by rewrite W2', E. }
  apply wp_in_fs. eapply wp_mono; [apply (iupdate_ok c2 k (env_fs x3) ip i3)|].
  - by rewrite F3.
  - destruct W3 as [W3 _]. congruence.
  - by apply (with_inode_at (env_fs x)).
  - done.
  - done.
  - intros [] f [[S1 S2] H4]. apply wp_ret. rewrite s32_small by lia. subst i2.
    exists (put_dinode c2 i3), i3. rewrite env_fs_put, env_mem_put. rewrite !Z.sub_0_r in *. split_and!; try done; try lia.
    + destruct W3 as [W3 W3']. split; [congruence|]. intros j. by rewrite S2.
    + apply wrote_intro; try done; try lia. intros o Hoo. rewrite (Hw o Hoo). by rewrite M1.
    + intros b Hb. subst x3. rewrite env_mem_put, Hm2, M1 by done. done.
    + intros Hlt b Hb. pose proof (IBLOCK_range _ Hino) as Hr. rewrite <- (Hfull ltac:(lia) b Hb). apply used_ext, upd_ne.
      destruct (BBLOCK_range b Hb). change (inum i3) with (inum i). lia.
Qed.

(** ** readi *)

Lemma bmap_hit c i k s ip bn :
  bl_state c [] None k (blocks s) -> itable s ip = i -> idev i = dev -> inode_ok c i ->
  0 <= bn < MAXFILE -> fblock c i bn <> 0 ->
  wp (bmap n ip bn) (fun a s' => a = fblock c i bn /\ same_tables s s' /\ bl_state c [] None k (blocks s')) s.
Proof.
  intros Hs Hip Hd Hi Hbn Hnz. pose proof meta_range as Hmr. unfold bmap. apply wp_bind, wp_get. rewrite Hip.
  unfold fblock in Hnz |- *. destruct (Z.ltb_spec bn NDIRECT) as [Hlt|Hge].
  { rewrite (proj2 (Z.eqb_neq _ 0)) by done. by apply wp_ret. }
  destruct (Z.eqb_spec (iaddrs i NDIRECT) 0) as [E|E]; [done|].
  rewrite (proj2 (Z.ltb_lt _ _)) by (unfold MAXFILE in Hbn; lia).
  unfold bmap_indirect. apply wp_bind, wp_get, wp_bind. rewrite Hip, (proj2 (Z.eqb_neq _ 0)) by done. apply wp_ret.
  rewrite (proj2 (Z.eqb_neq _ 0)), Hd by done. destruct (data_valid _ _ (io_ind _ _ Hi E)) as [Hv Hr].
  apply wp_bind, (wp_bread c [] k); [done..|apply not_elem_of_nil|simpl; lia|]. intros h x1 H1.
  apply wp_bind, (wp_get_data c [(iaddrs i NDIRECT, h)] None k _ (iaddrs i NDIRECT)); [done|by left|].
  rewrite (proj2 (Z.eqb_neq _ 0)) by done. apply wp_bind. eapply wp_brelse; [exact H1|]. intros x2 H2. by apply wp_ret.
Qed.

Definition loaded c (i : inode) (x x' : T) (dst off rem : Z) : Prop :=
  forall a, ~ env_scratch a ->
    env_mem x' a = if bool_decide (dst <= a < dst + rem) then fbyte c i (off + (a - dst)) else env_mem x a.

Lemma readi_loop_ok fuel : forall c i k (x : T) ip dst off cnt tot,
  bl_state c [] None k (blocks (env_fs x)) -> itable (env_fs x) ip = i -> idev i = dev -> inode_ok c i ->
  filled c i -> isize i <= MAXFILE * BSIZE -> 0 <= off -> 0 <= tot <= cnt -> off + (cnt - tot) <= isize i ->
  nblocks off (cnt - tot) <= Z.of_nat fuel ->
  0 <= dst -> dst + (cnt - tot) < 2 ^ 64 -> (forall a, dst <= a < dst + (cnt - tot) -> ~ env_scratch a) ->
  wp (readi_loop fuel n ip false dst off cnt tot) (fun r x' =>
    r = cnt /\ same_tables (env_fs x) (env_fs x') /\ bl_state c [] None k (blocks (env_fs x')) /\
    loaded c i x x' dst off (cnt - tot)) x.
Proof.
  induction fuel as [|fuel IH]; intros c i k x ip dst off cnt tot Hs Hip Hd Hi Hfl Hsz Ho Ht Hmax Hf Hdst Hdst' Hscr;
    cbn [readi_loop]; destruct (Z.ltb_spec tot cnt) as [Hlt|Hge];
    try (destruct (nblocks_step off (cnt - tot) Ho ltac:(lia)) as (Hc1 & Hc2 & Hc3 & Hc4)).
  2,4: apply wp_ret; split_and!; try done; [lia|]; intros a Ha; rewrite bool_decide_eq_false_2 by lia; done.
  { lia. }
  fold (chunk off (cnt - tot)). set (m := chunk off (cnt - tot)) in *.
  destruct (off_block off ltac:(lia)) as [Hbn Hmod]. assert (Hnz : fblock c i (off / BSIZE) <> 0) by (apply Hfl; lia).
  apply wp_bind, wp_in_fs. eapply wp_mono; [by apply (bmap_hit c i k)|]. intros a f (-> & St & H1).
  set (a := fblock c i (off / BSIZE)) in *. rewrite (proj2 (Z.eqb_neq a 0)) by done. set (x1 := put_fs f x).
  assert (F1 : env_fs x1 = f) by apply env_fs_put. assert (M1 : env_mem x1 = env_mem x) by apply env_mem_put.
  apply wp_bind, wpT_get. intros x2 F2 M2. rewrite F1. destruct St as [St1 St2]. rewrite St2, Hip, Hd.
  destruct (data_valid _ _ (io_block _ _ Hi _ Hbn Hnz)) as [Hav Har]. fold a in Hav, Har.
  apply wp_bind, (wpT_bread c [] k); [by rewrite F2, F1|done|done|apply not_elem_of_nil|simpl; lia|].
  intros h x3 H3 [[N1 N2] N3]. apply wp_bind, (wpT_data c [(a, h)] None k _ a); [done|by left|]. intros x4 F4 M4.
  assert (M4' : env_mem x4 = env_mem x) by congruence.
  apply wp_bind. eapply wp_mono; [apply (law_copyout dst (c a) (off mod BSIZE) m); [lia..|intros b Hb; apply Hscr; lia]|].
  intros r x5 (-> & F5 & M5). cbn [Z.eqb Z.opp].
  apply wp_bind, (wpT_brelse c [] k _ a h); [by rewrite F5, F4|]. intros x6 H6 [[L1 L2] L3]. rewrite u64_small by lia.
  assert (S6 : same_tables (env_fs x) (env_fs x6)) by (split; congruence).
  eapply wp_mono; [apply (IH c i k x6 ip (dst + m) (off + m) cnt (tot + m)); try done; try lia|].
  { destruct S6 as [_ ->]. done. }
  { replace (cnt - (tot + m)) with (cnt - tot - m) by lia. lia. }
  { intros b Hb. apply Hscr. lia. }
  intros r x7 (-> & [U1 U2] & H7 & Hl). destruct S6 as [S61 S62]. split_and!; [done|split; congruence|done|].
  intros b Hb. rewrite Hl by done. case_bool_decide as B1.
  - rewrite bool_decide_eq_true_2 by lia. f_equal. lia.
  - rewrite L3, M5 by done. case_bool_decide as B2.
    + rewrite bool_decide_eq_true_2 by lia. unfold fbyte. cbv zeta.
      destruct (chunk_block off (cnt - tot) (off + (b - dst)) Ho ltac:(lia) ltac:(lia)) as [-> E2]. fold a.
      rewrite (proj2 (Z.eqb_neq a 0)) by done. rewrite E2. f_equal. lia.
    + rewrite bool_decide_eq_false_2 by lia. by rewrite M4'.
Qed.

Lemma readi_ok c i k (x : T) ip dst off cnt :
  bl_state c [] None k (blocks (env_fs x)) -> itable (env_fs x) ip = i -> idev i = dev -> inode_ok c i ->
  filled c i -> isize i <= MAXFILE * BSIZE -> 0 <= off <= isize i -> 0 <= cnt -> off + cnt < 2 ^ 32 ->
  let r := Z.min cnt (isize i - off) in
  0 <= dst -> dst + r < 2 ^ 64 -> (forall a, dst <= a < dst + r -> ~ env_scratch a) ->
  wp (readi n ip false dst off cnt) (fun w x' =>
    w = r /\ same_tables (env_fs x) (env_fs x') /\ bl_state c [] None k (blocks (env_fs x')) /\
    loaded c i x x' dst off r) x.
Proof.
  intros Hs Hip Hd Hi Hfl Hsz Hoff Hcnt Hmax r Hdst Hdst' Hscr. unfold readi.
  assert (Hmx : MAXFILE * BSIZE < 2 ^ 31) by (vm_compute; done).
  apply wp_bind, wpT_get. intros x1 F1 M1. rewrite Hip, u32_small by lia.
  destruct (Z.gtb_spec off (isize i)) as [?|_]; [lia|]. destruct (Z.ltb_spec (off + cnt) off) as [?|_]; [lia|]. cbn [orb].
  assert (Er : (if off + cnt >? isize i then isize i - off else cnt) = r).
  { unfold r. destruct (Z.gtb_spec (off + cnt) (isize i)); lia. }
  rewrite Er. apply wp_bind. eapply wp_mono.
  { apply (readi_loop_ok (io_fuel r) c i k x1 ip dst off r 0); rewrite ?F1, ?Z.sub_0_r; try done; try lia.
    apply fuel_enough. lia. }
  intros w x2 (-> & Hst & H2 & Hl). apply wp_ret. rewrite F1 in Hst. rewrite s32_small by lia. rewrite Z.sub_0_r in Hl.
  split_and!; try done. intros a Ha. rewrite (Hl a Ha), M1. done.
Qed.
End spec.
