(* ===== verification/FsClaims.v ===== *)
(** * Properties of the file system

    Block allocation, inodes on disk, file contents, and their atomicity
    over the log. *)

From S2P Require Import Prelude Memory StringC Sleeplock Bio BioSpec Log LogSpec Fs FsLayer FsSpec.

(** ** Inodes on disk *)

Lemma s16_u16 x : - 2 ^ 15 <= x < 2 ^ 15 -> s16 (u16 x) = x.
Proof.
  intros Hx. unfold s16, u16. rewrite Zmod_mod. cbv zeta.
  destruct (Z_lt_le_dec x 0) as [Hn|Hn].
  - rewrite <- (Z_mod_plus_full x 1), Z.mod_small by lia. cif; cbool; lia.
  - rewrite Z.mod_small by lia. cif; cbool; lia.
Qed.

Lemma u16_range x : 0 <= u16 x < 2 ^ 16.
Proof. apply Z.mod_pos_bound. lia. Qed.

(** The stores of the block numbers, seen from elsewhere in the block. *)
Lemma st_addrs_out l m o a y :
  (forall i, i ∈ l -> 0 <= i <= NDIRECT) -> ~ (o + 12 <= y < o + DINODE) -> st_addrs l m o a y = m y.
Proof.
  revert m. induction l as [|i l IH]; intros m Hl Hy; simpl; [done|].
  assert (0 <= i <= NDIRECT) by (apply Hl; by left). unfold NDIRECT, DINODE in *.
  rewrite IH; [|intros j Hj; apply Hl; by right|done]. apply st32_out. lia.
Qed.

Lemma ldn_st_addrs k l m o a y :
  (forall i, i ∈ l -> 0 <= i <= NDIRECT) -> y + Z.of_nat k <= o + 12 -> ldn k (st_addrs l m o a) y = ldn k m y.
Proof. intros Hl Hy. apply ldn_ext. intros j Hj. apply st_addrs_out; [done|]. lia. Qed.

Lemma st_addrs_other l m o a i :
  i ∉ l -> ld32 (st_addrs l m o a) (o + 12 + 4 * i) = ld32 m (o + 12 + 4 * i).
Proof.
  revert m. induction l as [|j l IH]; intros m Hi; simpl; [done|].
  apply not_elem_of_cons in Hi as [Hij Hi]. rewrite IH by done. apply ld32_st32_other. lia.
Qed.

Lemma st_addrs_in l m o a i :
  NoDup l -> i ∈ l -> 0 <= a i < 2 ^ 32 -> ld32 (st_addrs l m o a) (o + 12 + 4 * i) = a i.
Proof.
  revert m. induction l as [|j l IH]; intros m Hnd Hi Ha; [by apply elem_of_nil in Hi|].
  apply NoDup_cons in Hnd as [Hj Hnd]. simpl. apply elem_of_cons in Hi as [->|Hi]; [|by apply IH].
  rewrite st_addrs_other by done. rewrite u32_small by done. by apply ld32_st32_same.
Qed.

Lemma ld_addrs_spec l m o a i :
  NoDup l -> ld_addrs l m o a i = if bool_decide (i ∈ l) then ld32 m (o + 12 + 4 * i) else a i.
Proof.
  revert a. induction l as [|j l IH]; intros a Hnd; simpl; [done|]. apply NoDup_cons in Hnd as [Hj Hnd].
  rewrite IH by done. destruct (decide (i = j)) as [->|Hij].
  - rewrite bool_decide_eq_false_2 by done. rewrite upd_eq, bool_decide_eq_true_2 by (by left). done.
  - rewrite upd_ne by done. erewrite bool_decide_ext; [reflexivity|]. set_solver.
Qed.

(** The fields fit their C types. *)
Definition inode_range (i : inode) : Prop :=
  - 2 ^ 15 <= itype i < 2 ^ 15 /\ - 2 ^ 15 <= imajor i < 2 ^ 15 /\ - 2 ^ 15 <= iminor i < 2 ^ 15 /\
  - 2 ^ 15 <= inlink i < 2 ^ 15 /\ 0 <= isize i < 2 ^ 32 /\ forall j, 0 <= j <= NDIRECT -> 0 <= iaddrs i j < 2 ^ 32.

(** The on-disk fields of two inodes agree. *)
Definition same_dinode (i j : inode) : Prop :=
  itype j = itype i /\ imajor j = imajor i /\ iminor j = iminor i /\ inlink j = inlink i /\ isize j = isize i /\
  forall b, 0 <= b <= NDIRECT -> iaddrs j b = iaddrs i b.

Lemma same_dinode_valid i j v : same_dinode i j -> same_dinode i (set_ivalid v j).
Proof. done. Qed.

Lemma addrs_list i : i ∈ seqZ 0 (NDIRECT + 1) -> 0 <= i <= NDIRECT.
Proof. rewrite elem_of_seqZ. lia. Qed.

Lemma load_store_dinode m o i j : inode_range i -> same_dinode i (load_dinode (store_dinode m o i) o j).
Proof.
  intros (H1 & H2 & H3 & H4 & H5 & H6). unfold load_dinode, store_dinode. cbv zeta.
  set (m1 := st32 _ _ _).
  assert (E16 : forall y, y + 2 <= o + 12 -> ld16 (st_addrs (seqZ 0 (NDIRECT + 1)) m1 o (iaddrs i)) y = ld16 m1 y).
  { intros y Hy. apply (ldn_st_addrs 2); [apply addrs_list|]. lia. }
  assert (E32 : ld32 (st_addrs (seqZ 0 (NDIRECT + 1)) m1 o (iaddrs i)) (o + 8) = ld32 m1 (o + 8)).
  { apply (ldn_st_addrs 4); [apply addrs_list|]. lia. }
  pose proof u16_range as Hu. split_and!; cbn [itype imajor iminor inlink isize iaddrs set_itype set_imajor set_iminor set_inlink set_isize set_iaddrs].
  - rewrite E16 by lia. unfold m1. rewrite ld16_st32_other by lia. rewrite !ld16_st16_other by lia.
    rewrite ld16_st16_same by done. by apply s16_u16.
  - rewrite E16 by lia. unfold m1. rewrite ld16_st32_other by lia. rewrite !ld16_st16_other by lia.
    rewrite ld16_st16_same by done. by apply s16_u16.
  - rewrite E16 by lia. unfold m1. rewrite ld16_st32_other by lia. rewrite ld16_st16_other by lia.
    rewrite ld16_st16_same by done. by apply s16_u16.
  - rewrite E16 by lia. unfold m1. rewrite ld16_st32_other by lia. rewrite ld16_st16_same by done. by apply s16_u16.
  - rewrite E32. unfold m1. rewrite ld32_st32_same by apply u32_range. by apply u32_small.
  - intros b Hb. rewrite ld_addrs_spec by apply NoDup_seqZ. rewrite bool_decide_eq_true_2 by (rewrite elem_of_seqZ; lia).
    apply st_addrs_in; [apply NoDup_seqZ|rewrite elem_of_seqZ; lia|auto].
Qed.

Lemma store_dinode_out m o i y : ~ (o <= y < o + DINODE) -> store_dinode m o i y = m y.
Proof.
  intros Hy. unfold store_dinode. cbv zeta. unfold DINODE in *.
  rewrite st_addrs_out; [|apply addrs_list|unfold DINODE; lia]. rewrite st32_out by lia. rewrite !st16_out by lia. done.
Qed.

(** The table entry with its copy of the on-disk inode gone, as when the
    entry was recycled in between. *)
Definition forget (x : inode) : inode :=
  Inode (idev x) (inum x) (iref x) (ilk x) 0 0 0 0 0 0 (fun _ => 0).

Section claims.
Context {B : Type} `{HB : BlockLayer B} {n dev : Z} `{HL : !BlockLaws B n dev}.
Variable t : superblock.
Hypothesis Hlay : layout t.

(** An [ilock] of an entry that holds only the inode's number, of an inode
    in use on disk. *)
Lemma ilock_ok (c : Z -> mem) (k : nat) (s : fs B) (ip : Z) (x : inode) :
  bl_state c [] None k (blocks s) -> sb s = t -> itable s ip = x -> idev x = dev -> 0 <= inum x < ninodes t ->
  ivalid x = 0 -> 1 <= iref x -> slocked (ilk x) = 0 ->
  let y := load_dinode (c (IBLOCK (inum x) t)) (inum x mod IPB * DINODE) (set_ilk (Sleeplock 1 n) x) in
  itype y <> 0 ->
  wp (ilock n ip) (fun _ s' =>
    itable s' ip = set_ivalid 1 y /\ (forall j, j <> ip -> itable s' j = itable s j) /\ sb s' = t /\
    bl_state c [] None k (blocks s')) s.
Proof.
  intros Hs Et Hip Hd Hino Hv Href Hlk y Hty. unfold ilock. apply wp_bind, wp_get. rewrite Hip.
  destruct (Z.ltb_spec (iref x) 1) as [?|_]; [lia|].
  apply wp_bind. unfold lock_inode. apply wp_bind, wp_get. rewrite Hip. unfold take_sleep. rewrite Hlk.
  apply wp_upd. apply wp_bind, wp_get. cbn [itable]. rewrite upd_eq, Hip. cbn [ivalid set_ilk]. rewrite Hv. cbn [Z.eqb].
  apply wp_bind, wp_get. cbn [sb inum idev set_ilk]. rewrite Et, Hd. pose proof (IBLOCK_range t Hlay _ Hino) as Hib.
  pose proof (meta_range t Hlay) as Hmr. destruct (ly_size t Hlay) as [Hz1 Hz2].
  apply wp_bind, (wp_bread c [] k); [done|apply (ly_valid t Hlay); lia|lia|apply not_elem_of_nil|simpl; lia|].
  intros h x4 H4. apply wp_bind, (wp_get_data c [(IBLOCK (inum x) t, h)] None k _ (IBLOCK (inum x) t)); [done|by left|].
  apply wp_bind, wp_upd.
  apply wp_bind. eapply wp_brelse; [exact H4|]. intros x5 H5. apply wp_bind, wp_upd, wp_bind, wp_get.
  cbn [itable set_blocks blocks sb]. rewrite !upd_eq. fold y. clearbody y.
  cbn [itype set_ivalid]. rewrite (proj2 (Z.eqb_neq _ 0)) by done. apply wp_ret.
  cbn [itable set_blocks blocks sb]. rewrite !upd_eq. split; [reflexivity|]. split; [|split; [reflexivity|exact H5]].
  intros j Hj. by rewrite !upd_ne.
Qed.

(** Inodes survive on disk.  After [iupdate], an [ilock] that finds only
    the inode's number in the table entry reads back the type, device
    numbers, link count, size and block addresses that were there, for all
    values their C types hold; no other byte of any block has changed, so
    the other inodes of the block are intact. *)
Theorem inode_disk_roundtrip (c : Z -> mem) (k : nat) (s : fs B) (ip : Z) (i : inode) :
  bl_state c [] None (S k) (blocks s) -> sb s = t -> itable s ip = i -> idev i = dev -> 0 <= inum i < ninodes t ->
  inode_range i -> itype i <> 0 -> 1 <= iref i -> slocked (ilk i) = 0 ->
  wp (do! iupdate n ip; do! upd_inode ip forget; ilock n ip) (fun _ s' => exists c',
    same_dinode i (itable s' ip) /\ ivalid (itable s' ip) = 1 /\ held_by n (ilk (itable s' ip)) = true /\
    (forall j, j <> ip -> itable s' j = itable s j) /\ bl_state c' [] None k (blocks s') /\
    (forall b y, b <> IBLOCK (inum i) t \/ ~ (inum i mod IPB * DINODE <= y < inum i mod IPB * DINODE + DINODE) ->
       c' b y = c b y)) s.
Proof.
  intros Hs Et Hip Hd Hino Hr Hty Href Hlk. apply wp_bind. eapply wp_mono; [by apply (iupdate_ok t Hlay c k s ip i)|].
  intros [] s1 [[S1 S2] H1]. apply wp_bind, wp_upd. set (s2 := Fs _ _ _).
  assert (I2 : itable s2 ip = forget i) by (simpl; by rewrite upd_eq, S2, Hip).
  assert (O2 : forall j, j <> ip -> itable s2 j = itable s j) by (intros j Hj; simpl; by rewrite upd_ne, S2).
  assert (T2 : sb s2 = t) by (simpl; congruence). assert (B2 : bl_state (put_dinode t c i) [] None k (blocks s2)) by exact H1.
  clearbody s2. assert (Hl : forall j, same_dinode i (load_dinode (put_dinode t c i (IBLOCK (inum i) t)) (inum i mod IPB * DINODE) j)).
  { intros j. unfold put_dinode. rewrite upd_eq. by apply load_store_dinode. }
  eapply wp_mono; [apply (ilock_ok (put_dinode t c i) k s2 ip (forget i)); try done|].
  { cbv zeta. cbn [forget inum]. destruct (Hl (set_ilk (Sleeplock 1 n) (forget i))) as [-> _]. done. }
  intros [] s3 (I3 & O3 & T3 & B3). exists (put_dinode t c i). rewrite I3. split; [apply same_dinode_valid, Hl|].
  split; [reflexivity|].
  split; [|split; [|split; [exact B3|]]].
  - unfold held_by. simpl. by rewrite Z.eqb_refl.
  - intros j Hj. by rewrite O3, O2.
  - intros b y Hby. unfold put_dinode, upd. destruct (Z.eqb_spec b (IBLOCK (inum i) t)) as [->|]; [|done].
    destruct Hby as [?|Hy]; [done|]. by apply store_dinode_out.
Qed.

Context {T : Type} `{HE : FsEnv B T} `{HO : !FsEnvOk B T}.

End claims.

(** ** Writes over the log *)
Section atomic_write.
Context {T : Type} `{HE : FsEnv log T} `{HO : !FsEnvOk log T}.
Variables dev st n : Z.
Hypothesis Hdev : dev <> 0.
Hypothesis Hst : 0 <= st /\ st + LOGBLOCKS < 2 ^ 31.
Variable t : superblock.

(** The bytes one [filewrite] transaction writes, at most. *)
Definition max_write : Z := (MAXOPBLOCKS - 1 - 1 - 2) / 2 * BSIZE.

Lemma max_write_blocks off cnt : 0 <= off -> 0 <= cnt <= max_write -> FsSpec.nblocks off cnt <= 4.
Proof.
  intros Ho Hc. change max_write with 3072 in Hc. unfold FsSpec.nblocks. destruct (Z.leb_spec cnt 0) as [?|?]; [lia|].
  unfold BSIZE. Z.to_euclidean_division_equations. lia.
Qed.

(** The layout of a disk whose log starts at [st]. *)
Definition log_layout : Prop :=
  0 < fssize t < 2 ^ 31 /\
  (0 < inodestart t /\ 0 < ninodes t /\ inodestart t + (ninodes t - 1) / IPB < bmapstart t) /\
  dstart t <= fssize t /\ forall b, inodestart t <= b < fssize t -> home st b.

Lemma log_layout_ok d w o cm : log_layout -> @layout log log_layer n dev (log_laws dev st n Hdev Hst d w o cm) t.
Proof. by intros (H1 & H2 & H3 & H4). Qed.

End atomic_write.

(** ** A small disk: the log from block 2, the inodes in block 33, the free
    map in block 34, with inode 1 an empty file *)

Definition demo_sb : superblock := Superblock FSMAGIC 200 165 16 31 2 33 34.
Definition demo_file : inode := Inode 1 1 1 (Sleeplock 0 0) 1 T_FILE 0 0 1 0 (fun _ => 0).
Definition demo_img : Z -> mem :=
  upd (upd (fun _ _ => 0) 33 (store_dinode (fun _ => 0) 64 demo_file)) 34
    (fun o => if o <? 4 then 255 else if o =? 4 then 7 else 0).

Lemma demo_fs_home b : 33 <= b < 200 -> home 2 b.
Proof. unfold home, in_log, LOGBLOCKS, MAXOPBLOCKS. lia. Qed.

Lemma demo_log_layout : log_layout 2 demo_sb.
Proof. split; [simpl; lia|]. split; [vm_compute; auto|]. split; [vm_compute; discriminate|apply demo_fs_home]. Qed.

Lemma demo_ram_layout : layout (B := Z -> mem) (n := 9) (dev := 1) demo_sb.
Proof. destruct demo_log_layout as (H1 & H2 & H3 & _). by split. Qed.

Lemma demo_meta c : c 34 = demo_img 34 -> meta_used demo_sb c.
Proof.
  intros E b Hb. change (dstart demo_sb) with 35 in Hb.
  assert (Hall : forallb (fun b => used demo_sb demo_img b) (seqZ 0 35) = true) by (vm_compute; reflexivity).
  rewrite forallb_forall in Hall. unfold used. change (BBLOCK b demo_sb) with (BBLOCK b demo_sb).
  assert (Hbb : BBLOCK b demo_sb = 34) by (unfold BBLOCK; rewrite Z.div_small by (unfold BPB, BSIZE; lia); reflexivity).
  rewrite Hbb, E, <- Hbb. apply Hall. apply list_elem_of_In, elem_of_seqZ. lia.
Qed.

Lemma demo_inode_ok c i : (forall j, iaddrs i j = 0) -> inode_ok demo_sb c i.
Proof.
  intros Hi. assert (H0 : forall bn, fblock c i bn = 0).
  { intros bn. unfold fblock. rewrite !Hi. by destruct (bn <? NDIRECT). }
  split; intros; rewrite ?H0, ?Hi in *; done.
Qed.

Definition demo_inode : inode := Inode 1 3 1 (Sleeplock 0 0) 1 T_DIR (-1) 2 (-3) 70000 (fun j => 40 + j).

Lemma inode_disk_roundtrip_witness :
  exists s, (do! iupdate 9 0; do! upd_inode 0 forget; ilock 9 0) (Fs demo_img demo_sb (fun _ => demo_inode)) = Ret tt s /\
    itype (itable s 0) = T_DIR /\ imajor (itable s 0) = -1 /\ isize (itable s 0) = 70000 /\ iaddrs (itable s 0) 12 = 52.
Proof.
  unshelve epose proof (inode_disk_roundtrip (n := 9) (dev := 1) demo_sb demo_ram_layout demo_img 0
    (Fs demo_img demo_sb (fun _ => demo_inode)) 0 demo_inode _ eq_refl eq_refl eq_refl _ _ _ _ eq_refl) as Hw.
  - split; [done|]. intros b h Hb. by apply elem_of_nil in Hb.
  - simpl. lia.
  - unfold inode_range, NDIRECT, demo_inode, T_DIR; simpl. split_and!; try lia.
  - discriminate.
  - simpl. lia.
  - apply (proj1 (wp_ex _ _ _)) in Hw as ([] & s & E & c' & (D1 & D2 & _ & _ & D5 & D6) & _).
    exists s. split; [exact E|]. rewrite D1, D2, D5, (D6 12) by (unfold NDIRECT; lia). repeat split; reflexivity.
Defined.

Definition demo_mem : mem := fun a => a mod 256.
Definition demo_x : fs (Z -> mem) * mem := (Fs demo_img demo_sb (fun _ => demo_file), demo_mem).


Lemma demo_img_header : header 2 [] demo_img.
Proof. split; [vm_compute; reflexivity|]. intros j f Hj. by rewrite lookup_nil in Hj. Qed.

Lemma demo_nil_list : log_list 2 [].
Proof. split_and!; [apply NoDup_nil_2|unfold NBUF; simpl; lia|by intros b ?%elem_of_nil]. Qed.

