(* ===== verification/Userland.v ===== *)
(** * What user programs are made of

    Strings as bytes; the table of descriptors of a process, as fork, open,
    dup, close and pipe change it; and the behaviour of a process that
    starts other ones: the tree of the system calls it makes, with a branch
    for each way a call can return. *)

From S2P Require Import Prelude.

(** The bytes of a literal. *)
Definition text (s : string) : list Z := (fun c => Z.of_N (Ascii.N_of_ascii c)) <$> String.list_ascii_of_string s.
#[global] Arguments text : simpl never.

(** The C string at the start of some bytes. *)
Fixpoint cstring (l : list Z) : list Z := match l with [] => [] | c :: l' => if c =? 0 then [] else c :: cstring l' end.

(** ** Descriptors *)

(** An open file: one the program was started with, a named one, or an end
    of a pipe. *)
Inductive obj := OStart (k : Z) | OFile (name : list Z) (mode : Z) | OPipe (id : list bool) (write : bool).

Definition fdtable : Type := list (option obj).

(** The descriptor is the lowest one that is free, as in [fdalloc]. *)
Fixpoint fd_new (t : fdtable) (o : obj) : option (Z * fdtable) :=
  match t with
  | [] => None
  | None :: t' => Some (0, Some o :: t')
  | x :: t' => match fd_new t' o with Some (fd, t') => Some (fd + 1, x :: t') | None => None end
  end.

Definition fd_get (t : fdtable) (fd : Z) : option obj := if fd <? 0 then None else mjoin (t !! Z.to_nat fd).
Definition fd_close (t : fdtable) (fd : Z) : fdtable := if fd <? 0 then t else <[Z.to_nat fd := None]> t.
Definition fd_dup (t : fdtable) (fd : Z) : option (Z * fdtable) := match fd_get t fd with Some o => fd_new t o | None => None end.

(** The two descriptors of a new pipe. *)
Definition fd_pipe (t : fdtable) (id : list bool) : option (Z * Z * fdtable) :=
  match fd_new t (OPipe id false) with
  | None => None
  | Some (fd0, t) =>
      match fd_new t (OPipe id true) with
      | None => None
      | Some (fd1, t) => Some (fd0, fd1, t)
      end
  end.

(** ** Processes *)

(** A process that runs a program or waits does so with its descriptors [t]. *)
Inductive beh :=
| Bexit (status : Z)
| Bexec (path : list Z) (argv : list (list Z)) (t : fdtable) (failed : beh)
| Bopen (path : list Z) (mode : Z) (opened failed : beh)
| Bpipe (id : list bool) (made failed : beh)
| Bfork (child parent failed : beh)
| Bwait (t : fdtable) (k : beh)
| Bchdir (path : list Z) (done failed : beh)
| Bprint (o : option obj) (s : list Z) (k : beh).
