(* ===== verification/Mkfs.v ===== *)
(** * mkfs/mkfs.c: the initial file system image

    The image is an array of blocks.  The files given to the tool are their
    names on the command line and the pieces their [read]s return; the host's
    own errors ([die]) are left out, and an [assert] that fails is a panic.
    The host is little-endian, where [xshort] and [xint] change nothing. *)

From S2P Require Import Prelude Memory StringC Sleeplock Bio Log Fs Userland.

Definition FSSIZE : Z := 20000.
Definition NINODES : Z := 200.
Definition nbitmap : Z := FSSIZE / BPB + 1.
Definition ninodeblocks : Z := NINODES / IPB + 1.
Definition mk_nlog : Z := LOGBLOCKS + 1.
Definition nmeta : Z := 2 + mk_nlog + ninodeblocks + nbitmap.
Definition mk_nblocks : Z := FSSIZE - nmeta.

Definition mk_sb : superblock :=
  Superblock FSMAGIC FSSIZE mk_nblocks NINODES mk_nlog 2 (2 + mk_nlog) (2 + mk_nlog + ninodeblocks).

Record mkfs := Mkfs { img : Z -> mem; freeinode : Z; freeblock : Z }.

Definition zeroes : mem := fun _ => 0.
Definition wsect (sec : Z) (buf : mem) : M mkfs unit :=
  kupd (fun s => Mkfs (upd (img s) sec buf) (freeinode s) (freeblock s)).
Definition rsect (sec : Z) : M mkfs mem := kget (fun s => img s sec).

(** [struct dinode] after [bzero]. *)
Definition zero_dinode : inode := Inode 0 0 0 (Sleeplock 0 0) 0 0 0 0 0 0 (fun _ => 0).

Definition winode (inum : Z) (ip : inode) : M mkfs unit :=
  let bn := IBLOCK inum mk_sb in
  let! buf := rsect bn in
  wsect bn (store_dinode buf (inum mod IPB * DINODE) ip).

Definition rinode (inum : Z) : M mkfs inode :=
  let! buf := rsect (IBLOCK inum mk_sb) in
  kret (load_dinode buf (inum mod IPB * DINODE) zero_dinode).

Definition mk_ialloc (type : Z) : M mkfs Z :=
  let! inum := kget freeinode in
  do! kupd (fun s => Mkfs (img s) (u32 (inum + 1)) (freeblock s));
  do! winode inum (set_isize 0 (set_inlink 1 (set_itype type zero_dinode)));
  kret inum.

(** The loop that sets the bits. *)
Definition mk_bits (used : Z) : mem := fold_left mark_bit (seqZ 0 used) zeroes.

Definition mk_balloc (used : Z) : M mkfs unit :=
  if used >=? BPB then kpanic "assert" else wsect (bmapstart mk_sb) (mk_bits used).

(** [freeblock++]. *)
Definition next_block : M mkfs Z :=
  let! b := kget freeblock in
  do! kupd (fun s => Mkfs (img s) (freeinode s) (u32 (b + 1)));
  kret b.

(** The block of the file, allocated if there is none, and the inode after that. *)
Definition locate (din : inode) (fbn : Z) : M mkfs (Z * inode) :=
  if fbn <? NDIRECT then
    let! din := (if iaddrs din fbn =? 0 then let! b := next_block in kret (set_iaddrs (upd (iaddrs din) fbn b) din) else kret din) in
    kret (iaddrs din fbn, din)
  else
    let! din := (if iaddrs din NDIRECT =? 0 then let! b := next_block in kret (set_iaddrs (upd (iaddrs din) NDIRECT b) din) else kret din) in
    let! indirect := rsect (iaddrs din NDIRECT) in
    let! indirect :=
      (if entry indirect (fbn - NDIRECT) =? 0 then
         let! b := next_block in
         let indirect := st32 indirect (4 * (fbn - NDIRECT)) b in
         do! wsect (iaddrs din NDIRECT) indirect;
         kret indirect
       else kret indirect) in
    kret (entry indirect (fbn - NDIRECT), din).

(** [bcopy(p, buf + at, n)]. *)
Definition bcopy (p : list Z) (buf : mem) (at_ n : Z) : mem :=
  fun x => if (at_ <=? x) && (x <? at_ + n) then nth (Z.to_nat (x - at_)) p 0 else buf x.

(** [p] is the rest of the bytes to append, of which there are [n]. *)
Fixpoint iappend_loop (fuel : nat) (din : inode) (off : Z) (p : list Z) (n : Z) : M mkfs (inode * Z) :=
  if n <=? 0 then kret (din, off) else
  match fuel with
  | O => khang
  | S f =>
      let fbn := off / BSIZE in
      if fbn >=? MAXFILE then kpanic "assert" else
      let! r := locate din fbn in
      let '(x, din) := r in
      let n1 := Z.min n ((fbn + 1) * BSIZE - off) in
      let! buf := rsect x in
      do! wsect x (bcopy p buf (off - fbn * BSIZE) n1);
      iappend_loop f din (u32 (off + n1)) (drop (Z.to_nat n1) p) (n - n1)
  end.

Definition iappend (inum : Z) (xp : list Z) : M mkfs unit :=
  let n := Z.of_nat (length xp) in
  let! din := rinode inum in
  let! r := iappend_loop (Z.to_nat (n / BSIZE + 2)) din (isize din) xp n in
  let '(din, off) := r in
  winode inum (set_isize off din).

(** ** The command *)

(** [struct dirent] with the name padded with zeroes. *)
Definition dirent (inum : Z) (name : list Z) : list Z :=
  [inum mod 256; inum / 256 mod 256] ++ take (Z.to_nat DIRSIZ) (name ++ replicate (Z.to_nat DIRSIZ) 0).

(** The name in the image of a file named on the command line. *)
Definition shortname (arg : list Z) : list Z := if bool_decide (take 5 arg = text "user/") then drop 5 arg else arg.
Definition skip_underscore (name : list Z) : list Z := if hd 0 name =? 95 then tl name else name.

Definition add_file (file : list Z * list (list Z)) : M mkfs unit :=
  let name := shortname (fst file) in
  if bool_decide (47 ∈ name) then kpanic "assert" else
  let name := skip_underscore name in
  if Z.of_nat (length name) >? DIRSIZ then kpanic "assert" else
  let! inum := mk_ialloc T_FILE in
  do! iappend ROOTINO (dirent (u16 inum) name);
  for_each (snd file) (iappend inum).

Definition sb_block : mem :=
  let w := [magic mk_sb; fssize mk_sb; nblocks mk_sb; ninodes mk_sb; nlog mk_sb; logstart mk_sb; inodestart mk_sb; bmapstart mk_sb] in
  fst (fold_left (fun '(m, a) v => (st32 m a v, a + 4)) w (zeroes, 0)).

Definition mkfs_main (files : list (list Z * list (list Z))) : M mkfs unit :=
  do! kupd (fun s => Mkfs (img s) 1 nmeta);
  do! for_each (seqZ 0 FSSIZE) (fun i => wsect i zeroes);
  do! wsect 1 sb_block;
  let! rootino := mk_ialloc T_DIR in
  if negb (rootino =? ROOTINO) then kpanic "assert" else
  do! iappend rootino (dirent (u16 rootino) (text "."));
  do! iappend rootino (dirent (u16 rootino) (text ".."));
  do! for_each files add_file;
  let! din := rinode rootino in
  let off := (isize din / BSIZE + 1) * BSIZE in
  do! winode rootino (set_isize (u32 off) din);
  let! used := kget freeblock in
  mk_balloc used.
