(* ===== verification/MkfsSpec.v ===== *)
(** * The image that mkfs makes is a file system the kernel accepts

    The blocks mkfs allocates, the contents it appends, and the invariant
    of the image under construction; at the end the superblock, the free
    map, the inodes and the directory are as the theorems on fs.c need
    them, with the bytes of the files given to the tool. *)

From S2P Require Import Prelude Memory StringC Sleeplock Bio Log Fs FsLayer FsSpec FsClaims Userland Mkfs.

(** ** The blocks of a file *)

(** The first [nb] blocks of the file are there, below block [fb], and the
    indirect block if [q]. *)
Record shape (c : Z -> mem) (fb : Z) (i : inode) (nb : Z) (q : bool) : Prop := Shape {
  sh_nb : 0 <= nb <= MAXFILE;
  sh_in : forall bn, 0 <= bn < nb -> nmeta <= fblock c i bn < fb;
  sh_out : forall bn, nb <= bn < MAXFILE -> fblock c i bn = 0;
  sh_ind : if q then nmeta <= iaddrs i NDIRECT < fb else iaddrs i NDIRECT = 0;
  sh_inj : forall bn bn', 0 <= bn < nb -> 0 <= bn' < nb -> fblock c i bn = fblock c i bn' -> bn = bn';
  sh_not_ind : forall bn, 0 <= bn < nb -> fblock c i bn <> iaddrs i NDIRECT
}.

(** Whether a file of [nb] blocks has an indirect block. *)
Definition big (nb : Z) : bool := NDIRECT <? nb.

(** The blocks from [fb] on are zero. *)
Definition clean (c : Z -> mem) (fb : Z) : Prop := forall b o, fb <= b < FSSIZE -> 0 <= o < BSIZE -> c b o = 0.

(** The blocks a file of [nb] blocks takes. *)
Definition cost (nb : Z) : Z := nb + (if big nb then 1 else 0).

Lemma cost_mono a b : a <= b -> cost a <= cost b.
Proof. unfold cost, big. intros. destruct (Z.ltb_spec NDIRECT a), (Z.ltb_spec NDIRECT b); lia. Qed.

Lemma nmeta_eq : nmeta = 49.
Proof. reflexivity. Qed.

Lemma fblock_direct c i bn : bn < NDIRECT -> fblock c i bn = iaddrs i bn.
Proof. intros H. unfold fblock. by rewrite (proj2 (Z.ltb_lt _ _) H). Qed.

Lemma fblock_indirect c i bn :
  NDIRECT <= bn -> iaddrs i NDIRECT <> 0 -> fblock c i bn = entry (c (iaddrs i NDIRECT)) (bn - NDIRECT).
Proof. intros H Hi. unfold fblock. by rewrite (proj2 (Z.ltb_ge _ _) H), (proj2 (Z.eqb_neq _ _) Hi). Qed.

Lemma fblock_hole c i bn : NDIRECT <= bn -> iaddrs i NDIRECT = 0 -> fblock c i bn = 0.
Proof. intros H Hi. unfold fblock. by rewrite (proj2 (Z.ltb_ge _ _) H), Hi. Qed.

(** A block that is there is found. *)
Lemma locate_hit c fi fb i nb bn :
  shape c fb i nb (big nb) -> 0 <= bn < nb -> locate i bn (Mkfs c fi fb) = Ret (fblock c i bn, i) (Mkfs c fi fb).
Proof.
  intros [Hnb Hin _ Hind _ _] Hbn. pose proof (Hin bn Hbn) as Hx. rewrite nmeta_eq in *. unfold locate, big in *.
  destruct (Z.ltb_spec bn NDIRECT).
  - rewrite fblock_direct in * by done. unfold kbind. by rewrite (proj2 (Z.eqb_neq (iaddrs i bn) 0)) by lia.
  - destruct (Z.ltb_spec NDIRECT nb); [|lia]. rewrite fblock_indirect in * by lia. unfold kbind.
    rewrite (proj2 (Z.eqb_neq (iaddrs i NDIRECT) 0)) by lia. unfold kret, rsect, kget. cbn [img].
    by rewrite (proj2 (Z.eqb_neq (entry _ _) 0)) by lia.
Qed.

(** The file has one more block, [x], and keeps the others. *)
Record extends (c : Z -> mem) (fb : Z) (i : inode) (nb : Z) (c' : Z -> mem) (fb' : Z) (i' : inode) (x : Z) (q : bool) : Prop := Extends {
  ex_shape : shape c' fb' i' (nb + 1) q;
  ex_new : fblock c' i' nb = x;
  ex_old : forall bn, 0 <= bn < nb -> fblock c' i' bn = fblock c i bn;
  ex_x : fb <= x < fb';
  ex_inode : exists a, i' = set_iaddrs a i;
  ex_frame : forall b, b <> iaddrs i' NDIRECT \/ b = 0 -> c' b = c b;
  ex_ind : iaddrs i' NDIRECT = iaddrs i NDIRECT \/ fb <= iaddrs i' NDIRECT;
  ex_clean : clean c' fb'
}.

(** A new block [fb] at the end of the file, in whichever table. *)
Lemma extends_intro c fb i nb c' i' q :
  shape c fb i nb q -> nb < MAXFILE -> clean c fb -> nmeta <= fb ->
  (exists a, i' = set_iaddrs a i) -> iaddrs i' NDIRECT = iaddrs i NDIRECT ->
  fblock c' i' nb = fb -> (forall bn, 0 <= bn < MAXFILE -> bn <> nb -> fblock c' i' bn = fblock c i bn) ->
  (forall b, b <> iaddrs i' NDIRECT \/ q = false -> c' b = c b) ->
  extends c fb i nb c' (fb + 1) i' fb q.
Proof.
  intros [Hnb Hin Hout Hind Hinj Hni] Hd Hc Hfb Ha Ei Hx Hold Hfr. pose proof nmeta_eq as Hm.
  split; try done; [|intros; apply Hold; lia|lia|intros b Hb; apply Hfr; rewrite Ei in *; destruct q; [left; lia|by right]|by left|].
  - split; [lia| | | | |].
    + intros bn Hbn. destruct (Z.eq_dec bn nb) as [->|]; [rewrite Hx; lia|]. rewrite Hold by lia. specialize (Hin bn ltac:(lia)). lia.
    + intros bn Hbn. rewrite Hold by lia. apply Hout. lia.
    + rewrite Ei. destruct q; lia.
    + intros b1 b2 H1 H2. destruct (Z.eq_dec b1 nb) as [->|], (Z.eq_dec b2 nb) as [->|]; rewrite ?Hx, ?Hold by lia; intros E; try done.
      * specialize (Hin b2 ltac:(lia)). lia.
      * specialize (Hin b1 ltac:(lia)). lia.
      * apply Hinj; [lia..|done].
    + intros bn Hbn. rewrite Ei. destruct (Z.eq_dec bn nb) as [->|]; [rewrite Hx; destruct q; lia|]. rewrite Hold by lia. apply Hni. lia.
  - intros b o Hb Ho. rewrite Hfr; [apply Hc; lia|]. rewrite Ei. destruct q; [left; lia|by right].
Qed.

Lemma extends_direct c fb i nb :
  shape c fb i nb (big nb) -> nb < NDIRECT -> clean c fb -> nmeta <= fb ->
  extends c fb i nb c (fb + 1) (set_iaddrs (upd (iaddrs i) nb fb) i) fb (big (nb + 1)).
Proof.
  unfold big. intros H Hd Hc Hfb. rewrite (proj2 (Z.ltb_ge NDIRECT nb)) in H by lia. rewrite (proj2 (Z.ltb_ge NDIRECT (nb + 1))) by lia.
  assert (iaddrs i NDIRECT = 0) as Hi0 by (by destruct H).
  apply extends_intro; try done; [unfold MAXFILE; change NINDIRECT with 256; lia|by eexists|cbn [iaddrs set_iaddrs]; by rewrite upd_ne by lia| |].
  - rewrite fblock_direct by done. apply upd_eq.
  - intros bn _ Hne. destruct (Z_lt_le_dec bn NDIRECT); [rewrite !fblock_direct by done; by apply upd_ne|].
    rewrite !fblock_hole; [done..|]. cbn [iaddrs set_iaddrs]. by rewrite upd_ne by lia.
Qed.

Lemma extends_entry c fb i nb :
  shape c fb i nb true -> NDIRECT <= nb < MAXFILE -> clean c fb -> nmeta <= fb < 2 ^ 32 ->
  extends c fb i nb (upd c (iaddrs i NDIRECT) (st32 (c (iaddrs i NDIRECT)) (4 * (nb - NDIRECT)) fb)) (fb + 1) i fb true.
Proof.
  intros H Hd Hc Hfb. pose proof nmeta_eq as Hm. assert (nmeta <= iaddrs i NDIRECT < fb) as Hi by (by destruct H).
  apply extends_intro; try done; [lia|lia|by exists (iaddrs i); destruct i| | |].
  - rewrite fblock_indirect by lia. rewrite upd_eq, entry_st32 by lia. by rewrite Z.eqb_refl.
  - intros bn Hbn Hne. destruct (Z_lt_le_dec bn NDIRECT); [by rewrite !fblock_direct|].
    rewrite !fblock_indirect by lia. rewrite upd_eq, entry_st32 by lia. by rewrite (proj2 (Z.eqb_neq _ _)) by lia.
  - intros b [Hb|[=]]. by apply upd_ne.
Qed.

(** The indirect block is allocated before its first entry. *)
Lemma shape_indirect c fb i :
  shape c fb i NDIRECT false -> clean c fb -> nmeta <= fb < FSSIZE ->
  shape c (fb + 1) (set_iaddrs (upd (iaddrs i) NDIRECT fb) i) NDIRECT true /\
  (forall bn, 0 <= bn < NDIRECT -> fblock c (set_iaddrs (upd (iaddrs i) NDIRECT fb) i) bn = fblock c i bn).
Proof.
  intros [Hnb Hin Hout Hind Hinj Hni] Hc Hfb. pose proof nmeta_eq as Hm. set (i' := set_iaddrs _ i).
  assert (iaddrs i' NDIRECT = fb) as Ei by apply upd_eq.
  assert (forall bn, 0 <= bn < NDIRECT -> fblock c i' bn = fblock c i bn) as Hold.
  { intros bn Hbn. rewrite !fblock_direct by lia. unfold i'. cbn [iaddrs set_iaddrs]. apply upd_ne. lia. }
  split; [|done]. split; [done| | | | |].
  - intros bn Hbn. rewrite Hold by done. specialize (Hin bn Hbn). lia.
  - intros bn Hbn. rewrite fblock_indirect, Ei by lia. apply indirect_entry_zero; [intros; apply Hc; lia|unfold MAXFILE in *; lia].
  - rewrite Ei. lia.
  - intros b1 b2 H1 H2. rewrite !Hold by done. by apply Hinj.
  - intros bn Hbn. rewrite Hold, Ei by done. specialize (Hin bn Hbn). lia.
Qed.

Lemma next_block_eq c fi fb : 0 <= fb < FSSIZE -> next_block (Mkfs c fi fb) = Ret fb (Mkfs c fi (fb + 1)).
Proof. intros H. unfold next_block, kbind, kget, kupd, kret. cbn. rewrite u32_small; [done|]. unfold FSSIZE in H. lia. Qed.

(** A block after the last one is allocated. *)
Lemma locate_new c fi fb i nb :
  shape c fb i nb (big nb) -> 0 <= nb < MAXFILE -> clean c fb -> nmeta <= fb -> fb + cost (nb + 1) - cost nb <= FSSIZE ->
  exists c' i' x, locate i nb (Mkfs c fi fb) = Ret (x, i') (Mkfs c' fi (fb + cost (nb + 1) - cost nb)) /\
    extends c fb i nb c' (fb + cost (nb + 1) - cost nb) i' x (big (nb + 1)).
Proof.
  intros H Hnb Hc Hfb Hsp. pose proof nmeta_eq as Hm. unfold locate.
  assert (FSSIZE < 2 ^ 32) as Hbig by done.
  destruct (Z.ltb_spec nb NDIRECT) as [Hd|Hd].
  { assert (cost (nb + 1) - cost nb = 1) as Hco.
    { unfold cost, big. rewrite !(proj2 (Z.ltb_ge NDIRECT _)) by lia. lia. }
    replace (fb + cost (nb + 1) - cost nb) with (fb + 1) in * by lia.
    assert (iaddrs i nb = 0) as E0 by (rewrite <- (fblock_direct c i nb) by done; apply (sh_out _ _ _ _ _ H); lia).
    rewrite E0, Z.eqb_refl. unfold kbind. rewrite next_block_eq by lia. cbn. rewrite upd_eq. do 3 eexists. split; [done|].
    by apply extends_direct. }
  destruct (Z.eqb_spec (iaddrs i NDIRECT) 0) as [E0|E0].
  - assert (big nb = false /\ nb = NDIRECT) as [Hb ->].
    { destruct H as [_ _ _ Hind _ _]. unfold big in *. destruct (Z.ltb_spec NDIRECT nb); [lia|split; [done|lia]]. }
    assert (cost (NDIRECT + 1) - cost NDIRECT = 2) as Hco by done.
    replace (fb + cost (NDIRECT + 1) - cost NDIRECT) with (fb + 1 + 1) in * by lia. rewrite Hb in H.
    destruct (shape_indirect c fb i H Hc ltac:(lia)) as [H1 Hold]. set (i1 := set_iaddrs _ i) in *.
    assert (clean c (fb + 1)) as Hc1 by (intros b o Hbo; apply Hc; lia).
    pose proof (extends_entry c (fb + 1) i1 NDIRECT H1 ltac:(done) Hc1 ltac:(lia)) as [X1 X2 X3 X4 X5 X6 X7 X8].
    assert (iaddrs i1 NDIRECT = fb) as Ei by apply upd_eq.
    unfold kbind. rewrite next_block_eq by lia. unfold kret. fold i1. unfold rsect, kget. cbn [img]. rewrite Ei in *.
    assert (entry (c fb) (NDIRECT - NDIRECT) = 0) as -> by (apply indirect_entry_zero; [intros; apply Hc; lia|done]).
    rewrite Z.eqb_refl, next_block_eq by lia. unfold wsect, kupd. cbn [img freeinode freeblock].
    rewrite entry_st32, Z.eqb_refl by lia. do 3 eexists. split; [done|].
    constructor; [exact X1|exact X2|intros; rewrite X3 by done; by apply Hold|lia|by eexists|rewrite Ei; exact X6|right; rewrite Ei; lia|exact X8].
  - assert (big nb = true /\ big (nb + 1) = true) as [Hb Hb1].
    { destruct H as [_ _ _ Hind _ _]. unfold big in *. destruct (Z.ltb_spec NDIRECT nb); [|done]. split; [done|]. apply Z.ltb_lt. lia. }
    assert (cost (nb + 1) - cost nb = 1) as Hco by (unfold cost; rewrite Hb, Hb1; lia).
    replace (fb + cost (nb + 1) - cost nb) with (fb + 1) in * by lia. rewrite Hb in H. rewrite Hb1.
    assert (entry (c (iaddrs i NDIRECT)) (nb - NDIRECT) = 0) as Ee.
    { rewrite <- (fblock_indirect c i nb) by done. apply (sh_out _ _ _ _ _ H). lia. }
    unfold kbind, kret, rsect, kget. cbn [img]. rewrite Ee, Z.eqb_refl, next_block_eq by lia.
    unfold wsect, kupd. cbn [img freeinode freeblock]. rewrite entry_st32, Z.eqb_refl by lia. do 3 eexists. split; [done|].
    apply extends_entry; done || lia.
Qed.

(** ** Contents *)

(** The bytes in the first [nb] blocks: the data, then zeroes. *)
Definition content (c : Z -> mem) (i : inode) (nb : Z) (data : list Z) : Prop :=
  forall o, 0 <= o < nb * BSIZE -> c (fblock c i (o / BSIZE)) (o mod BSIZE) = nth (Z.to_nat o) data 0.

Definition blocks_of (data : list Z) : Z := (Z.of_nat (length data) + BSIZE - 1) / BSIZE.

Definition file_at (c : Z -> mem) (fb : Z) (i : inode) (data : list Z) : Prop :=
  shape c fb i (blocks_of data) (big (blocks_of data)) /\ content c i (blocks_of data) data.

(** The blocks of the file. *)
Definition owns (c : Z -> mem) (i : inode) (b : Z) : Prop :=
  b <> 0 /\ (b = iaddrs i NDIRECT \/ exists bn, 0 <= bn < MAXFILE /\ fblock c i bn = b).

(** The rest of the image stays as it is. *)
Record appended (c : Z -> mem) (fb : Z) (i : inode) (c' : Z -> mem) (fb' : Z) (i' : inode) : Prop := Appended {
  ap_inode : exists a, i' = set_iaddrs a i;
  ap_fb : fb <= fb';
  ap_frame : forall b, b < fb -> ~ owns c i b -> c' b = c b;
  ap_owns : forall b, owns c' i' b -> owns c i b \/ fb <= b < fb';
  ap_clean : clean c' fb'
}.

Lemma appended_refl c fb i : clean c fb -> appended c fb i c fb i.
Proof. intros Hc. split; try done; [by exists (iaddrs i); destruct i|by left]. Qed.

Lemma appended_trans c1 fb1 i1 c2 fb2 i2 c3 fb3 i3 :
  appended c1 fb1 i1 c2 fb2 i2 -> appended c2 fb2 i2 c3 fb3 i3 -> appended c1 fb1 i1 c3 fb3 i3.
Proof.
  intros [[a1 ->] F1 R1 O1 C1] [[a2 ->] F2 R2 O2 C2]. split; [by exists a2; destruct i1|lia| | |done].
  - intros b Hb Ho. rewrite <- (R1 b Hb Ho). apply R2; [lia|]. intros [?|?]%O1; [done|lia].
  - intros b [[?|?]%O1|?]%O2; [by left|right; lia|right; lia].
Qed.

Lemma shape_owns c fb i nb q b : shape c fb i nb q -> owns c i b -> nmeta <= b < fb.
Proof.
  intros [Hnb Hin Hout Hind _ _] [H0 [->|(bn & Hbn & E)]].
  - destruct q; [done|]. by rewrite Hind in H0.
  - destruct (Z_lt_le_dec bn nb); [rewrite <- E; apply Hin; lia|]. rewrite Hout in E by lia. congruence.
Qed.

Lemma extends_appended c fb i nb c' fb' i' x q q' :
  shape c fb i nb q -> extends c fb i nb c' fb' i' x q' -> appended c fb i c' fb' i'.
Proof.
  intros H [Hs Hn Ho Hx Hi Hf Hd Hc]. split; try done; [lia| |].
  - intros b Hb Hno. apply Hf. destruct (Z.eq_dec b 0) as [->|H0]; [by right|left]. intros ->.
    destruct Hd as [Hd|Hd]; [|lia]. apply Hno. split; [done|by left].
  - intros b Hb. pose proof (shape_owns _ _ _ _ _ _ Hs Hb) as Hr. destruct Hb as [H0 [->|(bn & Hbn & E)]].
    + destruct Hd as [Hd|Hd]; [left; rewrite Hd in *; split; [done|by left]|right; lia].
    + destruct (Z.eq_dec bn nb) as [->|]; [right; lia|]. destruct (Z_lt_le_dec bn nb) as [Hlt|].
      * left. split; [done|]. right. exists bn. split; [done|]. rewrite <- Ho by lia. done.
      * rewrite (sh_out _ _ _ _ _ Hs) in E by lia. congruence.
Qed.

Lemma off_split o : 0 <= o -> o = o / BSIZE * BSIZE + o mod BSIZE /\ 0 <= o / BSIZE /\ 0 <= o mod BSIZE < BSIZE.
Proof. intros. unfold BSIZE. Z.to_euclidean_division_equations; lia. Qed.

Lemma blocks_of_spec data nb : blocks_of data = nb <-> (nb - 1) * BSIZE < Z.of_nat (length data) <= nb * BSIZE.
Proof. unfold blocks_of, BSIZE. split; intros; Z.to_euclidean_division_equations; lia. Qed.

(** The block the next byte goes to is there, and everything before is unchanged. *)
Lemma located c fi fb i data :
  let fbn := Z.of_nat (length data) / BSIZE in
  let fb' := fb + cost (fbn + 1) - cost (blocks_of data) in
  file_at c fb i data -> clean c fb -> nmeta <= fb -> fbn < MAXFILE -> fb' <= FSSIZE ->
  exists c' i' x, locate i fbn (Mkfs c fi fb) = Ret (x, i') (Mkfs c' fi fb') /\ x = fblock c' i' fbn /\
    shape c' fb' i' (fbn + 1) (big (fbn + 1)) /\ content c' i' (fbn + 1) data /\ appended c fb i c' fb' i'.
Proof.
  intros fbn fb' [Hsh Hco] Hc Hfb Hmax Hsp. pose proof (off_split (Z.of_nat (length data)) ltac:(lia)) as (Ho & Hf0 & Hm). fold fbn in Ho, Hf0.
  destruct (Z.eq_dec (Z.of_nat (length data) mod BSIZE) 0) as [E0|E0].
  - assert (blocks_of data = fbn) as Hnb by (apply blocks_of_spec; unfold BSIZE in *; lia). subst fb'. rewrite Hnb in *.
    destruct (locate_new c fi fb i fbn Hsh ltac:(lia) Hc Hfb Hsp) as (c' & i' & x & El & Hx).
    exists c', i', x. split; [done|]. pose proof (extends_appended _ _ _ _ _ _ _ _ _ _ Hsh Hx) as Hap. destruct Hx as [X1 X2 X3 X4 X5 X6 X7 X8].
    split; [done|]. split; [done|]. split; [|done]. intros o Hob. destruct (off_split o ltac:(lia)) as (Eo & H1 & H2).
    destruct (Z.eq_dec (o / BSIZE) fbn) as [Eb|Eb].
    + rewrite Eb, X2, nth_overflow by (unfold BSIZE in *; nia). rewrite X6 by (left; rewrite <- X2; apply (sh_not_ind _ _ _ _ _ X1); lia).
      apply Hc; lia.
    + assert (o / BSIZE < fbn) by (unfold BSIZE in *; nia). rewrite <- (Hco o) by (unfold BSIZE in *; nia). rewrite X3 by lia.
      rewrite X6; [done|]. left. rewrite <- X3 by lia. apply (sh_not_ind _ _ _ _ _ X1). lia.
  - assert (blocks_of data = fbn + 1) as Hnb by (apply blocks_of_spec; unfold BSIZE in *; lia). subst fb'. rewrite Hnb in *.
    replace (fb + cost (fbn + 1) - cost (fbn + 1)) with fb by lia.
    exists c, i, (fblock c i fbn). rewrite (locate_hit _ _ _ _ (fbn + 1)) by (done || lia).
    split_and!; try done. by apply appended_refl.
Qed.

(** Bytes stored in a data block of the file leave its structure alone. *)
Lemma shape_write c fb i nb q bn m :
  shape c fb i nb q -> 0 <= bn < nb ->
  (forall b, fblock (upd c (fblock c i bn) m) i b = fblock c i b) /\ shape (upd c (fblock c i bn) m) fb i nb q.
Proof.
  intros H Hbn. pose proof (sh_not_ind _ _ _ _ _ H bn Hbn) as Hni.
  assert (forall b, fblock (upd c (fblock c i bn) m) i b = fblock c i b) as E.
  { intros b. apply fblock_ext. intros _. apply upd_ne. congruence. }
  split; [done|]. destruct H as [Hnb Hin Hout Hind Hinj Hnot].
  split; try done; intros *; rewrite !E; auto.
Qed.

Lemma write_appended c fb i nb q bn m :
  shape c fb i nb q -> 0 <= bn < nb -> clean c fb -> appended c fb i (upd c (fblock c i bn) m) fb i.
Proof.
  intros H Hbn Hc. destruct (shape_write c fb i nb q bn m H Hbn) as [E _]. pose proof (sh_in _ _ _ _ _ H bn Hbn) as Hr.
  pose proof nmeta_eq as Hm. destruct (sh_nb _ _ _ _ _ H) as [_ Hmax]. split; [by exists (iaddrs i); destruct i|lia| | |].
  - intros b Hb Hno. apply upd_ne. intros ->. apply Hno. split; [lia|]. right. exists bn. split; [lia|done].
  - intros b [H0 [Hi|(b' & Hb' & <-)]]; left; (split; [done|]); [by left|]. right. exists b'. by rewrite E.
  - intros b o Hb Ho. rewrite upd_ne by lia. by apply Hc.
Qed.

Lemma nth_piece data p k n :
  (k < length data + n)%nat -> (n <= length p)%nat ->
  nth k (data ++ take n p) 0 = if (k <? length data)%nat then nth k data 0 else nth (k - length data) p 0.
Proof.
  intros Hk Hn. destruct (Nat.ltb_spec k (length data)); [by apply app_nth1|]. rewrite app_nth2 by done.
  rewrite !nth_lookup. rewrite lookup_take_lt by lia. done.
Qed.

(** One round of the loop of [iappend]. *)
Lemma append_step c fi fb i data p :
  let off := Z.of_nat (length data) in
  let fbn := off / BSIZE in
  let n1 := Z.min (Z.of_nat (length p)) ((fbn + 1) * BSIZE - off) in
  let data' := data ++ take (Z.to_nat n1) p in
  let fb' := fb + cost (blocks_of data') - cost (blocks_of data) in
  file_at c fb i data -> clean c fb -> nmeta <= fb -> p <> [] -> fbn < MAXFILE -> fb' <= FSSIZE ->
  exists c1 i' x, locate i fbn (Mkfs c fi fb) = Ret (x, i') (Mkfs c1 fi fb') /\
    let c' := upd c1 x (bcopy p (c1 x) (off - fbn * BSIZE) n1) in
    file_at c' fb' i' data' /\ appended c fb i c' fb' i'.
Proof.
  intros off fbn n1 data' fb' Hf Hc Hfb Hp Hmax Hsp. destruct (off_split off ltac:(lia)) as (Eo & Hf0 & Hm). fold fbn in Eo, Hf0.
  assert (0 < Z.of_nat (length p)) as Hp0 by (destruct p; [done|cbn; lia]).
  assert (Z.of_nat (length data') = off + n1) as Hl'.
  { unfold data'. rewrite length_app, length_take. unfold n1, BSIZE in *. lia. }
  assert (blocks_of data' = fbn + 1) as Hnb by (apply blocks_of_spec; unfold n1, BSIZE in *; lia).
  subst fb'. rewrite Hnb in Hsp |- *.
  destruct (located c fi fb i data Hf Hc Hfb Hmax Hsp) as (c1 & i' & x & El & -> & Hsh & Hco & Hap). fold off fbn in El, Hsh, Hco, Hap |- *.
  exists c1, i', (fblock c1 i' fbn). split; [done|]. cbv zeta.
  destruct (shape_write _ _ _ _ _ fbn (bcopy p (c1 (fblock c1 i' fbn)) (off - fbn * BSIZE) n1) Hsh ltac:(lia)) as [E Hsh'].
  split; [|eapply appended_trans; [exact Hap|]; eapply write_appended; [exact Hsh|lia|by destruct Hap]].
  split; [by rewrite Hnb|]. rewrite Hnb. intros o Ho. rewrite E. destruct (off_split o ltac:(lia)) as (Eo' & Ho1 & Ho2).
  assert (o / BSIZE <= fbn) by (unfold BSIZE in *; nia).
  destruct (Z.eq_dec (o / BSIZE) fbn) as [Eb|Eb].
  - rewrite Eb, upd_eq. unfold bcopy. specialize (Hco o ltac:(lia)). rewrite Eb in Hco.
    destruct (Z.leb_spec (off - fbn * BSIZE) (o mod BSIZE)), (Z.ltb_spec (o mod BSIZE) (off - fbn * BSIZE + n1)); cbn [andb].
    + unfold data'. rewrite nth_piece by (unfold n1, off in *; lia). 
      rewrite (proj2 (Nat.ltb_ge _ _)) by (unfold off in *; lia). f_equal. unfold off in *. lia.
    + rewrite Hco, !nth_overflow; [done|..]; unfold n1, off in *; lia.
    + rewrite Hco. unfold data'. rewrite nth_piece by (unfold n1, off in *; lia). 
      by rewrite (proj2 (Nat.ltb_lt _ _)) by (unfold off in *; lia).
    + unfold n1 in *. unfold BSIZE in *. lia.
  - assert (o / BSIZE < fbn) by lia. rewrite upd_ne.
    + rewrite Hco by lia. unfold data'. rewrite nth_piece by (unfold n1, off, BSIZE in *; nia).
      by rewrite (proj2 (Nat.ltb_lt _ _)) by (unfold off, BSIZE in *; nia).
    + intros Eq. apply (sh_inj _ _ _ _ _ Hsh) in Eq; lia.
Qed.

(** The rounds the loop takes. *)
Definition rounds (data p : list Z) : Z := if bool_decide (p = []) then 0 else blocks_of (data ++ p) - Z.of_nat (length data) / BSIZE.

Lemma blocks_of_mono data p : blocks_of data <= blocks_of (data ++ p).
Proof. unfold blocks_of. rewrite length_app. apply Z.div_le_mono; unfold BSIZE; lia. Qed.

(** The bytes the next round takes. *)
Definition piece (data p : list Z) : Z :=
  Z.min (Z.of_nat (length p)) ((Z.of_nat (length data) / BSIZE + 1) * BSIZE - Z.of_nat (length data)).

Lemma piece_range data p : p <> [] -> 0 < piece data p <= Z.of_nat (length p).
Proof.
  intros Hp. destruct (off_split (Z.of_nat (length data)) ltac:(lia)) as (Eo & Hf0 & Hm).
  assert (0 < Z.of_nat (length p)) by (destruct p; [done|cbn; lia]). unfold piece, BSIZE in *. lia.
Qed.

Lemma piece_length data p : p <> [] ->
  Z.of_nat (length (data ++ take (Z.to_nat (piece data p)) p)) = Z.of_nat (length data) + piece data p.
Proof. intros Hp. pose proof (piece_range data p Hp). rewrite length_app, length_take. lia. Qed.

Lemma rounds_step data p f :
  p <> [] -> rounds data p <= Z.of_nat (S f) ->
  rounds (data ++ take (Z.to_nat (piece data p)) p) (drop (Z.to_nat (piece data p)) p) <= Z.of_nat f.
Proof.
  intros Hp. unfold rounds. rewrite bool_decide_eq_false_2 by done. rewrite <- app_assoc, take_drop, piece_length by done. intros Hr.
  case_bool_decide as Hd; [lia|]. pose proof (piece_range data p Hp).
  assert (0 < Z.of_nat (length (drop (Z.to_nat (piece data p)) p))) as Hl by (destruct (drop _ _); [done|cbn; lia]).
  rewrite length_drop in Hl.
  replace (Z.of_nat (length data) + piece data p) with ((Z.of_nat (length data) / BSIZE + 1) * BSIZE) by (unfold piece in *; lia).
  rewrite Z.div_mul by done. lia.
Qed.

Lemma rounds_positive data p : p <> [] -> 0 < rounds data p.
Proof.
  intros Hp. unfold rounds. rewrite bool_decide_eq_false_2 by done. destruct (off_split (Z.of_nat (length data)) ltac:(lia)) as (Eo & Hf0 & Hm).
  assert (0 < Z.of_nat (length p)) by (destruct p; [done|cbn; lia]).
  pose proof (proj1 (blocks_of_spec (data ++ p) _) eq_refl) as Hb. rewrite length_app in Hb. unfold BSIZE in *. nia.
Qed.

Lemma block_bound (data p : list Z) : p <> [] -> Z.of_nat (length (data ++ p)) <= MAXFILE * BSIZE -> Z.of_nat (length data) / BSIZE < MAXFILE.
Proof.
  intros Hp Hmax. destruct (off_split (Z.of_nat (length data)) ltac:(lia)) as (Eo & Hf0 & Hm).
  assert (0 < Z.of_nat (length p)) by (destruct p; [done|cbn; lia]).
  rewrite length_app in Hmax. unfold BSIZE in *. nia.
Qed.

Lemma iappend_loop_ok fuel : forall c fi fb i data p,
  let fb' := fb + cost (blocks_of (data ++ p)) - cost (blocks_of data) in
  file_at c fb i data -> clean c fb -> nmeta <= fb -> Z.of_nat (length (data ++ p)) <= MAXFILE * BSIZE -> fb' <= FSSIZE ->
  rounds data p <= Z.of_nat fuel ->
  exists c' i', iappend_loop fuel i (Z.of_nat (length data)) p (Z.of_nat (length p)) (Mkfs c fi fb) =
      Ret (i', Z.of_nat (length (data ++ p))) (Mkfs c' fi fb') /\
    file_at c' fb' i' (data ++ p) /\ appended c fb i c' fb' i'.
Proof.
  induction fuel as [|f IH]; intros c fi fb i data p fb' Hf Hc Hfb Hmax Hsp Hr.
  all: destruct (decide (p = [])) as [->|Hp];
    [subst fb'; rewrite app_nil_r, Z.add_simpl_r; exists c, i; split; [done|split; [exact Hf|by apply appended_refl]]|].
  { pose proof (rounds_positive data p Hp). lia. }
  pose proof (piece_range data p Hp) as Hpr. pose proof (piece_length data p Hp) as El. pose proof (rounds_step data p f Hp Hr) as Hr'.
  pose proof (block_bound data p Hp Hmax) as Hfm.
  set (n1 := piece data p) in *.
  assert ((data ++ take (Z.to_nat n1) p) ++ drop (Z.to_nat n1) p = data ++ p) as Ep by (by rewrite <- app_assoc, take_drop).
  pose proof (cost_mono _ _ (blocks_of_mono (data ++ take (Z.to_nat n1) p) (drop (Z.to_nat n1) p))) as Hcm. rewrite Ep in Hcm.
  pose proof (cost_mono _ _ (blocks_of_mono data (take (Z.to_nat n1) p))) as Hcm1.
  destruct (append_step c fi fb i data p Hf Hc Hfb Hp Hfm) as (c1 & i1 & x & Eloc & Hf1 & Ha1); [fold (piece data p) n1; lia|].
  fold (piece data p) n1 in Eloc, Hf1, Ha1.
  destruct (IH _ fi _ i1 (data ++ take (Z.to_nat n1) p) (drop (Z.to_nat n1) p) Hf1) as (c2 & i2 & E2 & Hf2 & Ha2);
    [by destruct Ha1|lia|by rewrite Ep|rewrite Ep; lia|done|].
  rewrite Ep in *. replace (fb + cost (blocks_of (data ++ take (Z.to_nat n1) p)) - cost (blocks_of data) + cost (blocks_of (data ++ p)) -
    cost (blocks_of (data ++ take (Z.to_nat n1) p))) with fb' in * by (unfold fb'; lia).
  exists c2, i2. split; [|split; [done|by eapply appended_trans]].
  cbn [iappend_loop]. rewrite (proj2 (Z.leb_gt _ _)) by lia. rewrite Z.geb_leb, (proj2 (Z.leb_gt _ _)) by lia.
  unfold kbind at 1. rewrite Eloc. unfold kbind, rsect, kget, wsect, kupd. cbn [img freeinode freeblock]. fold (piece data p) n1.
  rewrite El in E2. rewrite u32_small by (rewrite length_app in Hmax; unfold MAXFILE in *; change NINDIRECT with 256 in *; unfold NDIRECT, BSIZE in *; lia).
  replace (Z.of_nat (length p) - n1) with (Z.of_nat (length (drop (Z.to_nat n1) p))) by (rewrite length_drop; lia).
  exact E2.
Qed.

(** ** Inodes on the image *)

(** The on-disk inode [ino]. *)
Definition rd (c : Z -> mem) (ino : Z) : inode := load_dinode (c (IBLOCK ino mk_sb)) (ino mod IPB * DINODE) zero_dinode.

Lemma rinode_eq ino c fi fb : rinode ino (Mkfs c fi fb) = Ret (rd c ino) (Mkfs c fi fb).
Proof. reflexivity. Qed.

Lemma IBLOCK_mk ino : 0 <= ino < NINODES -> IBLOCK ino mk_sb = ino / 16 + 33 /\ 33 <= IBLOCK ino mk_sb < 46.
Proof.
  intros H. unfold IBLOCK. change IPB with 16. change (inodestart mk_sb) with 33. unfold NINODES in H.
  assert (0 <= ino / 16 < 13) by (Z.to_euclidean_division_equations; lia). rewrite u32_small; lia.
Qed.

Lemma ld_addrs_ext l m m' o a :
  (forall i, i ∈ l -> ld32 m (o + 12 + 4 * i) = ld32 m' (o + 12 + 4 * i)) -> ld_addrs l m o a = ld_addrs l m' o a.
Proof.
  revert a. induction l as [|i l IH]; intros a H; [done|]. cbn. rewrite H by left. apply IH. intros j Hj. apply H. by right.
Qed.

Lemma load_dinode_ext m m' o i : (forall y, o <= y < o + DINODE -> m y = m' y) -> load_dinode m o i = load_dinode m' o i.
Proof.
  intros H. unfold DINODE in H. unfold load_dinode.
  assert (forall y, o <= y <= o + 62 -> ld16 m y = ld16 m' y) as H16
    by (intros y Hy; with_strategy transparent [ld16] apply ldn_ext; intros; apply H; lia).
  assert (forall y, o <= y <= o + 60 -> ld32 m y = ld32 m' y) as H32
    by (intros y Hy; with_strategy transparent [ld32] apply ldn_ext; intros; apply H; lia).
  rewrite !H16, H32 by lia. f_equal. apply ld_addrs_ext. intros j Hj%addrs_list. apply H32. unfold NDIRECT in Hj. lia.
Qed.

(** Another inode, or another block, does not change an inode. *)
Lemma rd_other c b m ino : b <> IBLOCK ino mk_sb -> rd (upd c b m) ino = rd c ino.
Proof. intros H. unfold rd. by rewrite upd_ne by done. Qed.

Definition put (c : Z -> mem) (ino : Z) (i : inode) : Z -> mem :=
  upd c (IBLOCK ino mk_sb) (store_dinode (c (IBLOCK ino mk_sb)) (ino mod IPB * DINODE) i).

Lemma winode_eq ino i c fi fb : winode ino i (Mkfs c fi fb) = Ret tt (Mkfs (put c ino i) fi fb).
Proof. reflexivity. Qed.

Lemma rd_put_same c ino i : inode_range i -> same_dinode i (rd (put c ino i) ino).
Proof. intros H. unfold rd, put. rewrite upd_eq. by apply load_store_dinode. Qed.

Lemma rd_put_other c ino i j :
  0 <= ino < NINODES -> 0 <= j < NINODES -> j <> ino -> rd (put c ino i) j = rd c j.
Proof.
  intros Hi Hj Hne. destruct (IBLOCK_mk ino Hi) as [E1 _], (IBLOCK_mk j Hj) as [E2 _].
  destruct (Z.eq_dec (ino / 16) (j / 16)) as [E|E].
  - unfold rd, put. replace (IBLOCK j mk_sb) with (IBLOCK ino mk_sb) by lia. rewrite upd_eq.
    apply load_dinode_ext. intros y Hy. apply store_dinode_out. revert Hy. unfold DINODE. change IPB with 16.
    intros. Z.to_euclidean_division_equations. lia.
  - apply rd_other. lia.
Qed.

Lemma put_data c ino i b : 0 <= ino < NINODES -> b < 33 \/ 46 <= b -> put c ino i b = c b.
Proof. intros Hi Hb. destruct (IBLOCK_mk ino Hi) as [_ ?]. apply upd_ne. lia. Qed.

(** Files see only the addresses of their inode and the blocks of data. *)
Lemma fblock_same c c' i i' bn :
  same_dinode i i' -> 0 <= bn < MAXFILE -> (iaddrs i NDIRECT <> 0 -> c' (iaddrs i NDIRECT) = c (iaddrs i NDIRECT)) ->
  fblock c' i' bn = fblock c i bn.
Proof.
  intros (_ & _ & _ & _ & _ & Ha) Hbn Hc. unfold fblock. rewrite (Ha NDIRECT) by done.
  destruct (Z.ltb_spec bn NDIRECT); [by apply Ha; lia|]. destruct (Z.eqb_spec (iaddrs i NDIRECT) 0); [done|]. by rewrite Hc.
Qed.

Lemma file_at_same c fb i data c' fb' i' :
  same_dinode i i' -> (forall b, owns c i b -> c' b = c b) -> fb <= fb' -> file_at c fb i data -> file_at c' fb' i' data.
Proof.
  intros Hs Hc Hfb [[Hnb Hin Hout Hind Hinj Hni] Hco].
  assert (iaddrs i' NDIRECT = iaddrs i NDIRECT) as Ea by (destruct Hs as (_ & _ & _ & _ & _ & Ha); by apply Ha).
  assert (forall bn, 0 <= bn < MAXFILE -> fblock c' i' bn = fblock c i bn) as E.
  { intros bn Hbn. apply fblock_same; [done|done|]. intros Hi. apply Hc. split; [done|by left]. }
  split.
  - split; rewrite ?Ea; try done.
    + intros bn Hbn. rewrite E by lia. specialize (Hin bn Hbn). lia.
    + intros bn Hbn. rewrite E by lia. auto.
    + destruct (big _); lia.
    + intros b1 b2 H1 H2. rewrite !E by lia. auto.
    + intros bn Hbn. rewrite E by lia. auto.
  - intros o Ho. destruct (off_split o ltac:(lia)) as (Eo & H1 & H2).
    assert (0 <= o / BSIZE < blocks_of data) as Hb by (unfold BSIZE in *; nia).
    rewrite <- Hco by done. rewrite E by lia. rewrite Hc; [done|]. specialize (Hin _ Hb). pose proof nmeta_eq. split; [lia|].
    right. exists (o / BSIZE). split; [lia|done].
Qed.

Lemma file_at_size c fb i data n : file_at c fb i data -> file_at c fb (set_isize n i) data.
Proof. intros [[] ?]. split; [by split|done]. Qed.

Lemma owns_same c i c' i' b :
  same_dinode i i' -> (iaddrs i NDIRECT <> 0 -> c' (iaddrs i NDIRECT) = c (iaddrs i NDIRECT)) -> owns c' i' b -> owns c i b.
Proof.
  intros Hs Hc [H0 H]. assert (iaddrs i' NDIRECT = iaddrs i NDIRECT) as Ea by (destruct Hs as (_ & _ & _ & _ & _ & Ha); by apply Ha).
  split; [done|]. rewrite Ea in H. destruct H as [?|(bn & Hbn & <-)]; [by left|]. right. exists bn. split; [done|]. symmetry. by apply fblock_same.
Qed.

(** ** The image under construction *)

(** Files by inode, from 1 on: type and bytes. *)
Definition space (fs : list (Z * list Z)) : Z := foldr (fun f n => cost (blocks_of (snd f)) + n) 0 fs.

Definition is_file (c : Z -> mem) (fb : Z) (i : inode) (type : Z) (data : list Z) : Prop :=
  itype i = type /\ imajor i = 0 /\ iminor i = 0 /\ inlink i = 1 /\ isize i = Z.of_nat (length data) /\ file_at c fb i data.

Record image (s : mkfs) (fs : list (Z * list Z)) : Prop := Image {
  im_count : freeinode s = Z.of_nat (length fs) + 1 /\ Z.of_nat (length fs) < NINODES;
  im_fb : freeblock s = nmeta + space fs;
  im_clean : clean (img s) (freeblock s);
  im_file : forall k type data, fs !! k = Some (type, data) -> is_file (img s) (freeblock s) (rd (img s) (Z.of_nat k + 1)) type data;
  im_disj : forall j k b, (j < length fs)%nat -> (k < length fs)%nat -> j <> k ->
    owns (img s) (rd (img s) (Z.of_nat j + 1)) b -> ~ owns (img s) (rd (img s) (Z.of_nat k + 1)) b;
  im_free : forall ino, freeinode s <= ino < NINODES -> itype (rd (img s) ino) = 0;
  im_map : forall b o, 46 <= b < nmeta -> 0 <= o < BSIZE -> img s b o = 0;
  im_sb : img s 1 = sb_block
}.

Lemma cost_nonneg data : 0 <= cost (blocks_of data).
Proof.
  assert (0 <= blocks_of data) by (unfold blocks_of; apply Z.div_pos; unfold BSIZE; lia).
  unfold cost. destruct (big _); lia.
Qed.

Lemma space_cons f fs : space (f :: fs) = cost (blocks_of (snd f)) + space fs.
Proof. reflexivity. Qed.

Lemma space_nonneg fs : 0 <= space fs.
Proof. induction fs as [|f fs IH]; [done|]. rewrite space_cons. pose proof (cost_nonneg (snd f)). lia. Qed.

Lemma space_app fs gs : space (fs ++ gs) = space fs + space gs.
Proof. induction fs as [|f fs IH]; [done|]. cbn [app]. rewrite !space_cons, IH. lia. Qed.

Lemma space_insert fs k type data data' :
  fs !! k = Some (type, data) -> space (<[k := (type, data')]> fs) = space fs + cost (blocks_of data') - cost (blocks_of data).
Proof.
  intros H. pose proof (take_drop_middle _ _ _ H) as E. rewrite insert_take_drop by (by eapply lookup_lt_Some).
  rewrite <- E at 3. rewrite !space_app, !space_cons. cbn [snd]. lia.
Qed.

Lemma file_empty c fb i : (forall j, 0 <= j <= NDIRECT -> iaddrs i j = 0) -> file_at c fb i [].
Proof.
  intros Hz. assert (forall bn, 0 <= bn < MAXFILE -> fblock c i bn = 0) as Hb.
  { intros bn Hbn. unfold fblock. rewrite (Hz NDIRECT) by done. destruct (Z.ltb_spec bn NDIRECT); [apply Hz; lia|done]. }
  unfold file_at. change (blocks_of []) with 0. split; [split|]; try (intros; lia); [done|auto|by apply Hz|].
  intros o Ho. lia.
Qed.

Lemma no_owner c i b : (forall j, 0 <= j <= NDIRECT -> iaddrs i j = 0) -> ~ owns c i b.
Proof.
  intros Hz [H0 [->|(bn & Hbn & <-)]]; [by rewrite Hz in H0|]. apply H0. unfold fblock. rewrite (Hz NDIRECT) by done.
  destruct (Z.ltb_spec bn NDIRECT); [apply Hz; lia|done].
Qed.

Lemma image_owns s fs k b :
  image s fs -> (k < length fs)%nat -> owns (img s) (rd (img s) (Z.of_nat k + 1)) b -> nmeta <= b < freeblock s.
Proof.
  intros Hi [[type data] Hk]%lookup_lt_is_Some_2 Ho. destruct (im_file _ _ Hi k type data Hk) as (_ & _ & _ & _ & _ & [Hs _]).
  by eapply shape_owns.
Qed.

Lemma same_dinode_refl i : same_dinode i i.
Proof. done. Qed.

(** A file keeps its contents when blocks it does not own change. *)
Lemma is_file_frame c fb c' fb' i type data :
  (forall b, owns c i b -> c' b = c b) -> fb <= fb' -> is_file c fb i type data -> is_file c' fb' i type data.
Proof. intros Hc Hfb (? & ? & ? & ? & ? & H). split_and!; try done. by eapply file_at_same. Qed.

Lemma image_ialloc s fs type :
  image s fs -> Z.of_nat (length fs) + 1 < NINODES -> 0 < type < 2 ^ 15 ->
  exists s', mk_ialloc type s = Ret (Z.of_nat (length fs) + 1) s' /\ image s' (fs ++ [(type, [])]).
Proof.
  intros Him Hn Ht. pose proof Him as [[Hc1 Hc2] Hfb Hcl Hfile Hdisj Hfree Hmap Hsb]. destruct s as [c fi fb]. cbn [img freeinode freeblock] in *.
  set (ino := Z.of_nat (length fs) + 1) in *. set (i := set_isize 0 (set_inlink 1 (set_itype type zero_dinode))).
  exists (Mkfs (put c ino i) (ino + 1) fb).
  assert (u32 (fi + 1) = ino + 1) as Eu by (rewrite Hc1; apply u32_small; unfold NINODES in *; lia).
  split. { unfold mk_ialloc, kbind, kget, kupd. cbn [img freeinode freeblock]. rewrite Eu, Hc1. reflexivity. }
  assert (0 <= ino < NINODES) as Hino by lia.
  assert (inode_range i) as Hr by (unfold inode_range, i; cbn; split_and!; try lia; intros; lia).
  assert (same_dinode i (rd (put c ino i) ino)) as Hsame by (by apply rd_put_same).
  assert (forall k, (k < length fs)%nat -> rd (put c ino i) (Z.of_nat k + 1) = rd c (Z.of_nat k + 1)) as Hold.
  { intros k Hk. apply rd_put_other; unfold ino; lia. }
  assert (forall j, 0 <= j <= NDIRECT -> iaddrs (rd (put c ino i) ino) j = 0) as Hz.
  { destruct Hsame as (_ & _ & _ & _ & _ & Ha). intros j Hj. by rewrite Ha. }
  assert (forall k b, (k < length fs)%nat -> owns c (rd c (Z.of_nat k + 1)) b -> put c ino i b = c b) as Hput.
  { intros k b Hk Ho. pose proof (image_owns _ _ _ _ Him Hk Ho) as Hb. apply put_data; [done|]. rewrite nmeta_eq in Hb. lia. }
  pose proof nmeta_eq as Hm. split; cbn [img freeinode freeblock].
  - rewrite length_app. cbn. lia.
  - rewrite space_app. change (space [(type, [])]) with 0. lia.
  - intros b o Hb Ho. pose proof (space_nonneg fs). rewrite put_data by (done || lia). by apply Hcl.
  - intros k ty data Hk. apply lookup_app_Some in Hk as [Hk|[Hk Hk']].
    + pose proof (lookup_lt_Some _ _ _ Hk) as Hlt. rewrite Hold by done. eapply is_file_frame; [intros b Hb; by eapply Hput|done|by apply Hfile].
    + apply list_lookup_singleton_Some in Hk' as [Hk0 [= <- <-]]. replace (Z.of_nat k + 1) with ino by (unfold ino; lia).
      destruct Hsame as (E1 & E2 & E3 & E4 & E5 & _). split_and!; try done. by apply file_empty.
  - intros j k b Hj Hk Hne. rewrite length_app in Hj, Hk. cbn in Hj, Hk.
    destruct (decide (k = length fs)) as [->|Hk']; [intros _; by apply no_owner|].
    destruct (decide (j = length fs)) as [->|Hj']; [intros Ho; by apply no_owner in Ho|].
    rewrite !Hold by lia. intros Ho1 Ho2. apply (Hdisj j k b); [lia..|done| |].
    + eapply owns_same; [apply same_dinode_refl| |exact Ho1]. intros. apply (Hput j); [lia|]. split; [done|by left].
    + eapply owns_same; [apply same_dinode_refl| |exact Ho2]. intros. apply (Hput k); [lia|]. split; [done|by left].
  - intros j Hj. rewrite rd_put_other by lia. apply Hfree. lia.
  - intros b o Hb Ho. rewrite put_data by (done || lia). by apply Hmap.
  - rewrite put_data by (done || lia). done.
Qed.

Lemma fuel_rounds data p : rounds data p <= Z.of_nat (Z.to_nat (Z.of_nat (length p) / BSIZE + 2)).
Proof.
  unfold rounds. case_bool_decide; [lia|]. unfold blocks_of. rewrite length_app. unfold BSIZE. Z.to_euclidean_division_equations. lia.
Qed.

Lemma rd_range c ino : inode_range (rd c ino).
Proof.
  assert (forall x, 0 <= x < 2 ^ 16 -> - 2 ^ 15 <= s16 x < 2 ^ 15) as H16.
  { intros x Hx. unfold s16. rewrite Z.mod_small by done. cbv zeta. cif; cbool; lia. }
  unfold inode_range, rd, load_dinode. cbn [itype imajor iminor inlink isize iaddrs set_itype set_imajor set_iminor set_inlink set_isize set_iaddrs].
  split_and!; try apply H16, ld16_range; try apply ld32_range.
  intros j Hj. rewrite ld_addrs_spec by apply NoDup_seqZ. case_bool_decide; [apply ld32_range|done].
Qed.

(** The inode that [iappend] stores. *)
Lemma appended_range c fb i c' fb' i' n nb q :
  appended c fb i c' fb' i' -> shape c' fb' i' nb q -> inode_range i -> 0 <= n < 2 ^ 32 -> fb' <= FSSIZE ->
  inode_range (set_isize n i').
Proof.
  intros [[a ->] _ _ _ _] Hs (R1 & R2 & R3 & R4 & _ & _) Hl Hfb. unfold FSSIZE in *. pose proof nmeta_eq as Hm.
  unfold inode_range. cbn [itype imajor iminor inlink isize iaddrs set_isize set_iaddrs]. split_and!; try done; try lia.
  intros j Hj. destruct (Z.eq_dec j NDIRECT) as [->|Hne].
  - pose proof (sh_ind _ _ _ _ _ Hs) as Hi. cbn [iaddrs set_iaddrs] in Hi. destruct q; lia.
  - assert (fblock c' (set_iaddrs a i) j = a j) as E by (by rewrite fblock_direct by lia).
    destruct (Z_lt_le_dec j nb) as [Hlt|Hge].
    + pose proof (sh_in _ _ _ _ _ Hs j ltac:(lia)) as Hi. lia.
    + pose proof (sh_out _ _ _ _ _ Hs j) as Hi. rewrite E in Hi. rewrite Hi; [done|]. split; [done|].
      unfold MAXFILE. change NINDIRECT with 256. lia.
Qed.

(** Blocks appended to file [k], and its inode stored. *)
Lemma image_replace c fi fb fs k type data data' c' fb' i' :
  let ino := Z.of_nat k + 1 in
  image (Mkfs c fi fb) fs -> fs !! k = Some (type, data) ->
  appended c fb (rd c ino) c' fb' i' -> file_at c' fb' i' data' -> Z.of_nat (length data') < 2 ^ 32 ->
  fb' = nmeta + space (<[k := (type, data')]> fs) -> fb' <= FSSIZE ->
  image (Mkfs (put c' ino (set_isize (Z.of_nat (length data')) i')) fi fb') (<[k := (type, data')]> fs).
Proof.
  intros ino Him Hk Ha Hf' Hlen Efb Hsp. pose proof Him as [[Hc1 Hc2] Hfb Hcl Hfile Hdisj Hfree Hmap Hsb]. cbn [img freeinode freeblock] in *.
  pose proof (lookup_lt_Some _ _ _ Hk) as Hlt. pose proof nmeta_eq as Hm. pose proof (space_nonneg fs) as Hs0.
  destruct (Hfile k type data Hk) as (F1 & F2 & F3 & F4 & F5 & _). fold ino in F1, F2, F3, F4, F5.
  set (i2 := set_isize (Z.of_nat (length data')) i'). assert (0 <= ino < NINODES) as Hino by lia.
  assert (inode_range i2) as Hr by (destruct Hf' as [Hsh _]; eapply appended_range; [exact Ha|exact Hsh|apply rd_range|lia|done]).
  assert (same_dinode i2 (rd (put c' ino i2) ino)) as Hsame by (by apply rd_put_same).
  destruct Ha as [[a Ei] Hfbm Hfr Hown Hcl'].
  assert (forall b, ~ owns c (rd c ino) b -> b < fb -> b < 33 \/ 46 <= b -> put c' ino i2 b = c b) as Hput
    by (intros b Ho Hb Hb'; rewrite put_data by done; by apply Hfr).
  assert (forall j, 0 <= j < NINODES -> j <> ino -> rd (put c' ino i2) j = rd c j) as Hold.
  { intros j Hj Hne. rewrite rd_put_other by done. unfold rd. destruct (IBLOCK_mk j Hj). rewrite Hfr; [done|lia|].
    intros Ho. pose proof (image_owns _ _ _ _ Him Hlt Ho) as Hb. lia. }
  assert (forall j b, (j < length fs)%nat -> j <> k -> owns c (rd c (Z.of_nat j + 1)) b -> put c' ino i2 b = c b) as Hkeep.
  { intros j b Hj Hne Ho. pose proof (image_owns _ _ _ _ Him Hj Ho) as Hb. cbn [freeblock] in Hb. apply Hput; [|lia..]. by apply (Hdisj j k). }
  assert (forall b, owns (put c' ino i2) (rd (put c' ino i2) ino) b -> owns c (rd c ino) b \/ fb <= b) as Hnew.
  { intros b Ho. apply (owns_same c' i2) in Ho; [|done|].
    - destruct (Hown b) as [?|?]; [|by left|right; lia]. destruct Ho as [Ho0 Ho]. split; [done|]. exact Ho.
    - intros Hi. apply put_data; [done|]. right. destruct Hf' as [Hsh _].
      assert (owns c' i' (iaddrs i' NDIRECT)) as Ho' by (split; [done|by left]). apply (shape_owns _ _ _ _ _ _ Hsh) in Ho'. cbn. lia. }
  assert (forall j b, (j < length fs)%nat -> j <> k ->
    owns (put c' ino i2) (rd (put c' ino i2) (Z.of_nat j + 1)) b -> owns c (rd c (Z.of_nat j + 1)) b) as Hoth.
  { intros j b Hj Hne. rewrite Hold by (unfold ino; lia). apply owns_same; [done|]. intros. apply (Hkeep j); [done..|]. split; [done|by left]. }
  split; cbn [img freeinode freeblock].
  - by rewrite length_insert.
  - done.
  - intros b o Hb Ho. rewrite put_data by (done || lia). by apply Hcl'.
  - intros j ty d Hj. destruct (decide (j = k)) as [->|Hne].
    + rewrite list_lookup_insert_eq in Hj by done. injection Hj as <- <-. fold ino. destruct Hsame as (E1 & E2 & E3 & E4 & E5 & E6).
      assert (itype i2 = itype (rd c ino) /\ imajor i2 = imajor (rd c ino) /\ iminor i2 = iminor (rd c ino) /\ inlink i2 = inlink (rd c ino))
        as (G1 & G2 & G3 & G4) by (unfold i2; by rewrite Ei). split_and!; try congruence; [exact E5|].
      apply (file_at_same c' fb' i2); [by split_and!| |done|by apply file_at_size].
      intros b Ho. change (owns c' i' b) in Ho. destruct Hf' as [Hsh _]. apply (shape_owns _ _ _ _ _ _ Hsh) in Ho. apply put_data; [done|lia].
    + rewrite list_lookup_insert_ne in Hj by done. pose proof (lookup_lt_Some _ _ _ Hj) as Hjl.
      rewrite Hold by (unfold ino; lia). eapply (is_file_frame c fb); [intros b Hb; by eapply Hkeep|lia|by apply Hfile].
  - rewrite length_insert. intros j1 j2 b H1 H2 Hne Ho1 Ho2.
    destruct (decide (j1 = k)) as [->|N1]; [|destruct (decide (j2 = k)) as [->|N2]].
    + apply Hoth in Ho2; [|done..]. pose proof (image_owns _ _ _ _ Him H2 Ho2) as Hb. cbn [freeblock] in Hb.
      destruct (Hnew b Ho1) as [Ho|]; [by apply (Hdisj k j2 b)|lia].
    + apply Hoth in Ho1; [|done..]. pose proof (image_owns _ _ _ _ Him H1 Ho1) as Hb. cbn [freeblock] in Hb.
      destruct (Hnew b Ho2) as [Ho|]; [by apply (Hdisj j1 k b)|lia].
    + apply Hoth in Ho1; [|done..]. apply Hoth in Ho2; [|done..]. by apply (Hdisj j1 j2 b).
  - intros j Hj. rewrite Hold by (unfold ino; lia). apply Hfree. lia.
  - intros b o Hb Ho. rewrite Hput; [by apply Hmap| |lia..]. intros Hx. pose proof (image_owns _ _ _ _ Him Hlt Hx) as Hr'. lia.
  - rewrite Hput; [done| |lia..]. intros Hx. pose proof (image_owns _ _ _ _ Him Hlt Hx) as Hr'. lia.
Qed.

Lemma image_iappend s fs k type data p :
  image s fs -> fs !! k = Some (type, data) -> Z.of_nat (length (data ++ p)) <= MAXFILE * BSIZE ->
  nmeta + space (<[k := (type, data ++ p)]> fs) <= FSSIZE ->
  exists s', iappend (Z.of_nat k + 1) p s = Ret tt s' /\ image s' (<[k := (type, data ++ p)]> fs).
Proof.
  intros Him Hk Hmax Hsp. destruct s as [c fi fb]. pose proof nmeta_eq as Hm. pose proof (space_nonneg fs) as Hs0.
  pose proof (im_fb _ _ Him) as Hfb. cbn [freeblock] in Hfb. destruct (im_file _ _ Him k type data Hk) as (_ & _ & _ & _ & F5 & Hf). cbn [img freeblock] in *.
  pose proof (space_insert _ _ _ _ (data ++ p) Hk) as Hsi.
  destruct (iappend_loop_ok (Z.to_nat (Z.of_nat (length p) / BSIZE + 2)) c fi fb _ data p Hf (im_clean _ _ Him) ltac:(lia) Hmax ltac:(lia) (fuel_rounds _ _))
    as (c' & i' & El & Hf' & Ha).
  exists (Mkfs (put c' (Z.of_nat k + 1) (set_isize (Z.of_nat (length (data ++ p))) i')) fi (fb + cost (blocks_of (data ++ p)) - cost (blocks_of data))).
  split; [unfold iappend, kbind; rewrite rinode_eq, F5, El; reflexivity|].
  apply (image_replace c fi fb fs k type data); [done|done|exact Ha|exact Hf'| |lia|lia].
  unfold MAXFILE in *. change NINDIRECT with 256 in *. unfold NDIRECT, BSIZE in *. lia.
Qed.

(** ** The command *)

Definition name_of (arg : list Z) : list Z := skip_underscore (shortname arg).

(** The directory: itself, its parent, and the files from inode 2 on. *)
Definition entries_from (k : Z) (files : list (list Z * list (list Z))) : list Z :=
  concat (imap (fun j f => dirent (k + Z.of_nat j) (name_of (fst f))) files).
Definition dir_bytes (files : list (list Z * list (list Z))) : list Z :=
  dirent 1 (text ".") ++ dirent 1 (text "..") ++ entries_from 2 files.

Definition contents (files : list (list Z * list (list Z))) : list (Z * list Z) :=
  (T_DIR, dir_bytes files) :: ((fun f => (T_FILE, concat (snd f))) <$> files).

Definition good_file (f : list Z * list (list Z)) : Prop :=
  (47 ∉ shortname (fst f)) /\ Z.of_nat (length (name_of (fst f))) <= DIRSIZ /\ Z.of_nat (length (concat (snd f))) <= MAXFILE * BSIZE.

Lemma image_chunks chunks : forall s fs k type data,
  image s fs -> fs !! k = Some (type, data) -> Z.of_nat (length (data ++ concat chunks)) <= MAXFILE * BSIZE ->
  nmeta + space (<[k := (type, data ++ concat chunks)]> fs) <= FSSIZE ->
  exists s', for_each chunks (iappend (Z.of_nat k + 1)) s = Ret tt s' /\ image s' (<[k := (type, data ++ concat chunks)]> fs).
Proof.
  induction chunks as [|p chunks IH]; intros s fs k type data Him Hk Hmax Hsp; cbn [concat for_each] in *.
  - rewrite app_nil_r in *. exists s. split; [done|]. by rewrite list_insert_id.
  - rewrite app_assoc in *. pose proof (lookup_lt_Some _ _ _ Hk) as Hlt.
    assert (<[k := (type, (data ++ p) ++ concat chunks)]> (<[k := (type, data ++ p)]> fs) = <[k := (type, (data ++ p) ++ concat chunks)]> fs) as Eii
      by apply list_insert_insert_eq.
    destruct (image_iappend s fs k type data p Him Hk) as (s1 & E1 & Him1).
    { rewrite length_app in Hmax. lia. }
    { pose proof (space_insert _ _ _ _ (data ++ p) Hk). pose proof (space_insert _ _ _ _ ((data ++ p) ++ concat chunks) Hk).
      pose proof (cost_mono _ _ (blocks_of_mono (data ++ p) (concat chunks))). lia. }
    destruct (IH s1 _ k type (data ++ p) Him1) as (s2 & E2 & Him2); [by apply list_lookup_insert_eq|done|by rewrite Eii|].
    exists s2. rewrite Eii in Him2. split; [|done]. unfold kbind. by rewrite E1.
Qed.

Lemma entries_snoc k files f : entries_from k (files ++ [f]) = entries_from k files ++ dirent (k + Z.of_nat (length files)) (name_of (fst f)).
Proof. unfold entries_from. rewrite imap_app, concat_app. cbn. by rewrite app_nil_r, Nat.add_0_r. Qed.

Lemma dir_snoc files f : dir_bytes (files ++ [f]) = dir_bytes files ++ dirent (2 + Z.of_nat (length files)) (name_of (fst f)).
Proof. unfold dir_bytes. rewrite entries_snoc. by rewrite <- !app_assoc. Qed.

Lemma dirent_length ino name : length (dirent ino name) = 16%nat.
Proof. unfold dirent. rewrite length_app, length_take, length_app, length_replicate. change (Z.to_nat DIRSIZ) with 14%nat. cbn [length]. lia. Qed.

Lemma dir_length files : Z.of_nat (length (dir_bytes files)) = 16 * (2 + Z.of_nat (length files)).
Proof.
  induction files as [|f files IH] using rev_ind; [done|]. rewrite dir_snoc, !length_app, dirent_length. cbn [length]. lia.
Qed.

Lemma contents_length files : length (contents files) = S (length files).
Proof. unfold contents. cbn. by rewrite length_fmap. Qed.

Lemma contents_snoc files f :
  <[(length files + 1)%nat := (T_FILE, concat (snd f))]> (<[0%nat := (T_DIR, dir_bytes (files ++ [f]))]> (contents files ++ [(T_FILE, [])]))
  = contents (files ++ [f]).
Proof.
  unfold contents. rewrite fmap_app, Nat.add_1_r. set (rest := _ <$> files). cbn [app].
  change (<[S (length files) := ?y]> (<[0%nat := ?r]> (_ :: rest ++ ?l))) with (r :: <[length files := y]> (rest ++ l)). f_equal.
  assert (length files = length rest) as -> by (unfold rest; by rewrite length_fmap). by rewrite insert_app_r_alt, Nat.sub_diag.
Qed.

Lemma lookup_contents files k f : files !! k = Some f -> contents files !! S k = Some (T_FILE, concat (snd f)).
Proof. intros H. unfold contents. rewrite lookup_cons, list_lookup_fmap, H. done. Qed.

Lemma add_file_ok s files f :
  image s (contents files) -> good_file f -> Z.of_nat (length files) + 2 < NINODES ->
  nmeta + space (contents (files ++ [f])) <= FSSIZE ->
  exists s', add_file f s = Ret tt s' /\ image s' (contents (files ++ [f])).
Proof.
  intros Him (Hslash & Hname & Hlen) Hn Hsp. unfold add_file. rewrite bool_decide_eq_false_2 by done. fold (name_of (fst f)).
  rewrite Z.gtb_ltb, (proj2 (Z.ltb_ge _ _)) by lia. pose proof (contents_length files) as Hcl.
  destruct (image_ialloc s _ T_FILE Him ltac:(lia) ltac:(done)) as (s1 & E1 & Him1). rewrite Hcl in E1.
  set (root' := dir_bytes (files ++ [f])). set (fs1 := contents files ++ [(T_FILE, [])]) in *.
  assert (fs1 !! 0%nat = Some (T_DIR, dir_bytes files)) as Hroot by done.
  assert (u16 (Z.of_nat (S (length files)) + 1) = 2 + Z.of_nat (length files)) as Eu.
  { unfold u16. rewrite Z.mod_small; unfold NINODES in *; lia. }
  rewrite <- contents_snoc in Hsp |- *. fold root' fs1 in Hsp |- *. set (fs2 := <[0%nat := (T_DIR, root')]> fs1) in *.
  assert (fs2 !! (length files + 1)%nat = Some (T_FILE, [])) as Hlast.
  { unfold fs2. rewrite list_lookup_insert_ne by lia. apply lookup_app_Some. right. by rewrite Hcl, Nat.add_1_r, Nat.sub_diag. }
  pose proof (space_insert _ _ _ _ (concat (snd f)) Hlast) as Hsi. pose proof (cost_nonneg (concat (snd f))) as Hc0.
  change (cost (blocks_of [])) with 0 in Hsi.
  destruct (image_iappend s1 fs1 0 T_DIR (dir_bytes files) (dirent (2 + Z.of_nat (length files)) (name_of (fst f))) Him1 Hroot) as (s2 & E2 & Him2).
  { rewrite <- dir_snoc, dir_length, length_app. unfold NINODES in Hn. change (MAXFILE * BSIZE) with 274432. cbn [length]. lia. }
  { rewrite <- dir_snoc. fold root' fs2. lia. }
  rewrite <- dir_snoc in Him2. fold root' fs2 in Him2.
  destruct (image_chunks (snd f) s2 fs2 (length files + 1) T_FILE [] Him2 Hlast Hlen ltac:(cbn [app]; lia)) as (s3 & E3 & Him3).
  exists s3. split; [|done]. unfold kbind. rewrite E1, Eu. change ROOTINO with (Z.of_nat 0 + 1). rewrite E2.
  replace (Z.of_nat (S (length files)) + 1) with (Z.of_nat (length files + 1) + 1) by lia. exact E3.
Qed.

Lemma space_contents files more : space (contents files) <= space (contents (files ++ more)).
Proof.
  unfold contents. rewrite !space_cons, fmap_app, space_app. cbn [snd].
  assert (blocks_of (dir_bytes files) <= blocks_of (dir_bytes (files ++ more))) as Hb%cost_mono.
  { unfold blocks_of. rewrite !dir_length, length_app. apply Z.div_le_mono; unfold BSIZE; lia. }
  pose proof (space_nonneg ((fun f => (T_FILE, concat (snd f))) <$> more)). lia.
Qed.

Lemma add_files_ok files : forall pre s,
  image s (contents pre) -> Forall good_file files -> Z.of_nat (length (pre ++ files)) + 1 < NINODES ->
  nmeta + space (contents (pre ++ files)) <= FSSIZE ->
  exists s', for_each files add_file s = Ret tt s' /\ image s' (contents (pre ++ files)).
Proof.
  induction files as [|f files IH]; intros pre s Him Hg Hn Hsp; cbn [for_each].
  - rewrite app_nil_r. by exists s.
  - apply Forall_cons in Hg as [Hf Hg]. rewrite cons_middle, app_assoc in Hn, Hsp |- *.
    destruct (add_file_ok s pre f Him Hf) as (s1 & E1 & Him1).
    { rewrite !length_app in Hn. cbn [length] in Hn. lia. }
    { pose proof (space_contents (pre ++ [f]) files). lia. }
    destruct (IH _ s1 Him1 Hg Hn Hsp) as (s2 & E2 & Him2). exists s2. split; [|done]. unfold kbind. by rewrite E1.
Qed.

Lemma zero_blocks l : forall c fi fb, exists c', for_each l (fun i => wsect i zeroes) (Mkfs c fi fb) = Ret tt (Mkfs c' fi fb) /\
  forall b, (b ∈ l -> c' b = zeroes) /\ (b ∉ l -> c' b = c b).
Proof.
  induction l as [|i l IH]; intros c fi fb; cbn [for_each].
  - exists c. split; [done|]. intros b. split; [|done]. by intros ?%elem_of_nil.
  - destruct (IH (upd c i zeroes) fi fb) as (c' & E & H). exists c'. split; [exact E|]. intros b. destruct (H b) as [H1 H2]. split.
    + intros Hb. destruct (decide (b ∈ l)) as [Hl|Hl]; [auto|]. rewrite H2 by done. apply elem_of_cons in Hb as [->|]; [apply upd_eq|done].
    + intros [Hbi Hbl]%not_elem_of_cons. rewrite H2 by done. by apply upd_ne.
Qed.

(** The image with the superblock only. *)
Lemma image_empty c :
  (forall b, 0 <= b < FSSIZE -> b <> 1 -> c b = zeroes) -> c 1 = sb_block -> image (Mkfs c 1 nmeta) [].
Proof.
  intros Hz H1. pose proof nmeta_eq as Hm. split; cbn [img freeinode freeblock]; try done; try (cbn; lia).
  - intros b o Hb Ho. rewrite Hz by lia. done.
  - intros ino Hi. unfold rd, load_dinode. cbn [itype set_itype set_imajor set_iminor set_inlink set_isize set_iaddrs].
    destruct (IBLOCK_mk ino ltac:(lia)) as [_ ?]. rewrite Hz by (unfold FSSIZE; lia).
    replace (ld16 zeroes (ino mod IPB * DINODE)) with 0; [done|]. symmetry. by apply (ldn_zero 2).
  - intros b o Hb Ho. rewrite Hz by (unfold FSSIZE; lia). done.
Qed.

(** The steps from there to the last file. *)
Lemma build_files files s :
  image s [] -> Forall good_file files -> Z.of_nat (length files) + 1 < NINODES -> nmeta + space (contents files) <= FSSIZE ->
  exists s1 s2 s3 s4, mk_ialloc T_DIR s = Ret ROOTINO s1 /\ iappend ROOTINO (dirent 1 (text ".")) s1 = Ret tt s2 /\
    iappend ROOTINO (dirent 1 (text "..")) s2 = Ret tt s3 /\ for_each files add_file s3 = Ret tt s4 /\ image s4 (contents files).
Proof.
  intros Him0 Hg Hn Hsp. destruct (image_ialloc _ _ T_DIR Him0) as (s1 & E1 & Him1); [done..|].
  destruct (image_iappend s1 _ 0 T_DIR [] (dirent 1 (text ".")) Him1) as (s2 & E2 & Him2); [done|by vm_compute|by vm_compute|].
  destruct (image_iappend s2 _ 0 T_DIR (dirent 1 (text ".")) (dirent 1 (text "..")) Him2) as (s3 & E3 & Him3); [done|by vm_compute|by vm_compute|].
  destruct (add_files_ok files [] s3 Him3 Hg Hn Hsp) as (s4 & E4 & Him4). by exists s1, s2, s3, s4.
Qed.

(** The image before the size of the directory is rounded up and the map is written. *)
Lemma build_ok files s0 :
  Forall good_file files -> Z.of_nat (length files) + 1 < NINODES -> nmeta + space (contents files) <= FSSIZE ->
  exists s, image s (contents files) /\
    mkfs_main files s0 =
      (let! din := rinode ROOTINO in
       do! winode ROOTINO (set_isize (u32 ((isize din / BSIZE + 1) * BSIZE)) din);
       let! used := kget freeblock in mk_balloc used) s.
Proof.
  intros Hg Hn Hsp. destruct (zero_blocks (seqZ 0 FSSIZE) (img s0) 1 nmeta) as (c & Ec & Hc).
  assert (image (Mkfs (upd c 1 sb_block) 1 nmeta) []) as Him0.
  { apply image_empty; [|apply upd_eq]. intros b Hb Hb1. rewrite upd_ne by exact Hb1. apply Hc. rewrite elem_of_seqZ. lia. }
  destruct (build_files files _ Him0 Hg Hn Hsp) as (s1 & s2 & s3 & s4 & E1 & E2 & E3 & E4 & Him4).
  exists s4. split; [exact Him4|]. unfold mkfs_main. unfold kbind at 1 2 3, kupd at 1. rewrite Ec. clear Ec.
  unfold wsect at 1, kupd at 1. cbn [img freeinode freeblock].
  unfold kbind at 1. rewrite E1. change (negb (ROOTINO =? ROOTINO)) with false. cbv iota.
  unfold kbind at 1. change (u16 ROOTINO) with 1. rewrite E2. unfold kbind at 1. rewrite E3. unfold kbind at 1. rewrite E4. reflexivity.
Qed.

(** ** The finished image *)

Lemma mk_bits_spec n j : 0 <= j -> bit (mk_bits n) j = (j <? n).
Proof.
  intros Hj. assert (forall l m, Forall (fun i => 0 <= i) l -> bit (fold_left mark_bit l m) j = bool_decide (j ∈ l) || bit m j) as H.
  { induction l as [|i l IH]; intros m Hl; cbn [fold_left]; [done|]. apply Forall_cons in Hl as [Hi Hl]. rewrite IH, mark_bit_spec by done.
    destruct (Z.eqb_spec j i) as [->|]; [rewrite (bool_decide_eq_true_2 (i ∈ i :: l)) by left; by rewrite orb_true_r|].
    rewrite (bool_decide_ext (j ∈ i :: l) (j ∈ l)) by set_solver. done. }
  unfold mk_bits. rewrite H by (apply Forall_forall; intros i Hi%elem_of_seqZ; lia).
  assert (bit zeroes j = false) as -> by (unfold bit, zeroes, u8; by rewrite Z.mod_0_l, Z.testbit_0_l by done).
  rewrite orb_false_r. destruct (Z.ltb_spec j n).
  - apply bool_decide_eq_true_2, elem_of_seqZ. lia.
  - apply bool_decide_eq_false_2. rewrite elem_of_seqZ. lia.
Qed.

(** The map marks the blocks below [fb]. *)
Lemma map_used c fb b :
  c 46 = mk_bits fb -> (forall x o, 46 < x < nmeta -> 0 <= o < BSIZE -> c x o = 0) -> fb < BPB -> 0 <= b < FSSIZE ->
  used mk_sb c b = (b <? fb).
Proof.
  intros H46 Hz Hfb Hb. unfold used, BBLOCK. change (bmapstart mk_sb) with 46. change BPB with 8192 in *. unfold FSSIZE in Hb. pose proof nmeta_eq.
  assert (0 <= b / 8192 <= 2) by (Z.to_euclidean_division_equations; lia). rewrite u32_small by lia.
  destruct (Z.eq_dec (b / 8192) 0) as [E|E].
  - rewrite E, Z.add_0_l, H46, mk_bits_spec by (Z.to_euclidean_division_equations; lia). rewrite Z.mod_small; [done|]. Z.to_euclidean_division_equations; lia.
  - unfold bit. rewrite Hz; [|lia|unfold BSIZE; Z.to_euclidean_division_equations; lia].
    change (u8 0) with 0. rewrite Z.testbit_0_l. symmetry. apply Z.ltb_ge. Z.to_euclidean_division_equations; lia.
Qed.

Lemma shape_inode_ok c fb i nb q :
  shape c fb i nb q -> (forall b, nmeta <= b < fb -> used mk_sb c b = true) -> fb <= FSSIZE -> inode_ok mk_sb c i.
Proof.
  intros [Hnb Hin Hout Hind Hinj Hni] Hu Hfb. change (dstart mk_sb) with nmeta in *. pose proof nmeta_eq as Hm.
  assert (forall b, nmeta <= b < fb -> data_block mk_sb c b) as Hd.
  { intros b Hb. split; [change (dstart mk_sb) with nmeta; change (fssize mk_sb) with FSSIZE; lia|auto]. }
  assert (forall bn, 0 <= bn < MAXFILE -> fblock c i bn <> 0 -> 0 <= bn < nb) as Hlt.
  { intros bn Hbn Hz. destruct (Z_lt_le_dec bn nb); [lia|]. by rewrite Hout in Hz by lia. }
  split; eauto.
  - intros Hz. destruct q; [auto|done].
  - intros b1 b2 H1 H2 Hz E. apply Hinj; eauto. apply Hlt; [done|congruence].
Qed.

Lemma file_bytes c fb i data o :
  file_at c fb i data -> 0 <= o < MAXFILE * BSIZE -> fbyte c i o = nth (Z.to_nat o) data 0.
Proof.
  intros [Hs Hc] Ho. pose proof nmeta_eq as Hm. destruct (off_split o ltac:(lia)) as (Eo & H1 & H2). unfold fbyte. cbv zeta.
  pose proof (proj1 (blocks_of_spec data _) eq_refl) as Hb.
  destruct (Z_lt_le_dec (o / BSIZE) (blocks_of data)).
  - pose proof (sh_in _ _ _ _ _ Hs (o / BSIZE) ltac:(lia)). rewrite (proj2 (Z.eqb_neq _ 0)) by lia. apply Hc. unfold BSIZE in *. nia.
  - rewrite (sh_out _ _ _ _ _ Hs) by (unfold BSIZE in *; nia). rewrite Z.eqb_refl, nth_overflow; [done|]. unfold BSIZE in *. nia.
Qed.

Lemma file_filled c fb i data : file_at c fb i data -> isize i = Z.of_nat (length data) -> filled c i.
Proof.
  intros [Hs _] Hl o Ho. pose proof nmeta_eq as Hm. destruct (off_split o ltac:(lia)) as (Eo & H1 & H2).
  pose proof (proj1 (blocks_of_spec data _) eq_refl) as Hb.
  pose proof (sh_in _ _ _ _ _ Hs (o / BSIZE) ltac:(unfold BSIZE in *; nia)). lia.
Qed.

(** The words of the superblock as [readsb] loads them. *)
Definition load_sb (m : mem) : superblock :=
  let w i := ld32 m (4 * i) in Superblock (w 0) (w 1) (w 2) (w 3) (w 4) (w 5) (w 6) (w 7).

Lemma load_sb_block : load_sb sb_block = mk_sb.
Proof. with_strategy transparent [ld32 st32] vm_compute. reflexivity. Qed.

(** The size of the directory and the map are stored. *)
Definition finished (c : Z -> mem) (fb n : Z) : Z -> mem := upd (put c 1 (set_isize n (rd c 1))) 46 (mk_bits fb).

Lemma finished_data c fb n b : b < 33 \/ 46 < b -> finished c fb n b = c b.
Proof. intros Hb. unfold finished. rewrite upd_ne by lia. apply put_data; [done|lia]. Qed.

Lemma finished_inode c fb n ino : 0 <= ino < NINODES -> 0 <= n < 2 ^ 32 ->
  same_dinode (if ino =? 1 then set_isize n (rd c 1) else rd c ino) (rd (finished c fb n) ino).
Proof.
  intros Hi Hn. unfold finished. rewrite rd_other by (destruct (IBLOCK_mk ino Hi); lia).
  destruct (Z.eqb_spec ino 1) as [->|Hne]; [|by rewrite rd_put_other].
  apply rd_put_same. pose proof (rd_range c 1) as (R1 & R2 & R3 & R4 & _ & R6).
  unfold inode_range. cbn [itype imajor iminor inlink isize iaddrs set_isize]. split_and!; (done || lia).
Qed.

(** The stored inode has the addresses of the one in the image, so the same blocks. *)
Lemma finished_owns c fi fb fs n k b :
  image (Mkfs c fi fb) fs -> (k < length fs)%nat -> 0 <= n < 2 ^ 32 ->
  owns (finished c fb n) (rd (finished c fb n) (Z.of_nat k + 1)) b -> owns c (rd c (Z.of_nat k + 1)) b.
Proof.
  intros Him Hk Hn Ho. pose proof Him as [[_ Hc2] _ _ _ _ _ _ _]. pose proof nmeta_eq as Hm.
  pose proof (finished_inode c fb n (Z.of_nat k + 1) ltac:(lia) Hn) as Hs. destruct (Z.eqb_spec (Z.of_nat k + 1) 1) as [E|_].
  - rewrite E in *. apply (owns_same c _ _ _ b Hs) in Ho; [exact Ho|]. intros Hi. apply finished_data. right.
    assert (owns c (rd c (Z.of_nat k + 1)) (iaddrs (rd c 1) NDIRECT)) as Hr by (rewrite E; split; [done|by left]).
    apply (image_owns _ _ _ _ Him Hk) in Hr. cbn [iaddrs set_isize]. lia.
  - apply (owns_same c _ _ _ b Hs) in Ho; [exact Ho|]. intros Hi. apply finished_data. right.
    assert (owns c (rd c (Z.of_nat k + 1)) (iaddrs (rd c (Z.of_nat k + 1)) NDIRECT)) as Hr by (split; [done|by left]).
    apply (image_owns _ _ _ _ Him Hk) in Hr. lia.
Qed.

Lemma finished_file c fi fb fs n k type data :
  image (Mkfs c fi fb) fs -> fs !! k = Some (type, data) -> 0 <= n < 2 ^ 32 ->
  let i := rd (finished c fb n) (Z.of_nat k + 1) in
  itype i = type /\ inlink i = 1 /\ isize i = (if decide (k = 0%nat) then n else Z.of_nat (length data)) /\
  file_at (finished c fb n) fb i data.
Proof.
  intros Him Hk Hn i. pose proof (lookup_lt_Some _ _ _ Hk) as Hlt. pose proof Him as [[_ Hc2] _ _ Hfile _ _ _ _]. pose proof nmeta_eq as Hm.
  destruct (Hfile k type data Hk) as (F1 & _ & _ & F4 & F5 & Hf). cbn [img freeblock] in *.
  pose proof (finished_inode c fb n (Z.of_nat k + 1) ltac:(lia) Hn) as Hs. fold i in Hs.
  assert (forall b, owns c (rd c (Z.of_nat k + 1)) b -> finished c fb n b = c b) as Hd.
  { intros b Ho. apply (image_owns _ _ _ _ Him Hlt) in Ho. apply finished_data. lia. }
  destruct (decide (k = 0%nat)) as [->|Hk0].
  - change (Z.of_nat 0 + 1) with 1 in *. rewrite Z.eqb_refl in Hs. pose proof Hs as (E1 & E2 & E3 & E4 & E5 & _). cbn [itype inlink isize set_isize] in E1, E4, E5.
    split_and!; try congruence. apply (file_at_same c fb (set_isize n (rd c 1))); [exact Hs|exact Hd|done|by apply file_at_size].
  - rewrite (proj2 (Z.eqb_neq _ 1)) in Hs by lia. pose proof Hs as (E1 & E2 & E3 & E4 & E5 & _). split_and!; try congruence.
    by apply (file_at_same c fb (rd c (Z.of_nat k + 1))).
Qed.

(** C12. The image mkfs makes is a file system the kernel can use: the superblock is read back, the free map marks
    exactly the blocks in use, every file given to the tool has an inode with its size and bytes, the directory has
    the entries, no two inodes share a block, and the other inodes are free. *)
Theorem mkfs_image (files : list (list Z * list (list Z))) (s0 : mkfs) :
  Forall good_file files -> Z.of_nat (length files) + 1 < NINODES -> nmeta + space (contents files) < BPB ->
  exists s, mkfs_main files s0 = Ret tt s /\
    let c := img s in
    load_sb (c 1) = mk_sb /\
    (forall b, 0 <= b < FSSIZE -> used mk_sb c b = (b <? nmeta + space (contents files))) /\
    (forall k f, files !! k = Some f ->
      let i := rd c (Z.of_nat k + 2) in
      itype i = T_FILE /\ inlink i = 1 /\ isize i = Z.of_nat (length (concat (snd f))) /\ inode_ok mk_sb c i /\ filled c i /\
      forall o, 0 <= o < isize i -> fbyte c i o = nth (Z.to_nat o) (concat (snd f)) 0) /\
    (let i := rd c ROOTINO in
      itype i = T_DIR /\ inlink i = 1 /\ isize i = (Z.of_nat (length (dir_bytes files)) / BSIZE + 1) * BSIZE /\ inode_ok mk_sb c i /\
      forall o, 0 <= o < isize i -> fbyte c i o = nth (Z.to_nat o) (dir_bytes files) 0) /\
    (forall j k b, 1 <= j < Z.of_nat (length files) + 2 -> 1 <= k < Z.of_nat (length files) + 2 -> j <> k ->
      owns c (rd c j) b -> ~ owns c (rd c k) b) /\
    (forall ino, Z.of_nat (length files) + 2 <= ino < NINODES -> itype (rd c ino) = 0).
Proof.
  intros Hg Hn Hsp. assert (BPB < FSSIZE) as Hbf by done.
  destruct (build_ok files s0 Hg Hn ltac:(lia)) as ([c fi fb] & Him & ->). pose proof Him as [[Hc1 _] Hfb _ _ Hdisj Hfree Hmap Hsb].
  cbn [img freeinode freeblock] in *. rewrite contents_length in *.
  set (n := (Z.of_nat (length (dir_bytes files)) / BSIZE + 1) * BSIZE). pose proof (space_nonneg (contents files)) as Hs0. pose proof nmeta_eq as Hm.
  assert (0 <= n <= 4 * BSIZE) as Hnr by (unfold n; rewrite dir_length; unfold NINODES, BSIZE in *; Z.to_euclidean_division_equations; lia).
  assert (0 <= n < 2 ^ 32) as Hn32 by (unfold BSIZE in *; lia).
  exists (Mkfs (finished c fb n) fi fb). split.
  { destruct (im_file _ _ Him 0 T_DIR (dir_bytes files) eq_refl) as (_ & _ & _ & _ & E & _). cbn [img] in E. change (Z.of_nat 0 + 1) with 1 in E.
    unfold kbind at 1. rewrite rinode_eq. change ROOTINO with 1. unfold kbind at 1. rewrite E, winode_eq. fold n. rewrite u32_small by lia.
    unfold kbind, kget, mk_balloc. cbn [freeblock]. by rewrite Z.geb_leb, (proj2 (Z.leb_gt _ _)) by lia. }
  cbv zeta. cbn [img].
  assert (forall b, 0 <= b < FSSIZE -> used mk_sb (finished c fb n) b = (b <? fb)) as Hu.
  { intros b Hb. apply map_used; [apply upd_eq| |lia|done]. intros x o Hx Ho. rewrite finished_data by lia. apply Hmap; lia. }
  assert (forall i nb q, shape (finished c fb n) fb i nb q -> inode_ok mk_sb (finished c fb n) i) as Hio.
  { intros i nb q Hsh. eapply shape_inode_ok; [exact Hsh| |lia]. intros b Hb. rewrite Hu by lia. apply Z.ltb_lt. lia. }
  split; [rewrite finished_data by lia; rewrite Hsb; apply load_sb_block|].
  split; [intros b Hb; by rewrite Hu, Hfb|]. split; [|split; [|split]].
  - intros k f Hk. destruct (finished_file c fi fb _ n (S k) _ _ Him (lookup_contents _ _ _ Hk) Hn32) as (F1 & F2 & F3 & Hf).
    replace (Z.of_nat (S k) + 1) with (Z.of_nat k + 2) in * by lia. destruct (decide (S k = 0%nat)); [done|].
    split; [exact F1|]. split; [exact F2|]. split; [exact F3|]. split; [destruct Hf as [Hsh _]; exact (Hio _ _ _ Hsh)|].
    split; [exact (file_filled _ _ _ _ Hf F3)|].
    intros o Ho. eapply file_bytes; [exact Hf|]. rewrite F3 in Ho. rewrite Forall_forall in Hg.
    destruct (Hg f (list_elem_of_lookup_2 _ _ _ Hk)) as (_ & _ & Hmx). lia.
  - destruct (finished_file c fi fb _ n 0 _ _ Him eq_refl Hn32) as (F1 & F2 & F3 & Hf). change (Z.of_nat 0 + 1) with ROOTINO in *.
    rewrite decide_True in F3 by done.
    split; [exact F1|]. split; [exact F2|]. split; [exact F3|]. split; [destruct Hf as [Hsh _]; exact (Hio _ _ _ Hsh)|].
    intros o Ho. eapply file_bytes; [exact Hf|]. rewrite F3 in Ho. change (MAXFILE * BSIZE) with 274432. change (4 * BSIZE) with 4096 in Hnr. lia.
  - intros j k b Hj Hk Hne Hoj Hok. pose proof (contents_length files) as Hcl.
    replace j with (Z.of_nat (Z.to_nat (j - 1)) + 1) in Hoj by lia. replace k with (Z.of_nat (Z.to_nat (k - 1)) + 1) in Hok by lia.
    apply (finished_owns _ fi _ (contents files)) in Hoj, Hok; [|done|lia|done..|lia|done].
    revert Hok. apply (Hdisj (Z.to_nat (j - 1)) (Z.to_nat (k - 1)) b); [lia..|done].
  - intros ino Hi. destruct (finished_inode c fb n ino ltac:(lia) Hn32) as [-> _]. rewrite (proj2 (Z.eqb_neq ino 1)) by lia. apply Hfree. lia.
Qed.

(** Two files, one of them with a name from the build directory, and read in two pieces. *)
Lemma mkfs_image_witness :
  let files := [(text "README.md", [text "hello"]); (text "user/_cat", [text "ab"; text "c"])] in
  exists s, mkfs_main files (Mkfs (fun _ => zeroes) 0 0) = Ret tt s /\ isize (rd (img s) 3) = 3 /\ fbyte (img s) (rd (img s) 3) 2 = 99.
Proof.
  intros files. destruct (mkfs_image files (Mkfs (fun _ => zeroes) 0 0)) as (s & Hm & _ & _ & Hf & _).
  - assert (forall f, f ∈ files -> good_file f) as H.
    { intros f Hf. unfold files in Hf. rewrite !elem_of_cons, elem_of_nil in Hf. destruct Hf as [->|[->|[]]].
      all: split; [apply (bool_decide_eq_false_1 (47 ∈ _)); by vm_compute|by split; vm_compute]. }
    by apply Forall_forall.
  - by vm_compute.
  - by vm_compute.
  - exists s. split; [exact Hm|]. destruct (Hf 1%nat _ eq_refl) as (_ & _ & E & _ & _ & Hb). change (Z.of_nat 1 + 2) with 3 in *.
    split; [exact E|]. rewrite Hb; [vm_compute; reflexivity|]. rewrite E. vm_compute. split; [discriminate|reflexivity].
Defined.
