(* ===== verification/Path.v ===== *)
(** * Path names

    [skipelem] of kernel/fs.c against a reference that splits a path into
    its elements as a list of strings. *)

From S2P Require Import Prelude Memory StringC Fs.

(** ** The reference *)

(** The pieces of a path between slashes, empty ones included. *)
Fixpoint pieces (l : list Z) : list (list Z) :=
  match l with
  | [] => [[]]
  | c :: l' =>
      if c =? slash then [] :: pieces l'
      else match pieces l' with [] => [[c]] | e :: es => (c :: e) :: es end
  end.

(** The elements of a path. *)
Definition elements (l : list Z) : list (list Z) := filter (fun e => e <> []) (pieces l).

(** What a name field of [DIRSIZ] bytes holds of an element. *)
Definition name_is (m : mem) (name : Z) (e : list Z) : Prop :=
  (forall j c, (j < Z.to_nat DIRSIZ)%nat -> e !! j = Some c -> u8 (m (name + Z.of_nat j)) = c) /\
  (Z.of_nat (length e) < DIRSIZ -> m (name + Z.of_nat (length e)) = 0).

(** The prefix of a list whose members satisfy [p], and the rest. *)
Fixpoint prefix_while (p : Z -> bool) (l : list Z) : list Z :=
  match l with
  | [] => []
  | c :: l' => if p c then c :: prefix_while p l' else []
  end.
Fixpoint rest_while (p : Z -> bool) (l : list Z) : list Z :=
  match l with
  | [] => []
  | c :: l' => if p c then rest_while p l' else l
  end.

Definition is_slash (c : Z) : bool := c =? slash.
Definition in_elem (c : Z) : bool := negb (c =? slash) && negb (c =? 0).

Lemma prefix_rest p l : l = prefix_while p l ++ rest_while p l.
Proof. induction l as [|c l IH]; simpl; [done|]. destruct (p c); simpl; congruence. Qed.

Lemma rest_while_head p l c l' : rest_while p l = c :: l' -> p c = false.
Proof. induction l as [|d l IH]; simpl; [done|]. destruct (p d) eqn:E; [done|]. by intros [= <- <-]. Qed.

Lemma prefix_while_all p l c : c ∈ prefix_while p l -> p c = true.
Proof.
  induction l as [|d l IH]; simpl; [by intros ?%elem_of_nil|]. destruct (p d) eqn:E; [|by intros ?%elem_of_nil].
  intros [->|H]%elem_of_cons; auto.
Qed.

Lemma elements_slashes l : elements (rest_while is_slash l) = elements l.
Proof.
  induction l as [|c l IH]; [done|]. simpl. destruct (is_slash c) eqn:E; [|done]. rewrite IH.
  unfold elements. cbn [pieces]. unfold is_slash in E. rewrite E. by rewrite filter_cons_False by (intros H; done).
Qed.

(** An element ends at a slash or at the end of the path. *)
Lemma pieces_elem e r :
  (forall c, c ∈ e -> (c =? slash) = false) -> (forall c r', r = c :: r' -> c = slash) ->
  pieces (e ++ r) = match r with [] => [e] | _ :: r' => e :: pieces r' end.
Proof.
  intros He Hr. induction e as [|c e IH]; simpl.
  - destruct r as [|c r']; [done|]. simpl. by rewrite (Hr c r' eq_refl), Z.eqb_refl.
  - rewrite He by (by left). rewrite IH by (intros; apply He; by right). by destruct r.
Qed.

Lemma elements_elem e r :
  e <> [] -> (forall c, c ∈ e -> (c =? slash) = false) -> (forall c r', r = c :: r' -> c = slash) ->
  elements (e ++ r) = e :: elements r.
Proof.
  intros Hn He Hr. unfold elements. rewrite pieces_elem by done. destruct r as [|c r'].
  - rewrite filter_cons_True by done. done.
  - rewrite filter_cons_True by done. f_equal. cbn [pieces]. rewrite (Hr c r' eq_refl), Z.eqb_refl.
    by rewrite filter_cons_False by (intros H; done).
Qed.

(** A path that does not start with a slash has an element unless it is
    empty. *)
Lemma elements_nil_iff l : (forall c l', l = c :: l' -> is_slash c = false) -> l = [] <-> elements l = [].
Proof.
  intros Hh. split; [by intros ->|]. destruct l as [|c l']; [done|]. specialize (Hh c l' eq_refl). unfold elements.
  cbn [pieces]. unfold is_slash in Hh. rewrite Hh. by destruct (pieces l'); rewrite filter_cons_True by done.
Qed.

(** ** Strings in memory *)

Lemma cstr_app m a l r : cstr m a (l ++ r) -> cstr m (a + Z.of_nat (length l)) r.
Proof.
  revert a. induction l as [|c l IH]; intros a; simpl; [by rewrite Z.add_0_r|].
  intros (_ & _ & H). apply IH in H. by replace (a + Z.of_nat (S (length l))) with (a + 1 + Z.of_nat (length l)) by lia.
Qed.

Lemma skip_while_ok fuel p m a l :
  cstr m a l -> p 0 = false -> (length l <= fuel)%nat ->
  skip_while fuel p m a = a + Z.of_nat (length (prefix_while p l)).
Proof.
  revert a l. induction fuel as [|f IH]; intros a l Hl Hp Hf.
  - destruct l; [|simpl in Hf; lia]. simpl. lia.
  - destruct l as [|c l]; simpl in Hl; cbn [skip_while prefix_while].
    + rewrite Hl, Hp. simpl. lia.
    + destruct Hl as (-> & _ & Hl). destruct (p c); [|simpl; lia]. rewrite (IH _ l) by (done || (simpl in Hf; lia)). simpl. lia.
Qed.

(** What [skipelem] stores for the element of [len] bytes at [p]. *)
Definition copy_elem (m : mem) (name p len : Z) : mem :=
  if len >=? DIRSIZ then memmove m name p DIRSIZ else upd (memmove m name p len) (name + len) 0.

Lemma copy_elem_out m name p len x :
  0 <= len -> ~ (name <= x < name + DIRSIZ) -> copy_elem m name p len x = m x.
Proof.
  intros Hl Hx. unfold copy_elem. destruct (Z.geb_spec len DIRSIZ).
  - apply memmove_out; [done|lia].
  - rewrite upd_ne by lia. apply memmove_out; lia.
Qed.

Lemma copy_elem_name m name p e r :
  cstr m p (e ++ r) -> name_is (copy_elem m name p (Z.of_nat (length e))) name e.
Proof.
  intros Hr. unfold copy_elem, DIRSIZ. split.
  - intros j c Hj Hc. assert (Hjl : (j < length e)%nat) by (by apply lookup_lt_is_Some; eauto). unfold DIRSIZ in Hj.
    assert (E : u8 (m (p + Z.of_nat j)) = c) by (apply (cstr_char m p (e ++ r)); [done|by apply lookup_app_l_Some]).
    destruct (Z.geb_spec (Z.of_nat (length e)) 14); [|rewrite upd_ne by lia]; rewrite memmove_in by lia; exact E.
  - intros Hlt. unfold DIRSIZ in Hlt. destruct (Z.geb_spec (Z.of_nat (length e)) 14); [lia|]. apply upd_eq.
Qed.

(** ** The property *)

(** C33. [skipelem] takes the first element off a path.  For a path [s] in
    memory, shorter than [MAXPATH] and apart from the name buffer, it
    returns no path and changes nothing when [s] has no element; otherwise
    the name buffer has the first element (its first [DIRSIZ] characters,
    NUL-terminated when shorter), and the path returned has exactly the
    other elements, no leading slash, and is empty when there are none, so
    that the caller's test for the last element is right.  Nothing outside
    the name buffer changes. *)
Theorem skipelem_splits (m : mem) (path name : Z) (s : list Z) :
  cstr m path s -> Z.of_nat (length s) < MAXPATH ->
  name + DIRSIZ <= path \/ path + Z.of_nat (length s) < name ->
  match elements s with
  | [] => skipelem m path name = (m, None)
  | e :: es => exists m' path' s', skipelem m path name = (m', Some path') /\
      name_is m' name e /\ cstr m' path' s' /\ elements s' = es /\ (s' = [] <-> es = []) /\ head s' <> Some slash /\
      path <= path' /\ path' + Z.of_nat (length s') = path + Z.of_nat (length s) /\
      (forall x, ~ (name <= x < name + DIRSIZ) -> m' x = m x)
  end.
Proof.
  intros Hs Hlen Hdis. assert (Hf : (length s < path_fuel)%nat) by (change path_fuel with 128%nat; unfold MAXPATH in Hlen; lia).
  clear Hlen. pose proof (prefix_rest is_slash s) as E0. set (s0 := prefix_while is_slash s) in *. set (s1 := rest_while is_slash s) in *.
  set (p := path + Z.of_nat (length s0)). assert (Hp : skip_while path_fuel is_slash m path = p) by (apply skip_while_ok; [done|done|lia]).
  assert (Hs1 : cstr m p s1) by (apply cstr_app; by rewrite <- E0). assert (Hl : length s = (length s0 + length s1)%nat) by (rewrite E0 at 1; apply length_app).
  rewrite <- elements_slashes. fold s1. unfold skipelem. fold is_slash in_elem. rewrite Hp.
  pose proof (rest_while_head is_slash s) as Hh. fold s1 in Hh. assert (Hpe : p = path + Z.of_nat (length s0)) by done. clearbody s0 s1 p.
  destruct s1 as [|c s1']; [simpl in Hs1; by rewrite Hs1|]. specialize (Hh c s1' eq_refl).
  pose proof (prefix_rest in_elem (c :: s1')) as E1. set (e := prefix_while in_elem (c :: s1')) in *. set (r := rest_while in_elem (c :: s1')) in *.
  assert (Hin : in_elem c = true).
  { destruct Hs1 as (_ & Hc & _). unfold in_elem, is_slash in *. rewrite Hh. simpl. by apply negb_true_iff, Z.eqb_neq. }
  assert (He : e <> []) by (unfold e; simpl; by rewrite Hin).
  assert (Hes : forall d, d ∈ e -> (d =? slash) = false).
  { intros d Hd%prefix_while_all. unfold in_elem in Hd. by apply andb_true_iff in Hd as [?%negb_true_iff _]. }
  assert (Hq : skip_while path_fuel in_elem m p = p + Z.of_nat (length e)) by (apply skip_while_ok; [done|done|lia]).
  assert (Hr : cstr m (p + Z.of_nat (length e)) r) by (apply cstr_app; by rewrite <- E1).
  assert (Hrs : forall d r', r = d :: r' -> d = slash).
  { intros d r' E. pose proof (rest_while_head _ _ _ _ E) as Hd. rewrite E in Hr. destruct Hr as (_ & Hd0 & _).
    unfold in_elem in Hd. rewrite (proj2 (Z.eqb_neq d 0) Hd0), andb_true_r in Hd. apply negb_false_iff, Z.eqb_eq in Hd. done. }
  assert (Hl1 : length (c :: s1') = (length e + length r)%nat) by (rewrite E1 at 1; apply length_app).
  assert (Hc0 : (u8 (m p) =? 0) = false) by (destruct Hs1 as (-> & Hc & _); by apply Z.eqb_neq).
  rewrite Hc0, Hq. replace (p + Z.of_nat (length e) - p) with (Z.of_nat (length e)) by lia.
  fold (copy_elem m name p (Z.of_nat (length e))). set (m' := copy_elem _ _ _ _).
  assert (Ho : forall x, ~ (name <= x < name + DIRSIZ) -> m' x = m x) by (intros x Hx; apply copy_elem_out; [lia|done]).
  assert (Hn : name_is m' name e) by (apply (copy_elem_name m name p e r); by rewrite <- E1). clearbody m' e r.
  assert (Hr' : cstr m' (p + Z.of_nat (length e)) r).
  { eapply cstr_ext, Hr. intros i Hi. symmetry. apply Ho. unfold DIRSIZ in *. lia. }
  rewrite E1, elements_elem by done. pose proof (prefix_rest is_slash r) as E2.
  set (r0 := prefix_while is_slash r) in *. set (r1 := rest_while is_slash r) in *.
  assert (Hl2 : length r = (length r0 + length r1)%nat) by (rewrite E2 at 1; apply length_app).
  exists m', (p + Z.of_nat (length e) + Z.of_nat (length r0)), r1. split_and!; try done; try lia.
  - f_equal. f_equal. apply skip_while_ok; [done|done|lia].
  - apply cstr_app. by rewrite <- E2.
  - apply elements_slashes.
  - rewrite <- (elements_slashes r). fold r1. apply elements_nil_iff. apply rest_while_head.
  - intros Hd. destruct r1 as [|d r1'] eqn:Er; [done|]. apply rest_while_head in Er. simpl in Hd. simplify_eq.
Qed.

(** "//usr/bin" at address 1000. *)
Definition demo_path : list Z := [47; 47; 117; 115; 114; 47; 98; 105; 110].
Definition demo_path_mem : mem := fun a => nth (Z.to_nat (a - 1000)) demo_path 0.

Lemma skipelem_splits_witness :
  exists m' path' s', skipelem demo_path_mem 1000 2000 = (m', Some path') /\
    name_is m' 2000 [117; 115; 114] /\ cstr m' path' s' /\ elements s' = [[98; 105; 110]].
Proof.
  pose proof (skipelem_splits demo_path_mem 1000 2000 demo_path) as H.
  assert (E : elements demo_path = [[117; 115; 114]; [98; 105; 110]]) by reflexivity. rewrite E in H.
  destruct H as (m' & path' & s' & H1 & H2 & H3 & H4 & _).
  - vm_compute. intuition discriminate.
  - vm_compute. reflexivity.
  - right. vm_compute. reflexivity.
  - exists m', path', s'. auto.
Defined.
