(* ===== verification/File.v ===== *)
(** * kernel/file.c, kernel/gc.c, kernel/mem.c: open files

    The table of open files, whose entries are pipes, inodes, devices and
    MiniOS's files in memory, and the collector of those.  The state of the
    file layer is the file system over its log, the two tables and the
    pipes, with the console and the system log; the routines run for the
    process in slot [p].  A call that would wait for another process to
    release an inode, a buffer or the log is [Hang]; calls that sleep on a
    pipe or a device return to the scheduler, as in Pipe.v. *)

From S2P Require Import Prelude Memory StringC Kalloc Vm Proc Sched ProcInv Pipe Console Printf Sleeplock Bio Log Fs FsLayer.

(** ** Data *)

Definition NFILE : Z := 100.
Definition NDEV : Z := 10.
Definition NMEMFILE : Z := 50.

Inductive ftype := FD_NONE | FD_PIPE | FD_INODE | FD_DEVICE | FD_MEM.

#[export] Instance ftype_eq_dec : EqDecision ftype.
Proof. solve_decision. Defined.

Record file := File {
  ftyp : ftype;
  fref : Z;                     (* int ref *)
  readable : Z;                 (* char readable *)
  writable : Z;                 (* char writable *)
  fpipe : Z;                    (* struct pipe *pipe, the address of its page *)
  fip : Z;                      (* struct inode *ip, an inode table index *)
  memf : option Z;              (* struct memfile *memf, an index *)
  foff : Z;                     (* uint off *)
  fmajor : Z                    (* short major *)
}.

Definition set_ftyp v f := File v (fref f) (readable f) (writable f) (fpipe f) (fip f) (memf f) (foff f) (fmajor f).
Definition set_fref v f := File (ftyp f) v (readable f) (writable f) (fpipe f) (fip f) (memf f) (foff f) (fmajor f).
Definition set_readable v f := File (ftyp f) (fref f) v (writable f) (fpipe f) (fip f) (memf f) (foff f) (fmajor f).
Definition set_writable v f := File (ftyp f) (fref f) (readable f) v (fpipe f) (fip f) (memf f) (foff f) (fmajor f).
Definition set_fpipe v f := File (ftyp f) (fref f) (readable f) (writable f) v (fip f) (memf f) (foff f) (fmajor f).
Definition set_fip v f := File (ftyp f) (fref f) (readable f) (writable f) (fpipe f) v (memf f) (foff f) (fmajor f).
Definition set_memf v f := File (ftyp f) (fref f) (readable f) (writable f) (fpipe f) (fip f) v (foff f) (fmajor f).
Definition set_foff v f := File (ftyp f) (fref f) (readable f) (writable f) (fpipe f) (fip f) (memf f) v (fmajor f).
Definition set_fmajor v f := File (ftyp f) (fref f) (readable f) (writable f) (fpipe f) (fip f) (memf f) (foff f) v.

Record memfile := Memfile {
  ref_count : Z;                (* uint ref_count *)
  msize : Z;                    (* uint size *)
  mdata : Z;                    (* char *data *)
  is_marked_deleted : Z         (* int is_marked_deleted *)
}.

Record filesys := Filesys {
  ffs : fs log;
  ftable : Z -> file;           (* ftable.file *)
  mftable : Z -> memfile;       (* mftable.memfiles *)
  fpipes : Z -> pipe;           (* the pipes, by the address of their page *)
  total_allocs : Z;             (* mem_state.total_allocs *)
  fcons : console;              (* the console *)
  flog : logkeeper              (* the system log *)
}.

Definition set_ffs v s := Filesys v (ftable s) (mftable s) (fpipes s) (total_allocs s) (fcons s) (flog s).
Definition set_ftable v s := Filesys (ffs s) v (mftable s) (fpipes s) (total_allocs s) (fcons s) (flog s).
Definition set_mftable v s := Filesys (ffs s) (ftable s) v (fpipes s) (total_allocs s) (fcons s) (flog s).
Definition set_fpipes v s := Filesys (ffs s) (ftable s) (mftable s) v (total_allocs s) (fcons s) (flog s).
Definition set_total_allocs v s := Filesys (ffs s) (ftable s) (mftable s) (fpipes s) v (fcons s) (flog s).
Definition set_fcons v s := Filesys (ffs s) (ftable s) (mftable s) (fpipes s) (total_allocs s) v (flog s).
Definition set_flog v s := Filesys (ffs s) (ftable s) (mftable s) (fpipes s) (total_allocs s) (fcons s) v.

#[export] Instance filesys_pipes : PipeStore filesys.
Proof. by apply (Build_PipeStore filesys fpipes (fun a pi s => set_fpipes (upd (fpipes s) a pi) s)). Defined.

#[export] Instance filesys_console : ConsoleStore filesys.
Proof. by apply (Build_ConsoleStore filesys fcons set_fcons). Defined.
#[export] Instance filesys_log : LogStore filesys.
Proof. by apply (Build_LogStore filesys flog set_flog). Defined.

#[local] Abbreviation K := (M (kernel filesys)).

(** ** The file system in the kernel

    A buffer's data, when it is copied to or from memory, is at [buf_at]. *)

Definition block_at (buf_at : Z) (d m : mem) : mem :=
  fun a => if (buf_at <=? a) && (a <? buf_at + BSIZE) then d (a - buf_at) else m a.

Definition kernel_env (kend buf_at p : Z) : FsEnv log (kernel filesys) := {|
  env_fs s := ffs (files s);
  put_fs f s := set_files (set_ffs f (files s)) s;
  env_mem s := phys (kmem s);
  put_mem m s := set_kmem (set_phys (fun _ => m) (kmem s)) s;
  env_copyout user dst d off len :=
    do! in_mem (kupd (set_phys (block_at buf_at d)));
    either_copyout kend p user dst (buf_at + off) len;
  env_copyin d off user src len :=
    do! in_mem (kupd (set_phys (block_at buf_at d)));
    let! r := either_copyin kend p (buf_at + off) user src len in
    let! m := kget (fun s => phys (kmem s)) in
    kret (r, fun o => m (buf_at + o))
|}.

(** ** Operations *)

Section file.
(** [end]; the address of the buffer being copied, of [ch] in the pipe
    code, and of [struct stat st] on the kernel stack. *)
Variables (kend buf_at ch_at st_at : Z).
(** [devsw[i].read] and [devsw[i].write], [None] for null: by process,
    whether the address is the user's, address and count.  The result is
    [None] when the process has gone to sleep in the device. *)
Variables devsw_read devsw_write : Z -> option (Z -> bool -> Z -> Z -> K (option Z)).
(** [myproc()]. *)
Variable p : Z.

#[local] Instance cur_env : FsEnv log (kernel filesys) := kernel_env kend buf_at p.

Definition get_file (f : Z) : K file := kget (fun s => ftable (files s) f).
Definition upd_file (f : Z) (g : file -> file) : K unit :=
  in_files (kupd (fun s => set_ftable (upd (ftable s) f (g (ftable s f))) s)).
Definition get_memfile (i : Z) : K memfile := kget (fun s => mftable (files s) i).
Definition set_memfile (i : Z) (m : memfile) : K unit :=
  in_files (kupd (fun s => set_mftable (upd (mftable s) i m) s)).

Definition mypid : K Z := let! q := get_proc p in kret (pid q).

(** [begin_op], where it does not sleep, and [end_op] with its wakeup. *)
Definition kbegin_op : K unit :=
  let! ok := in_fs (in_blocks bl_begin) in
  if ok then kret tt else khang.
Definition kend_op : K unit :=
  let! n := mypid in
  do! in_fs (in_blocks (bl_end n));
  wakeup (Some p) ChanLog.

(** *** Files in memory *)

Definition find_memfile (t : Z -> memfile) : option Z :=
  snd <$> list_find (fun i => ref_count (t i) = 0 /\ is_marked_deleted (t i) = 0) (seqZ 0 NMEMFILE).

Definition memfile_create : K (option Z) :=
  let! t := kget (fun s => mftable (files s)) in
  match find_memfile t with
  | None => kret None
  | Some i =>
      let! data := in_mem kalloc in
      if data =? 0 then do! set_memfile i (Memfile 0 0 data 0); kret None else
      do! set_memfile i (Memfile 1 0 data 0);
      kret (Some i)
  end.

Definition memfile_delete (o : option Z) : K Z :=
  match o with
  | None => kret (-1)
  | Some i =>
      let! mf := get_memfile i in
      if ref_count mf <? 1 then kret (-1) else
      do! set_memfile i (Memfile (ref_count mf) (msize mf) (mdata mf) 1);
      kret 0
  end.

(** *** kernel/gc.c *)

Definition garbage_collect : K unit :=
  for_each (seqZ 0 NMEMFILE) (fun i =>
    let! mf := get_memfile i in
    if (is_marked_deleted mf =? 1) && (ref_count mf =? 0) then
      do! (if negb (mdata mf =? 0) then in_mem (kfree kend (mdata mf)) else kret tt);
      set_memfile i (Memfile 0 0 0 0)
    else kret tt).

(** *** kernel/mem.c *)

Definition mem_alloc : K Z :=
  let! ptr := in_mem kalloc in
  if ptr =? 0 then kret 0 else
  do! in_files (kupd (fun s => set_total_allocs (s32 (total_allocs s + 1)) s));
  kret ptr.

Definition mem_free (ptr : Z) : K unit :=
  if ptr =? 0 then kret tt else
  do! in_mem (kfree kend ptr);
  in_files (kupd (fun s => set_total_allocs (s32 (total_allocs s - 1)) s)).

(** *** The file table *)

Definition find_file (t : Z -> file) : option Z :=
  snd <$> list_find (fun i => fref (t i) = 0) (seqZ 0 NFILE).

Definition filealloc : K (option Z) :=
  let! t := kget (fun s => ftable (files s)) in
  match find_file t with
  | None => kret None
  | Some i => do! upd_file i (set_fref 1); kret (Some i)
  end.

Definition filedup (f : Z) : M filesys unit :=
  let! t := kget ftable in
  if fref (t f) <? 1 then kpanic "filedup"
  else kupd (fun s => set_ftable (upd (ftable s) f (set_fref (s32 (fref (t f) + 1)) (t f))) s).

(** [begin_op(); iput(ip); end_op()] *)
Definition put_inode (ip : Z) : K unit :=
  do! kbegin_op;
  let! n := mypid in
  do! in_fs (iput n ip);
  kend_op.

Definition fileclose (f : Z) : K unit :=
  let! ff := get_file f in
  if fref ff <? 1 then kpanic "fileclose" else
  let r := s32 (fref ff - 1) in
  if r >? 0 then upd_file f (set_fref r) else
  do! upd_file f (set_fref 0);
  do! upd_file f (set_ftyp FD_NONE);
  match ftyp ff with
  | FD_PIPE => pipeclose kend p (fpipe ff) (negb (writable ff =? 0))
  | FD_INODE | FD_DEVICE => put_inode (fip ff)
  | FD_MEM =>
      match memf ff with
      | None => kpanic "kerneltrap"
      | Some i =>
          let! mf := get_memfile i in
          set_memfile i (Memfile (u32 (ref_count mf - 1)) (msize mf) (mdata mf) (is_marked_deleted mf))
      end
  | FD_NONE => kret tt
  end.

(** [struct stat] in memory. *)
Definition sizeof_stat : Z := 24.
Definition store_stat (m : mem) (a : Z) (st : stat) : mem :=
  let m := st32 m a (u32 (st_dev st)) in
  let m := st32 m (a + 4) (u32 (st_ino st)) in
  let m := st16 m (a + 8) (u16 (st_type st)) in
  let m := st16 m (a + 10) (u16 (st_nlink st)) in
  st64 m (a + 16) (u64 (st_size st)).

(** [copyout] and [copyin] for the current process. *)
Definition ucopyout (dstva src len : Z) : K Z :=
  let! q := get_proc p in in_mem (copyout kend (sz q) (pgtbl q) dstva src len).
Definition ucopyin (dst srcva len : Z) : K Z :=
  let! q := get_proc p in in_mem (copyin kend (sz q) (pgtbl q) dst srcva len).

Definition filestat (f addr : Z) : K Z :=
  let! ff := get_file f in
  match ftyp ff with
  | FD_INODE | FD_DEVICE =>
      let! n := mypid in
      do! in_fs (ilock n (fip ff));
      let! st := stati (fip ff) in
      do! in_mem (kupd (set_phys (fun m => store_stat m st_at st)));
      do! in_fs (iunlock n (fip ff));
      let! r := ucopyout addr st_at sizeof_stat in
      kret (if r <? 0 then -1 else 0)
  | _ => kret (-1)
  end.

(** [fileread] of a file in memory. *)
Definition memfile_read (f addr n : Z) (o : option Z) : K Z :=
  match o with
  | None => kpanic "kerneltrap"
  | Some i =>
      let! mf := get_memfile i in
      if is_marked_deleted mf =? 1 then kret (-1) else
      do! upd_file f (set_foff 0);
      if (mdata mf =? 0) || (0 >=? msize mf) then kret 0 else
      let max_read := s32 (msize mf) in
      let n := if n >? max_read then max_read else n in
      if n >? 0 then
        let! r := ucopyout addr (mdata mf) n in
        if r <? 0 then kret (-1) else
        do! upd_file f (set_foff (u32 n));
        kret n
      else kret n
  end.

Definition fileread (f addr n : Z) : K (option Z) :=
  let! ff := get_file f in
  if readable ff =? 0 then kret (Some (-1)) else
  match ftyp ff with
  | FD_PIPE => piperead kend ch_at p (fpipe ff) addr n
  | FD_DEVICE =>
      if (fmajor ff <? 0) || (fmajor ff >=? NDEV) then kret (Some (-1)) else
      match devsw_read (fmajor ff) with
      | None => kret (Some (-1))
      | Some read => read p true addr n
      end
  | FD_INODE =>
      let! me := mypid in
      do! in_fs (ilock me (fip ff));
      let! r := readi me (fip ff) true addr (foff ff) (u32 n) in
      do! (if r >? 0 then upd_file f (set_foff (u32 (foff ff + r))) else kret tt);
      do! in_fs (iunlock me (fip ff));
      kret (Some r)
  | FD_MEM => let! r := memfile_read f addr n (memf ff) in kret (Some r)
  | FD_NONE => kpanic "fileread"
  end.

(** The bytes of one transaction of [filewrite]. *)
Definition max_bytes : Z := (MAXOPBLOCKS - 1 - 1 - 2) / 2 * BSIZE.

(** The loop of [filewrite] over an inode, [i] bytes done: the bytes
    written when it stops.  Each iteration but the last writes [max_bytes]. *)
Fixpoint filewrite_loop (fuel : nat) (f addr n i : Z) : K Z :=
  if i <? n then
    match fuel with
    | O => khang
    | S fuel' =>
        let n1 := Z.min (n - i) max_bytes in
        do! kbegin_op;
        let! me := mypid in
        let! ff := get_file f in
        do! in_fs (ilock me (fip ff));
        let! r := writei me (fip ff) true (u64 (addr + i)) (foff ff) n1 in
        do! (if r >? 0 then upd_file f (set_foff (u32 (foff ff + r))) else kret tt);
        do! in_fs (iunlock me (fip ff));
        do! kend_op;
        if negb (r =? n1) then kret i else filewrite_loop fuel' f addr n (i + r)
    end
  else kret i.

Definition filewrite_fuel (n : Z) : nat := Z.to_nat (n / max_bytes + 1).

(** [filewrite] to a file in memory. *)
Definition memfile_write (f addr n : Z) (off : Z) (o : option Z) : K Z :=
  match o with
  | None => kpanic "kerneltrap"
  | Some i =>
      let! mf := get_memfile i in
      if is_marked_deleted mf =? 1 then kret (-1) else
      let! data := (if mdata mf =? 0 then
                      let! d := in_mem kalloc in
                      do! set_memfile i (Memfile (ref_count mf) (msize mf) d (is_marked_deleted mf));
                      kret d
                    else kret (mdata mf)) in
      if data =? 0 then kret (-1) else
      let max_write := s32 (4096 - off) in
      let n := if n >? max_write then max_write else n in
      if n >? 0 then
        let! r := ucopyin (data + off) addr n in
        if r <? 0 then kret (-1) else
        let off' := u32 (off + n) in
        do! upd_file f (set_foff off');
        do! set_memfile i (Memfile (ref_count mf) (if off' >? msize mf then off' else msize mf) data (is_marked_deleted mf));
        kret n
      else kret n
  end.

(** The value returned, or where the process sleeps: after some bytes in
    [pipewrite], or in the device. *)
Definition filewrite (f addr n : Z) : K (Z + option Z) :=
  let! ff := get_file f in
  if writable ff =? 0 then kret (inl (-1)) else
  match ftyp ff with
  | FD_PIPE =>
      let! r := pipewrite kend ch_at p (fpipe ff) addr n 0 in
      kret (match r with inl v => inl v | inr i => inr (Some i) end)
  | FD_DEVICE =>
      if (fmajor ff <? 0) || (fmajor ff >=? NDEV) then kret (inl (-1)) else
      match devsw_write (fmajor ff) with
      | None => kret (inl (-1))
      | Some write =>
          let! r := write p true addr n in
          kret (match r with Some v => inl v | None => inr None end)
      end
  | FD_INODE =>
      let! i := filewrite_loop (filewrite_fuel n) f addr n 0 in
      kret (inl (if i =? n then n else -1))
  | FD_MEM => let! r := memfile_write f addr n (foff ff) (memf ff) in kret (inl r)
  | FD_NONE => kpanic "filewrite"
  end.

(** *** [pipealloc] of kernel/pipe.c *)

(** The two files, read end first; [None] for -1. *)
Definition pipealloc : K (option (Z * Z)) :=
  let! o0 := filealloc in
  match o0 with
  | None => kret None
  | Some f0 =>
      let! o1 := filealloc in
      match o1 with
      | None => do! fileclose f0; kret None
      | Some f1 =>
          let! pi := in_mem kalloc in
          if pi =? 0 then do! fileclose f0; do! fileclose f1; kret None else
          do! in_files (kupd (fun s => set_fpipes (upd (fpipes s) pi (init_pipe (fpipes s pi))) s));
          do! upd_file f0 (fun f => set_fpipe pi (set_writable 0 (set_readable 1 (set_ftyp FD_PIPE f))));
          do! upd_file f1 (fun f => set_fpipe pi (set_writable 1 (set_readable 0 (set_ftyp FD_PIPE f))));
          kret (Some (f0, f1))
      end
  end.
End file.
