(* ===== verification/Args.v ===== *)
(** * The arguments of system calls

    The helpers of kernel/syscall.c that fetch a system call's arguments
    from the trap frame and from user memory, for the process in slot
    [p]. *)

From S2P Require Import Prelude Memory StringC Kalloc Vm Proc.

(** [struct trapframe]: the offsets of the saved registers the kernel
    uses. *)
Definition tf_kernel_satp : Z := 0.
Definition tf_kernel_sp : Z := 8.
Definition tf_kernel_trap : Z := 16.
Definition tf_epc : Z := 24.
Definition tf_kernel_hartid : Z := 32.
Definition tf_sp : Z := 48.
Definition tf_a (i : Z) : Z := 112 + 8 * i.

Section args.
Context {F : Type}.
Variables (kend p : Z).
#[local] Abbreviation K := (M (kernel F)).

Definition kphys : K mem := kget (fun s => phys (kmem s)).
Definition upd_phys (f : mem -> mem) : K unit := in_mem (kupd (set_phys f)).

(** A field of [p->trapframe]. *)
Definition get_tf (o : Z) : K Z :=
  let! q := get_proc p in
  let! m := kphys in
  kret (ld64 m (trapframe q + o)).
Definition set_tf (o v : Z) : K unit :=
  let! q := get_proc p in
  upd_phys (fun m => st64 m (trapframe q + o) (u64 v)).

(** [fetchaddr(addr, ip)]: the word goes to the address [ip]. *)
Definition fetchaddr (addr ip : Z) : K Z :=
  let! q := get_proc p in
  if (addr >=? sz q) || (u64 (addr + 8) >? sz q) then kret (-1) else
  let! r := in_mem (copyin kend (sz q) (pgtbl q) ip addr 8) in
  kret (if negb (r =? 0) then -1 else 0).

(** [copyinstr] leaves a NUL within [max] bytes, which bounds [strlen]. *)
Definition fetchstr (addr buf max : Z) : K Z :=
  let! q := get_proc p in
  let! r := in_mem (copyinstr (pgtbl q) buf addr max) in
  if r <? 0 then kret (-1) else
  let! m := kphys in
  match strlen (Z.to_nat max) m buf with
  | Some l => kret (s32 l)
  | None => khang
  end.

Definition argraw (n : Z) : K Z :=
  if (0 <=? n) && (n <=? 5) then get_tf (tf_a n) else kpanic "argraw".

Definition argint (n : Z) : K Z := let! x := argraw n in kret (s32 x).
Definition argaddr (n : Z) : K Z := argraw n.
Definition argstr (n buf max : Z) : K Z := let! addr := argaddr n in fetchstr addr buf max.
End args.
