(* ===== verification/Exec.v ===== *)
(** * kernel/exec.c: replacing a process's program

    The executable is an ELF file: its header and program headers are read
    into kernel memory, each loadable segment into fresh pages, and the
    arguments onto a new stack; the new image replaces the old one when all
    of that worked. *)

From S2P Require Import Prelude Memory StringC Kalloc Vm Proc Pipe Sleeplock Bio Log Fs FsLayer File Args.

Definition ELF_MAGIC : Z := 0x464C457F.
Definition ELF_PROG_LOAD : Z := 1.
Definition MAXARG : Z := 32.
Definition USERSTACK : Z := 1.

(** [struct elfhdr] and [struct proghdr] at an address: their sizes and the
    fields [kexec] uses. *)
Definition sizeof_elf : Z := 64.
Definition elf_magic (m : mem) (a : Z) : Z := ld32 m a.
Definition elf_entry (m : mem) (a : Z) : Z := ld64 m (a + 24).
Definition elf_phoff (m : mem) (a : Z) : Z := ld64 m (a + 32).
Definition elf_phnum (m : mem) (a : Z) : Z := ld16 m (a + 56).

Definition sizeof_ph : Z := 56.
Record proghdr := Proghdr { ph_type : Z; ph_flags : Z; ph_off : Z; ph_vaddr : Z; ph_filesz : Z; ph_memsz : Z }.
Definition load_ph (m : mem) (a : Z) : proghdr :=
  Proghdr (ld32 m a) (ld32 m (a + 4)) (ld64 m (a + 8)) (ld64 m (a + 16)) (ld64 m (a + 32)) (ld64 m (a + 40)).

Definition flags2perm (flags : Z) : Z :=
  let perm := if negb (Z.land flags 1 =? 0) then PTE_X else 0 in
  if negb (Z.land flags 2 =? 0) then Z.lor perm PTE_W else perm.

Section exec.
Variables (kend buf_at trampoline : Z).
(** [struct elfhdr elf], [struct proghdr ph] and [ustack] on the kernel
    stack; the [de] of directory code and the [name] of [namei]. *)
Variables (elf_at ph_at ustack_at de_at nm_at : Z).
(** [myproc()]. *)
Variable p : Z.
#[local] Abbreviation K := (M (kernel filesys)).
#[local] Instance exec_env : FsEnv log (kernel filesys) := kernel_env kend buf_at p.

(** [namei] and [nameiparent] for the current process; a relative path
    needs a current directory. *)
Definition with_cwd {A} (path : Z) (k : Z -> K A) : K A :=
  let! q := get_proc p in
  let! m := kphys in
  match cwd q with
  | Some d => k d
  | None => if u8 (m path) =? slash then k 0 else kpanic "kerneltrap"
  end.
Definition knamei (path : Z) : K (option Z) :=
  let! n := mypid p in with_cwd path (fun d => namei de_at n d path nm_at).
Definition knameiparent (path name : Z) : K (option Z) :=
  let! n := mypid p in with_cwd path (fun d => nameiparent de_at n d path name).

(** The offsets of [loadseg]'s loop, 0, PGSIZE, ... below [sz]. *)
Definition seg_pages (sz : Z) : list Z := (fun i => i * PGSIZE) <$> seqZ 0 ((sz + PGSIZE - 1) / PGSIZE).

Fixpoint loadseg_loop (l : list Z) (pt va ip offset sz : Z) : K Z :=
  match l with
  | [] => kret 0
  | i :: l' =>
      let! pa := in_mem (walkaddr pt (u64 (va + i))) in
      if pa =? 0 then kpanic "loadseg: address should exist" else
      let n := if sz - i <? PGSIZE then sz - i else PGSIZE in
      let! me := mypid p in
      let! r := readi me ip false pa (u32 (offset + i)) n in
      if negb (r =? n) then kret (-1) else loadseg_loop l' pt va ip offset sz
  end.

Definition loadseg (pt va ip offset sz : Z) : K Z := loadseg_loop (seg_pages sz) pt va ip offset sz.

(** The loop over the program headers, [k] of them left, the next at [off]:
    the size of the image; [inr] the size at the [goto bad]. *)
Fixpoint load_segments (k : nat) (pt ip off sz : Z) : K (Z + Z) :=
  match k with
  | O => kret (inl sz)
  | S k' =>
      let! me := mypid p in
      let! r := readi me ip false ph_at (u32 off) sizeof_ph in
      if negb (r =? sizeof_ph) then kret (inr sz) else
      let! m := kphys in
      let ph := load_ph m ph_at in
      let next sz := load_segments k' pt ip (s32 (off + sizeof_ph)) sz in
      if negb (ph_type ph =? ELF_PROG_LOAD) then next sz else
      if ph_memsz ph <? ph_filesz ph then kret (inr sz) else
      if u64 (ph_vaddr ph + ph_memsz ph) <? ph_vaddr ph then kret (inr sz) else
      if negb (ph_vaddr ph mod PGSIZE =? 0) then kret (inr sz) else
      let! sz1 := in_mem (uvmalloc kend pt sz (u64 (ph_vaddr ph + ph_memsz ph)) (flags2perm (ph_flags ph))) in
      if sz1 =? 0 then kret (inr sz) else
      let! r := loadseg pt (ph_vaddr ph) ip (u32 (ph_off ph)) (u32 (ph_filesz ph)) in
      if r <? 0 then kret (inr sz1) else next sz1
  end.

(** [strlen] of a string in a page. *)
Definition page_strlen (m : mem) (a : Z) : option Z := strlen (Z.to_nat PGSIZE) m a.

(** The loop that copies the arguments to the stack: the stack pointer and
    the number of arguments, [None] at a [goto bad]. *)
Fixpoint push_args (argv : list Z) (psz pt stackbase sp argc : Z) : K (option (Z * Z)) :=
  match argv with
  | [] => kret (Some (sp, argc))
  | a :: argv' =>
      if argc >=? MAXARG then kret None else
      let! m := kphys in
      match page_strlen m a with
      | None => khang
      | Some l =>
          let sp := u64 (sp - (s32 l + 1)) in
          let sp := sp - sp mod 16 in
          if sp <? stackbase then kret None else
          let! r := in_mem (copyout kend psz pt sp a (s32 l + 1)) in
          if r <? 0 then kret None else
          do! upd_phys (fun m => st64 m (ustack_at + 8 * argc) sp);
          push_args argv' psz pt stackbase sp (argc + 1)
      end
  end.

(** [last]: past the last slash of the path. *)
Fixpoint last_elem (fuel : nat) (m : mem) (s last : Z) : Z :=
  match fuel with
  | O => last
  | S f => if u8 (m s) =? 0 then last else last_elem f m (s + 1) (if u8 (m s) =? slash then s + 1 else last)
  end.

(** [safestrcpy(p->name, last, sizeof(p->name))] *)
Definition name_from (nm m : mem) (last : Z) : mem :=
  safestrcpy (name_pair nm (fun a => m (last + a))) 0 16 16.

(** The new image: from the stack to the end of [kexec].  [path] is the
    program's path, [argv] the argument strings, [sz] the size so far; the
    result is [argc], or the size at the [goto bad]. *)
Definition new_stack (path : Z) (argv : list Z) (pt sz0 entry : Z) : K (Z + Z) :=
  let! q := get_proc p in
  let oldsz := sz q in
  let sz0 := PGROUNDUP sz0 in
  let! sz1 := in_mem (uvmalloc kend pt sz0 (u64 (sz0 + (USERSTACK + 1) * PGSIZE)) PTE_W) in
  if sz1 =? 0 then kret (inr sz0) else
  do! in_mem (uvmclear pt (sz1 - (USERSTACK + 1) * PGSIZE));
  let stackbase := sz1 - USERSTACK * PGSIZE in
  let! o := push_args argv oldsz pt stackbase sz1 0 in
  match o with
  | None => kret (inr sz1)
  | Some (sp, argc) =>
      do! upd_phys (fun m => st64 m (ustack_at + 8 * argc) 0);
      let sp := u64 (sp - (argc + 1) * 8) in
      let sp := sp - sp mod 16 in
      if sp <? stackbase then kret (inr sz1) else
      let! r := in_mem (copyout kend oldsz pt sp ustack_at ((argc + 1) * 8)) in
      if r <? 0 then kret (inr sz1) else
      do! set_tf p (tf_a 1) sp;
      let! m := kphys in
      do! upd_proc p (fun q => set_pname (name_from (pname q) m (last_elem path_fuel m path path)) q);
      let oldpt := pgtbl q in
      do! upd_proc p (set_pgtbl pt);
      do! upd_proc p (set_sz sz1);
      do! set_tf p tf_epc entry;
      do! set_tf p tf_sp sp;
      do! in_mem (proc_freepagetable kend oldpt oldsz);
      kret (inl argc)
  end.

Definition kexec (path : Z) (argv : list Z) : K Z :=
  do! kbegin_op kend buf_at p;
  let! o := knamei path in
  match o with
  | None => do! kend_op kend buf_at p; kret (-1)
  | Some ip =>
      let! me := mypid p in
      do! in_fs (ilock me ip);
      (* bad, with the inode still open *)
      let bad pt sz0 :=
        do! (if negb (pt =? 0) then in_mem (proc_freepagetable kend pt sz0) else kret tt);
        do! in_fs (iunlockput me ip);
        do! kend_op kend buf_at p;
        kret (-1) in
      let! r := readi me ip false elf_at 0 sizeof_elf in
      if negb (r =? sizeof_elf) then bad 0 0 else
      let! m := kphys in
      if negb (elf_magic m elf_at =? ELF_MAGIC) then bad 0 0 else
      let! q := get_proc p in
      let! pt := in_mem (proc_pagetable kend trampoline (trapframe q)) in
      if pt =? 0 then bad 0 0 else
      let! r := load_segments (Z.to_nat (elf_phnum m elf_at)) pt ip (s32 (elf_phoff m elf_at)) 0 in
      match r with
      | inr sz0 => bad pt sz0
      | inl sz0 =>
          do! in_fs (iunlockput me ip);
          do! kend_op kend buf_at p;
          let! m := kphys in
          let! r := new_stack path argv pt sz0 (elf_entry m elf_at) in
          match r with
          | inl argc => kret argc
          | inr sz1 => do! in_mem (proc_freepagetable kend pt sz1); kret (-1)
          end
      end
  end.
End exec.
