(* ===== verification/Sysfile.v ===== *)
(** * kernel/sysfile.c: the system calls on files

    Each handler takes its arguments from the trap frame of the process in
    slot [p] and returns the value for the user; [sys_read] and [sys_write]
    may leave the process asleep, as in File.v.  The locals whose address
    the code passes on are at fixed addresses of the kernel stack. *)

From S2P Require Import Prelude Memory StringC Kalloc Vm Proc Pipe Sleeplock Bio Log Fs FsLayer File Args Exec.

Definition O_RDONLY : Z := 0x000.
Definition O_WRONLY : Z := 0x001.
Definition O_RDWR : Z := 0x002.
Definition O_CREATE : Z := 0x200.
Definition O_TRUNC : Z := 0x400.

(** The addresses of the locals, and of the strings "." and "..". *)
Record locals := Locals {
  l_path : Z; l_new : Z;        (* path (old, in sys_link) and new *)
  l_name : Z;                   (* name, of sys_link, sys_unlink and create *)
  l_nm : Z;                     (* name, of namei *)
  l_de : Z;                     (* de, of dirlookup and dirlink *)
  l_ude : Z;                    (* de, of sys_unlink *)
  l_ide : Z;                    (* de, of isdirempty *)
  l_uarg : Z;                   (* uarg, of sys_exec *)
  l_elf : Z; l_ph : Z; l_ustack : Z;  (* of kexec *)
  l_fd : Z;                     (* fd0, and fd1 after it, of sys_pipe *)
  l_dot : Z; l_dotdot : Z
}.

Section sysfile.
Variables (kend buf_at ch_at st_at trampoline : Z) (L : locals).
Variables devsw_read devsw_write : Z -> option (Z -> bool -> Z -> Z -> M (kernel filesys) (option Z)).
(** [myproc()]. *)
Variable p : Z.
#[local] Abbreviation K := (M (kernel filesys)).
#[local] Instance sys_env : FsEnv log (kernel filesys) := kernel_env kend buf_at p.

#[local] Abbreviation begin_op := (kbegin_op kend buf_at p).
#[local] Abbreviation end_op := (kend_op kend buf_at p).
#[local] Abbreviation fileclose f := (File.fileclose kend buf_at p f).
#[local] Abbreviation namei := (knamei kend buf_at (l_de L) (l_nm L) p).
#[local] Abbreviation nameiparent := (knameiparent kend buf_at (l_de L) p).
#[local] Abbreviation argstr := (argstr p).
#[local] Abbreviation argint := (argint p).
#[local] Abbreviation argaddr := (argaddr p).

(** *** File descriptors *)

(** The descriptor and its file. *)
Definition argfd (n : Z) : K (option (Z * Z)) :=
  let! fd := argint n in
  if (fd <? 0) || (fd >=? NOFILE) then kret None else
  let! q := get_proc p in
  kret (match ofile q fd with Some f => Some (fd, f) | None => None end).

Definition set_fd (fd : Z) (o : option Z) : K unit :=
  upd_proc p (fun q => set_ofile (upd (ofile q) fd o) q).

Definition find_fd (o : Z -> option Z) : option Z :=
  snd <$> list_find (fun fd => o fd = None) (seqZ 0 NOFILE).

Definition fdalloc (f : Z) : K Z :=
  let! q := get_proc p in
  match find_fd (ofile q) with
  | Some fd => do! set_fd fd (Some f); kret fd
  | None => kret (-1)
  end.

Definition sys_dup : K Z :=
  let! o := argfd 0 in
  match o with
  | None => kret (-1)
  | Some (_, f) =>
      let! fd := fdalloc f in
      if fd <? 0 then kret (-1) else
      do! in_files (filedup f);
      kret fd
  end.

Definition sys_read : K (option Z) :=
  let! addr := argaddr 1 in
  let! n := argint 2 in
  let! o := argfd 0 in
  match o with
  | None => kret (Some (-1))
  | Some (_, f) => fileread kend buf_at ch_at devsw_read p f addr n
  end.

Definition sys_write : K (Z + option Z) :=
  let! addr := argaddr 1 in
  let! n := argint 2 in
  let! o := argfd 0 in
  match o with
  | None => kret (inl (-1))
  | Some (_, f) => filewrite kend buf_at ch_at devsw_write p f addr n
  end.

Definition sys_close : K Z :=
  let! o := argfd 0 in
  match o with
  | None => kret (-1)
  | Some (fd, f) =>
      do! set_fd fd None;
      do! fileclose f;
      kret 0
  end.

Definition sys_fstat : K Z :=
  let! st := argaddr 1 in
  let! o := argfd 0 in
  match o with
  | None => kret (-1)
  | Some (_, f) => filestat kend buf_at st_at p f st
  end.

(** *** Directories *)

Definition add_nlink (ip d : Z) : K unit :=
  in_fs (upd_inode ip (fun x => set_inlink (s16 (inlink x + d)) x)).

Definition sys_link : K Z :=
  let! r := argstr 0 (l_path L) MAXPATH in
  if r <? 0 then kret (-1) else
  let! r := argstr 1 (l_new L) MAXPATH in
  if r <? 0 then kret (-1) else
  do! begin_op;
  let! n := mypid p in
  let! o := namei (l_path L) in
  match o with
  | None => do! end_op; kret (-1)
  | Some ip =>
      do! in_fs (ilock n ip);
      let! i := in_fs (get_inode ip) in
      if itype i =? T_DIR then do! in_fs (iunlockput n ip); do! end_op; kret (-1) else
      do! add_nlink ip 1;
      do! in_fs (iupdate n ip);
      do! in_fs (iunlock n ip);
      let bad :=
        do! in_fs (ilock n ip);
        do! add_nlink ip (-1);
        do! in_fs (iupdate n ip);
        do! in_fs (iunlockput n ip);
        do! end_op;
        kret (-1) in
      let! o := nameiparent (l_new L) (l_name L) in
      match o with
      | None => bad
      | Some dp =>
          do! in_fs (ilock n dp);
          let! d := in_fs (get_inode dp) in
          let! i := in_fs (get_inode ip) in
          let! r := (if negb (idev d =? idev i) then kret (-1) else dirlink (l_de L) n dp (l_name L) (inum i)) in
          if r <? 0 then do! in_fs (iunlockput n dp); bad else
          do! in_fs (iunlockput n dp);
          do! in_fs (iput n ip);
          do! end_op;
          kret 0
      end
  end.

Fixpoint isdirempty_loop (n dp : Z) (l : list Z) : K bool :=
  match l with
  | [] => kret true
  | off :: l' =>
      let! r := readi n dp false (l_ide L) off DIRENT in
      if negb (r =? DIRENT) then kpanic "isdirempty: readi" else
      let! m := kphys in
      if negb (de_inum (l_ide L) m =? 0) then kret false else isdirempty_loop n dp l'
  end.

(** The entries after the first two. *)
Definition isdirempty (n dp : Z) : K bool :=
  let! d := in_fs (get_inode dp) in
  isdirempty_loop n dp (drop 2 (entries (isize d))).

Definition sys_unlink : K Z :=
  let! r := argstr 0 (l_path L) MAXPATH in
  if r <? 0 then kret (-1) else
  do! begin_op;
  let! n := mypid p in
  let! o := nameiparent (l_path L) (l_name L) in
  match o with
  | None => do! end_op; kret (-1)
  | Some dp =>
      do! in_fs (ilock n dp);
      let bad := do! in_fs (iunlockput n dp); do! end_op; kret (-1) in
      let! m := kphys in
      if (namecmp m (l_name L) (l_dot L) =? 0) || (namecmp m (l_name L) (l_dotdot L) =? 0) then bad else
      let! o := dirlookup (l_de L) n dp (l_name L) in
      match o with
      | None => bad
      | Some (ip, off) =>
          do! in_fs (ilock n ip);
          let! i := in_fs (get_inode ip) in
          if inlink i <? 1 then kpanic "unlink: nlink < 1" else
          let! full := (if itype i =? T_DIR then let! e := isdirempty n ip in kret (negb e) else kret false) in
          if full then do! in_fs (iunlockput n ip); bad else
          do! upd_phys (fun m => memset m (l_ude L) 0 DIRENT);
          let! r := writei n dp false (l_ude L) off DIRENT in
          if negb (r =? DIRENT) then kpanic "unlink: writei" else
          let! i := in_fs (get_inode ip) in
          do! (if itype i =? T_DIR then do! add_nlink dp (-1); in_fs (iupdate n dp) else kret tt);
          do! in_fs (iunlockput n dp);
          do! add_nlink ip (-1);
          do! in_fs (iupdate n ip);
          do! in_fs (iunlockput n ip);
          do! end_op;
          kret 0
      end
  end.

Definition create (path type major minor : Z) : K (option Z) :=
  let! n := mypid p in
  let! o := nameiparent path (l_name L) in
  match o with
  | None => kret None
  | Some dp =>
      do! in_fs (ilock n dp);
      let! o := dirlookup (l_de L) n dp (l_name L) in
      match o with
      | Some (ip, _) =>
          do! in_fs (iunlockput n dp);
          do! in_fs (ilock n ip);
          let! i := in_fs (get_inode ip) in
          if (type =? T_FILE) && ((itype i =? T_FILE) || (itype i =? T_DEVICE)) then kret (Some ip) else
          do! in_fs (iunlockput n ip);
          kret None
      | None =>
          let! d := in_fs (get_inode dp) in
          let! o := in_fs (ialloc n (idev d) type) in
          match o with
          | None => do! in_fs (iunlockput n dp); kret None
          | Some ip =>
              do! in_fs (ilock n ip);
              do! in_fs (upd_inode ip (set_imajor major));
              do! in_fs (upd_inode ip (set_iminor minor));
              do! in_fs (upd_inode ip (set_inlink 1));
              do! in_fs (iupdate n ip);
              let fail :=
                do! in_fs (upd_inode ip (set_inlink 0));
                do! in_fs (iupdate n ip);
                do! in_fs (iunlockput n ip);
                do! in_fs (iunlockput n dp);
                kret None in
              let! i := in_fs (get_inode ip) in
              let! ok := (if type =? T_DIR then
                            let! r := dirlink (l_de L) n ip (l_dot L) (inum i) in
                            if r <? 0 then kret false else
                            let! d := in_fs (get_inode dp) in
                            let! r := dirlink (l_de L) n ip (l_dotdot L) (inum d) in
                            kret (negb (r <? 0))
                          else kret true) in
              if negb ok then fail else
              let! r := dirlink (l_de L) n dp (l_name L) (inum i) in
              if r <? 0 then fail else
              do! (if type =? T_DIR then do! add_nlink dp 1; in_fs (iupdate n dp) else kret tt);
              do! in_fs (iunlockput n dp);
              kret (Some ip)
          end
      end
  end.

(** *** Opening files *)

(** [f] becomes the open file for the inode [i]. *)
Definition open_file (i : inode) (ip omode : Z) (f : file) : file :=
  let f := if itype i =? T_DEVICE then set_fmajor (imajor i) (set_ftyp FD_DEVICE f)
           else set_foff 0 (set_ftyp FD_INODE f) in
  let f := set_fip ip f in
  let f := set_readable (if Z.land omode O_WRONLY =? 0 then 1 else 0) f in
  set_writable (if (Z.land omode O_WRONLY =? 0) && (Z.land omode O_RDWR =? 0) then 0 else 1) f.

Definition sys_open : K Z :=
  let! omode := argint 1 in
  let! r := argstr 0 (l_path L) MAXPATH in
  if r <? 0 then kret (-1) else
  do! begin_op;
  let! n := mypid p in
  let! o := (if negb (Z.land omode O_CREATE =? 0) then create (l_path L) T_FILE 0 0 else
             let! o := namei (l_path L) in
             match o with
             | None => kret None
             | Some ip =>
                 do! in_fs (ilock n ip);
                 let! i := in_fs (get_inode ip) in
                 if (itype i =? T_DIR) && negb (omode =? O_RDONLY)
                 then do! in_fs (iunlockput n ip); kret None else kret (Some ip)
             end) in
  match o with
  | None => do! end_op; kret (-1)
  | Some ip =>
      let! i := in_fs (get_inode ip) in
      let bad := do! in_fs (iunlockput n ip); do! end_op; kret (-1) in
      if (itype i =? T_DEVICE) && ((imajor i <? 0) || (imajor i >=? NDEV)) then bad else
      let! o := filealloc in
      match o with
      | None => bad
      | Some f =>
          let! fd := fdalloc f in
          if fd <? 0 then do! fileclose f; bad else
          do! upd_file f (open_file i ip omode);
          do! (if negb (Z.land omode O_TRUNC =? 0) && (itype i =? T_FILE) then in_fs (itrunc n ip) else kret tt);
          do! in_fs (iunlock n ip);
          do! end_op;
          kret fd
      end
  end.

Definition sys_mkdir : K Z :=
  do! begin_op;
  let! n := mypid p in
  let! r := argstr 0 (l_path L) MAXPATH in
  let! o := (if r <? 0 then kret None else create (l_path L) T_DIR 0 0) in
  match o with
  | None => do! end_op; kret (-1)
  | Some ip => do! in_fs (iunlockput n ip); do! end_op; kret 0
  end.

Definition sys_mknod : K Z :=
  do! begin_op;
  let! n := mypid p in
  let! major := argint 1 in
  let! minor := argint 2 in
  let! r := argstr 0 (l_path L) MAXPATH in
  let! o := (if r <? 0 then kret None else create (l_path L) T_DEVICE (s16 major) (s16 minor)) in
  match o with
  | None => do! end_op; kret (-1)
  | Some ip => do! in_fs (iunlockput n ip); do! end_op; kret 0
  end.

Definition sys_chdir : K Z :=
  do! begin_op;
  let! n := mypid p in
  let! r := argstr 0 (l_path L) MAXPATH in
  let! o := (if r <? 0 then kret None else namei (l_path L)) in
  match o with
  | None => do! end_op; kret (-1)
  | Some ip =>
      do! in_fs (ilock n ip);
      let! i := in_fs (get_inode ip) in
      if negb (itype i =? T_DIR) then do! in_fs (iunlockput n ip); do! end_op; kret (-1) else
      do! in_fs (iunlock n ip);
      let! q := get_proc p in
      match cwd q with
      | None => kpanic "kerneltrap"
      | Some d =>
          do! in_fs (iput n d);
          do! end_op;
          do! upd_proc p (set_cwd (Some ip));
          kret 0
      end
  end.

(** *** exec *)

(** The loop that fetches the arguments, [k] slots of [argv] left: whether
    it worked, and the pages of the strings. *)
Fixpoint exec_args (k : nat) (uargv i : Z) (argv : list Z) : K (bool * list Z) :=
  match k with
  | O => kret (false, argv)
  | S k' =>
      let! r := fetchaddr kend p (u64 (uargv + 8 * i)) (l_uarg L) in
      if r <? 0 then kret (false, argv) else
      let! m := kphys in
      let uarg := ld64 m (l_uarg L) in
      if uarg =? 0 then kret (true, argv) else
      let! pg := in_mem kalloc in
      if pg =? 0 then kret (false, argv) else
      let! r := fetchstr p uarg pg PGSIZE in
      if r <? 0 then kret (false, argv ++ [pg]) else
      exec_args k' uargv (i + 1) (argv ++ [pg])
  end.

Definition free_args (argv : list Z) : K unit := for_each argv (fun a => in_mem (kfree kend a)).

Definition sys_exec : K Z :=
  let! uargv := argaddr 1 in
  let! r := argstr 0 (l_path L) MAXPATH in
  if r <? 0 then kret (-1) else
  let! r := exec_args (Z.to_nat MAXARG) uargv 0 [] in
  if fst r then
    let! ret := kexec kend buf_at trampoline (l_elf L) (l_ph L) (l_ustack L) (l_de L) (l_nm L) p (l_path L) (snd r) in
    do! free_args (snd r);
    kret ret
  else do! free_args (snd r); kret (-1).

(** *** Pipes *)

Definition sys_pipe : K Z :=
  let! fdarray := argaddr 0 in
  let! o := pipealloc kend buf_at p in
  match o with
  | None => kret (-1)
  | Some (rf, wf) =>
      let close := do! fileclose rf; do! fileclose wf; kret (-1) in
      let! fd0 := fdalloc rf in
      if fd0 <? 0 then close else
      let! fd1 := fdalloc wf in
      if fd1 <? 0 then do! set_fd fd0 None; close else
      do! upd_phys (fun m => st32 (st32 m (l_fd L) (u32 fd0)) (l_fd L + 4) (u32 fd1));
      let! r := ucopyout kend p fdarray (l_fd L) 4 in
      let! r := (if r <? 0 then kret r else ucopyout kend p (u64 (fdarray + 4)) (l_fd L + 4) 4) in
      if r <? 0 then do! set_fd fd0 None; do! set_fd fd1 None; close else
      kret 0
  end.

(** *** Files in memory *)

Definition sys_memcreate : K Z :=
  let! o := filealloc in
  match o with
  | None => kret (-1)
  | Some f =>
      let! fd := fdalloc f in
      if fd <? 0 then do! fileclose f; kret (-1) else
      let! o := memfile_create in
      match o with
      | None => do! fileclose f; kret (-1)
      | Some mf =>
          do! upd_file f (fun x => set_writable 1 (set_readable 1 (set_memf (Some mf) (set_ftyp FD_MEM x))));
          kret fd
      end
  end.

Definition sys_memdelete : K Z :=
  let! o := argfd 0 in
  match o with
  | None => kret (-1)
  | Some (_, f) =>
      let! ff := get_file f in
      if negb (bool_decide (ftyp ff = FD_MEM)) then kret (-1) else memfile_delete (memf ff)
  end.
End sysfile.
