(* ===== verification/Sysproc.v ===== *)
(** * kernel/sysproc.c, kernel/syscall.c, kernel/trap.c: entering the kernel

    The system calls on processes, the dispatch of system calls by number,
    and the trap handlers that lead to it.  What the hardware reports of a
    trap is a record; a process that goes to sleep in a system call
    continues in its pending call when it runs again. *)

From S2P Require Import Prelude Memory StringC Kalloc Vm Proc Sched Pipe Console Printf Sleeplock Bio Log Fs FsLayer File Args Exec Sysfile.

Definition SBRK_EAGER : Z := 1.
Definition CONSOLE : Z := 1.

#[local] Abbreviation K := (M (kernel filesys)).

(** How a system call ends: with a value for the user, in a sleep after
    which the call goes on, or in the scheduler for good. *)
Inductive sysres :=
| Value (v : Z)
| Asleep (progress : option Z)
| Exited.

(** Addresses of the kernel's code, data and stacks, and its locals. *)
Record kconf := KConf {
  k_end : Z; k_trampoline : Z; k_forkret : Z; k_xstate : Z -> Z;
  k_buf : Z; k_ch : Z; k_st : Z; k_cbuf : Z; k_logc : Z; k_locals : locals;
  k_uservec : Z; k_usertrap : Z; k_satp : Z
}.

(** [devsw], as [consoleinit] sets it. *)
Definition devsw_read (C : kconf) (i : Z) : option (Z -> bool -> Z -> Z -> K (option Z)) :=
  if i =? CONSOLE then Some (consoleread (k_end C) (k_cbuf C)) else None.
Definition devsw_write (C : kconf) (i : Z) : option (Z -> bool -> Z -> Z -> K (option Z)) :=
  if i =? CONSOLE then Some (consolewrite (k_end C) (k_cbuf C)) else None.

(** [namei] of the root directory, as [forkret] and [userinit] call it: the
    path has no element, so only [iget] is left of it. *)
Definition root_inode : K Z := in_files (fun s =>
  match iget ROOTDEV ROOTINO (ffs s) with
  | Ret ip f => Ret ip (set_ffs f s)
  | Panic e => Panic e
  | Hang => Hang
  end).

Definition idup_inode (ip : Z) : M filesys unit := fun s =>
  match Fs.idup ip (ffs s) with
  | Ret _ f => Ret tt (set_ffs f s)
  | Panic e => Panic e
  | Hang => Hang
  end.

(** The implementation of [FileLayer]. *)
Definition file_layer (C : kconf) : FileLayer filesys := {|
  Proc.filedup := File.filedup;
  Proc.idup := idup_inode;
  Proc.fileclose := fun p f => File.fileclose (k_end C) (k_buf C) p f;
  Proc.put_cwd := fun p ip => put_inode (k_end C) (k_buf C) p ip;
  Proc.root_dir := root_inode;
  Proc.garbage_collect := File.garbage_collect (k_end C)
|}.

Section sysproc.
Variable C : kconf.
(** [myproc()]. *)
Variable p : Z.
#[local] Instance layer : FileLayer filesys := file_layer C.

Definition value (c : K Z) : K sysres := let! v := c in kret (Value v).
Definition or_sleep (c : K (option Z)) : K sysres :=
  let! o := c in kret (match o with Some v => Value v | None => Asleep None end).

Definition sys_exit : K sysres :=
  let! n := argint p 0 in
  do! kexit p n;
  kret Exited.

Definition sys_getpid : K Z := let! q := get_proc p in kret (pid q).

Definition sys_fork : K Z := kfork (k_end C) (k_trampoline C) (k_forkret C) p.

Definition sys_wait : K (option Z) :=
  let! addr := argaddr p 0 in kwait (k_end C) (k_xstate C) p addr.

Definition sys_sbrk : K Z :=
  let! n := argint p 0 in
  let! t := argint p 1 in
  let! q := get_proc p in
  let addr := sz q in
  if (t =? SBRK_EAGER) || (n <? 0) then
    let! r := kgrowproc (k_end C) p n in
    kret (if r <? 0 then -1 else addr)
  else if u64 (addr + n) <? addr then kret (-1)
  else if u64 (addr + n) >? TRAPFRAME then kret (-1)
  else do! upd_proc p (fun q => set_sz (u64 (sz q + n)) q); kret addr.

(** A pass of [sys_pause]'s loop that began at [ticks0]: [None] when the
    process sleeps, to run it again. *)
Definition pause_pass (n ticks0 : Z) : K (option Z) :=
  let! t := kget ticks in
  if u32 (t - ticks0) <? u32 n then
    let! k := get_killed p in
    if negb (k =? 0) then kret (Some (-1)) else
    do! sleep p ChanTicks;
    kret None
  else kret (Some 0).

Definition sys_pause : K sysres :=
  let! n := argint p 0 in
  let n := if n <? 0 then 0 else n in
  let! ticks0 := kget ticks in
  let! r := pause_pass n ticks0 in
  kret (match r with Some v => Value v | None => Asleep (Some ticks0) end).

Definition sys_kill : K Z := let! n := argint p 0 in kkill n.

Definition sys_uptime : K Z := kget ticks.

Definition sys_syslogread : K Z :=
  let! buf := argaddr p 0 in
  let! maxlen := argint p 1 in
  readsyslog (k_end C) (k_logc C) p buf maxlen.

(** ** kernel/syscall.c: the dispatch *)

(** The array [syscalls], [None] for a number without a handler. *)
Definition syscalls (num : Z) : option (K sysres) :=
  let kend := k_end C in let buf := k_buf C in let L := k_locals C in
  match num with
  | 1 => Some (value sys_fork)
  | 2 => Some sys_exit
  | 3 => Some (or_sleep sys_wait)
  | 4 => Some (value (sys_pipe kend buf L p))
  | 5 => Some (or_sleep (sys_read kend buf (k_ch C) (devsw_read C) p))
  | 6 => Some (value sys_kill)
  | 7 => Some (value (sys_exec kend buf (k_trampoline C) L p))
  | 8 => Some (value (sys_fstat kend buf (k_st C) p))
  | 9 => Some (value (sys_chdir kend buf L p))
  | 10 => Some (value (sys_dup p))
  | 11 => Some (value sys_getpid)
  | 12 => Some (value sys_sbrk)
  | 13 => Some sys_pause
  | 14 => Some (value sys_uptime)
  | 15 => Some (value (sys_open kend buf L p))
  | 16 => Some (let! r := sys_write kend buf (k_ch C) (devsw_write C) p in
                kret (match r with inl v => Value v | inr i => Asleep i end))
  | 17 => Some (value (sys_mknod kend buf L p))
  | 18 => Some (value (sys_unlink kend buf L p))
  | 19 => Some (value (sys_link kend buf L p))
  | 20 => Some (value (sys_mkdir kend buf L p))
  | 21 => Some (value (sys_close kend buf p))
  | 22 => Some (value (sys_memcreate kend buf p))
  | 23 => Some (value (sys_memdelete p))
  | 24 => Some (value sys_syslogread)
  | _ => None
  end.

(** [syscall]: the value goes to the user's [a0]; a call that sleeps sets it
    when it ends. *)
Definition syscall : K sysres :=
  let! a7 := get_tf p (tf_a 7) in
  let num := s32 a7 in
  match (if num >? 0 then syscalls num else None) with
  | Some handler =>
      let! r := handler in
      match r with
      | Value v => do! set_tf p (tf_a 0) v; kret r
      | _ => kret r
      end
  | None => do! set_tf p (tf_a 0) (-1); kret (Value (-1))
  end.

(** ** kernel/trap.c *)

(** [ticks++] and the wakeup, on hart 0. *)
Definition clockintr (hart : Z) (cur : option Z) : K unit :=
  if hart =? 0 then
    do! kupd (fun s => set_ticks (u32 (ticks s + 1)) s);
    wakeup cur ChanTicks
  else kret tt.

(** What a device interrupt is about: the PLIC's source, with the state of
    the serial port. *)
Inductive irq := IrqUart (idle : bool) (inputs : list Z) | IrqDisk | IrqOther.
Inductive cause :=
| External (i : irq)            (* 0x8000000000000009 *)
| Timer                         (* 0x8000000000000005 *)
| Ecall                         (* 8 *)
| PageFault (store : bool)      (* 15 and 13 *)
| OtherCause (n : Z).

(** The disk's driver is outside the model. *)
Definition devintr (hart : Z) (cur : option Z) (c : cause) : K Z :=
  match c with
  | External i =>
      do! (match i with IrqUart idle inputs => uartintr cur idle inputs | _ => kret tt end);
      kret 1
  | Timer => do! clockintr hart cur; kret 2
  | _ => kret 0
  end.

(** How [usertrap] leaves the processor: back to the user, or to the
    scheduler, when the process sleeps, exits or yields. *)
Inductive trapend := ToUser | ToSleep | ToExit | ToYield.

(** [prepare_return]: the trap frame for the next trap. *)
Definition prepare_return (hart : Z) : K unit :=
  let! q := get_proc p in
  do! set_tf p tf_kernel_satp (k_satp C);
  do! set_tf p tf_kernel_sp (kstack q + PGSIZE);
  do! set_tf p tf_kernel_trap (k_usertrap C);
  set_tf p tf_kernel_hartid hart.

#[local] Instance first_env : FsEnv log (kernel filesys) := kernel_env (k_end C) (k_buf C) p.

(** [forkret]: where a new process begins, with the string "/init" at
    [init_at]; it takes the flag [first] and returns its next value. *)
Definition forkret (hart init_at : Z) (first : bool) : K bool :=
  do! (if first then
         let! me := mypid p in
         do! in_fs (B := log) (fsinit me ROOTDEV);
         let L := k_locals C in
         let! r := kexec (k_end C) (k_buf C) (k_trampoline C) (l_elf L) (l_ph L) (l_ustack L) (l_de L) (l_nm L) p init_at [init_at] in
         do! set_tf p (tf_a 0) r;
         let! a0 := get_tf p (tf_a 0) in
         if a0 =? u64 (-1) then kpanic "exec" else kret tt
       else kret tt);
  do! prepare_return hart;
  kret false.

(** [if(killed(p)) kexit(-1);], and the rest. *)
Definition or_killed (rest : K trapend) : K trapend :=
  let! k := get_killed p in
  if negb (k =? 0) then do! kexit p (-1); kret ToExit else rest.

(** The end of [usertrap], from its second test of [killed]. *)
Definition trap_return (hart which_dev : Z) : K trapend :=
  or_killed (
    if which_dev =? 2 then
      do! upd_proc p (fun q => set_cpu_ticks (s32 (cpu_ticks q + 1)) q);
      do! yield p;
      kret ToYield
    else do! prepare_return hart; kret ToUser).

(** [usertrap]: [user] is the mode the trap came from, [sepc] and [stval]
    the registers. *)
Definition usertrap (hart : Z) (user : bool) (c : cause) (sepc stval : Z) : K trapend :=
  if negb user then kpanic "usertrap: not from user mode" else
  do! set_tf p tf_epc sepc;
  match c with
  | Ecall =>
      or_killed (
        let! epc := get_tf p tf_epc in
        do! set_tf p tf_epc (epc + 4);
        let! r := syscall in
        match r with
        | Value _ => trap_return hart 0
        | Asleep _ => kret ToSleep
        | Exited => kret ToExit
        end)
  | _ =>
      let! which_dev := devintr hart (Some p) c in
      if negb (which_dev =? 0) then trap_return hart which_dev else
      let! ok := (match c with
                  | PageFault _ =>
                      let! q := get_proc p in
                      let! pa := in_mem (vmfault (k_end C) (sz q) (pgtbl q) stval) in
                      kret (negb (pa =? 0))
                  | _ => kret false
                  end) in
      do! (if ok then kret tt else setkilled p);
      trap_return hart 0
  end.

(** [kerneltrap]: [cur] is [myproc()]. *)
Definition kerneltrap (hart : Z) (supervisor intr_on : bool) (cur : option Z) (c : cause) : K unit :=
  if negb supervisor then kpanic "kerneltrap: not from supervisor mode" else
  if intr_on then kpanic "kerneltrap: interrupts enabled" else
  let! which_dev := devintr hart cur c in
  if which_dev =? 0 then kpanic "kerneltrap" else
  match cur with
  | Some i =>
      if which_dev =? 2 then
        do! upd_proc i (fun q => set_cpu_ticks (s32 (cpu_ticks q + 1)) q);
        yield i
      else kret tt
  | None => kret tt
  end.
End sysproc.
