(* ===== verification/FileSpec.v ===== *)
(** * Open files: descriptors and reference counts

    The invariant that ties the counts of the file table to the descriptors
    of the processes, and its preservation by each system call: most leave
    descriptors and counts alone ([quiets]), some hold references in local
    variables on the way ([settles]), and fork, exit and wait create and end
    processes. *)

From S2P Require Import Prelude Memory StringC Kalloc Vm Proc Sched ProcInv Pipe Console Printf Sleeplock Bio Log Fs FsLayer File Args Exec Sysfile Sysproc.

Implicit Types s : kernel filesys.
#[local] Abbreviation K := (M (kernel filesys)).

(** ** References *)

Definition fds : list Z := seqZ 0 NOFILE.

Definition names (f : Z) (o : option Z) : Z := Z.b2z (bool_decide (o = Some f)).
Definition proc_refs (q : proc) (f : Z) : Z := total fds (fun fd => names f (ofile q fd)).
(** The descriptors, of all processes, that name file [f]. *)
Definition refs (t : Z -> proc) (f : Z) : Z := total slots (fun i => proc_refs (t i) f).

Lemma names_range f o : 0 <= names f o <= 1.
Proof. unfold names. destruct (bool_decide _); simpl; lia. Qed.

Lemma proc_refs_range q f : 0 <= proc_refs q f <= 16.
Proof.
  split; [apply total_nonneg; intros; apply names_range|]. eapply Z.le_trans; [apply (total_le _ _ 1); intros; apply names_range|].
  vm_compute. discriminate.
Qed.

Lemma refs_range t f : 0 <= refs t f <= 1024.
Proof.
  split; [apply total_nonneg; intros; apply proc_refs_range|]. eapply Z.le_trans; [apply (total_le _ _ 16); intros; apply proc_refs_range|].
  vm_compute. discriminate.
Qed.

Lemma fds_spec fd : fd ∈ fds <-> 0 <= fd < NOFILE.
Proof. unfold fds, NOFILE. rewrite elem_of_seqZ. lia. Qed.

Lemma refs_open t i fd f : i ∈ slots -> fd ∈ fds -> ofile (t i) fd = Some f -> 1 <= refs t f.
Proof.
  intros Hi Hfd E. eapply Z.le_trans; [|apply (total_ge slots _ i); [intros; apply proc_refs_range|done]].
  eapply Z.le_trans; [|apply (total_ge fds _ fd); [intros; apply names_range|done]]. unfold names. rewrite E.
  by rewrite bool_decide_eq_true_2.
Qed.

(** The count after descriptor [fd] of process [i] becomes [o]. *)
Lemma refs_set t t' i fd o f :
  i ∈ slots -> fd ∈ fds ->
  (forall j fd', j ∈ slots -> fd' ∈ fds -> ofile (t' j) fd' = if (j =? i) && (fd' =? fd) then o else ofile (t j) fd') ->
  refs t' f = refs t f - names f (ofile (t i) fd) + names f o.
Proof.
  intros Hi Hfd H. assert (Ei : proc_refs (t' i) f = proc_refs (t i) f - names f (ofile (t i) fd) + names f o).
  { unfold proc_refs. rewrite (total_at fds (fun fd => names f (ofile (t i) fd)) (fun fd => names f (ofile (t' i) fd)) fd).
    - rewrite H, !Z.eqb_refl by done. done.
    - apply NoDup_seqZ.
    - done.
    - intros y Hy Hne. rewrite H by done. rewrite (proj2 (Z.eqb_neq y fd)), andb_false_r by done. done. }
  unfold refs. rewrite (total_at slots (fun i => proc_refs (t i) f) (fun i => proc_refs (t' i) f) i).
  - lia.
  - apply slots_NoDup.
  - done.
  - intros j Hj Hne. apply total_ext. intros y Hy. rewrite H by done. by rewrite (proj2 (Z.eqb_neq j i)).
Qed.

Lemma refs_ext t t' f :
  (forall j fd, j ∈ slots -> fd ∈ fds -> ofile (t' j) fd = ofile (t j) fd) -> refs t' f = refs t f.
Proof. intros H. apply total_ext. intros j Hj. apply total_ext. intros y Hy. by rewrite H. Qed.

(** ** The invariant *)

Definition dead (q : proc) : Prop := state q = UNUSED \/ state q = ZOMBIE.
Definition fref_of s (f : Z) : Z := fref (ftable (files s) f).

(** With [extra f] references to [f] in local variables of the kernel. *)
Record refs_ok (extra : Z -> Z) s : Prop := {
  ro_count : forall f, 0 <= f < NFILE -> fref_of s f = refs (procs s) f + extra f;
  ro_range : forall i fd f, i ∈ slots -> fd ∈ fds -> ofile (procs s i) fd = Some f -> 0 <= f < NFILE;
  ro_dead : forall i fd, i ∈ slots -> fd ∈ fds -> dead (procs s i) -> ofile (procs s i) fd = None
}.

(** No descriptor and no count changes, and no process ends. *)
Definition quiet s s' : Prop :=
  (forall i fd, ofile (procs s' i) fd = ofile (procs s i) fd) /\ (forall f, fref_of s' f = fref_of s f) /\
  (forall i, dead (procs s' i) -> dead (procs s i)).

Lemma quiet_refl s : quiet s s.
Proof. done. Qed.

Lemma quiet_trans s1 s2 s3 : quiet s1 s2 -> quiet s2 s3 -> quiet s1 s3.
Proof. intros (A1 & A2 & A3) (B1 & B2 & B3). split_and!; intros; [by rewrite B1|by rewrite B2|auto]. Qed.

Lemma refs_ok_quiet x s s' : refs_ok x s -> quiet s s' -> refs_ok x s'.
Proof.
  intros [H1 H2 H3] (Q1 & Q2 & Q3). split.
  - intros f Hf. rewrite Q2, H1 by done. f_equal. symmetry. apply refs_ext. auto.
  - intros i fd f. rewrite Q1. apply H2.
  - intros i fd Hi Hfd Hd. rewrite Q1. apply H3; auto.
Qed.

Definition quiets {A} (c : K A) : Prop := forall s a s', c s = Ret a s' -> quiet s s'.

(** ** Quiet computations *)

Create HintDb quiet.

Lemma quiets_ret {A} (a : A) : quiets (kret a).
Proof. intros s a' s' [= <- <-]. apply quiet_refl. Qed.

Lemma quiets_bind {A B} (c : K A) (k : A -> K B) : quiets c -> (forall a, quiets (k a)) -> quiets (kbind c k).
Proof. intros Hc Hk s b s' (a & s1 & E1 & E2)%kbind_inv. eapply quiet_trans; [by eapply Hc|by eapply Hk]. Qed.

Lemma quiets_get {A} (f : kernel filesys -> A) : quiets (kget f).
Proof. intros s a s' [= <- <-]. apply quiet_refl. Qed.

Lemma quiets_panic {A} e : quiets (A := A) (kpanic e).
Proof. done. Qed.

Lemma quiets_hang {A} : quiets (A := A) khang.
Proof. done. Qed.

Lemma quiets_mem {A} (c : M kmem_state A) : quiets (in_mem c).
Proof. intros s a s' (m & _ & ->)%in_mem_inv. done. Qed.

(** The file system alone. *)
Lemma quiets_fs {A} kend buf p (c : M (fs log) A) : quiets (@in_fs log (kernel filesys) (kernel_env kend buf p) A c).
Proof. intros s a s'. unfold in_fs. destruct (c _); intros [= <- <-]. done. Qed.

Lemma quiets_files {A} (c : M filesys A) :
  (forall x a x', c x = Ret a x' -> forall f, fref (ftable x' f) = fref (ftable x f)) -> quiets (in_files c).
Proof. intros Hc s a s' (f & E & ->)%in_files_inv. split_and!; try done. intros g. by apply (Hc _ _ _ E). Qed.

Lemma quiets_set_files (g : filesys -> filesys) :
  (forall x f, fref (ftable (g x) f) = fref (ftable x f)) -> quiets (kupd (fun s => set_files (g (files s)) s)).
Proof. intros Hg s a s' [= <- <-]. split_and!; try done. intros f. apply Hg. Qed.

Lemma quiets_upd_proc i g :
  (forall q, ofile (g q) = ofile q /\ (dead (g q) -> dead q)) -> quiets (upd_proc (F := filesys) i g).
Proof.
  intros Hg s a s' [= <- <-]. split_and!; try done; cbn [procs set_procs]; unfold upd.
  - intros j fd. destruct (Z.eqb_spec j i) as [->|]; [|done]. by rewrite (proj1 (Hg _)).
  - intros j. destruct (Z.eqb_spec j i) as [->|]; [|done]. apply Hg.
Qed.

Lemma quiets_upd_file f g : (forall x, fref (g x) = fref x) -> quiets (upd_file f g).
Proof.
  intros Hg. apply quiets_files. intros x a x' [= <- <-] j. cbn [ftable set_ftable]. unfold upd.
  destruct (Z.eqb_spec j f) as [->|]; [apply Hg|done].
Qed.

Lemma quiets_for_each {A} (l : list A) (f : A -> K unit) : (forall x, quiets (f x)) -> quiets (for_each l f).
Proof. intros Hf. induction l as [|x l IH]; simpl; [apply quiets_ret|]. by apply quiets_bind. Qed.

Lemma quiets_get_proc i : quiets (get_proc i).
Proof. apply quiets_get. Qed.
Lemma quiets_get_file f : quiets (get_file f).
Proof. apply quiets_get. Qed.
Lemma quiets_get_memfile f : quiets (get_memfile f).
Proof. apply quiets_get. Qed.
Lemma quiets_kphys : quiets kphys.
Proof. apply quiets_get. Qed.
Lemma quiets_upd_phys f : quiets (upd_phys f).
Proof. apply quiets_mem. Qed.

#[export] Hint Resolve quiets_ret quiets_get quiets_panic quiets_hang quiets_mem quiets_fs
  quiets_get_proc quiets_get_file quiets_get_memfile quiets_kphys quiets_upd_phys : quiet.

(** Follows the structure of a computation. *)
Ltac quiet_step :=
  match goal with
  | |- forall _, _ => intros
  | |- quiets (kbind _ _) => apply quiets_bind
  | |- quiets (match ?x with _ => _ end) => destruct x eqn:?
  | |- quiets (for_each _ _) => apply quiets_for_each
  | |- quiets (upd_proc _ _) => apply quiets_upd_proc; intros; split; [done|unfold dead; simpl; naive_solver]
  | |- quiets (upd_file _ _) => first [solve [auto with quiet nocore]|apply quiets_upd_file; intros]
  | |- quiets (in_fs _) => apply quiets_fs
  | |- quiets _ => solve [auto with quiet nocore]
  | |- quiets _ => assumption
  end.
Ltac quieten := repeat quiet_step.

(** *** Processes *)

Lemma quiets_wakeup cur ch : quiets (wakeup (F := filesys) cur ch).
Proof. unfold wakeup. quieten. Qed.
#[export] Hint Resolve quiets_wakeup : quiet.

Lemma quiets_sched p : quiets (sched (F := filesys) p).
Proof. unfold sched. quieten. Qed.
#[export] Hint Resolve quiets_sched : quiet.

Lemma quiets_sleep p ch : quiets (sleep (F := filesys) p ch).
Proof. unfold sleep. quieten. Qed.
Lemma quiets_yield p : quiets (yield (F := filesys) p).
Proof. unfold yield. quieten. Qed.
Lemma quiets_kkill n : quiets (kkill (F := filesys) n).
Proof. unfold kkill. quieten. Qed.
Lemma quiets_killed p : quiets (get_killed (F := filesys) p).
Proof. unfold get_killed. quieten. Qed.
Lemma quiets_either_copyout kend p u d a l : quiets (either_copyout (F := filesys) kend p u d a l).
Proof. unfold either_copyout. quieten. Qed.
Lemma quiets_either_copyin kend p d u a l : quiets (either_copyin (F := filesys) kend p d u a l).
Proof. unfold either_copyin. quieten. Qed.
#[export] Hint Resolve quiets_sleep quiets_yield quiets_kkill quiets_killed quiets_either_copyout quiets_either_copyin : quiet.

(** *** System call arguments *)

Lemma quiets_get_tf p o : quiets (get_tf (F := filesys) p o).
Proof. unfold get_tf. quieten. Qed.
Lemma quiets_set_tf p o v : quiets (set_tf (F := filesys) p o v).
Proof. unfold set_tf. quieten. Qed.
#[export] Hint Resolve quiets_get_tf quiets_set_tf : quiet.
Lemma quiets_argraw p n : quiets (argraw (F := filesys) p n).
Proof. unfold argraw. quieten. Qed.
#[export] Hint Resolve quiets_argraw : quiet.
Lemma quiets_argint p n : quiets (argint (F := filesys) p n).
Proof. unfold argint. quieten. Qed.
Lemma quiets_argaddr p n : quiets (argaddr (F := filesys) p n).
Proof. unfold argaddr. quieten. Qed.
Lemma quiets_fetchaddr kend p a i : quiets (fetchaddr (F := filesys) kend p a i).
Proof. unfold fetchaddr. quieten. Qed.
Lemma quiets_fetchstr p a b n : quiets (fetchstr (F := filesys) p a b n).
Proof. unfold fetchstr. quieten. Qed.
#[export] Hint Resolve quiets_argint quiets_argaddr quiets_fetchaddr quiets_fetchstr : quiet.
Lemma quiets_argstr p n b m : quiets (argstr (F := filesys) p n b m).
Proof. unfold argstr. quieten. Qed.
Lemma quiets_mypid p : quiets (mypid p).
Proof. unfold mypid. quieten. Qed.
#[export] Hint Resolve quiets_argstr quiets_mypid : quiet.

(** *** The file system *)
Section quiet_fs.
Variables kend buf p : Z.
#[local] Instance quiet_env : FsEnv log (kernel filesys) := kernel_env kend buf p.

Lemma quiets_copyout u dst d off len : quiets (env_copyout (T := kernel filesys) u dst d off len).
Proof. simpl. quieten. Qed.
Lemma quiets_copyin d off u src len : quiets (env_copyin (T := kernel filesys) d off u src len).
Proof. simpl. quieten. Qed.
#[local] Hint Resolve quiets_copyout quiets_copyin : quiet.

Lemma quiets_readi_loop fuel n ip u dst off cnt tot : quiets (readi_loop (T := kernel filesys) fuel n ip u dst off cnt tot).
Proof. revert dst off tot. induction fuel as [|f IH]; intros; cbn [readi_loop]; quieten. Qed.
#[local] Hint Resolve quiets_readi_loop : quiet.
Lemma quiets_readi n ip u dst off cnt : quiets (readi (T := kernel filesys) n ip u dst off cnt).
Proof. unfold readi. cbv zeta. quieten. Qed.

Lemma quiets_writei_loop fuel n ip u src off cnt tot : quiets (writei_loop (T := kernel filesys) fuel n ip u src off cnt tot).
Proof. revert src off tot. induction fuel as [|f IH]; intros; cbn [writei_loop]; quieten. Qed.
#[local] Hint Resolve quiets_writei_loop : quiet.
Lemma quiets_writei n ip u src off cnt : quiets (writei (T := kernel filesys) n ip u src off cnt).
Proof. unfold writei. quieten. Qed.
#[local] Hint Resolve quiets_readi quiets_writei : quiet.

Lemma quiets_stati ip : quiets (stati (T := kernel filesys) ip).
Proof. unfold stati. quieten. Qed.

Lemma quiets_get_mem : quiets (get_mem (T := kernel filesys)).
Proof. apply quiets_get. Qed.
Lemma quiets_set_mem f : quiets (set_mem (T := kernel filesys) f).
Proof. by intros s a s' [= <- <-]. Qed.
#[local] Hint Resolve quiets_get_mem quiets_set_mem : quiet.

Lemma quiets_dirlookup_loop de n dp name l : quiets (dirlookup_loop (T := kernel filesys) de n dp name l).
Proof. induction l as [|off l IH]; cbn [dirlookup_loop]; quieten. Qed.
#[local] Hint Resolve quiets_dirlookup_loop : quiet.
Lemma quiets_dirlookup de n dp name : quiets (dirlookup (T := kernel filesys) de n dp name).
Proof. unfold dirlookup. quieten. Qed.
#[local] Hint Resolve quiets_dirlookup : quiet.
Lemma quiets_dirlink_scan de n dp l last : quiets (dirlink_scan (T := kernel filesys) de n dp l last).
Proof. revert last. induction l as [|off l IH]; intros; cbn [dirlink_scan]; quieten. Qed.
#[local] Hint Resolve quiets_dirlink_scan : quiet.
Lemma quiets_dirlink de n dp name ino : quiets (dirlink (T := kernel filesys) de n dp name ino).
Proof. unfold dirlink. quieten. Qed.

Lemma quiets_namex_loop fuel de n ip par path name : quiets (namex_loop (T := kernel filesys) de fuel n ip par path name).
Proof. revert ip path. induction fuel as [|f IH]; intros; cbn [namex_loop]; quieten. Qed.
#[local] Hint Resolve quiets_namex_loop : quiet.
Lemma quiets_namex de n cwd path par name : quiets (namex (T := kernel filesys) de n cwd path par name).
Proof. unfold namex. quieten. Qed.
End quiet_fs.

(** The same steps, through the routines of the file system. *)
Ltac quiet_fs :=
  match goal with
  | |- quiets (readi _ _ _ _ _ _) => apply quiets_readi
  | |- quiets (writei _ _ _ _ _ _) => apply quiets_writei
  | |- quiets (stati _) => apply quiets_stati
  | |- quiets (dirlookup _ _ _ _) => apply quiets_dirlookup
  | |- quiets (dirlink _ _ _ _ _) => apply quiets_dirlink
  | |- quiets (namei _ _ _ _ _) => apply quiets_namex
  | |- quiets (nameiparent _ _ _ _ _) => apply quiets_namex
  end.
Ltac quieten ::= repeat first [quiet_fs|quiet_step].

(** *** Files and pipes *)

Lemma quiets_begin kend buf p : quiets (kbegin_op kend buf p).
Proof. unfold kbegin_op. quieten. Qed.
Lemma quiets_end kend buf p : quiets (kend_op kend buf p).
Proof. unfold kend_op. quieten. Qed.
#[export] Hint Resolve quiets_begin quiets_end : quiet.

Lemma quiets_set_fpipes (g : (Z -> pipe) -> Z -> pipe) : quiets (in_files (kupd (fun x => set_fpipes (g (fpipes x)) x))).
Proof. by apply quiets_files; intros x a x' [= <- <-]. Qed.

Lemma quiets_set_memfile i m : quiets (set_memfile i m).
Proof. by apply quiets_files; intros x a x' [= <- <-]. Qed.
#[export] Hint Resolve quiets_set_memfile : quiet.

Lemma quiets_memfile_create : quiets memfile_create.
Proof. unfold memfile_create. quieten. Qed.
Lemma quiets_memfile_delete o : quiets (memfile_delete o).
Proof. unfold memfile_delete. quieten. Qed.
Lemma quiets_garbage_collect kend : quiets (garbage_collect kend).
Proof. unfold garbage_collect. quieten. Qed.
Lemma quiets_put_inode kend buf p ip : quiets (put_inode kend buf p ip).
Proof. unfold put_inode. quieten. Qed.
Lemma quiets_get_pipe a : quiets (get_pipe (F := filesys) a).
Proof. apply quiets_get. Qed.
Lemma quiets_upd_pipe a f : quiets (upd_pipe (F := filesys) a f).
Proof. by intros s x s' [= <- <-]. Qed.
#[export] Hint Resolve quiets_memfile_create quiets_memfile_delete quiets_garbage_collect quiets_put_inode quiets_get_pipe quiets_upd_pipe : quiet.

Lemma quiets_pipeclose kend p a w : quiets (pipeclose (F := filesys) kend p a w).
Proof. unfold pipeclose. quieten. Qed.
Lemma quiets_fetch_byte kend ch p va : quiets (fetch_byte (F := filesys) kend ch p va).
Proof. unfold fetch_byte. quieten. Qed.
Lemma quiets_store_byte kend ch p va c : quiets (store_byte (F := filesys) kend ch p va c).
Proof. unfold store_byte. quieten. Qed.
#[export] Hint Resolve quiets_pipeclose quiets_fetch_byte quiets_store_byte : quiet.
Lemma quiets_pipewrite_loop fuel kend ch p a addr n i : quiets (pipewrite_loop (F := filesys) kend ch fuel p a addr n i).
Proof. revert i. induction fuel as [|f IH]; intros; cbn [pipewrite_loop]; quieten. Qed.
Lemma quiets_piperead_loop k kend ch p a addr i : quiets (piperead_loop (F := filesys) kend ch k p a addr i).
Proof. revert i. induction k as [|k IH]; intros; cbn [piperead_loop]; quieten. Qed.
#[export] Hint Resolve quiets_pipewrite_loop quiets_piperead_loop : quiet.
Lemma quiets_pipewrite kend ch p a addr n i : quiets (pipewrite (F := filesys) kend ch p a addr n i).
Proof. unfold pipewrite, pipewrite_pass. quieten. Qed.
Lemma quiets_piperead kend ch p a addr n : quiets (piperead (F := filesys) kend ch p a addr n).
Proof. unfold piperead, piperead_pass. quieten. Qed.
#[export] Hint Resolve quiets_pipewrite quiets_piperead : quiet.

Lemma quiets_ucopyout kend p d a l : quiets (ucopyout kend p d a l).
Proof. unfold ucopyout. quieten. Qed.
Lemma quiets_ucopyin kend p d a l : quiets (ucopyin kend p d a l).
Proof. unfold ucopyin. quieten. Qed.
#[export] Hint Resolve quiets_ucopyout quiets_ucopyin : quiet.

Lemma quiets_filestat kend buf st p f a : quiets (filestat kend buf st p f a).
Proof. unfold filestat. quieten. Qed.
Lemma quiets_memfile_read kend p f a n o : quiets (memfile_read kend p f a n o).
Proof. unfold memfile_read. cbv zeta. quieten; done. Qed.
Lemma quiets_memfile_write kend p f a n off o : quiets (memfile_write kend p f a n off o).
Proof. unfold memfile_write. cbv zeta. quieten; done. Qed.
#[export] Hint Resolve quiets_filestat quiets_memfile_read quiets_memfile_write : quiet.
Lemma quiets_filewrite_loop fuel kend buf p f a n i : quiets (filewrite_loop kend buf p fuel f a n i).
Proof. revert i. induction fuel as [|k IH]; intros; cbn [filewrite_loop]; cbv zeta; quieten; done. Qed.
#[export] Hint Resolve quiets_filewrite_loop : quiet.

(** Devices that touch no file. *)
Definition quiet_dev (d : Z -> option (Z -> bool -> Z -> Z -> K (option Z))) : Prop :=
  forall i r, d i = Some r -> forall p u a n, quiets (r p u a n).

Lemma quiets_fileread kend buf ch d p f a n : quiet_dev d -> quiets (fileread kend buf ch d p f a n).
Proof.
  intros Hd. unfold fileread. quieten; try done.
  match goal with E : _ = Some ?m |- quiets (?m _ _ _ _) => exact (Hd _ _ E _ _ _ _) end.
Qed.

Lemma quiets_filewrite kend buf ch d p f a n : quiet_dev d -> quiets (filewrite kend buf ch d p f a n).
Proof.
  intros Hd. unfold filewrite. quieten; try done.
  match goal with E : _ = Some ?m |- quiets (?m _ _ _ _) => exact (Hd _ _ E _ _ _ _) end.
Qed.

(** *** The console and the log *)

Lemma quiets_get_cons : quiets (get_cons (F := filesys)).
Proof. apply quiets_get. Qed.
Lemma quiets_set_cons c : quiets (set_cons (F := filesys) c).
Proof. by intros s a s' [= <- <-]. Qed.
#[export] Hint Resolve quiets_get_cons quiets_set_cons : quiet.
Lemma quiets_consoleread_loop fuel kend cb p u dst n t : quiets (consoleread_loop (F := filesys) kend cb fuel p u dst n t).
Proof. revert dst n. induction fuel as [|f IH]; intros; cbn [consoleread_loop]; cbv zeta; quieten. Qed.
Lemma quiets_uartwrite_loop k p b i : quiets (uartwrite_loop (F := filesys) k p b i).
Proof. revert i. induction k as [|k IH]; intros; cbn [uartwrite_loop]; quieten. Qed.
#[export] Hint Resolve quiets_consoleread_loop quiets_uartwrite_loop : quiet.
Lemma quiets_consolewrite_loop fuel kend cb p u src n i : quiets (consolewrite_loop (F := filesys) kend cb fuel p u src n i).
Proof. revert i. induction fuel as [|f IH]; intros; cbn [consolewrite_loop]; cbv zeta; unfold uartwrite; quieten. Qed.
#[export] Hint Resolve quiets_consolewrite_loop : quiet.

Lemma quiet_dev_read C : quiet_dev (devsw_read C).
Proof.
  intros i r. unfold devsw_read. destruct (i =? CONSOLE); [|done]. intros [= <-] p u a n. unfold consoleread. quieten.
Qed.
Lemma quiet_dev_write C : quiet_dev (devsw_write C).
Proof.
  intros i r. unfold devsw_write. destruct (i =? CONSOLE); [|done]. intros [= <-] p u a n. unfold consolewrite. quieten.
Qed.

Lemma quiets_readsyslog_loop fuel kend c p d m n : quiets (readsyslog_loop (F := filesys) kend c p fuel d m n).
Proof.
  revert n. induction fuel as [|f IH]; intros; cbn [readsyslog_loop]; quieten.
  by intros s x s' [= <- <-].
Qed.
#[export] Hint Resolve quiets_readsyslog_loop : quiet.

(** *** exec *)

Lemma quiets_with_cwd {A} p path (k : Z -> K A) : (forall d, quiets (k d)) -> quiets (with_cwd p path k).
Proof. intros Hk. unfold with_cwd. quieten; apply Hk. Qed.

Lemma quiets_knamei kend buf de nm p path : quiets (knamei kend buf de nm p path).
Proof. unfold knamei. apply quiets_bind; [auto with quiet|]. intros n. apply quiets_with_cwd. intros d. quieten. Qed.
Lemma quiets_knameiparent kend buf de p path name : quiets (knameiparent kend buf de p path name).
Proof. unfold knameiparent. apply quiets_bind; [auto with quiet|]. intros n. apply quiets_with_cwd. intros d. quieten. Qed.
#[export] Hint Resolve quiets_knamei quiets_knameiparent : quiet.

Lemma quiets_loadseg_loop kend buf p l pt va ip off z : quiets (loadseg_loop kend buf p l pt va ip off z).
Proof. induction l as [|i l IH]; cbn [loadseg_loop]; cbv zeta; quieten. Qed.
#[export] Hint Resolve quiets_loadseg_loop : quiet.
Lemma quiets_load_segments kend buf ph p k pt ip off z : quiets (load_segments kend buf ph p k pt ip off z).
Proof. revert off z. induction k as [|k IH]; intros; cbn [load_segments]; cbv zeta; unfold loadseg; quieten. Qed.
Lemma quiets_push_args kend us argv z pt sb sp argc : quiets (push_args kend us argv z pt sb sp argc).
Proof. revert sp argc. induction argv as [|a argv IH]; intros; cbn [push_args]; cbv zeta; quieten. Qed.
#[export] Hint Resolve quiets_load_segments quiets_push_args : quiet.
Lemma quiets_new_stack kend us p path argv pt z e : quiets (new_stack kend us p path argv pt z e).
Proof. unfold new_stack. cbv zeta. quieten. Qed.
#[export] Hint Resolve quiets_new_stack : quiet.
Lemma quiets_kexec kend buf tr elf ph us de nm p path argv : quiets (kexec kend buf tr elf ph us de nm p path argv).
Proof. unfold kexec. cbv zeta. quieten. Qed.
#[export] Hint Resolve quiets_kexec : quiet.

(** *** System calls that leave descriptors alone *)
Section quiet_calls.
Variables (kend buf ch st tr : Z) (L : locals) (p : Z).

Lemma quiets_argfd n : quiets (argfd p n).
Proof. unfold argfd. quieten. Qed.
#[local] Hint Resolve quiets_argfd : quiet.

Lemma quiets_sys_read d : quiet_dev d -> quiets (sys_read kend buf ch d p).
Proof. intros Hd. unfold sys_read. quieten. by apply quiets_fileread. Qed.
Lemma quiets_sys_write d : quiet_dev d -> quiets (sys_write kend buf ch d p).
Proof. intros Hd. unfold sys_write. quieten. by apply quiets_filewrite. Qed.
Lemma quiets_sys_fstat : quiets (sys_fstat kend buf st p).
Proof. unfold sys_fstat. quieten. Qed.
Lemma quiets_add_nlink ip d : quiets (add_nlink kend buf p ip d).
Proof. unfold add_nlink. quieten. Qed.
#[local] Hint Resolve quiets_add_nlink : quiet.
Lemma quiets_sys_link : quiets (sys_link kend buf L p).
Proof. unfold sys_link. cbv zeta. quieten. Qed.
Lemma quiets_isdirempty n dp : quiets (isdirempty kend buf L p n dp).
Proof.
  unfold isdirempty. apply quiets_bind; [quieten|]. intros d. generalize (drop 2 (entries (isize d))). intros l.
  induction l as [|off l IH]; cbn [isdirempty_loop]; quieten.
Qed.
#[local] Hint Resolve quiets_isdirempty : quiet.
Lemma quiets_sys_unlink : quiets (sys_unlink kend buf L p).
Proof. unfold sys_unlink. cbv zeta. quieten. Qed.
Lemma quiets_create path t ma mi : quiets (create kend buf L p path t ma mi).
Proof. unfold create. cbv zeta. quieten. Qed.
#[local] Hint Resolve quiets_create : quiet.
Lemma quiets_sys_mkdir : quiets (sys_mkdir kend buf L p).
Proof. unfold sys_mkdir. quieten. Qed.
Lemma quiets_sys_mknod : quiets (sys_mknod kend buf L p).
Proof. unfold sys_mknod. quieten. Qed.
Lemma quiets_sys_chdir : quiets (sys_chdir kend buf L p).
Proof. unfold sys_chdir. quieten. Qed.
Lemma quiets_exec_args k u i argv : quiets (exec_args kend L p k u i argv).
Proof. revert i argv. induction k as [|k IH]; intros; cbn [exec_args]; cbv zeta; quieten. Qed.
#[local] Hint Resolve quiets_exec_args : quiet.
Lemma quiets_sys_exec : quiets (sys_exec kend buf tr L p).
Proof. unfold sys_exec, free_args. quieten. Qed.
Lemma quiets_sys_memdelete : quiets (sys_memdelete p).
Proof. unfold sys_memdelete. quieten. Qed.
Lemma quiets_sys_sbrk C : quiets (sys_sbrk C p).
Proof. unfold sys_sbrk, kgrowproc. cbv zeta. quieten. Qed.
Lemma quiets_sys_pause : quiets (sys_pause p).
Proof. unfold sys_pause, pause_pass. cbv zeta. quieten. Qed.
Lemma quiets_sys_kill : quiets (sys_kill p).
Proof. unfold sys_kill. quieten. Qed.
Lemma quiets_sys_getpid : quiets (sys_getpid p).
Proof. unfold sys_getpid. quieten. Qed.
Lemma quiets_sys_uptime : quiets sys_uptime.
Proof. unfold sys_uptime. quieten. Qed.
Lemma quiets_sys_syslogread C : quiets (sys_syslogread C p).
Proof. unfold sys_syslogread, readsyslog. quieten. Qed.

Lemma quiets_open_file f i ip m : quiets (upd_file f (open_file i ip m)).
Proof. apply quiets_upd_file. intros x. unfold open_file. by destruct (itype i =? T_DEVICE). Qed.
End quiet_calls.
#[export] Hint Resolve quiets_create quiets_open_file : quiet.

(** ** Changes of descriptors and counts *)

(** [d] more references to [f] outside the descriptors. *)
Definition add_ref (x : Z -> Z) (f d : Z) : Z -> Z := fun g => if g =? f then x g + d else x g.

(** Few references are in local variables at a time. *)
Definition few (x : Z -> Z) : Prop := forall f, -2 <= x f <= 4.

Lemma refs_ok_ext x y s : (forall f, x f = y f) -> refs_ok x s -> refs_ok y s.
Proof. intros E [H1 H2 H3]. split; try done. intros f Hf. rewrite H1 by done. by rewrite E. Qed.

Lemma refs_ok_undo x f d s : refs_ok (add_ref (add_ref x f d) f (- d)) s -> refs_ok x s.
Proof. apply refs_ok_ext. intros g. unfold add_ref. destruct (g =? f); lia. Qed.

(** A change of one file's count. *)
Lemma refs_ok_file x s f (g : file -> file) d :
  refs_ok x s -> fref (g (ftable (files s) f)) = fref_of s f + d ->
  refs_ok (add_ref x f d) (set_files (set_ftable (upd (ftable (files s)) f (g (ftable (files s) f))) (files s)) s).
Proof.
  intros [H1 H2 H3] E. split; try done. intros h Hh. unfold fref_of. cbn [files set_files ftable set_ftable procs].
  unfold upd, add_ref. destruct (Z.eqb_spec h f) as [->|]; [|by apply H1]. rewrite E, H1 by done. lia.
Qed.

(** A change of one descriptor of a live process. *)
Lemma refs_ok_fd x s p fd o :
  refs_ok x s -> p ∈ slots -> fd ∈ fds -> ~ dead (procs s p) -> (forall f, o = Some f -> 0 <= f < NFILE) ->
  refs_ok (fun f => x f + names f (ofile (procs s p) fd) - names f o)
    (set_procs (upd (procs s) p (set_ofile (upd (ofile (procs s p)) fd o) (procs s p))) s).
Proof.
  intros [H1 H2 H3] Hp Hfd Hal Ho. set (t := upd (procs s) p _).
  assert (Et : forall j fd', ofile (t j) fd' = if (j =? p) && (fd' =? fd) then o else ofile (procs s j) fd').
  { intros j fd'. unfold t, upd. destruct (Z.eqb_spec j p) as [->|]; [|done]. simpl. unfold upd. by destruct (fd' =? fd). }
  split; cbn [procs set_procs].
  - intros f Hf. unfold fref_of. cbn [files set_procs]. fold (fref_of s f). rewrite H1 by done.
    rewrite (refs_set (procs s) t p fd o f) by auto. lia.
  - intros i fd' f Hi Hfd'. rewrite Et. destruct ((i =? p) && (fd' =? fd)); [apply Ho|by apply H2].
  - intros i fd' Hi Hfd' Hd. rewrite Et. destruct (Z.eqb_spec i p) as [->|Hne].
    + exfalso. apply Hal. unfold t in Hd. rewrite upd_eq in Hd. done.
    + simpl. apply H3; try done. unfold t in Hd. by rewrite upd_ne in Hd.
Qed.

Lemma count_range x s f : refs_ok x s -> few x -> 0 <= f < NFILE -> -2 <= fref_of s f <= 2000.
Proof. intros H Hx Hf. rewrite (ro_count _ _ H) by done. pose proof (refs_range (procs s) f). specialize (Hx f). lia. Qed.

Lemma filealloc_refs x s o s' :
  refs_ok x s -> filealloc s = Ret o s' ->
  match o with
  | None => s' = s
  | Some f => 0 <= f < NFILE /\ procs s' = procs s /\ refs_ok (add_ref x f 1) s'
  end.
Proof.
  intros H E. unfold filealloc in E. apply kbind_inv in E as (t & s0 & E0 & E). injection E0 as <- <-. unfold find_file in E.
  destruct (list_find _ _) as [[k f]|] eqn:Ef; simpl in E; [|by injection E as <- <-].
  apply list_find_Some in Ef as (Hk & E0 & _). apply list_elem_of_lookup_2, elem_of_seqZ in Hk.
  apply kbind_inv in E as ([] & s1 & E1 & E). injection E as <- <-.
  unfold upd_file, in_files, kupd in E1. injection E1 as <-. unfold NFILE in *. split_and!; try lia; [done|].
  apply refs_ok_file; [done|]. simpl. unfold fref_of. lia.
Qed.

Lemma filedup_refs x s f s' :
  refs_ok x s -> few x -> 0 <= f < NFILE -> in_files (filedup f) s = Ret tt s' -> procs s' = procs s /\ refs_ok (add_ref x f 1) s'.
Proof.
  intros H Hx Hf (fs' & E & ->)%in_files_inv. pose proof (count_range _ _ _ H Hx Hf). unfold filedup in E. apply kbind_inv in E as (t & s0 & E0 & E). injection E0 as <- <-.
  destruct (_ <? 1); [done|]. injection E as <-. split; [done|].
  apply (refs_ok_file x s f (fun y => set_fref (s32 (fref (ftable (files s) f) + 1)) y) 1); [done|]. simpl. unfold fref_of in *. by rewrite s32_small by lia.
Qed.

Lemma fileclose_refs kend buf p x s f s' :
  refs_ok x s -> few x -> 0 <= f < NFILE -> fileclose kend buf p f s = Ret tt s' ->
  refs_ok (add_ref x f (-1)) s' /\ (forall i fd, ofile (procs s' i) fd = ofile (procs s i) fd) /\ (forall i, dead (procs s' i) -> dead (procs s i)).
Proof.
  intros H Hx Hf E. pose proof (count_range _ _ _ H Hx Hf) as Hr. unfold fref_of in Hr. unfold fileclose in E. apply kbind_inv in E as (ff & s0 & E0 & E1). injection E0 as <- <-.
  destruct (Z.ltb_spec (fref (ftable (files s) f)) 1) as [|H1]; [done|]. cbv zeta in E1. rewrite s32_small in E1 by lia.
  destruct (Z.gtb_spec (fref (ftable (files s) f) - 1) 0) as [H2|H2].
  { unfold upd_file, in_files, kupd in E1. injection E1 as <-. split; [|done]. apply refs_ok_file; [done|]. simpl. unfold fref_of. lia. }
  apply kbind_inv in E1 as ([] & s1 & E1 & E). unfold upd_file, in_files, kupd in E1. injection E1 as <-.
  assert (R1 : refs_ok (add_ref x f (-1)) (set_files (set_ftable (upd (ftable (files s)) f (set_fref 0 (ftable (files s) f))) (files s)) s)).
  { apply refs_ok_file; [done|]. simpl. unfold fref_of. lia. }
  set (s1 := set_files _ s) in *. assert (Q : quiet s1 s').
  { match type of E with ?c s1 = _ => assert (Hq : quiets c) end; [quieten; done|]. by eapply Hq. }
  split; [by eapply refs_ok_quiet|]. destruct Q as (Q1 & _ & Q3). by split.
Qed.

(** ** System calls that change descriptors *)
Section refs.
Variable p : Z.
Hypothesis Hp : p ∈ slots.

(** [D]: descriptors of [p] and the files they name. *)
Definition known (D : list (Z * Z)) s : Prop :=
  forall fd f, (fd, f) ∈ D -> fd ∈ fds /\ 0 <= f < NFILE /\ ofile (procs s p) fd = Some f.

(** From [x] references in local variables and descriptors [D], a run of [c]
    leaves none. *)
Definition settles {A} (x : Z -> Z) (D : list (Z * Z)) (c : K A) : Prop :=
  forall s a s', refs_ok x s -> ~ dead (procs s p) -> known D s -> c s = Ret a s' -> refs_ok (fun _ => 0) s'.

Lemma known_quiet D s s' : quiet s s' -> known D s -> known D s'.
Proof. intros (Q & _) H fd f Hfd. rewrite Q. by apply H. Qed.

Lemma settles_done {A} x D (c : K A) : (forall f, x f = 0) -> quiets c -> settles x D c.
Proof. intros Hx Hc s a s' H _ _ E. eapply refs_ok_quiet; [by eapply refs_ok_ext|by eapply Hc]. Qed.

Lemma settles_bind {A B} x D (c : K A) (k : A -> K B) : quiets c -> (forall a, settles x D (k a)) -> settles x D (kbind c k).
Proof.
  intros Hc Hk s b s' H Hal HD (a & s1 & E1 & E2)%kbind_inv. apply Hc in E1. eapply Hk; [by eapply refs_ok_quiet| |by eapply known_quiet|done].
  intros Hd. apply Hal. by apply E1.
Qed.

Lemma settles_filealloc {B} x D (k : option Z -> K B) :
  settles x D (k None) -> (forall f, 0 <= f < NFILE -> settles (add_ref x f 1) D (k (Some f))) -> settles x D (kbind filealloc k).
Proof.
  intros Hn Hs s b s' H Hal HD (o & s1 & E1 & E2)%kbind_inv. apply (filealloc_refs x) in E1; [|done]. destruct o as [f|].
  - destruct E1 as (Hf & Ep & H1). eapply Hs; try done; [by rewrite Ep|]. intros fd g Hg. rewrite Ep. by apply HD.
  - subst s1. by eapply Hn.
Qed.

Lemma settles_filedup {B} x D f (k : unit -> K B) :
  few x -> 0 <= f < NFILE -> settles (add_ref x f 1) D (k tt) -> settles x D (kbind (in_files (filedup f)) k).
Proof.
  intros Hx Hf Hk s b s' H Hal HD ([] & s1 & E1 & E2)%kbind_inv. apply (filedup_refs x) in E1 as [Ep H1]; try done.
  eapply Hk; try done; [by rewrite Ep|]. intros fd g Hg. rewrite Ep. by apply HD.
Qed.

Lemma settles_fileclose {B} kend buf x D f (k : unit -> K B) :
  few x -> 0 <= f < NFILE -> settles (add_ref x f (-1)) D (k tt) -> settles x D (kbind (fileclose kend buf p f) k).
Proof.
  intros Hx Hf Hk s b s' H Hal HD ([] & s1 & E1 & E2)%kbind_inv. apply (fileclose_refs _ _ _ x) in E1 as (H1 & Ho & Hd); try done.
  eapply Hk; try done; [auto|]. intros fd g Hg. rewrite Ho. by apply HD.
Qed.

Lemma names_none f : names f None = 0.
Proof. done. Qed.
Lemma names_some f g : names f (Some g) = if f =? g then 1 else 0.
Proof. unfold names. destruct (Z.eqb_spec f g) as [->|]; [by rewrite bool_decide_eq_true_2|]. rewrite bool_decide_eq_false_2; [done|congruence]. Qed.

Lemma known_set D s fd o : (forall fd' f, (fd', f) ∈ D -> fd' <> fd) -> known D s ->
  known D (set_procs (upd (procs s) p (set_ofile (upd (ofile (procs s p)) fd o) (procs s p))) s).
Proof.
  intros Hn HD fd' f Hf. destruct (HD _ _ Hf) as (H1 & H2 & H3). split_and!; try done; try lia.
  cbn [procs set_procs]. rewrite upd_eq. simpl. rewrite upd_ne; [done|]. by eapply Hn.
Qed.

Lemma settles_fdalloc {B} x D f (k : Z -> K B) :
  0 <= f < NFILE -> settles x D (k (-1)) ->
  (forall fd, fd ∈ fds -> 0 <= fd -> (fd ∉ D.*1) -> settles (add_ref x f (-1)) ((fd, f) :: D) (k fd)) ->
  settles x D (kbind (fdalloc p f) k).
Proof.
  intros Hf Hn Hs s b s' H Hal HD (r & s1 & E1 & E2)%kbind_inv. unfold fdalloc in E1.
  apply kbind_inv in E1 as (q & s0 & E0 & E1). injection E0 as <- <-. unfold find_fd in E1.
  destruct (list_find _ _) as [[i fd]|] eqn:Ef; simpl in E1; [|injection E1 as <- <-; by eapply Hn].
  apply list_find_Some in Ef as (Hi & Enone & _). apply list_elem_of_lookup_2 in Hi. fold fds in Hi.
  apply kbind_inv in E1 as ([] & s2 & E3 & E1). injection E3 as <-. injection E1 as <- <-.
  assert (Hni : fd ∉ D.*1).
  { intros Hin. apply list_elem_of_fmap in Hin as ([fd' g] & -> & Hin). destruct (HD _ _ Hin) as (_ & _ & E). simpl in Enone. congruence. }
  eapply Hs; [exact Hi|by apply fds_spec in Hi; lia|exact Hni| | | |exact E2].
  - eapply refs_ok_ext; [|apply (refs_ok_fd x s p fd (Some f)); try done; by intros ? [= <-]].
    intros g. simpl. rewrite Enone, names_none, names_some. unfold add_ref. destruct (g =? f); lia.
  - cbn [procs set_procs]. by rewrite upd_eq.
  - intros fd' g [E|Hg]%elem_of_cons.
    + injection E as -> ->. split_and!; try done; try lia. cbn [procs set_procs]. rewrite upd_eq. simpl. apply upd_eq.
    + eapply known_set; [|done|done]. intros fd'' g' Hg' ->. apply Hni, list_elem_of_fmap. by exists (fd, g').
Qed.

Lemma settles_clear {B} x D D' fd f (k : unit -> K B) :
  (fd, f) ∈ D -> (forall fd' g, (fd', g) ∈ D' -> (fd', g) ∈ D /\ fd' <> fd) ->
  settles (add_ref x f 1) D' (k tt) -> settles x D (kbind (set_fd p fd None) k).
Proof.
  intros Hin HD' Hk s b s' H Hal HD ([] & s1 & E1 & E2)%kbind_inv. injection E1 as <-. destruct (HD _ _ Hin) as (H1 & H2 & H3).
  eapply Hk; [| | |exact E2].
  - eapply refs_ok_ext; [|by apply (refs_ok_fd x s p fd None)].
    intros g. simpl. rewrite H3, names_none, names_some. unfold add_ref. destruct (g =? f); lia.
  - cbn [procs set_procs]. by rewrite upd_eq.
  - apply known_set; [by intros fd' g [_ ?]%HD'|]. intros fd' g Hg. apply HD. by apply HD'.
Qed.

(** A descriptor from the user's argument. *)
Lemma settles_argfd {B} n x D (k : option (Z * Z) -> K B) :
  settles x D (k None) -> (forall fd f, fd ∈ fds -> 0 <= f < NFILE -> settles x ((fd, f) :: D) (k (Some (fd, f)))) ->
  settles x D (kbind (argfd p n) k).
Proof.
  intros Hn Hs s b s' H Hal HD (o & s1 & E1 & E2)%kbind_inv.
  assert (Q : quiet s s1) by (by eapply quiets_argfd). pose proof (refs_ok_quiet _ _ _ H Q) as H1.
  assert (Hal1 : ~ dead (procs s1 p)) by (intros Hd; by apply Hal, Q). apply (known_quiet _ _ _ Q) in HD.
  destruct o as [[fd f]|]; [|by eapply Hn]. unfold argfd in E1. apply kbind_inv in E1 as (v & s0 & E0 & E1).
  destruct ((v <? 0) || (v >=? NOFILE)) eqn:Ev; [done|]. apply orb_false_iff in Ev as [Ev1%Z.ltb_ge Ev2].
  rewrite Z.geb_leb in Ev2. apply Z.leb_gt in Ev2. apply kbind_inv in E1 as (q & s2 & E3 & E1). injection E3 as <- <-.
  destruct (ofile (procs s0 p) v) as [g|] eqn:Eg; [|done]. injection E1 as <- <- <-.
  assert (Hv : v ∈ fds) by (apply fds_spec; lia). pose proof (ro_range _ _ H1 p v g Hp Hv Eg) as Hg.
  eapply Hs; [exact Hv|exact Hg|done|done| |exact E2].
  intros fd f [E|Hin]%elem_of_cons; [|by apply HD]. injection E as -> ->. done.
Qed.

Lemma settles_assoc {A B C} x D (c : K A) (k1 : A -> K B) (k : B -> K C) :
  settles x D (kbind c (fun a => kbind (k1 a) k)) -> settles x D (kbind (kbind c k1) k).
Proof.
  intros H s b s' H1 H2 H3 E. apply (H s b s' H1 H2 H3). unfold kbind in *. by destruct (c s).
Qed.

Lemma settles_ret {A B} x D (a : A) (k : A -> K B) : settles x D (k a) -> settles x D (kbind (kret a) k).
Proof. done. Qed.

Lemma settles_hang {A} x D : settles (A := A) x D khang.
Proof. done. Qed.

(** Counts of a few local references. *)
Ltac count := let g := fresh in intros g; unfold add_ref; repeat match goal with |- context [g =? ?f] => destruct (Z.eqb_spec g f) end; lia.

Ltac settle :=
  repeat match goal with
  | |- settles _ _ (kbind (kbind _ _) _) => apply settles_assoc
  | |- settles _ _ (kbind (kret _) _) => apply settles_ret
  | |- settles _ _ (kbind (match ?x with _ => _ end) _) => destruct x eqn:?
  | |- settles _ _ khang => apply settles_hang
  | H : (?fd <? 0) = true, H' : 0 <= ?fd |- _ => apply Z.ltb_lt in H; lia
  | H : (-1 <? 0) = false |- _ => discriminate H
  | |- settles _ _ (kbind filealloc _) => apply settles_filealloc; [|intros ? ?]
  | |- settles _ _ (kbind (fileclose _ _ _ _) _) => apply settles_fileclose; [count|done|]
  | |- settles _ _ (kbind (in_files (filedup _)) _) => apply settles_filedup; [count|done|]
  | |- settles _ _ (kbind (fdalloc _ _) _) => apply settles_fdalloc; [done| |intros ? ? ? ?]
  | |- settles _ ((?fd, _) :: ?D) (kbind (set_fd _ ?fd None) _) => eapply (settles_clear _ _ D); [by left|set_solver|]
  | |- settles _ (?e :: (?fd, _) :: ?D) (kbind (set_fd _ ?fd None) _) => eapply (settles_clear _ _ (e :: D)); [right; by left|set_solver|]
  | |- settles _ _ (kbind (argfd _ _) _) => apply settles_argfd; [|intros ? ? ? ?]
  | |- settles _ _ (match ?x with _ => _ end) => destruct x eqn:?
  | |- settles _ _ (kbind _ _) => apply settles_bind; [quieten; done|intros ?]
  | |- settles _ _ _ => apply settles_done; [count|quieten; done]
  end.

Lemma sys_dup_settles : settles (fun _ => 0) [] (sys_dup p).
Proof.
  unfold sys_dup. settle.
Qed.

Lemma sys_close_settles kend buf : settles (fun _ => 0) [] (sys_close kend buf p).
Proof.
  unfold sys_close. settle.
Qed.

Lemma sys_open_settles kend buf L : settles (fun _ => 0) [] (sys_open kend buf L p).
Proof. unfold sys_open. cbv zeta. settle. Qed.

Lemma sys_pipe_settles kend buf L : settles (fun _ => 0) [] (sys_pipe kend buf L p).
Proof.
  unfold sys_pipe, pipealloc. cbv zeta. settle. apply settles_bind; [apply (quiets_set_fpipes (fun t => upd t _ (init_pipe (t _))))|intros []].
  settle.
Qed.

(** When it does not fail. *)
Lemma sys_memcreate_settles kend buf :
  settles (fun _ => 0) [] (let! r := sys_memcreate kend buf p in if r =? -1 then khang else kret r).
Proof. unfold sys_memcreate. settle. Qed.

End refs.

#[local] Opaque slots.

(** ** Processes come and go *)
Section lifecycle.
Variable C : kconf.
#[local] Instance spec_layer : FileLayer filesys := file_layer C.

Definition empty_fds s (i : Z) : Prop := forall fd, fd ∈ fds -> ofile (procs s i) fd = None.

Lemma empty_quiet s s' i : quiet s s' -> empty_fds s i -> empty_fds s' i.
Proof. intros (Q & _) H fd Hfd. rewrite Q. by apply H. Qed.

(** A process without descriptors may end. *)
Lemma refs_ok_end x s i st : refs_ok x s -> empty_fds s i -> refs_ok x (set_procs (upd (procs s) i (set_state st (procs s i))) s).
Proof.
  intros [H1 H2 H3] He. set (t := upd (procs s) i _).
  assert (Et : forall j fd, ofile (t j) fd = ofile (procs s j) fd) by (intros j fd; unfold t, upd; by destruct (Z.eqb_spec j i) as [->|]).
  split; cbn [procs set_procs].
  - intros f Hf. unfold fref_of. cbn [files set_procs]. fold (fref_of s f). rewrite H1 by done. f_equal. symmetry. apply refs_ext. auto.
  - intros j fd f. rewrite Et. apply H2.
  - intros j fd Hj Hfd. rewrite Et. unfold t, upd. destruct (Z.eqb_spec j i) as [->|]; [|by apply H3]. intros _. by apply He.
Qed.

(** Runs that may end process [i], which has no descriptors: they return
    [None], or [Some i] and have not. *)
Definition may_end (x : Z -> Z) (i : Z) (c : K (option Z)) : Prop :=
  forall s o s', refs_ok x s -> empty_fds s i -> c s = Ret o s' -> refs_ok x s' /\ (o <> None -> o = Some i /\ quiet s s').

Lemma may_end_bind {A} x i (c : K A) k : quiets c -> (forall a, may_end x i (k a)) -> may_end x i (kbind c k).
Proof.
  intros Hc Hk s o s' H He (a & s1 & E1 & E2)%kbind_inv. apply Hc in E1.
  destruct (Hk a s1 o s' (refs_ok_quiet _ _ _ H E1) (empty_quiet _ _ _ E1 He) E2) as [H1 H2]. split; [done|].
  intros Ho. destruct (H2 Ho) as [-> Q]. split; [done|]. by eapply quiet_trans.
Qed.

Lemma freeproc_refs x i s s' : refs_ok x s -> empty_fds s i -> freeproc (k_end C) i s = Ret tt s' -> refs_ok x s'.
Proof.
  intros H He E. unfold freeproc in E.
  repeat match type of E with kbind _ _ ?s0 = _ =>
    let a := fresh "a" in let s1 := fresh "s" in let E1 := fresh "E" in
    apply kbind_inv in E as (a & s1 & E1 & E);
    assert (quiet s0 s1) by (match type of E1 with ?c _ = _ => assert (quiets c) as Hq by (quieten; done); by eapply Hq end);
    eapply refs_ok_quiet in H; [|eassumption]; eapply empty_quiet in He; [|eassumption]; clear E1 end.
  injection E as <-. by apply refs_ok_end.
Qed.

Lemma may_end_free x i : may_end x i (do! freeproc (k_end C) i; kret None).
Proof. intros s o s' H He ([] & s1 & E1 & [= <- <-])%kbind_inv. split; [by eapply freeproc_refs|done]. Qed.

Lemma allocproc_refs x s o s' :
  refs_ok x s -> allocproc (k_end C) (k_trampoline C) (k_forkret C) s = Ret o s' ->
  refs_ok x s' /\ forall i, o = Some i -> i ∈ slots /\ state (procs s i) = UNUSED /\ quiet s s' /\ empty_fds s' i /\ state (procs s' i) = USED.
Proof.
  intros H E. pose proof (allocproc_becomes _ _ _ _ _ _ E) as Hb. unfold allocproc in E. apply kbind_inv in E as (t & s0 & E0 & E). injection E0 as <- <-.
  pose proof (find_unused_spec (procs s)) as Hu. destruct (find_unused (procs s)) as [i|]; [|by injection E as <- <-].
  destruct Hu as [Hi Hst]. assert (He : empty_fds s i) by (intros fd Hfd; apply (ro_dead _ _ H); [done..|by left]).
  match type of E with ?c s = _ => assert (Hm : may_end x i c) end.
  { unfold allocpid. repeat first [apply may_end_free | apply may_end_bind; [quieten; try (by intros ? ? ? [= <- <-]); done|intros ?]
      | match goal with |- may_end _ _ (if ?b then _ else _) => destruct b end].
    intros ? ? ? ? ? [= <- <-]. split; [done|]. intros _. split; [done|]. apply quiet_refl. }
  destruct (Hm s o s' H He E) as [H1 H2]. split; [done|]. intros j ->. destruct (H2 ltac:(done)) as [[= ->] Q].
  split_and!; try done; [by eapply empty_quiet|]. destruct Hb as (q & Hb & [[? _]|(_ & tf & pt & _ & _ & ->)]); [done|].
  by rewrite (becomes_self _ _ _ _ Hb).
Qed.

Lemma zero_few : few (fun _ => 0).
Proof. intros f. lia. Qed.

(** The copies of [p]'s descriptors in [np]. *)
Lemma dup_loop_refs p np l s s' :
  p ∈ slots -> np ∈ slots -> p <> np -> NoDup l -> (forall fd, fd ∈ l -> fd ∈ fds) ->
  refs_ok (fun _ => 0) s -> ~ dead (procs s np) -> (forall fd, fd ∈ l -> ofile (procs s np) fd = None) ->
  for_each l (fun fd =>
    let! q := get_proc p in
    match ofile q fd with
    | Some f => do! in_files (Proc.filedup f); upd_proc np (fun c => set_ofile (upd (ofile c) fd (Some f)) c)
    | None => kret tt
    end) s = Ret tt s' -> refs_ok (fun _ => 0) s'.
Proof.
  intros Hp Hnp Hne. revert s. induction l as [|fd l IH]; intros s Hnd Hl H Hal Hnone E; cbn [for_each] in E; [by injection E as <-|].
  apply NoDup_cons in Hnd as [Hni Hnd]. apply kbind_inv in E as ([] & s1 & E1 & E).
  assert (Hfd : fd ∈ fds) by (apply Hl; by left). apply kbind_inv in E1 as (q & s0 & E0 & E1). injection E0 as <- <-.
  destruct (ofile (procs s p) fd) as [f|] eqn:Ef.
  2: { injection E1 as <-. eapply (IH s); try done; intros; [apply Hl|apply Hnone]; by right. }
  pose proof (ro_range _ _ H _ _ _ Hp Hfd Ef) as Hf. apply kbind_inv in E1 as ([] & s2 & E2 & E1).
  apply (filedup_refs (fun _ => 0)) in E2 as [Ep H2]; [|done|apply zero_few|done]. injection E1 as <-.
  assert (Hnone' : ofile (procs s2 np) fd = None) by (rewrite Ep; apply Hnone; by left).
  eapply (IH (set_procs (upd (procs s2) np (set_ofile (upd (ofile (procs s2 np)) fd (Some f)) (procs s2 np))) s2)); try done.
  - intros; apply Hl; by right.
  - eapply refs_ok_ext; [|apply (refs_ok_fd _ s2 np fd (Some f) H2); try done; [by rewrite Ep|by intros ? [= <-]]].
    intros g. simpl. rewrite Hnone', names_none, names_some. unfold add_ref. destruct (g =? f); lia.
  - cbn [procs set_procs]. rewrite upd_eq. by rewrite Ep.
  - intros fd' Hfd'. cbn [procs set_procs]. rewrite upd_eq. simpl. rewrite upd_ne by (intros ->; done). rewrite Ep. apply Hnone. by right.
Qed.

Lemma quiets_idup ip : quiets (in_files (idup_inode ip)).
Proof.
  apply quiets_files. intros x a x' E f. unfold idup_inode in E. destruct (Fs.idup ip (ffs x)) as [? ?| |]; [|done|done]. by injection E as <- <-.
Qed.

(** A run that keeps the counts right. *)
Definition keeps_refs {A} (p : Z) (c : K A) : Prop :=
  forall s a s', state (procs s p) = RUNNING -> refs_ok (fun _ => 0) s -> c s = Ret a s' -> refs_ok (fun _ => 0) s'.

Lemma kfork_refs p : p ∈ slots -> keeps_refs p (kfork (k_end C) (k_trampoline C) (k_forkret C) p).
Proof.
  intros Hp s a s' Hr H E. unfold kfork in E. apply kbind_inv in E as (o & s1 & E1 & E).
  apply (allocproc_refs (fun _ => 0)) in E1 as [H1 Ho]; [|done]. destruct o as [np|]; [|by injection E as <- <-].
  destruct (Ho np eq_refl) as (Hnp & Hu & Q & He & Hus). assert (Hne : p <> np) by congruence.
  apply kbind_inv in E as (q & s2 & E2 & E). injection E2 as <- <-. apply kbind_inv in E as (c & s2 & E2 & E). injection E2 as <- <-.
  apply kbind_inv in E as (r & s2 & E2 & E). apply quiets_mem in E2.
  pose proof (refs_ok_quiet _ _ _ H1 E2) as H2. pose proof (empty_quiet _ _ _ E2 He) as He2.
  destruct (r <? 0). { apply kbind_inv in E as ([] & s3 & E3 & [= <- <-]). by eapply freeproc_refs. }
  apply kbind_inv in E as ([] & s3 & E3 & E). apply kbind_inv in E as ([] & s4 & E4 & E). apply kbind_inv in E as ([] & s5 & E5 & E).
  assert (Q3 : quiet s2 s3) by (revert E3; apply quiets_upd_proc; intros; done). apply quiets_mem in E4. apply quiets_mem in E5.
  pose proof (quiet_trans _ _ _ Q3 (quiet_trans _ _ _ E4 E5)) as Q5.
  apply kbind_inv in E as ([] & s6 & E6 & E).
  assert (H6 : refs_ok (fun _ => 0) s6).
  { eapply (dup_loop_refs p np fds s5); try done; [apply NoDup_seqZ|by eapply refs_ok_quiet| |by eapply empty_quiet].
    intros Hd. apply Q5, E2 in Hd. destruct Hd; congruence. }
  eapply refs_ok_quiet; [exact H6|]. revert E. match goal with |- ?c s6 = _ -> _ => assert (Hq : quiets c) end.
  { quieten. apply quiets_idup. }
  apply Hq.
Qed.

Lemma close_loop_refs p l s s' :
  p ∈ slots -> NoDup l -> (forall fd, fd ∈ l -> fd ∈ fds) -> refs_ok (fun _ => 0) s -> ~ dead (procs s p) ->
  for_each l (fun fd =>
    let! q := get_proc p in
    match ofile q fd with
    | Some f => do! Proc.fileclose p f; upd_proc p (fun x => set_ofile (upd (ofile x) fd None) x)
    | None => kret tt
    end) s = Ret tt s' ->
  refs_ok (fun _ => 0) s' /\ (forall fd, fd ∈ l \/ ofile (procs s p) fd = None -> ofile (procs s' p) fd = None).
Proof.
  intros Hp. revert s. induction l as [|fd l IH]; intros s Hnd Hl H Hal E; cbn [for_each] in E.
  { injection E as <-. split; [done|]. intros fd [Hfd|?]; [by apply elem_of_nil in Hfd|done]. }
  apply NoDup_cons in Hnd as [Hni Hnd]. apply kbind_inv in E as ([] & s1 & E1 & E).
  assert (Hfd : fd ∈ fds) by (apply Hl; by left). apply kbind_inv in E1 as (q & s0 & E0 & E1). injection E0 as <- <-.
  destruct (ofile (procs s p) fd) as [f|] eqn:Ef.
  2: { injection E1 as <-. destruct (IH s) as [H1 H2]; try done; [intros; apply Hl; by right|]. split; [done|].
       intros fd' [[->|?]%elem_of_cons|?]; apply H2; auto. }
  pose proof (ro_range _ _ H _ _ _ Hp Hfd Ef) as Hf. apply kbind_inv in E1 as ([] & s2 & E2 & E1).
  apply (fileclose_refs _ _ _ (fun _ => 0)) in E2 as (H2 & Eo & Ed); [|done|apply zero_few|done]. injection E1 as <-.
  set (s3 := set_procs _ s2) in *.
  assert (Ho3 : forall fd', ofile (procs s3 p) fd' = if fd' =? fd then None else ofile (procs s p) fd').
  { intros fd'. unfold s3. cbn [procs set_procs]. rewrite upd_eq. simpl. unfold upd. rewrite Eo. done. }
  destruct (IH s3) as [H3 H4]; try done.
  - intros; apply Hl; by right.
  - eapply refs_ok_ext; [|apply (refs_ok_fd _ s2 p fd None H2); try done; intros Hd; by apply Hal, Ed].
    intros g. simpl. rewrite Eo, Ef, names_none, names_some. unfold add_ref. destruct (g =? f); lia.
  - unfold s3. cbn [procs set_procs]. rewrite upd_eq. intros Hd. by apply Hal, Ed.
  - split; [done|]. intros fd' Hfd'. destruct (Z.eq_dec fd' fd) as [->|Hne].
    + apply H4. right. by rewrite Ho3, Z.eqb_refl.
    + apply H4. destruct Hfd' as [[->|?]%elem_of_cons|?]; [done|by left|right]. rewrite Ho3. by destruct (fd' =? fd).
Qed.

Lemma quiets_reparent p : quiets (reparent p).
Proof. unfold reparent. quieten. Qed.

Lemma kexit_refs p n : p ∈ slots -> keeps_refs p (kexit p n).
Proof.
  intros Hp s a s' Hr H E. unfold kexit in E. apply kbind_inv in E as (ip & s0 & E0 & E). injection E0 as <- <-.
  destruct (bool_decide _); [done|]. apply kbind_inv in E as ([] & s1 & E1 & E).
  apply close_loop_refs in E1 as [H1 He]; [|done|apply NoDup_seqZ|done|done|by intros [?|?]; congruence].
  assert (He1 : empty_fds s1 p) by (intros fd Hfd; apply He; by left). clear He.
  apply kbind_inv in E as (q & s2 & E2 & E). injection E2 as <- <-. destruct (cwd (procs s1 p)) as [d|]; [|done].
  apply kbind_inv in E as ([] & s2 & E2 & E). apply (quiets_put_inode (k_end C) (k_buf C) p d) in E2.
  apply kbind_inv in E as ([] & s3 & E3 & E). assert (Q3 : quiet s2 s3) by (revert E3; by apply quiets_upd_proc).
  apply kbind_inv in E as ([] & s4 & E4 & E). apply quiets_reparent in E4.
  apply kbind_inv in E as (q & s5 & E5 & E). injection E5 as <- <-.
  apply kbind_inv in E as ([] & s5 & E5 & E). apply quiets_wakeup in E5.
  apply kbind_inv in E as ([] & s6 & E6 & E). assert (Q6 : quiet s5 s6) by (revert E6; by apply quiets_upd_proc).
  pose proof (quiet_trans _ _ _ E2 (quiet_trans _ _ _ Q3 (quiet_trans _ _ _ E4 (quiet_trans _ _ _ E5 Q6)))) as Q.
  apply kbind_inv in E as ([] & s7 & E7 & E). injection E7 as <-. destruct a. apply sched_inv in E as ->.
  apply refs_ok_end; [by eapply refs_ok_quiet|by eapply empty_quiet].
Qed.

Lemma kwait_scan_refs l p addr hk s r s' :
  (forall i, i ∈ l -> i ∈ slots) -> refs_ok (fun _ => 0) s -> kwait_scan (k_end C) (k_xstate C) l p addr hk s = Ret r s' -> refs_ok (fun _ => 0) s'.
Proof.
  revert s hk. induction l as [|i l IH]; intros s hk Hl H E; cbn [kwait_scan] in E; [by injection E as <- <-|].
  apply kbind_inv in E as (q & s0 & E0 & E). injection E0 as <- <-. assert (Hl' : forall j, j ∈ l -> j ∈ slots) by (intros; apply Hl; by right).
  destruct (bool_decide (parent _ = _)); [|by eapply IH]. destruct (bool_decide (state _ = _)) eqn:Ez; [|by eapply IH].
  apply bool_decide_eq_true in Ez. assert (He : empty_fds s i) by (intros fd Hfd; apply (ro_dead _ _ H); [apply Hl; by left|done|by right]).
  apply kbind_inv in E as (me & s0 & E0 & E). injection E0 as <- <-. apply kbind_inv in E as (v & s1 & E1 & E).
  assert (Q : quiet s s1) by (revert E1; match goal with |- ?c s = _ -> _ => assert (Hq : quiets c) by (quieten; done) end; apply Hq).
  pose proof (refs_ok_quiet _ _ _ H Q) as H1. apply (empty_quiet _ _ _ Q) in He. destruct (v <? 0); [by injection E as <- <-|].
  apply kbind_inv in E as ([] & s2 & E2 & E). injection E as <- <-. by eapply freeproc_refs.
Qed.

Lemma keeps_quiets {A} p (c : K A) : quiets c -> keeps_refs p c.
Proof. intros Hc s a s' _ H E. eapply refs_ok_quiet; [done|by eapply Hc]. Qed.

Lemma keeps_settles {A} p (c : K A) : settles p (fun _ => 0) [] c -> keeps_refs p c.
Proof. intros Hc s a s' Hr H E. eapply Hc; try done; [intros [?|?]; congruence|by intros fd f ?%elem_of_nil]. Qed.

Lemma sys_wait_refs p : keeps_refs p (sys_wait C p).
Proof.
  intros s a s' Hr H E. unfold sys_wait in E. apply kbind_inv in E as (addr & s1 & E1 & E). apply quiets_argaddr in E1.
  unfold kwait in E. apply kbind_inv in E as (r & s2 & E2 & E).
  apply kwait_scan_refs in E2; [|done|by eapply refs_ok_quiet]. destruct r as [v|hk]; [by injection E as <- <-|].
  eapply refs_ok_quiet; [exact E2|]. revert E. match goal with |- ?c s2 = _ -> _ => assert (Hq : quiets c) by (quieten; done) end. apply Hq.
Qed.

Lemma keeps_value p (c : K Z) : keeps_refs p c -> keeps_refs p (value c).
Proof. intros Hc s a s' Hr H (v & s1 & E1 & [= <- <-])%kbind_inv. by eapply Hc. Qed.
Lemma keeps_sleep p (c : K (option Z)) : keeps_refs p c -> keeps_refs p (or_sleep c).
Proof. intros Hc s a s' Hr H (v & s1 & E1 & [= <- <-])%kbind_inv. by eapply Hc. Qed.
End lifecycle.

(** ** What system calls do to the counts *)

(** The number of the system call in [p]'s trap frame. *)
Definition sysno (p : Z) s : Z := s32 (ld64 (phys (kmem s)) (trapframe (procs s p) + tf_a 7)).
Definition SYS_memcreate : Z := 22.

(** The lemma for each handler. *)
Ltac handler :=
  lazymatch goal with
  | |- keeps_refs _ (value _) => apply keeps_value; handler
  | |- keeps_refs _ (or_sleep _) => apply keeps_sleep; handler
  | |- keeps_refs _ (sys_fork ?C _) => unfold sys_fork; change (layer C) with (spec_layer C); by apply kfork_refs
  | |- keeps_refs _ (sys_wait _ _) => by apply sys_wait_refs
  | |- keeps_refs _ (sys_dup _) => by apply keeps_settles, sys_dup_settles
  | |- keeps_refs _ (sys_close _ _ _) => by apply keeps_settles, sys_close_settles
  | |- keeps_refs _ (sys_open _ _ _ _) => by apply keeps_settles, sys_open_settles
  | |- keeps_refs _ (sys_pipe _ _ _ _) => by apply keeps_settles, sys_pipe_settles
  | |- keeps_refs _ (sys_read _ _ _ _ _) => apply keeps_quiets, quiets_sys_read, quiet_dev_read
  | |- keeps_refs _ (sys_fstat _ _ _ _) => apply keeps_quiets, quiets_sys_fstat
  | |- keeps_refs _ (sys_link _ _ _ _) => apply keeps_quiets, quiets_sys_link
  | |- keeps_refs _ (sys_unlink _ _ _ _) => apply keeps_quiets, quiets_sys_unlink
  | |- keeps_refs _ (sys_mkdir _ _ _ _) => apply keeps_quiets, quiets_sys_mkdir
  | |- keeps_refs _ (sys_mknod _ _ _ _) => apply keeps_quiets, quiets_sys_mknod
  | |- keeps_refs _ (sys_chdir _ _ _ _) => apply keeps_quiets, quiets_sys_chdir
  | |- keeps_refs _ (sys_exec _ _ _ _ _) => apply keeps_quiets, quiets_sys_exec
  | |- keeps_refs _ (sys_memdelete _) => apply keeps_quiets, quiets_sys_memdelete
  | |- keeps_refs _ (sys_getpid _) => apply keeps_quiets, quiets_sys_getpid
  | |- keeps_refs _ (sys_sbrk _ _) => apply keeps_quiets, quiets_sys_sbrk
  | |- keeps_refs _ (sys_pause _) => apply keeps_quiets, quiets_sys_pause
  | |- keeps_refs _ (sys_kill _) => apply keeps_quiets, quiets_sys_kill
  | |- keeps_refs _ sys_uptime => apply keeps_quiets, quiets_sys_uptime
  | |- keeps_refs _ (sys_syslogread _ _) => apply keeps_quiets, quiets_sys_syslogread
  | _ => idtac
  end.

Lemma argint_same p n s v s' : argint p n s = Ret v s' -> s' = s.
Proof. unfold argint, argraw, get_tf, kphys, kbind, get_proc, kget, kret, kpanic. by destruct (_ && _); intros [=]. Qed.

Lemma syscalls_refs C p num h : p ∈ slots -> num <> SYS_memcreate -> syscalls C p num = Some h -> keeps_refs p h.
Proof.
  intros Hp Hn. unfold syscalls. cbv zeta. destruct num as [|n|]; try done.
  repeat match goal with n : positive |- _ => destruct n as [n|n|]; try done end; intros [= <-].
  all: handler.
  - intros s a s' Hr H (r & s1 & E1 & [= <- <-])%kbind_inv. eapply refs_ok_quiet; [exact H|].
    by eapply quiets_sys_write; [apply quiet_dev_write|].
  - intros s a s' Hr H E. unfold sys_exit in E. apply kbind_inv in E as (n & s1 & E1 & E). apply kbind_inv in E as ([] & s2 & E2 & [= <- <-]).
    eapply kexit_refs; [done| | |exact E2].
    + by rewrite (argint_same _ _ _ _ _ E1).
    + apply quiets_argint in E1. by eapply refs_ok_quiet.
Qed.

Lemma memcreate_refs C p s v s' :
  p ∈ slots -> state (procs s p) = RUNNING -> refs_ok (fun _ => 0) s -> sys_memcreate (k_end C) (k_buf C) p s = Ret v s' -> v <> -1 ->
  refs_ok (fun _ => 0) s'.
Proof.
  intros Hp Hr H E Hv. eapply (sys_memcreate_settles p Hp (k_end C) (k_buf C) s v s' H).
  - intros [?|?]; congruence.
  - by intros fd f ?%elem_of_nil.
  - unfold kbind. rewrite E. by rewrite (proj2 (Z.eqb_neq v (-1)) Hv).
Qed.
