(* ===== verification/FileClaims.v ===== *)
(** * Open files: what the code guarantees

    The reference counts of open files through every system call, the
    failure of memcreate that breaks them, and the file layer as the process
    code relies on it. *)

From S2P Require Import Prelude Memory StringC Kalloc Vm Proc Sched ProcInv Pipe Console Printf Sleeplock Bio BioSpec Log LogSpec Fs FsLayer File Args Exec Sysfile Sysproc FileSpec.

Implicit Types s : kernel filesys.


(** ** A process with one open file *)

Definition demo_locals : locals := Locals 0 0 0 0 0 0 0 0 0 0 0 0 0 0.
Definition demo_conf : kconf := KConf 0 0 0 (fun _ => 0) 0 0 0 0 0 demo_locals 0 0 0.

Definition no_proc : proc :=
  Proc UNUSED NoChan 0 0 0 None 0 0 0 0 (Context 0 0 (fun _ => 0)) (fun _ => None) None (fun _ => 0) 0 0 0.
(** Process 0 runs, with file 3 as its descriptor 0 and its trap frame at
    4096. *)
Definition one_proc : proc :=
  Proc RUNNING NoChan 0 0 1 None 0 0 0 4096 (Context 0 0 (fun _ => 0)) (fun fd => if fd =? 0 then Some 3 else None) (Some 1) (fun _ => 0) 60 0 0.
Definition closed_file : file := File FD_NONE 0 0 0 0 0 None 0 0.
Definition one_file (mf : memfile) : filesys :=
  Filesys (Fs (boot_log (fun _ _ => 0)) (Superblock 0 0 0 0 0 0 0 0) (fun _ => Inode 0 0 0 (Sleeplock 0 0) 0 0 0 0 0 0 (fun _ => 0)))
    (fun f => if f =? 3 then File FD_INODE 1 1 0 0 5 None 0 0 else closed_file) (fun _ => mf)
    (fun _ => Pipe (fun _ => 0) 0 0 0 0) 0 (Console (fun _ => 0) 0 0 0 0 []) (Logkeeper (fun _ => 0) 0 0).
(** The user's registers [a7] and [a0]. *)
Definition one_kernel (a7 a0 : Z) (mf : memfile) : kernel filesys :=
  Kernel (boot_state (st64 (st64 (fun _ => 0) (4096 + tf_a 7) a7) (4096 + tf_a 0) a0))
    (fun i => if i =? 0 then one_proc else no_proc) 2 (Some 0) (fun _ => Some 0) 0 0 0 (one_file mf).

Lemma one_refs a7 a0 mf : refs_ok (fun _ => 0) (one_kernel a7 a0 mf).
Proof.
  split.
  - assert (Hall : forallb (fun f => fref_of (one_kernel a7 a0 mf) f =? refs (procs (one_kernel a7 a0 mf)) f + 0) (seqZ 0 NFILE) = true) by (vm_compute; reflexivity).
    intros f Hf. rewrite forallb_forall in Hall. apply Z.eqb_eq, Hall, list_elem_of_In, elem_of_seqZ. lia.
  - intros i fd f _ _. simpl. destruct (i =? 0); [|done]. simpl. destruct (fd =? 0); [|done]. intros [= <-]. unfold NFILE. lia.
  - intros i fd _ _. simpl. destruct (i =? 0); [|done]. intros [?|?]; done.
Qed.


(** ** memcreate with no slot left *)

(** C35. A failing memcreate leaves a descriptor to a free file.  When the
    table of in-memory files is full, memcreate returns -1 after [fdalloc]
    has stored the file in the first free descriptor, and closes the file
    without clearing the descriptor: the count is 0 and the descriptor still
    names the file.  A close of that descriptor then panics. *)
Theorem memcreate_dangling_fd kend buf (p f fd : Z) s :
  find_file (ftable (files s)) = Some f -> ftyp (ftable (files s) f) = FD_NONE ->
  find_fd (ofile (procs s p)) = Some fd -> find_memfile (mftable (files s)) = None ->
  exists s', sys_memcreate kend buf p s = Ret (-1) s' /\ ofile (procs s' p) fd = Some f /\ fref_of s' f = 0 /\
    (forall s2, procs s2 = procs s' -> ftable (files s2) = ftable (files s') ->
       ld64 (phys (kmem s2)) (trapframe (procs s2 p) + tf_a 0) = fd -> sys_close kend buf p s2 = Panic "fileclose").
Proof.
  intros Hf Ht Hfd Hm. assert (Hr : 0 <= fd < NOFILE).
  { apply fmap_Some in Hfd as ((i & y) & E & ->). apply list_find_Some in E as (E & _). by apply list_elem_of_lookup_2, fds_spec in E. }
  eexists. split_and!.
  - unfold sys_memcreate, filealloc, fdalloc, memfile_create, set_fd, upd_file, File.fileclose, get_file, kbind, kget, kupd, in_files, kret.
    cbn [files set_files ftable set_ftable mftable]. rewrite Hf. cbn.
    rewrite Hfd. cbn. rewrite (proj2 (Z.ltb_ge fd 0)) by lia. cbn. rewrite Hm. cbn. unfold upd. rewrite Z.eqb_refl. cbn.
    rewrite Ht. reflexivity.
  - cbn. unfold upd. rewrite !Z.eqb_refl. cbn. by rewrite Z.eqb_refl.
  - unfold fref_of. cbn. unfold upd. rewrite !Z.eqb_refl. cbn. done.
  - intros s2 Ep Ef Ea. unfold sys_close, argfd, argint, argraw, get_tf, kphys, get_proc, set_fd, upd_proc, File.fileclose, get_file, kbind, kget, kupd, kret. cbn.
    rewrite Ea. assert (E32 : s32 fd = fd) by (apply s32_small; unfold NOFILE in Hr; lia). rewrite E32.
    rewrite (proj2 (Z.ltb_ge fd 0)), Z.geb_leb, (proj2 (Z.leb_gt NOFILE fd)) by lia. cbn.
    rewrite Ep. cbn. unfold upd at 1. rewrite !Z.eqb_refl. cbn. unfold upd at 1. rewrite Z.eqb_refl. cbn.
    rewrite Ef. cbn. unfold upd. rewrite !Z.eqb_refl. reflexivity.
Qed.

Lemma memcreate_dangling_fd_witness :
  let s := one_kernel 22 0 (Memfile 1 0 0 0) in
  exists s', sys_memcreate 0 0 0 s = Ret (-1) s' /\ ofile (procs s' 0) 1 = Some 0 /\ fref_of s' 0 = 0.
Proof.
  intros s. destruct (memcreate_dangling_fd 0 0 0 0 1 s) as (s' & E & H1 & H2 & _).
  - vm_compute. reflexivity.
  - reflexivity.
  - vm_compute. reflexivity.
  - vm_compute. reflexivity.
  - exists s'. split; [exact E|]. split; [exact H1|exact H2].
Defined.

(** ** The file layer, for the process code *)

Definition wakes {A} (c : M (kernel filesys) A) : Prop := forall s a s', c s = Ret a s' -> woken s s'.

Lemma woken_same s s' : procs s' = procs s -> keeps s s' -> woken s s'.
Proof. intros E Hk. split; [done|]. intros i. left. by rewrite E. Qed.

Create HintDb wakes.

Lemma wakes_ret {A} (a : A) : wakes (kret a).
Proof. intros s a' s' [= <- <-]. by apply woken_same. Qed.
Lemma wakes_get {A} (f : kernel filesys -> A) : wakes (kget f).
Proof. intros s a' s' [= <- <-]. by apply woken_same. Qed.
Lemma wakes_panic {A} e : wakes (A := A) (kpanic e).
Proof. done. Qed.
Lemma wakes_hang {A} : wakes (A := A) khang.
Proof. done. Qed.
Lemma wakes_bind {A B} (c : M (kernel filesys) A) (k : A -> M (kernel filesys) B) :
  wakes c -> (forall a, wakes (k a)) -> wakes (kbind c k).
Proof. intros Hc Hk s b s' (a & s1 & E1 & E2)%kbind_inv. eapply woken_trans; [by eapply Hc|by eapply Hk]. Qed.
Lemma wakes_mem {A} (c : M kmem_state A) : wakes (in_mem c).
Proof. intros s a s' (m & _ & ->)%in_mem_inv. by apply woken_same. Qed.
Lemma wakes_files {A} (c : M filesys A) : wakes (in_files c).
Proof. intros s a s' (f & _ & ->)%in_files_inv. by apply woken_same. Qed.
Lemma wakes_fs {A} kend buf p (c : M (fs log) A) : wakes (@in_fs log (kernel filesys) (kernel_env kend buf p) A c).
Proof. intros s a s'. unfold in_fs. destruct (c _); intros [= <- <-]. by apply woken_same. Qed.
Lemma wakes_wakeup cur ch : wakes (wakeup cur ch).
Proof. intros s [] s' E. by eapply wakeup_woken. Qed.
Lemma wakes_upd_pipe a g : wakes (upd_pipe a g).
Proof. intros s b s' [= <- <-]. by apply woken_same. Qed.
Lemma wakes_for_each {A} (l : list A) f : (forall x, wakes (f x)) -> wakes (for_each l f).
Proof. intros Hf. induction l as [|x l IH]; simpl; [apply wakes_ret|]. by apply wakes_bind. Qed.
#[local] Hint Resolve wakes_ret wakes_get wakes_panic wakes_hang wakes_bind wakes_mem wakes_files wakes_fs wakes_wakeup wakes_upd_pipe wakes_for_each : wakes.

Ltac wake := repeat first [progress intros | apply wakes_wakeup | apply wakes_bind | case_match | apply wakes_fs | solve [eauto with wakes]].

Lemma wakes_put_inode kend buf p ip : wakes (put_inode kend buf p ip).
Proof. unfold put_inode, kbegin_op, kend_op, mypid, get_proc. wake. Qed.

Lemma wakes_fileclose kend buf p f : wakes (File.fileclose kend buf p f).
Proof.
  unfold File.fileclose, get_file, upd_file, pipeclose, get_pipe, get_memfile, set_memfile. pose proof (wakes_put_inode kend buf p).
  wake.
Qed.

Lemma wakes_garbage_collect kend : wakes (File.garbage_collect kend).
Proof. unfold File.garbage_collect, get_memfile, set_memfile. wake. Qed.

