(* ===== verification/ConsoleSpec.v ===== *)
(** * The console: what the code guarantees

    The ring buffer with its three wrapping counters behaves as two lists,
    the bytes ready for readers and the line being edited; a reader gets the
    edited lines. *)

From S2P Require Import Prelude Memory StringC Kalloc Vm Proc Console.

(** ** The abstract console *)

Record acons := ACons { ready : list Z; edit : list Z }.

(** The effect of an input character, whether readers are woken, and the
    echo. *)
Definition ainput (ch : Z) (a : acons) : acons * bool * list Z :=
  if ch =? CTRL 80 then (a, false, []) else
  if ch =? CTRL 85 then (ACons (ready a) [], false, concat (replicate (length (edit a)) [8; 32; 8])) else
  if (ch =? CTRL 72) || (ch =? del) then
    (match edit a with [] => a | _ => ACons (ready a) (removelast (edit a)) end, false,
     match edit a with [] => [] | _ => [8; 32; 8] end) else
  if negb (ch =? 0) && (Z.of_nat (length (ready a) + length (edit a)) <? INPUT_BUF_SIZE) then
    let ch := if ch =? 13 then newline else ch in
    let line := edit a ++ [ch] in
    if (ch =? newline) || (ch =? CTRL 68) || (Z.of_nat (length (ready a) + length line) =? INPUT_BUF_SIZE)
    then (ACons (ready a ++ line) [], true, [ch]) else (ACons (ready a) line, false, [ch])
  else (a, false, []).

(** What a reader of [n] more bytes takes off the ready bytes: the bytes,
    the rest, and whether it sleeps for more.  [got]: it has bytes already. *)
Fixpoint aread (n : nat) (got : bool) (l : list Z) : list Z * list Z * bool :=
  match n, l with
  | O, _ => ([], l, false)
  | S _, [] => ([], [], true)
  | S n', ch :: l' =>
      if ch =? CTRL 68 then ([], if got then l else l', false)
      else if ch =? newline then ([ch], l', false)
      else let '(bs, r, b) := aread n' true l' in (ch :: bs, r, b)
  end.

Lemma aread_length n got l bs rest b : aread n got l = (bs, rest, b) -> (length bs <= n)%nat.
Proof.
  revert got l bs rest b. induction n as [|n IH]; intros got l bs rest b; simpl; [intros [= <- _ _]; simpl; lia|].
  destruct l as [|ch l]; [intros [= <- _ _]; simpl; lia|]. destruct (ch =? CTRL 68); [intros [= <- _ _]; simpl; lia|].
  destruct (ch =? newline); [intros [= <- _ _]; simpl; lia|].
  destruct (aread n true l) as [[bs' r'] b'] eqn:E. intros [= <- _ _]. apply IH in E. simpl. lia.
Qed.

(** ** The ring *)

Definition ring (b : Z -> Z) (a len : Z) : list Z :=
  (fun k => u8 (b ((a + k) mod INPUT_BUF_SIZE))) <$> seqZ 0 len.

Lemma length_ring b a len : 0 <= len -> Z.of_nat (length (ring b a len)) = len.
Proof. intros. unfold ring. rewrite length_fmap, length_seqZ. lia. Qed.

Lemma ring_u32 b a len : ring b (u32 a) len = ring b a len.
Proof.
  unfold ring. apply list_fmap_ext. intros j k Hk. apply lookup_seqZ in Hk as [-> Hk]. do 2 f_equal.
  unfold u32, INPUT_BUF_SIZE. Z.to_euclidean_division_equations; lia.
Qed.

Lemma ring_app b a n m : 0 <= n -> 0 <= m -> ring b a (n + m) = ring b a n ++ ring b (a + n) m.
Proof.
  intros Hn Hm. unfold ring. rewrite seqZ_app by lia. rewrite fmap_app. f_equal.
  rewrite (Z.add_comm 0 n), <- (fmap_add_seqZ n 0 m), <- list_fmap_compose.
  apply list_fmap_ext. intros j k Hk. simpl. do 3 f_equal. lia.
Qed.

Lemma ring_one b a : ring b a 1 = [u8 (b (a mod INPUT_BUF_SIZE))].
Proof. unfold ring. simpl. by rewrite Z.add_0_r. Qed.

Lemma ring_upd b a len j v :
  0 <= len <= j -> j < INPUT_BUF_SIZE -> ring (upd b ((a + j) mod INPUT_BUF_SIZE) v) a len = ring b a len.
Proof.
  intros Hl Hj. unfold ring. apply list_fmap_ext. intros i k Hk. apply lookup_seqZ in Hk as [-> Hk]. f_equal. apply upd_ne.
  unfold INPUT_BUF_SIZE in *. Z.to_euclidean_division_equations; lia.
Qed.

Lemma ring_snoc b a len v :
  0 <= len < INPUT_BUF_SIZE -> ring (upd b ((a + len) mod INPUT_BUF_SIZE) v) a (len + 1) = ring b a len ++ [u8 v].
Proof. intros Hl. rewrite ring_app by lia. rewrite ring_upd by lia. by rewrite ring_one, upd_eq. Qed.

(** ** The invariant and the abstraction *)

Definition ready_of (c : console) : list Z := ring (cbuf c) (cr c) (u32 (cw c - cr c)).
Definition edit_of (c : console) : list Z := ring (cbuf c) (cw c) (u32 (ce c - cw c)).
Definition acons_of (c : console) : acons := ACons (ready_of c) (edit_of c).

Record cons_ok (c : console) : Prop := {
  co_r : 0 <= cr c < 2 ^ 32;
  co_w : 0 <= cw c < 2 ^ 32;
  co_e : 0 <= ce c < 2 ^ 32;
  co_len : u32 (cw c - cr c) + u32 (ce c - cw c) <= INPUT_BUF_SIZE;
  co_line : newline ∉ edit_of c
}.

Lemma edit_len c : Z.of_nat (length (edit_of c)) = u32 (ce c - cw c).
Proof. apply length_ring, u32_range. Qed.
Lemma ready_len c : Z.of_nat (length (ready_of c)) = u32 (cw c - cr c).
Proof. apply length_ring, u32_range. Qed.

Lemma edit_empty c : cons_ok c -> ce c = cw c <-> edit_of c = [].
Proof.
  intros [Hr Hw He _ _]. pose proof (edit_len c) as Hl. split; intros E.
  - rewrite E, Z.sub_diag in Hl. change (u32 0) with 0 in Hl. destruct (edit_of c); [done|simpl in Hl; lia].
  - rewrite E in Hl. simpl in Hl. unfold u32 in Hl. Z.to_euclidean_division_equations; lia.
Qed.

Lemma sent_erase c : sent (erase c) = [8; 32; 8] ++ sent c.
Proof. reflexivity. Qed.

(** The edited line without its last character. *)
Lemma erase_ok c l x :
  cons_ok c -> edit_of c = l ++ [x] ->
  cons_ok (erase c) /\ edit_of (erase c) = l /\ ready_of (erase c) = ready_of c /\
  x = u8 (cbuf c (u32 (ce c - 1) mod INPUT_BUF_SIZE)).
Proof.
  intros [Hr Hw He Hlen Hln] El. pose proof (edit_len c) as Hl. rewrite El, length_app in Hl. simpl in Hl.
  assert (Ee : u32 (u32 (ce c - 1) - cw c) = u32 (ce c - cw c) - 1).
  { unfold u32 in *. Z.to_euclidean_division_equations; lia. }
  set (k := u32 (ce c - cw c) - 1) in *.
  assert (E1 : edit_of c = ring (cbuf c) (cw c) k ++ [u8 (cbuf c (u32 (ce c - 1) mod INPUT_BUF_SIZE))]).
  { unfold edit_of. replace (u32 (ce c - cw c)) with (k + 1) by lia. rewrite ring_app by lia. f_equal. rewrite ring_one. do 3 f_equal.
    unfold k, u32, INPUT_BUF_SIZE in *. Z.to_euclidean_division_equations; lia. }
  rewrite El in E1. apply app_inj_tail in E1 as [E1 E2].
  assert (E3 : edit_of (erase c) = l).
  { unfold edit_of. change (cbuf (erase c)) with (cbuf c). change (cw (erase c)) with (cw c). change (ce (erase c)) with (u32 (ce c - 1)).
    by rewrite Ee. }
  split_and!; try done. split; try done.
  - apply u32_range.
  - change (cr (erase c)) with (cr c). change (cw (erase c)) with (cw c). change (ce (erase c)) with (u32 (ce c - 1)). lia.
  - rewrite E3. intros Hin. apply Hln. rewrite El. set_solver.
Qed.

Lemma kill_line_ok fuel c :
  cons_ok c -> (length (edit_of c) <= fuel)%nat ->
  cons_ok (kill_line fuel c) /\ edit_of (kill_line fuel c) = [] /\ ready_of (kill_line fuel c) = ready_of c /\
  sent (kill_line fuel c) = concat (replicate (length (edit_of c)) [8; 32; 8]) ++ sent c.
Proof.
  revert c. induction fuel as [|f IH]; intros c Hc Hf.
  { assert (E : edit_of c = []) by (by apply nil_length_inv; lia). by rewrite E. }
  cbn [kill_line]. destruct (Z.eqb_spec (ce c) (cw c)) as [E|E]; cbn [negb andb].
  { apply (edit_empty _ Hc) in E. by rewrite E. }
  destruct (exists_last (l := edit_of c)) as (l & x & El).
  { intros E'. apply E. by apply (edit_empty _ Hc). }
  destruct (erase_ok c l x Hc El) as (Hc' & El' & Er' & Ex).
  assert (Hx : x <> newline) by (intros ->; apply (co_line _ Hc); rewrite El; set_solver).
  rewrite <- Ex, (proj2 (Z.eqb_neq _ _) Hx). cbn [negb].
  destruct (IH (erase c) Hc') as (H1 & H2 & H3 & H4); [rewrite El, length_app in Hf; simpl in Hf; rewrite El'; lia|].
  split_and!; try congruence. rewrite H4, El', sent_erase, El, length_app. simpl.
  rewrite Nat.add_1_r, replicate_S_end, concat_app. simpl. by rewrite <- app_assoc.
Qed.

(** A character added to the edited line. *)
Definition store (ch : Z) (c : console) : console :=
  set_ce (u32 (ce c + 1)) (set_cbuf (upd (cbuf c) (ce c mod INPUT_BUF_SIZE) (u8 ch)) c).

Lemma store_ok ch c :
  cons_ok c -> 0 <= ch < 256 -> u32 (cw c - cr c) + u32 (ce c - cw c) < INPUT_BUF_SIZE ->
  edit_of (store ch c) = edit_of c ++ [ch] /\ ready_of (store ch c) = ready_of c /\
  u32 (ce (store ch c) - cw c) = u32 (ce c - cw c) + 1 /\ u32 (ce (store ch c) - cr c) = u32 (cw c - cr c) + u32 (ce c - cw c) + 1 /\
  ready_of (set_cw (ce (store ch c)) (store ch c)) = ready_of c ++ edit_of c ++ [ch].
Proof.
  intros [Hr Hw He Hlen Hln] Hch Hlt. change (ce (store ch c)) with (u32 (ce c + 1)).
  pose proof (u32_range (cw c - cr c)) as Hu1. pose proof (u32_range (ce c - cw c)) as Hu2.
  assert (Ee : u32 (u32 (ce c + 1) - cw c) = u32 (ce c - cw c) + 1) by (unfold u32, INPUT_BUF_SIZE in *; Z.to_euclidean_division_equations; lia).
  assert (Er : u32 (u32 (ce c + 1) - cr c) = u32 (cw c - cr c) + u32 (ce c - cw c) + 1) by (unfold u32, INPUT_BUF_SIZE in *; Z.to_euclidean_division_equations; lia).
  assert (Ei : ce c mod INPUT_BUF_SIZE = (cw c + u32 (ce c - cw c)) mod INPUT_BUF_SIZE) by (unfold u32, INPUT_BUF_SIZE in *; Z.to_euclidean_division_equations; lia).
  assert (Ej : ce c mod INPUT_BUF_SIZE = (cr c + (u32 (cw c - cr c) + u32 (ce c - cw c))) mod INPUT_BUF_SIZE) by (unfold u32, INPUT_BUF_SIZE in *; Z.to_euclidean_division_equations; lia).
  assert (E8 : u8 (u8 ch) = ch) by (unfold u8; rewrite Z.mod_mod by lia; apply Z.mod_small; lia).
  set (b := upd (cbuf c) (ce c mod INPUT_BUF_SIZE) (u8 ch)).
  assert (R1 : edit_of (store ch c) = edit_of c ++ [ch]).
  { unfold edit_of. change (ce (store ch c)) with (u32 (ce c + 1)). change (cbuf (store ch c)) with b. change (cw (store ch c)) with (cw c).
    rewrite Ee. unfold b. rewrite Ei, ring_snoc by lia. by rewrite E8. }
  assert (R2 : ready_of (store ch c) = ready_of c).
  { unfold ready_of. change (cr (store ch c)) with (cr c). change (cbuf (store ch c)) with b. change (cw (store ch c)) with (cw c).
    unfold b. rewrite Ej. apply ring_upd; lia. }
  split_and!; try done.
  unfold ready_of at 1. change (cbuf (set_cw (u32 (ce c + 1)) (store ch c))) with b.
  change (cr (set_cw (u32 (ce c + 1)) (store ch c))) with (cr c). change (cw (set_cw (u32 (ce c + 1)) (store ch c))) with (u32 (ce c + 1)).
  rewrite Er, <- Z.add_assoc, ring_app by lia. f_equal.
  - rewrite <- R2. done.
  - rewrite <- R1. unfold edit_of. change (ce (store ch c)) with (u32 (ce c + 1)). change (cbuf (store ch c)) with b. change (cw (store ch c)) with (cw c).
    rewrite Ee. rewrite <- (ring_u32 b (cr c + _)). rewrite <- (ring_u32 b (cw c)). f_equal. unfold u32 in *. Z.to_euclidean_division_equations; lia.
Qed.

Lemma cons_ok_sent c v : cons_ok c -> cons_ok (set_sent v c).
Proof. intros []. by split. Qed.

Lemma total_len c : cons_ok c -> u32 (ce c - cr c) = Z.of_nat (length (ready_of c) + length (edit_of c)).
Proof.
  intros [Hr Hw He Hlen _]. rewrite Nat2Z.inj_add, ready_len, edit_len. unfold u32, INPUT_BUF_SIZE in *.
  Z.to_euclidean_division_equations; lia.
Qed.

Lemma input_ok ch c :
  cons_ok c -> 0 <= ch < 256 ->
  let r := input ch c in let a := ainput ch (acons_of c) in
  cons_ok r.1 /\ acons_of r.1 = a.1.1 /\ r.2 = a.1.2 /\ sent r.1 = reverse a.2 ++ sent c.
Proof.
  intros Hc Hch. unfold input, ainput. destruct (ch =? CTRL 80); [by simpl|]. destruct (ch =? CTRL 85).
  { destruct (kill_line_ok (Z.to_nat (u32 (ce c - cw c))) c Hc) as (H1 & H2 & H3 & H4).
    - pose proof (edit_len c). lia.
    - cbn [fst snd]. unfold acons_of. rewrite H2, H3, H4. split_and!; try done. f_equal. cbn [edit].
      generalize (length (edit_of c)) as n. induction n as [|n IH]; [done|]. rewrite replicate_S_end at 2.
      rewrite concat_app, reverse_app. simpl. by rewrite <- IH. }
  destruct ((ch =? CTRL 72) || (ch =? del)).
  { cbn [acons_of edit ready]. destruct (Z.eqb_spec (ce c) (cw c)) as [E|E]; cbn [negb fst snd].
    - apply (edit_empty _ Hc) in E. rewrite E. unfold acons_of. rewrite E. done.
    - destruct (exists_last (l := edit_of c)) as (l & x & El); [by intros E'; apply E, (edit_empty _ Hc)|].
      destruct (erase_ok c l x Hc El) as (Hc' & El' & Er' & _). rewrite El. destruct (l ++ [x]) eqn:Eq; [by destruct l|].
      rewrite <- Eq, removelast_last. unfold acons_of. rewrite El', Er'. done. }
  rewrite (total_len c Hc). cbn [acons_of ready edit].
  destruct (negb (ch =? 0) && _) eqn:Ein; [|by simpl]. apply andb_true_iff in Ein as [_ Ein%Z.ltb_lt].
  set (ch' := if ch =? 13 then newline else ch). assert (Hch' : 0 <= ch' < 256) by (unfold ch', newline; destruct (ch =? 13); lia).
  assert (Ec : consputc ch' c = set_sent (ch' :: sent c) c).
  { unfold consputc, uartputc_sync, BACKSPACE. destruct (Z.eqb_spec ch' 256); [lia|]. do 2 f_equal. apply Z.mod_small. lia. }
  rewrite Ec. set (c1 := set_sent (ch' :: sent c) c). fold (store ch' c1).
  pose proof (cons_ok_sent c (ch' :: sent c) Hc) as Hc1. fold c1 in Hc1.
  rewrite Nat2Z.inj_add, ready_len, edit_len in Ein.
  destruct (store_ok ch' c1 Hc1 Hch' Ein) as (R1 & R2 & R3 & R4 & R5).
  change (edit_of c1) with (edit_of c) in *. change (ready_of c1) with (ready_of c) in *. change (cr c1) with (cr c) in *.
  change (cw c1) with (cw c) in *. change (ce c1) with (ce c) in *.
  assert (Hn : Z.of_nat (length (ready_of c) + length (edit_of c ++ [ch'])) = u32 (ce (store ch' c1) - cr c)).
  { rewrite R4, length_app. simpl. rewrite !Nat2Z.inj_add, ready_len, edit_len. lia. }
  rewrite Hn. change (cr (store ch' c1)) with (cr c).
  destruct (((ch' =? newline) || (ch' =? CTRL 68)) || _) eqn:Ew; cbn [fst snd].
  - set (c2 := set_cw (ce (store ch' c1)) (store ch' c1)) in *.
    assert (E2 : edit_of c2 = []) by (unfold edit_of; simpl; by rewrite Z.sub_diag). unfold acons_of. rewrite E2, R5.
    split_and!; try done. destruct Hc as [Hr Hw He Hlen Hln]. split; simpl; try apply u32_range; [done| |].
    + rewrite Z.sub_diag. change (u32 0) with 0. simpl in R4. rewrite R4. lia.
    + rewrite E2. by intros ?%elem_of_nil.
  - unfold acons_of. rewrite R1, R2. split_and!; try done. destruct Hc as [Hr Hw He Hlen Hln]. split; try done; [apply u32_range| |].
    + change (cr (store ch' c1)) with (cr c). change (cw (store ch' c1)) with (cw c). lia.
    + rewrite R1. apply orb_false_iff in Ew as [[Ew _]%orb_false_iff _]. apply Z.eqb_neq in Ew. set_solver.
Qed.

(** The abstract console after a sequence of characters. *)
Fixpoint ainputs (l : list Z) (a : acons) : acons :=
  match l with
  | [] => a
  | ch :: l' => ainputs l' (ainput ch a).1.1
  end.

(** A byte taken off the ready bytes. *)
Lemma take_ready c x l :
  cons_ok c -> ready_of c = x :: l ->
  let c' := set_cr (u32 (cr c + 1)) c in
  cons_ok c' /\ ready_of c' = l /\ edit_of c' = edit_of c /\ x = u8 (cbuf c (cr c mod INPUT_BUF_SIZE)) /\ cr c <> cw c.
Proof.
  intros [Hr Hw He Hlen Hln] E c'. pose proof (ready_len c) as Hl. rewrite E in Hl. simpl in Hl.
  assert (Ek : u32 (cw c - u32 (cr c + 1)) = u32 (cw c - cr c) - 1) by (unfold u32 in *; Z.to_euclidean_division_equations; lia).
  assert (E1 : ready_of c = u8 (cbuf c (cr c mod INPUT_BUF_SIZE)) :: ready_of c').
  { unfold ready_of at 1. replace (u32 (cw c - cr c)) with (1 + (u32 (cw c - cr c) - 1)) by lia. rewrite ring_app, ring_one by lia. simpl. f_equal.
    unfold ready_of. simpl. by rewrite ring_u32, Ek. }
  rewrite E in E1. injection E1 as E1 E2. split_and!; try done.
  - split; simpl; try done; [apply u32_range|]. rewrite Ek. lia.
  - intros E3. rewrite E3, Z.sub_diag in Hl. change (u32 0) with 0 in Hl. lia.
Qed.

Lemma ready_empty c : cons_ok c -> ready_of c = [] -> cr c = cw c.
Proof.
  intros [Hr Hw He _ _] E. pose proof (ready_len c) as Hl. rewrite E in Hl. simpl in Hl. unfold u32 in Hl. Z.to_euclidean_division_equations; lia.
Qed.

(** ** The console in the kernel *)
Section kernel.
Context {F : Type} `{!ConsoleStore F}.
Variables (kend cbuf_at p : Z).
Implicit Types s : kernel F.

Definition the_cons s : console := console_of (files s).

Lemma consoleintr_ok cur ch s :
  cons_ok (the_cons s) -> 0 <= ch < 256 ->
  wp (consoleintr cur ch) (fun _ s' =>
    cons_ok (the_cons s') /\ acons_of (the_cons s') = (ainput ch (acons_of (the_cons s))).1.1 /\
    killed (procs s' p) = killed (procs s p) /\ kmem s' = kmem s) s.
Proof.
  intros Hc Hch. unfold consoleintr. apply wp_bind, wp_get. fold (the_cons s).
  destruct (input_ok ch (the_cons s) Hc Hch) as (H1 & H2 & _). destruct (input ch (the_cons s)) as [c' w]. cbn [fst snd] in *.
  apply wp_bind, wp_upd. set (s1 := set_files _ s). assert (E1 : the_cons s1 = c') by (unfold the_cons; simpl; apply cons_put).
  destruct w; [|apply wp_ret; rewrite E1; done].
  destruct (wakeup_eq cur ChanCons s1) as (t & E & Ht). eapply wp_run; [exact E|].
  change (the_cons (set_procs t s1)) with (the_cons s1). rewrite E1. split_and!; try done. simpl. rewrite Ht. simpl.
  unfold wake. by repeat case_bool_decide; try destruct (_ && _).
Qed.

Lemma consoleintrs_ok cur l s :
  cons_ok (the_cons s) -> Forall (fun ch => 0 <= ch < 256) l ->
  wp (for_each l (consoleintr cur)) (fun _ s' =>
    cons_ok (the_cons s') /\ acons_of (the_cons s') = ainputs l (acons_of (the_cons s)) /\
    killed (procs s' p) = killed (procs s p) /\ kmem s' = kmem s) s.
Proof.
  revert s. induction l as [|ch l IH]; intros s Hc Hl; [by apply wp_ret|]. apply Forall_cons in Hl as [Hch Hl].
  cbn [for_each]. apply wp_bind. eapply wp_mono; [by apply consoleintr_ok|]. intros [] s1 (H1 & H2 & H3 & H4).
  eapply wp_mono; [by apply IH|]. intros [] s2 (H5 & H6 & H7 & H8). split_and!; try done; try congruence.
  cbn [ainputs]. by rewrite H6, H2.
Qed.

(** A copy of a byte to kernel memory. *)
Lemma copy_byte dst ch s :
  wp (do! in_mem (kupd (set_phys (fun m => upd m cbuf_at ch))); either_copyout kend p false dst cbuf_at 1) (fun r s' =>
    r = 0 /\ the_cons s' = the_cons s /\ procs s' = procs s /\
    forall a, phys (kmem s') a = if a =? dst then ch else if a =? cbuf_at then ch else phys (kmem s) a) s.
Proof.
  apply wp_bind. eapply wp_run; [reflexivity|]. unfold either_copyout. apply wp_bind, wp_get, wp_bind.
  eapply wp_run; [reflexivity|]. apply wp_ret. split_and!; try done. intros a. simpl. change (u32 1) with 1.
  rewrite memmove_spec by lia. unfold upd. destruct (Z.eqb_spec a dst) as [->|Ha].
  - rewrite (proj2 (Z.leb_le dst dst)), (proj2 (Z.ltb_lt dst (dst + 1))) by lia. cbn [andb].
    by replace (dst - dst + cbuf_at) with cbuf_at by lia; rewrite Z.eqb_refl.
  - destruct (Z.leb_spec dst a), (Z.ltb_spec a (dst + 1)); try lia; done.
Qed.

(** A pass of a reader that has [target - m] bytes already. *)
Lemma consoleread_loop_ok fuel dst m target s :
  cons_ok (the_cons s) -> killed (procs s p) = 0 -> (Z.to_nat m <= fuel)%nat -> 0 <= m <= target -> target < 2 ^ 31 ->
  0 <= dst -> dst + m < 2 ^ 64 -> ~ (dst <= cbuf_at < dst + m) ->
  let '(bs, rest, blocked) := aread (Z.to_nat m) (m <? target) (ready_of (the_cons s)) in
  wp (consoleread_loop kend cbuf_at fuel p false dst m target) (fun r s' =>
    cons_ok (the_cons s') /\ acons_of (the_cons s') = ACons rest (edit_of (the_cons s)) /\ snd r = bs /\
    (forall a, ~ (dst <= a < dst + Z.of_nat (length bs)) -> a <> cbuf_at -> phys (kmem s') a = phys (kmem s) a) /\
    (forall j b, bs !! j = Some b -> phys (kmem s') (dst + Z.of_nat j) = b) /\
    (if blocked then fst r = inr (dst + Z.of_nat (length bs), m - Z.of_nat (length bs)) /\
                     state (procs s' p) = SLEEPING /\ chan (procs s' p) = ChanCons
     else fst r = inl (target - m + Z.of_nat (length bs)))) s.
Proof.
  revert dst m s. induction fuel as [|f IH]; intros dst m s Hc Hk Hf Hm Ht Hd Hd' Hs.
  { assert (m = 0) as -> by lia. apply wp_ret. split_and!; try done. simpl. f_equal. lia. }
  cbn [consoleread_loop]. destruct (Z.gtb_spec m 0) as [Hm0|Hm0].
  2: { assert (m = 0) as -> by lia. apply wp_ret. split_and!; try done. simpl. f_equal. lia. }
  replace (Z.to_nat m) with (S (Z.to_nat (m - 1))) by lia. cbn [aread].
  set (bd := kbind get_cons _). destruct (ready_of (the_cons s)) as [|x l] eqn:Er.
  { apply wp_bind, wp_get. fold (the_cons s). rewrite (proj2 (Z.eqb_eq _ _) (ready_empty _ Hc Er)).
    apply wp_bind. unfold get_killed. apply wp_bind, wp_get, wp_ret. rewrite Hk. cbn [Z.eqb negb].
    apply wp_bind. unfold sleep. apply wp_bind, wp_upd, wp_bind, wp_upd. unfold sched. apply wp_bind, wp_get.
    cbn [procs set_procs]. rewrite upd_eq. cbn [state set_state]. rewrite bool_decide_eq_false_2 by done.
    apply wp_ret, wp_ret. cbn [procs set_procs files the_cons]. rewrite !upd_eq. unfold the_cons. cbn [files set_procs].
    fold (the_cons s). split_and!; try done.
    - unfold acons_of. by rewrite Er.
    - simpl. by rewrite Z.add_0_r, Z.sub_0_r. }
  destruct (take_ready _ x l Hc Er) as (T1 & T2 & T3 & T4 & T5).
  set (c' := set_cr (u32 (cr (the_cons s) + 1)) (the_cons s)) in *.
  assert (Hput : forall s0, files s0 = files s -> the_cons (set_files (put_cons c' (files s0)) s0) = c') by (intros s0 _; apply cons_put).
  assert (E32 : u32 m = m) by (apply u32_small; lia).
  destruct (Z.eqb_spec x (CTRL 68)) as [Ex|Ex].
  { apply wp_bind, wp_get. fold (the_cons s). rewrite (proj2 (Z.eqb_neq _ _) T5), <- T4, (proj2 (Z.eqb_eq _ _) Ex), E32.
    apply wp_bind. destruct (m <? target).
    - apply wp_ret, wp_ret. split_and!; try done; [unfold acons_of; by rewrite Er|]. simpl. f_equal. lia.
    - apply wp_upd, wp_ret. fold c'. rewrite (Hput s eq_refl). split_and!; try done; [unfold acons_of; by rewrite T2, T3|]. simpl. f_equal. lia. }
  assert (Hstep : forall Q, (forall s1, the_cons s1 = c' -> procs s1 = procs s ->
      (forall a, phys (kmem s1) a = if a =? dst then x else if a =? cbuf_at then x else phys (kmem s) a) ->
      wp (if x =? newline then kret (inl (target - (m - 1)), [x]) else
          let! r := consoleread_loop kend cbuf_at f p false (u64 (dst + 1)) (m - 1) target in kret (fst r, x :: snd r)) Q s1) -> wp bd Q s).
  { intros Q HQ. apply wp_bind, wp_get. fold (the_cons s). rewrite (proj2 (Z.eqb_neq _ _) T5), <- T4, (proj2 (Z.eqb_neq _ _) Ex).
    apply wp_bind, wp_upd. fold c'. set (s1 := set_files _ s).
    pose proof (copy_byte dst x s1) as Hcp. apply wp_ex in Hcp as (r & s2 & E & R1 & R2 & R3 & R4). unfold kbind in E.
    destruct (in_mem _ s1) as [[] s3| |] eqn:E3; try done. apply wp_bind. eapply wp_run; [exact E3|].
    apply wp_bind. eapply wp_run; [exact E|]. rewrite R1. cbn [Z.eqb]. apply HQ; [rewrite R2; by apply Hput|by rewrite R3|done]. }
  destruct (Z.eqb_spec x newline) as [Hx|Hx].
  { apply Hstep. intros s1 C1 P1 M1. apply wp_ret. rewrite C1. split_and!; try done.
    - unfold acons_of. by rewrite T2, T3.
    - intros a Ha Ha'. simpl in Ha. rewrite M1. destruct (Z.eqb_spec a dst); [lia|]. by destruct (Z.eqb_spec a cbuf_at).
    - intros [|j] b Hj; [|by destruct j]. injection Hj as <-. rewrite M1, Z.add_0_r, Z.eqb_refl. done.
    - simpl. f_equal. lia. }
  specialize (IH (u64 (dst + 1)) (m - 1)). assert (E64 : u64 (dst + 1) = dst + 1) by (apply u64_small; lia).
  destruct (aread (Z.to_nat (m - 1)) true l) as [[bs rest] blocked] eqn:Ea.
  apply Hstep. intros s1 C1 P1 M1. apply wp_bind. rewrite E64 in *.
  specialize (IH s1). rewrite C1, T2, T3 in IH.
  assert (Hlt : (m - 1 <? target) = true) by (apply Z.ltb_lt; lia). rewrite Hlt, Ea in IH.
  eapply wp_mono; [apply IH; try done; try lia; by rewrite P1|].
  intros r s2 (H1 & H2 & H3 & H4 & H5 & H6). apply wp_ret. cbn [fst snd]. split_and!; try done.
  - by rewrite H3.
  - intros a Ha Ha'. simpl in Ha. rewrite H4 by lia. rewrite M1. destruct (Z.eqb_spec a dst); [lia|]. by destruct (Z.eqb_spec a cbuf_at).
  - intros [|j] b Hj.
    + injection Hj as <-. rewrite Z.add_0_r, H4, M1, Z.eqb_refl by lia. done.
    + simpl in Hj. rewrite <- (H5 j b Hj). f_equal. lia.
  - simpl. destruct blocked.
    + destruct H6 as (-> & H6 & H7). split_and!; try done. f_equal. f_equal; lia.
    + rewrite H6. f_equal. lia.
Qed.

End kernel.

#[local] Instance console_only : ConsoleStore console.
Proof. by apply (Build_ConsoleStore console (fun c => c) (fun c _ => c)). Defined.

Definition new_console : console := Console (fun _ => 0) (2 ^ 32 - 2) (2 ^ 32 - 2) (2 ^ 32 - 2) 0 [].
Definition a_proc : proc :=
  Proc RUNNING NoChan 0 0 1 None 0 0 0 0 (Context 0 0 (fun _ => 0)) (fun _ => None) (Some 1) (fun _ => 0) 60 0 0.
Definition console_kernel : kernel console :=
  Kernel (boot_state (fun _ => 0)) (fun _ => a_proc) 2 (Some 0) (fun _ => Some 0) 0 0 0 new_console.

