(* ===== verification/Ulib.v ===== *)
(** * user/ulib.c: the user library

    Strings and memory are the process's memory; a loop that runs to a NUL
    takes a bound on the length of the string.  [gets] reads through the
    [read] system call, a parameter. *)

From S2P Require Import Prelude Memory StringC.

Fixpoint strcpy (fuel : nat) (m : mem) (s t : Z) : option mem :=
  match fuel with
  | O => None
  | S f =>
      let c := u8 (m t) in
      let m := upd m s c in
      if negb (c =? 0) then strcpy f m (s + 1) (t + 1) else Some m
  end.

Fixpoint strcmp (fuel : nat) (m : mem) (p q : Z) : option Z :=
  match fuel with
  | O => None
  | S f =>
      if negb (u8 (m p) =? 0) && (u8 (m p) =? u8 (m q)) then strcmp f m (p + 1) (q + 1)
      else Some (u8 (m p) - u8 (m q))
  end.

(** 0 when there is no such character. *)
Fixpoint strchr (fuel : nat) (m : mem) (s c : Z) : option Z :=
  match fuel with
  | O => None
  | S f => if u8 (m s) =? 0 then Some 0 else if u8 (m s) =? u8 c then Some s else strchr f m (s + 1) c
  end.

(** [read(0, &c, 1)]: the state after it and the byte, [None] when there is
    none. *)
Section gets.
Context {W : Type}.
Variable read1 : W -> W * option Z.

(** The bytes of the line. *)
Fixpoint gets_loop (k : nat) (w : W) : W * list Z :=
  match k with
  | O => (w, [])
  | S k' =>
      match read1 w with
      | (w, None) => (w, [])
      | (w, Some c) =>
          if (c =? 10) || (c =? 13) then (w, [c])
          else let (w, l) := gets_loop k' w in (w, c :: l)
      end
  end.

Fixpoint store_bytes (m : mem) (a : Z) (l : list Z) : mem :=
  match l with
  | [] => m
  | c :: l' => store_bytes (upd m a c) (a + 1) l'
  end.

Definition gets (w : W) (m : mem) (buf max : Z) : W * mem :=
  let (w, l) := gets_loop (Z.to_nat (max - 1)) w in (w, store_bytes m buf (l ++ [0])).
End gets.

(** [atoi] of the bytes at [s]. *)
Fixpoint atoi_loop (fuel : nat) (m : mem) (s n : Z) : option Z :=
  match fuel with
  | O => None
  | S f =>
      let c := u8 (m s) in
      if (48 <=? c) && (c <=? 57) then atoi_loop f m (s + 1) (s32 (n * 10 + c - 48)) else Some n
  end.
Definition atoi (fuel : nat) (m : mem) (s : Z) : option Z := atoi_loop fuel m s 0.

(** [memmove]: forward when the source is above the destination, backward
    otherwise. *)
Definition umemmove (m : mem) (dst src n : Z) : mem :=
  if src >? dst then copy_forward (Z.to_nat n) m dst src
  else copy_backward (Z.to_nat n) m (dst + n) (src + n).

(** [memcmp]; the bytes are [char]s, unsigned on RISC-V. *)
Fixpoint umemcmp (n : nat) (m : mem) (p1 p2 : Z) : Z :=
  match n with
  | O => 0
  | S n' => if negb (u8 (m p1) =? u8 (m p2)) then u8 (m p1) - u8 (m p2) else umemcmp n' m (p1 + 1) (p2 + 1)
  end.
