(* ===== verification/Grep.v ===== *)
(** * user/grep.c: searching files for a pattern

    The matcher works on C strings, here the bytes before the NUL; [grep]
    reads a file through a buffer of 1024 bytes in memory.  How many bytes
    each [read] delivers, at least one before the end of the file, is a
    parameter.  The matcher is compared with the usual meaning of the
    pattern as a regular expression, and [grep] with a filter on the lines
    of the file. *)

From S2P Require Import Prelude Memory StringC Ulib.

(** ** The matcher *)

(** [matchstar(c, re, text)], given [matchhere] for [re]. *)
Definition matchstar (here : list Z -> bool) (c : Z) : list Z -> bool :=
  fix loop (text : list Z) : bool :=
    if here text then true else
    match text with
    | [] => false
    | x :: text' => if (x =? c) || (c =? 46) then loop text' else false
    end.

Fixpoint matchhere (re text : list Z) {struct re} : bool :=
  match re with
  | [] => true
  | c :: re' =>
      let plain :=
        if (c =? 36) && bool_decide (re' = []) then bool_decide (text = []) else
        match text with
        | [] => false
        | x :: text' => if (c =? 46) || (c =? x) then matchhere re' text' else false
        end in
      match re' with
      | d :: re'' => if d =? 42 then matchstar (matchhere re'') c text else plain
      | [] => plain
      end
  end.

(** The loop of [match]. *)
Fixpoint match_from (re text : list Z) : bool :=
  if matchhere re text then true else
  match text with
  | [] => false
  | _ :: text' => match_from re text'
  end.

Definition rmatch (re text : list Z) : bool :=
  match re with
  | c :: re' => if c =? 94 then matchhere re' text else match_from re text
  | [] => match_from re text
  end.

(** ** The buffer *)

Definition BUF : Z := 1024.

(** The string at [a]. *)
Fixpoint string_at (fuel : nat) (m : mem) (a : Z) : option (list Z) :=
  match fuel with
  | O => None
  | S f => if u8 (m a) =? 0 then Some [] else cons (u8 (m a)) <$> string_at f m (a + 1)
  end.

(** [n] bytes at [a], as [write] sends them. *)
Definition bytes (m : mem) (a n : Z) : list Z := (fun i => u8 (m (a + i))) <$> seqZ 0 n.

Section grep.
Variables (pattern : list Z) (buf : Z).
(** The bytes the [t]-th read delivers if it can. *)
Variable amount : nat -> Z.

(** [read] of at most [n] bytes from the rest [inp] of the file. *)
Definition read_file (inp : list Z) (t : nat) (n : Z) : list Z * list Z :=
  let k := Z.to_nat (Z.min n (Z.max 1 (amount t))) in (take k inp, drop k inp).

(** The loop on the lines in the buffer, from [p]. *)
Fixpoint grep_lines (fuel : nat) (m : mem) (p : Z) (out : list Z) : option (mem * Z * list Z) :=
  match fuel with
  | O => None
  | S f =>
      match strchr (Z.to_nat BUF) m p 10 with
      | None => None
      | Some q =>
          if q =? 0 then Some (m, p, out) else
          let m := upd m q 0 in
          match string_at (Z.to_nat BUF) m p with
          | None => None
          | Some s =>
              if rmatch pattern s then
                let m := upd m q 10 in
                grep_lines f m (q + 1) (out ++ bytes m p (q + 1 - p))
              else grep_lines f m (q + 1) out
          end
      end
  end.

Fixpoint grep_loop (fuel : nat) (t : nat) (m : mem) (cnt : Z) (inp out : list Z) : option (list Z) :=
  match fuel with
  | O => None
  | S f =>
      let (l, inp) := read_file inp t (BUF - cnt - 1) in
      let n := Z.of_nat (length l) in
      if n >? 0 then
        let m := store_bytes m (buf + cnt) l in
        let cnt := cnt + n in
        let m := upd m (buf + cnt) 0 in
        match grep_lines (Z.to_nat BUF) m buf out with
        | None => None
        | Some (m, p, out) =>
            if cnt >? 0 then
              let cnt := cnt - (p - buf) in
              grep_loop f (S t) (umemmove m buf p cnt) cnt inp out
            else grep_loop f (S t) m cnt inp out
        end
      else Some out
  end.

(** What is written to the standard output for the file [inp]. *)
Definition grep (m : mem) (inp : list Z) : option (list Z) := grep_loop (S (length inp)) 0 m 0 inp [].
End grep.

(** ** Patterns as regular expressions *)

(** One character of the pattern, and a part of the pattern. *)
Inductive atom := Dot | Byte (c : Z).
Inductive item := One (a : atom) | Star (a : atom).

Definition atom_of (c : Z) : atom := if c =? 46 then Dot else Byte c.
Definition accepts (a : atom) (x : Z) : Prop := match a with Dot => True | Byte c => x = c end.

(** The items of a pattern and whether it ends in [$]. *)
Fixpoint items (re : list Z) : list item * bool :=
  match re with
  | [] => ([], false)
  | c :: re' =>
      let plain :=
        if (c =? 36) && bool_decide (re' = []) then ([], true)
        else let (l, e) := items re' in (One (atom_of c) :: l, e) in
      match re' with
      | d :: re'' => if d =? 42 then let (l, e) := items re'' in (Star (atom_of c) :: l, e) else plain
      | [] => plain
      end
  end.

(** The language of a list of items. *)
Fixpoint lang (l : list item) (w : list Z) : Prop :=
  match l with
  | [] => w = []
  | One a :: l' => exists x w', w = x :: w' /\ accepts a x /\ lang l' w'
  | Star a :: l' => exists w1 w2, w = w1 ++ w2 /\ Forall (accepts a) w1 /\ lang l' w2
  end.

(** [w] is matched, with [post] after it. *)
Definition fits (re w post : list Z) : Prop :=
  lang (fst (items re)) w /\ (snd (items re) = true -> post = []).

Definition matches (re text : list Z) : Prop :=
  exists pre w post, text = pre ++ w ++ post /\
    (if bool_decide (head re = Some 94) then pre = [] /\ fits (tail re) w post else fits re w post).

Lemma accepts_atom c x : accepts (atom_of c) x <-> c = 46 \/ c = x.
Proof. unfold atom_of. destruct (Z.eqb_spec c 46); simpl; naive_solver. Qed.

(** A string that begins with one the pattern fits. *)
Definition begins (re text : list Z) : Prop := exists w post, text = w ++ post /\ fits re w post.

Lemma matchstar_spec here c l e text :
  (forall t, here t = true <-> exists w post, t = w ++ post /\ lang l w /\ (e = true -> post = [])) ->
  matchstar here c text = true <-> exists w post, text = w ++ post /\ lang (Star (atom_of c) :: l) w /\ (e = true -> post = []).
Proof.
  intros Hh. induction text as [|x text IH]; cbn [matchstar].
  - destruct (here []) eqn:E.
    + split; [intros _|done]. apply Hh in E as (w & post & E & H). exists w, post. split; [done|]. split; [|apply H]. exists [], w. naive_solver.
    + split; [done|]. intros (w & post & E' & (w1 & w2 & -> & _ & H) & He). symmetry in E'. apply app_nil in E' as [[-> ->]%app_nil ->].
      rewrite (proj2 (Hh [])) in E; [done|]. by exists [], [].
  - destruct (here (x :: text)) eqn:E.
    + split; [intros _|done]. apply Hh in E as (w & post & E & H). exists w, post. split; [done|]. split; [|apply H]. exists [], w. naive_solver.
    + assert (Ha : (x =? c) || (c =? 46) = true <-> accepts (atom_of c) x) by (rewrite accepts_atom, orb_true_iff, !Z.eqb_eq; naive_solver).
      split.
      * destruct ((x =? c) || (c =? 46)) eqn:Ex; [|done]. intros (w & post & -> & (w1 & w2 & -> & Hf & H) & He)%IH.
        exists (x :: w1 ++ w2), post. split; [done|]. split; [|done]. exists (x :: w1), w2. split; [done|]. split; [|done].
        constructor; [by apply Ha|done].
      * intros (w & post & E' & (w1 & w2 & -> & Hf & H) & He). destruct w1 as [|y w1].
        { exfalso. rewrite (proj2 (Hh _)) in E; [done|]. by exists w2, post. }
        injection E' as <- ->. apply Forall_cons in Hf as [Hx Hf]. rewrite (proj2 Ha Hx). apply IH. exists (w1 ++ w2), post.
        split; [done|]. split; [|done]. by exists w1, w2.
Qed.

Lemma begins_one c re x text :
  (c =? 36) && bool_decide (re = []) = false -> (head re = Some 42 -> False) ->
  begins (c :: re) (x :: text) <-> (c = 46 \/ c = x) /\ begins re text.
Proof.
  intros Hd Hs. rewrite <- accepts_atom.
  assert (E : items (c :: re) = (One (atom_of c) :: fst (items re), snd (items re))).
  { cbn [items]. rewrite Hd. destruct (items re) as [l e] eqn:El. destruct re as [|d re']; [done|].
    destruct (Z.eqb_spec d 42) as [->|]; [by exfalso; apply Hs|done]. }
  unfold begins, fits. rewrite E. simpl. split.
  - intros (w & post & E1 & (y & w' & -> & Ha & Hl) & He). injection E1 as <- ->. naive_solver.
  - intros (Ha & w & post & -> & Hl & He). exists (x :: w), post. naive_solver.
Qed.

Lemma begins_nil_one c re :
  (c =? 36) && bool_decide (re = []) = false -> (head re = Some 42 -> False) -> ~ begins (c :: re) [].
Proof.
  intros Hd Hs (w & post & E & Hl & _). symmetry in E. apply app_nil in E as [-> ->]. revert Hl. cbn [items]. rewrite Hd.
  destruct (items re) as [l e]. destruct re as [|d re']; [naive_solver|].
  destruct (Z.eqb_spec d 42) as [->|]; [by exfalso; apply Hs|naive_solver].
Qed.

Lemma begins_end text : begins [36] text <-> text = [].
Proof.
  unfold begins, fits. simpl. split; [|intros ->; by exists [], []]. intros (w & post & -> & -> & H). by apply H.
Qed.

(** Below, [plain] is the case of [matchhere] that is not a star. *)
Lemma matchhere_plain c re text :
  (head re = Some 42 -> False) -> (forall t, matchhere re t = true <-> begins re t) ->
  (if (c =? 36) && bool_decide (re = []) then bool_decide (text = []) else
   match text with [] => false | x :: text' => if (c =? 46) || (c =? x) then matchhere re text' else false end) = true <->
  begins (c :: re) text.
Proof.
  intros Hs IH. destruct ((c =? 36) && bool_decide (re = [])) eqn:Hd.
  - apply andb_true_iff in Hd as [->%Z.eqb_eq ->%bool_decide_eq_true]. by rewrite begins_end, bool_decide_eq_true.
  - destruct text as [|x text].
    + split; [done|]. intros H. by apply begins_nil_one in H.
    + rewrite begins_one by done. rewrite <- IH. destruct ((c =? 46) || (c =? x)) eqn:E.
      * apply orb_true_iff in E. rewrite !Z.eqb_eq in E. tauto.
      * apply orb_false_iff in E. rewrite !Z.eqb_neq in E. split; [done|tauto].
Qed.

Lemma matchhere_spec n : forall re text, (length re <= n)%nat -> matchhere re text = true <-> begins re text.
Proof.
  induction n as [|n IH]; intros [|c re] text Hn; simpl in Hn; try lia.
  1,2: split; [intros _; exists [], text; by repeat split|done].
  destruct re as [|d re].
  { cbn [matchhere]. apply (matchhere_plain c [] text); [done|]. intros t. apply IH. simpl. lia. }
  destruct (Z.eqb_spec d 42) as [->|Hd].
  - change (matchhere (c :: 42 :: re) text) with (matchstar (matchhere re) c text).
    rewrite (matchstar_spec _ c (fst (items re)) (snd (items re))).
    + unfold begins, fits. cbn [items]. simpl. by destruct (items re).
    + intros t. apply IH. simpl in Hn. lia.
  - transitivity (begins (c :: d :: re) text); [|done]. rewrite <- (matchhere_plain c (d :: re) text).
    + cbn [matchhere]. by rewrite (proj2 (Z.eqb_neq d 42)).
    + intros [= ->]. done.
    + intros t. apply IH. lia.
Qed.

Lemma match_from_spec re text :
  match_from re text = true <-> exists pre t, text = pre ++ t /\ begins re t.
Proof.
  induction text as [|x text IH]; cbn [match_from].
  - destruct (matchhere re []) eqn:E.
    + split; [intros _|done]. exists [], []. split; [done|]. by apply (matchhere_spec _ _ _ (le_n _)).
    + split; [done|]. intros (pre & t & Et & H). symmetry in Et. apply app_nil in Et as [-> ->].
      apply (matchhere_spec _ _ _ (le_n _)) in H. congruence.
  - destruct (matchhere re (x :: text)) eqn:E.
    + split; [intros _|done]. exists [], (x :: text). split; [done|]. by apply (matchhere_spec _ _ _ (le_n _)).
    + rewrite IH. split; intros (pre & t & Et & H).
      * subst text. by exists (x :: pre), t.
      * destruct pre as [|y pre]; simpl in Et; [subst t|injection Et as <- ->; by exists pre, t].
        apply (matchhere_spec _ _ _ (le_n _)) in H. congruence.
Qed.

Lemma rmatch_matches re text : rmatch re text = true <-> matches re text.
Proof.
  unfold matches. assert (Hfrom : match_from re text = true <-> exists pre w post, text = pre ++ w ++ post /\ fits re w post).
  { rewrite match_from_spec. split.
    - intros (pre & t & -> & w & post & -> & H). by exists pre, w, post.
    - intros (pre & w & post & -> & H). exists pre, (w ++ post). split; [done|]. by exists w, post. }
  destruct re as [|c re]; cbn [rmatch head tail]; [by rewrite bool_decide_eq_false_2|].
  destruct (Z.eqb_spec c 94) as [->|Hc].
  - rewrite bool_decide_eq_true_2, (matchhere_spec _ _ _ (le_n _)) by done. split.
    + intros (w & post & -> & H). by exists [], w, post.
    + intros (pre & w & post & -> & -> & H). by exists w, post.
  - rewrite bool_decide_eq_false_2 by congruence. done.
Qed.

(** C36. The matcher finds exactly the strings the pattern describes.  Read
    as a regular expression, with [.] for any byte, [*] for repetition of
    the character before it, [^] at the start and [$] at the end for the
    ends of the text, the pattern occurs in the text if and only if [match]
    returns 1, and the recursion of its three functions ends on every
    pattern and text. *)
Theorem rmatch_regex (re text : list Z) : rmatch re text = true <-> matches re text.
Proof. apply rmatch_matches. Qed.

#[export] Instance matches_dec re text : Decision (matches re text).
Proof.
  destruct (rmatch re text) eqn:E; [left|right].
  - by apply rmatch_matches.
  - intros H. apply rmatch_matches in H. congruence.
Defined.

(** ** Lines *)

(** The lines that end in a newline, and what follows the last of them. *)
Fixpoint lines (s : list Z) : list (list Z) * list Z :=
  match s with
  | [] => ([], [])
  | c :: s' =>
      let (ls, r) := lines s' in
      if c =? 10 then ([] :: ls, r)
      else match ls with [] => ([], c :: r) | l :: ls => ((c :: l) :: ls, r) end
  end.

(** The lines of a file that match, as they are printed. *)
Definition selected (pattern inp : list Z) : list Z :=
  concat ((fun l => if rmatch pattern l then l ++ [10] else []) <$> fst (lines inp)).

Lemma lines_line l s : 10 ∉ l -> lines (l ++ 10 :: s) = (l :: fst (lines s), snd (lines s)).
Proof.
  induction l as [|c l IH]; intros H; simpl.
  - by destruct (lines s).
  - apply not_elem_of_cons in H as [Hc H]. rewrite (IH H). by rewrite (proj2 (Z.eqb_neq c 10)).
Qed.

Lemma lines_rest l : 10 ∉ l -> lines l = ([], l).
Proof.
  induction l as [|c l IH]; intros H; simpl; [done|]. apply not_elem_of_cons in H as [Hc H]. rewrite (IH H).
  by rewrite (proj2 (Z.eqb_neq c 10)).
Qed.

(** A string has no newline or begins with a line. *)
Lemma first_line s : (10 ∉ s) \/ exists l s', s = l ++ 10 :: s' /\ 10 ∉ l.
Proof.
  induction s as [|c s [IH|(l & s' & -> & IH)]].
  - left. apply not_elem_of_nil.
  - destruct (Z.eq_dec c 10) as [->|]; [right; exists [], s; split; [done|apply not_elem_of_nil]|].
    left. by apply not_elem_of_cons.
  - right. destruct (Z.eq_dec c 10) as [->|]; [exists [], (l ++ 10 :: s'); split; [done|apply not_elem_of_nil]|].
    exists (c :: l), s'. split; [done|]. by apply not_elem_of_cons.
Qed.

(** ** The buffer as a list *)

(** The bytes [l] are at [a]. *)
Definition holds_bytes (m : mem) (a : Z) (l : list Z) : Prop :=
  forall i c, l !! i = Some c -> u8 (m (a + Z.of_nat i)) = c.

Definition text_byte (c : Z) : Prop := 0 < c < 256.

Lemma holds_app m a l r : holds_bytes m a (l ++ r) <-> holds_bytes m a l /\ holds_bytes m (a + Z.of_nat (length l)) r.
Proof.
  split.
  - intros H. split; intros i c Hi.
    + apply H. by apply lookup_app_l_Some.
    + rewrite <- Z.add_assoc, <- Nat2Z.inj_add. apply H. rewrite lookup_app_r by lia. by rewrite Nat.add_comm, Nat.add_sub.
  - intros [H1 H2] i c [Hi|[Hl Hi]]%lookup_app_Some; [by apply H1|].
    rewrite <- (H2 _ _ Hi). do 2 f_equal. lia.
Qed.

Lemma holds_cons m a c l : holds_bytes m a (c :: l) <-> u8 (m a) = c /\ holds_bytes m (a + 1) l.
Proof.
  rewrite (holds_app m a [c] l). simpl. split; intros [H1 H2]; split; try done.
  - rewrite <- (Z.add_0_r a). by apply (H1 O).
  - intros [|i] d Hi; [|done]. injection Hi as <-. by rewrite Z.add_0_r.
Qed.

Lemma holds_ext m m' a l :
  (forall x, a <= x < a + Z.of_nat (length l) -> m' x = m x) -> holds_bytes m a l -> holds_bytes m' a l.
Proof. intros He H i c Hi. rewrite He; [by apply H|]. apply lookup_lt_Some in Hi. lia. Qed.

Lemma string_at_spec m a l fuel :
  holds_bytes m a (l ++ [0]) -> Forall text_byte l -> (length l < fuel)%nat -> string_at fuel m a = Some l.
Proof.
  revert a fuel. induction l as [|c l IH]; intros a [|fuel] H Hl Hf; simpl in *; try lia.
  - apply holds_cons in H as [-> _]. done.
  - apply holds_cons in H as [E H]. apply Forall_cons in Hl as [Hc Hl]. rewrite E, (proj2 (Z.eqb_neq c 0)) by (unfold text_byte in Hc; lia).
    rewrite (IH (a + 1) fuel) by (done || lia). done.
Qed.

(** [strchr] for a newline, in a string with and without one. *)
Lemma strchr_line m a l fuel :
  holds_bytes m a (l ++ [10]) -> Forall text_byte l -> 10 ∉ l -> (length l < fuel)%nat ->
  strchr fuel m a 10 = Some (a + Z.of_nat (length l)).
Proof.
  revert a fuel. induction l as [|c l IH]; intros a [|fuel] H Hl Hn Hf; simpl in *; try lia.
  - apply holds_cons in H as [-> _]. simpl. f_equal. lia.
  - apply holds_cons in H as [E H]. apply Forall_cons in Hl as [Hc Hl]. apply not_elem_of_cons in Hn as [Hc' Hn].
    rewrite E, (proj2 (Z.eqb_neq c 0)) by (unfold text_byte in Hc; lia). rewrite (proj2 (Z.eqb_neq c (u8 10))) by (rewrite u8_small; lia).
    rewrite (IH (a + 1) fuel) by (done || lia). f_equal. lia.
Qed.

Lemma strchr_none m a l fuel :
  holds_bytes m a (l ++ [0]) -> Forall text_byte l -> 10 ∉ l -> (length l < fuel)%nat -> strchr fuel m a 10 = Some 0.
Proof.
  revert a fuel. induction l as [|c l IH]; intros a [|fuel] H Hl Hn Hf; simpl in *; try lia.
  - apply holds_cons in H as [-> _]. done.
  - apply holds_cons in H as [E H]. apply Forall_cons in Hl as [Hc Hl]. apply not_elem_of_cons in Hn as [Hc' Hn].
    rewrite E, (proj2 (Z.eqb_neq c 0)) by (unfold text_byte in Hc; lia). rewrite (proj2 (Z.eqb_neq c (u8 10))) by (rewrite u8_small; lia).
    apply IH; done || lia.
Qed.

Lemma bytes_spec m a l : holds_bytes m a l -> bytes m a (Z.of_nat (length l)) = l.
Proof.
  intros H. apply list_eq. intros i. unfold bytes. rewrite list_lookup_fmap. destruct (l !! i) as [c|] eqn:E.
  - assert (Hi : (i < length l)%nat) by (by eapply lookup_lt_Some). rewrite (lookup_seqZ_lt 0 (Z.of_nat (length l)) i) by lia.
    simpl. f_equal. by apply H.
  - apply lookup_ge_None in E. rewrite lookup_seqZ_ge by lia. done.
Qed.

Lemma store_bytes_other m a l x : x < a \/ a + Z.of_nat (length l) <= x -> store_bytes m a l x = m x.
Proof. revert m a. induction l as [|c l IH]; intros m a H; simpl in *; [done|]. rewrite IH by lia. apply upd_ne. lia. Qed.

Lemma store_bytes_holds m a l : Forall text_byte l -> holds_bytes (store_bytes m a l) a l.
Proof.
  revert m a. induction l as [|c l IH]; intros m a Hl; [done|]. apply Forall_cons in Hl as [Hc Hl]. simpl. apply holds_cons.
  split; [|by apply IH]. rewrite store_bytes_other, upd_eq by lia. unfold text_byte in Hc. apply u8_small. lia.
Qed.

Lemma umemmove_spec m dst src n x :
  0 <= n -> umemmove m dst src n x = if (dst <=? x) && (x <? dst + n) then m (x - dst + src) else m x.
Proof.
  intros Hn. unfold umemmove. destruct (src >? dst) eqn:E; cbool.
  - rewrite copy_forward_spec; rewrite Z2Nat.id by lia; [done|lia].
  - rewrite copy_backward_spec by lia. rewrite Z2Nat.id by lia. repeat cif; try done; try lia. f_equal. lia.
Qed.

Lemma umemmove_holds m dst src l :
  holds_bytes m src l -> holds_bytes (umemmove m dst src (Z.of_nat (length l))) dst l.
Proof.
  intros H i c Hi. rewrite <- (H _ _ Hi). apply lookup_lt_Some in Hi. rewrite umemmove_spec by lia. cif; [do 2 f_equal; lia|lia].
Qed.

(** ** Lines, appended to *)

Lemma lines_induct (P : list Z -> Prop) :
  (forall s, 10 ∉ s -> P s) -> (forall l s, 10 ∉ l -> P s -> P (l ++ 10 :: s)) -> forall s, P s.
Proof.
  intros H1 H2 s. remember (length s) as n eqn:E. assert (Hn : (length s <= n)%nat) by lia. clear E. revert s Hn.
  induction n as [|n IH]; intros s Hn; destruct (first_line s) as [?|(l & s' & -> & Hl)]; auto.
  - rewrite length_app in Hn. simpl in Hn. lia.
  - apply H2; [done|]. apply IH. rewrite length_app in Hn. simpl in Hn. lia.
Qed.

Lemma lines_app s u :
  lines (s ++ u) = (fst (lines s) ++ fst (lines (snd (lines s) ++ u)), snd (lines (snd (lines s) ++ u))).
Proof.
  induction s as [s Hs|l s Hl IH] using lines_induct.
  - rewrite (lines_rest s Hs). simpl. by destruct (lines (s ++ u)).
  - rewrite <- app_assoc. simpl. rewrite !lines_line, IH by done. done.
Qed.

Lemma rest_sub s : (10 ∉ snd (lines s)) /\ exists s0, s = s0 ++ snd (lines s).
Proof.
  induction s as [s Hs|l s Hl [IH (s0 & E)]] using lines_induct.
  - rewrite (lines_rest s Hs). split; [done|]. by exists [].
  - rewrite lines_line by done. simpl. split; [done|]. exists (l ++ 10 :: s0). rewrite E at 1. by rewrite <- app_assoc.
Qed.

Lemma selected_app re s u : selected re (s ++ u) = selected re s ++ selected re (snd (lines s) ++ u).
Proof. unfold selected. rewrite lines_app. cbn [fst]. by rewrite fmap_app, concat_app. Qed.

(** Every line fits the buffer, with its newline and the NUL. *)
Definition short (s : list Z) : Prop := Forall (fun l => (length l <= 1022)%nat) (snd (lines s) :: fst (lines s)).

Lemma short_app s u : short (s ++ u) -> short (snd (lines s) ++ u).
Proof. unfold short. rewrite lines_app. simpl. rewrite !Forall_cons, Forall_app. tauto. Qed.

Lemma short_prefix l u : 10 ∉ l -> short (l ++ u) -> (length l <= 1022)%nat.
Proof.
  intros Hl. destruct (first_line u) as [Hu|(l' & u' & -> & Hu)]; unfold short.
  - rewrite lines_rest by (rewrite elem_of_app; tauto). simpl. rewrite Forall_cons, length_app. lia.
  - rewrite app_assoc, lines_line by (rewrite elem_of_app; tauto). simpl. rewrite !Forall_cons, length_app. lia.
Qed.

(** ** The loops *)

Section correct.
Variables (pattern : list Z) (buf : Z).
Variable amount : nat -> Z.
Hypothesis Hbuf : 0 < buf.

Lemma grep_lines_spec s : forall fuel m p out,
  0 < p -> holds_bytes m p (s ++ [0]) -> Forall text_byte s -> (length s < 1024)%nat -> (length s < fuel)%nat ->
  exists m', let r := snd (lines s) in let q := p + Z.of_nat (length s) - Z.of_nat (length r) in
    grep_lines pattern fuel m p out = Some (m', q, out ++ selected pattern s) /\ holds_bytes m' q r.
Proof.
  induction s as [s Hs|l s Hl IH] using lines_induct; intros [|fuel] m p out Hp Hm Ht H1 Hf; try lia.
  - exists m. unfold selected. rewrite (lines_rest s Hs). cbn [grep_lines fst snd]. rewrite (strchr_none m p s) by (done || unfold BUF; lia).
    rewrite Z.eqb_refl. rewrite app_nil_r, Z.add_simpl_r. split; [done|]. by apply holds_app in Hm as [? _].
  - rewrite length_app in *. simpl in H1, Hf. apply Forall_app in Ht as [Htl Ht]. apply Forall_cons in Ht as [_ Ht].
    rewrite <- app_assoc in Hm. cbn [app] in Hm. pose proof Hm as Hm'. rewrite cons_middle, app_assoc in Hm'. apply holds_app in Hm' as [Hm1 Hm2].
    rewrite length_app in Hm2. simpl in Hm2.
    cbn [grep_lines]. rewrite (strchr_line m p l) by (done || unfold BUF; lia).
    set (q := p + Z.of_nat (length l)). rewrite (proj2 (Z.eqb_neq q 0)) by lia. cbv zeta.
    assert (Hq : forall v, holds_bytes (upd m q v) p l).
    { intros v. eapply holds_ext; [|by apply holds_app in Hm1 as [? _]]. intros x Hx. apply upd_ne. lia. }
    rewrite (string_at_spec (upd m q 0) p l); [|apply holds_app; split; [apply Hq|]|done|unfold BUF; lia].
    2: { intros [|i] c Hi; [|done]. injection Hi as <-. fold q. by rewrite Z.add_0_r, upd_eq. }
    assert (Hrest : forall m', (forall x, q < x -> m' x = m x) -> holds_bytes m' (q + 1) (s ++ [0])).
    { intros m' Hm'. replace (q + 1) with (p + Z.of_nat (length l + 1)) by lia. eapply holds_ext; [|exact Hm2]. intros x Hx. apply Hm'. lia. }
    rewrite (lines_line l s Hl). cbn [snd].
    assert (Esel : selected pattern (l ++ 10 :: s) = (if rmatch pattern l then l ++ [10] else []) ++ selected pattern s).
    { unfold selected. by rewrite lines_line. }
    rewrite Esel. replace (p + Z.of_nat (length l + length (10 :: s))) with (q + 1 + Z.of_nat (length s)) by (simpl; lia).
    destruct (rmatch pattern l).
    + rewrite app_assoc. replace (bytes _ p (q + 1 - p)) with (l ++ [10]).
      { apply IH; try done; try lia. apply Hrest. intros x Hx. by rewrite !upd_ne by lia. }
      symmetry. replace (q + 1 - p) with (Z.of_nat (length (l ++ [10]))) by (rewrite length_app; simpl; lia). apply bytes_spec.
      apply holds_app. split; [eapply holds_ext; [|apply (Hq 0)]; intros x Hx; apply upd_ne; lia|].
      intros [|i] c Hi; [|done]. injection Hi as <-. fold q. by rewrite Z.add_0_r, upd_eq.
    + apply IH; try done; try lia. apply Hrest. intros x Hx. by rewrite upd_ne by lia.
Qed.

Lemma grep_loop_spec fuel : forall t m l0 inp out,
  holds_bytes m buf l0 -> 10 ∉ l0 -> Forall text_byte (l0 ++ inp) -> short (l0 ++ inp) -> (length inp < fuel)%nat ->
  grep_loop pattern buf amount fuel t m (Z.of_nat (length l0)) inp out = Some (out ++ selected pattern (l0 ++ inp)).
Proof.
  induction fuel as [|fuel IH]; intros t m l0 inp out Hm Hn Ht Hs Hf; [lia|].
  pose proof (short_prefix _ _ Hn Hs) as Hl0. cbn [grep_loop]. unfold read_file.
  set (k := Z.to_nat (Z.min _ _)). assert (Hk : (1 <= k /\ k + length l0 <= 1023)%nat) by (unfold k, BUF; lia).
  destruct inp as [|c inp'] eqn:Ei.
  { rewrite take_nil, app_nil_r. unfold selected. by rewrite lines_rest, app_nil_r. }
  rewrite <- Ei in *. set (l := take k inp). assert (Hl : (1 <= length l /\ length l + length l0 <= 1023)%nat).
  { unfold l. rewrite length_take. subst inp. simpl. lia. }
  assert (Einp : inp = l ++ drop k inp) by (symmetry; apply take_drop). set (rest := drop k inp) in *.
  rewrite Einp, app_assoc in Ht, Hs. apply Forall_app in Ht as [Ht Htr]. pose proof Ht as Ht'. apply Forall_app in Ht' as [Ht0 Htl].
  destruct (Z.gtb_spec (Z.of_nat (length l)) 0) as [_|]; [|lia]. cbv zeta.
  set (m1 := upd _ _ 0).
  assert (Hm1 : holds_bytes m1 buf ((l0 ++ l) ++ [0])).
  { apply holds_app. split; [|intros [|i] d Hi; [|done]; injection Hi as <-].
    - eapply holds_ext; [intros x Hx; apply upd_ne; rewrite length_app in Hx; lia|]. apply holds_app. split.
      + eapply holds_ext; [|exact Hm]. intros x Hx. apply store_bytes_other. lia.
      + by apply store_bytes_holds.
    - unfold m1. rewrite length_app, Z.add_0_r, Nat2Z.inj_add. by rewrite upd_eq. }
  destruct (grep_lines_spec (l0 ++ l) (Z.to_nat BUF) m1 buf out) as (m2 & E & Hm2); try done; try (rewrite length_app; unfold BUF; lia).
  cbv zeta in E, Hm2. rewrite E. destruct (rest_sub (l0 ++ l)) as [Hr (s0 & Es0)]. set (r := snd (lines (l0 ++ l))) in *.
  destruct (Z.gtb_spec (Z.of_nat (length l0) + Z.of_nat (length l)) 0) as [_|]; [|lia].
  rewrite length_app in *. replace (Z.of_nat (length l0) + Z.of_nat (length l) - (buf + Z.of_nat (length l0 + length l) - Z.of_nat (length r) - buf)) with (Z.of_nat (length r)) by lia.
  rewrite IH.
  - f_equal. rewrite Einp at 1. by rewrite (app_assoc l0), (selected_app pattern (l0 ++ l) rest), app_assoc.
  - by apply umemmove_holds.
  - done.
  - apply Forall_app. split; [|done]. rewrite Es0 in Ht. by apply Forall_app in Ht as [_ ?].
  - by apply short_app.
  - apply (f_equal length) in Einp. rewrite length_app in Einp. lia.
Qed.
End correct.

(** C37. [grep] prints the matching lines.  For a file of non-NUL bytes whose
    lines have at most 1022 characters, and however the reads cut it up,
    [grep] ends and writes, in order and unchanged, exactly the lines in
    which the pattern occurs; a last line without a newline is not
    searched. *)
Theorem grep_prints_matches (pattern inp : list Z) (buf : Z) (amount : nat -> Z) (m : mem) :
  0 < buf -> Forall text_byte inp -> short inp ->
  grep pattern buf amount m inp = Some (concat ((fun l => l ++ [10]) <$> filter (matches pattern) (fst (lines inp)))).
Proof.
  intros Hb Ht Hs. unfold grep. rewrite (grep_loop_spec pattern buf amount Hb _ 0 m [] inp []); [|done|apply not_elem_of_nil|done|done|lia].
  f_equal. unfold selected. cbn [app]. induction (fst (lines inp)) as [|l ls IH]; [done|]. rewrite fmap_cons, filter_cons. cbn [concat].
  rewrite IH. destruct (rmatch pattern l) eqn:E; case_decide as Hd.
  - done.
  - by apply rmatch_matches in E.
  - apply rmatch_matches in Hd. congruence.
  - done.
Qed.

Lemma grep_prints_matches_witness :
  grep [97; 42; 98; 36] 16 (fun _ => 3) (fun _ => 0) [97; 98; 10; 98; 99; 10; 98; 10; 98] = Some [97; 98; 10; 98; 10].
Proof.
  rewrite (grep_prints_matches [97; 42; 98; 36] [97; 98; 10; 98; 99; 10; 98; 10; 98] 16 (fun _ => 3) (fun _ => 0)).
  - vm_compute. reflexivity.
  - lia.
  - repeat constructor; unfold text_byte; lia.
  - repeat apply Forall_cons_2; try apply Forall_nil_2; simpl; lia.
Defined.
