(* ===== verification/Umalloc.v ===== *)
(** * user/umalloc.c: the memory allocator of user programs

    Free blocks form a ring in address order, linked through headers of 16
    bytes, a pointer and a size in units of headers, at their start; the
    ring includes the static header [base].  The allocator's state is the
    process's memory, the pointer [freep] into the ring and the break, which
    [sbrk] moves.  Whether the kernel grants a new break is a parameter. *)

From S2P Require Import Prelude Memory.

Record ustate := UState { umem : mem; freep : Z; brk : Z }.

Definition set_umem (f : mem -> mem) (s : ustate) : ustate := UState (f (umem s)) (freep s) (brk s).
Definition set_freep (v : Z) (s : ustate) : ustate := UState (umem s) v (brk s).
Definition set_brk (v : Z) (s : ustate) : ustate := UState (umem s) (freep s) v.

(** [union header]. *)
Definition HEADER : Z := 16.
Definition hptr (m : mem) (p : Z) : Z := ld64 m p.
Definition hsize (m : mem) (p : Z) : Z := ld32 m (p + 8).
Definition set_hptr (p v : Z) (m : mem) : mem := st64 m p v.
Definition set_hsize (p v : Z) (m : mem) : mem := st32 m (p + 8) v.

Definition SBRK_ERROR : Z := 2 ^ 64 - 1.

Section umalloc.
(** [&base]; whether the kernel lets the break be moved to an address. *)
Variables (base : Z) (grant : Z -> bool).
(** The bound on the steps of a loop. *)
Variable fuel : nat.

Definition sbrk (n : Z) : M ustate Z :=
  let! b := kget brk in
  if grant (b + n) then do! kupd (set_brk (b + n)); kret b else kret SBRK_ERROR.

(** The search of [free]. *)
Fixpoint find_place (k : nat) (m : mem) (bp p : Z) : option Z :=
  match k with
  | O => None
  | S k' =>
      if (bp >? p) && (bp <? hptr m p) then Some p else
      if (p >=? hptr m p) && ((bp >? p) || (bp <? hptr m p)) then Some p else
      find_place k' m bp (hptr m p)
  end.

Definition free (ap : Z) : M ustate unit :=
  let bp := u64 (ap - HEADER) in
  let! m := kget umem in
  let! f := kget freep in
  match find_place fuel m bp f with
  | None => khang
  | Some p =>
      do! (if u64 (bp + hsize m bp * HEADER) =? hptr m p then
             do! kupd (set_umem (set_hsize bp (u32 (hsize m bp + hsize m (hptr m p)))));
             let! m := kget umem in
             kupd (set_umem (set_hptr bp (hptr m (hptr m p))))
           else kupd (set_umem (set_hptr bp (hptr m p))));
      let! m := kget umem in
      do! (if u64 (p + hsize m p * HEADER) =? bp then
             do! kupd (set_umem (set_hsize p (u32 (hsize m p + hsize m bp))));
             let! m := kget umem in
             kupd (set_umem (set_hptr p (hptr m bp)))
           else kupd (set_umem (set_hptr p bp)));
      kupd (set_freep p)
  end.

Definition morecore (nu : Z) : M ustate Z :=
  let nu := if nu <? 4096 then 4096 else nu in
  let! p := sbrk (s32 (nu * HEADER)) in
  if p =? SBRK_ERROR then kret 0 else
  do! kupd (set_umem (set_hsize p nu));
  do! free (u64 (p + HEADER));
  kget freep.

Fixpoint malloc_loop (k : nat) (nunits prevp p : Z) : M ustate Z :=
  match k with
  | O => khang
  | S k' =>
      let! m := kget umem in
      if hsize m p >=? nunits then
        let! r := (if hsize m p =? nunits then do! kupd (set_umem (set_hptr prevp (hptr m p))); kret p
                   else
                     let n := u32 (hsize m p - nunits) in
                     do! kupd (set_umem (set_hsize p n));
                     let r := u64 (p + n * HEADER) in
                     do! kupd (set_umem (set_hsize r nunits));
                     kret r) in
        do! kupd (set_freep prevp);
        kret (u64 (r + HEADER))
      else
        let! f := kget freep in
        let! q := (if p =? f then morecore nunits else kret p) in
        if (p =? f) && (q =? 0) then kret 0 else
        let! m := kget umem in
        malloc_loop k' nunits q (hptr m q)
  end.

Definition malloc (nbytes : Z) : M ustate Z :=
  let nunits := u32 ((nbytes + HEADER - 1) / HEADER + 1) in
  let! f := kget freep in
  let! prevp := (if f =? 0 then
                   do! kupd (fun s => set_freep base (set_umem (set_hptr base base) s));
                   do! kupd (set_umem (set_hsize base 0));
                   kret base
                 else kret f) in
  let! m := kget umem in
  malloc_loop fuel nunits prevp (hptr m prevp).
End umalloc.
