(* ===== verification/UmallocSpec.v ===== *)
(** * The user memory allocator: what the code guarantees

    The heap between its start and the break is divided, without gaps or
    overlaps, into the free blocks on the ring and the blocks handed out. *)

From S2P Require Import Prelude Memory Umalloc.

#[local] Abbreviation block := (Z * Z)%type.
Implicit Types (s : ustate) (m : mem) (b : block) (l fl al : list block).

(** ** Blocks as intervals *)

(** Whether [x] is a byte of block [b], its header included, as a number. *)
Definition covers b (x : Z) : Z := Z.b2z ((fst b <=? x) && (x <? fst b + snd b * HEADER)).
Definition cover l (x : Z) : Z := total l (fun b => covers b x).
Definition interval (lo hi x : Z) : Z := Z.b2z ((lo <=? x) && (x <? hi)).

Lemma covers_range b x : 0 <= covers b x <= 1.
Proof. unfold covers. destruct (_ && _); simpl; lia. Qed.

Lemma covers_in b x : fst b <= x < fst b + snd b * HEADER -> covers b x = 1.
Proof. intros H. unfold covers. rewrite andb_true_intro; [done|]. split; [apply Z.leb_le|apply Z.ltb_lt]; lia. Qed.

Lemma covers_split a n1 n2 x :
  0 <= n1 -> 0 <= n2 -> covers (a, n1 + n2) x = covers (a, n1) x + covers (a + n1 * HEADER, n2) x.
Proof.
  intros H1 H2. unfold covers, HEADER. simpl.
  destruct (Z.leb_spec a x), (Z.ltb_spec x (a + (n1 + n2) * 16)), (Z.ltb_spec x (a + n1 * 16)), (Z.leb_spec (a + n1 * 16) x), (Z.ltb_spec x (a + n1 * 16 + n2 * 16)); simpl; lia.
Qed.

Lemma cover_app l1 l2 x : cover (l1 ++ l2) x = cover l1 x + cover l2 x.
Proof. apply total_app. Qed.

Lemma cover_nonneg l x : 0 <= cover l x.
Proof. apply total_nonneg. intros. apply covers_range. Qed.

Lemma cover_ge l b x : b ∈ l -> covers b x <= cover l x.
Proof. intros H. apply (total_ge l (fun b => covers b x) b); [|done]. intros. apply covers_range. Qed.

(** Two blocks of a list that covers nothing twice do not overlap. *)
Lemma cover_apart l b b' :
  (forall x, cover l x + covers b x <= 1) -> b' ∈ l -> 1 <= snd b -> 1 <= snd b' ->
  fst b + snd b * HEADER <= fst b' \/ fst b' + snd b' * HEADER <= fst b.
Proof.
  intros H Hb' H1 H2. unfold HEADER. set (x := Z.max (fst b) (fst b')). specialize (H x). pose proof (cover_ge l b' x Hb') as Hc.
  destruct (Z.le_gt_cases (fst b + snd b * 16) (fst b')); [by left|]. destruct (Z.le_gt_cases (fst b' + snd b' * 16) (fst b)); [by right|].
  exfalso. rewrite (covers_in b x), (covers_in b' x) in * by (unfold HEADER; lia). lia.
Qed.

Lemma cover_within l b lo hi :
  (forall x, cover l x <= interval lo hi x) -> b ∈ l -> 1 <= snd b -> lo <= fst b /\ fst b + snd b * HEADER <= hi.
Proof.
  intros H Hb H1. unfold HEADER.
  assert (Hin : forall x, fst b <= x < fst b + snd b * 16 -> lo <= x < hi).
  { intros x Hx. specialize (H x). pose proof (cover_ge l b x Hb) as Hc. rewrite covers_in in Hc by done. unfold interval in H.
    destruct (Z.leb_spec lo x), (Z.ltb_spec x hi); simpl in H; lia. }
  pose proof (Hin (fst b)). pose proof (Hin (fst b + snd b * 16 - 1)). lia.
Qed.

(** ** The ring *)

Definition first l (z : Z) : Z := match l with [] => z | b :: _ => fst b end.

(** The headers of [l], linked, the last to [z]. *)
Fixpoint chain m l (z : Z) : Prop :=
  match l with
  | [] => True
  | b :: l' => hptr m (fst b) = first l' z /\ hsize m (fst b) = snd b /\ chain m l' z
  end.

Lemma first_app l1 l2 z : first (l1 ++ l2) z = first l1 (first l2 z).
Proof. by destruct l1. Qed.

Lemma links_app m l1 l2 z : chain m (l1 ++ l2) z <-> chain m l1 (first l2 z) /\ chain m l2 z.
Proof. induction l1 as [|b l1 IH]; simpl; [tauto|]. rewrite IH, first_app. tauto. Qed.

Lemma header_ext m m' p :
  (forall x, p <= x < p + HEADER -> m' x = m x) -> hptr m' p = hptr m p /\ hsize m' p = hsize m p.
Proof.
  intros H. unfold hptr, hsize, HEADER in *. with_strategy transparent [ld64 ld32] (split; apply ldn_ext); intros i Hi; apply H; lia.
Qed.

Lemma links_ext m m' l z :
  (forall b x, b ∈ l -> fst b <= x < fst b + HEADER -> m' x = m x) -> chain m l z -> chain m' l z.
Proof.
  induction l as [|b l IH]; intros He; simpl; [done|]. intros (H1 & H2 & H3).
  destruct (header_ext m m' (fst b)) as [-> ->]; [intros x Hx; apply (He b); [by left|done]|]. split_and!; try done.
  apply IH; [|done]. intros. eapply He; [by right|done].
Qed.

Lemma chain_at m l b z : chain m l z -> b ∈ l -> hsize m (fst b) = snd b.
Proof. intros Hc (l1 & l2 & ->)%list_elem_of_split. apply links_app in Hc as (_ & _ & H & _). done. Qed.

(** The ring may be entered anywhere. *)
Lemma chain_rotate m l1 b l2 z :
  z = first (l1 ++ b :: l2) z -> chain m (l1 ++ b :: l2) z -> chain m (b :: l2 ++ l1) (fst b).
Proof.
  intros Hz (H1 & H2)%links_app. change (b :: l2 ++ l1) with ((b :: l2) ++ l1). apply links_app. split; [|exact H1].
  destruct l1 as [|c l1]; simpl in *; congruence.
Qed.

(** The blocks of the ring after [base]: in order, with a gap before each. *)
Fixpoint gaps (lo : Z) l : Prop :=
  match l with
  | [] => True
  | b :: l' => lo < fst b /\ 1 <= snd b /\ gaps (fst b + snd b * HEADER) l'
  end.

Lemma gaps_app lo l1 b l2 :
  gaps lo (l1 ++ b :: l2) -> gaps lo l1 /\ lo < fst b /\ gaps (fst b + snd b * HEADER) l2 /\
  (forall c, c ∈ l1 -> fst c + snd c * HEADER < fst b).
Proof.
  revert lo. induction l1 as [|c l1 IH]; intros lo; simpl.
  - intros (? & ? & ?). split_and!; try done. intros c Hc. by apply elem_of_nil in Hc.
  - intros (H1 & H2 & H3). apply IH in H3 as (H3 & H4 & H5 & H6). unfold HEADER in *. split_and!; try done; [lia|].
    intros d [->|Hd]%elem_of_cons; [lia|auto].
Qed.

Lemma gaps_le lo lo' l : lo' <= lo -> gaps lo l -> gaps lo' l.
Proof. destruct l as [|b l]; simpl; [done|]. intros H (? & ? & ?). split_and!; try done. lia. Qed.

Lemma gaps_pos lo l b : gaps lo l -> b ∈ l -> lo < fst b /\ 1 <= snd b.
Proof.
  revert lo. induction l as [|c l IH]; intros lo H Hb; [by apply elem_of_nil in Hb|]. simpl in H. destruct H as (H1 & H2 & H3).
  apply elem_of_cons in Hb as [->|Hb]; [done|]. apply (IH _ H3) in Hb. unfold HEADER in *. lia.
Qed.

(** Stores to a header. *)
Lemma set_hptr_same p v m : 0 <= v < 2 ^ 64 -> hptr (set_hptr p v m) p = v.
Proof. apply ld64_st64_same. Qed.
Lemma set_hsize_same p v m : 0 <= v < 2 ^ 32 -> hsize (set_hsize p v m) p = v.
Proof. apply ld32_st32_same. Qed.
Lemma hsize_set_hptr p v m : hsize (set_hptr p v m) p = hsize m p.
Proof. apply ld32_st64_other. lia. Qed.
Lemma hptr_set_hsize p v m : hptr (set_hsize p v m) p = hptr m p.
Proof. apply ld64_st32_other. lia. Qed.
Lemma set_hptr_out p v m x : ~ (p <= x < p + HEADER) -> set_hptr p v m x = m x.
Proof. unfold HEADER. intros H. apply st64_out. lia. Qed.
Lemma set_hsize_out p v m x : ~ (p <= x < p + HEADER) -> set_hsize p v m x = m x.
Proof. unfold HEADER. intros H. apply st32_out. lia. Qed.

(** ** The invariant *)

Section heap.
(** [&base], the start of the heap and the bound on the break. *)
Variables (base heap0 limit : Z).
Variable grant : Z -> bool.
Hypothesis Hbase : 0 < base /\ base + HEADER <= heap0 <= limit.
Hypothesis Hlimit : limit <= 2 ^ 36.
Hypothesis Hgrant : forall z, grant z = true -> z <= limit.

Definition nodes fl : list block := (base, 0) :: fl.

Record heap_ok fl al s : Prop := {
  ho_chain : chain (umem s) (nodes fl) base;
  ho_gaps : gaps base fl;
  ho_cover : forall x, cover (fl ++ al) x = interval heap0 (brk s) x;
  ho_alloc : forall b, b ∈ al -> 1 <= snd b /\ hsize (umem s) (fst b) = snd b;
  ho_freep : freep s ∈ (fst <$> nodes fl);
  ho_brk : heap0 <= brk s <= limit
}.

Lemma ho_pos fl al s b : heap_ok fl al s -> b ∈ fl ++ al -> 1 <= snd b.
Proof. intros H [Hb|Hb]%elem_of_app; [by apply (gaps_pos _ _ _ (ho_gaps _ _ _ H))|by apply (ho_alloc _ _ _ H)]. Qed.

Lemma ho_within fl al s b : heap_ok fl al s -> b ∈ fl ++ al -> heap0 <= fst b /\ fst b + snd b * HEADER <= brk s.
Proof.
  intros H Hb. apply (cover_within (fl ++ al)); [|done|by eapply ho_pos]. intros x. by rewrite (ho_cover _ _ _ H).
Qed.

(** An allocated block and any other block. *)
Lemma ho_apart fl al1 b al2 s b' :
  heap_ok fl (al1 ++ b :: al2) s -> b' ∈ fl ++ al1 ++ al2 ->
  fst b + snd b * HEADER <= fst b' \/ fst b' + snd b' * HEADER <= fst b.
Proof.
  intros H Hb'. assert (Hb : b' ∈ fl ++ al1 ++ b :: al2) by (set_solver). apply (cover_apart (fl ++ al1 ++ al2)).
  - intros x. pose proof (ho_cover _ _ _ H x) as Hx. rewrite !cover_app in *. unfold cover at 3 in Hx. simpl in Hx. fold (cover al2 x) in Hx.
    unfold interval in Hx. destruct (_ && _) in Hx; simpl in Hx; lia.
  - done.
  - eapply ho_pos; [done|]. set_solver.
  - by eapply ho_pos.
Qed.

(** The headers of the ring are outside the allocated blocks. *)
Lemma header_apart fl al s b t x :
  heap_ok fl al s -> t ∈ nodes fl -> fst b <= x < fst b + snd b * HEADER -> b ∈ al -> ~ (fst t <= x < fst t + HEADER).
Proof.
  intros H Ht Hx Hb. destruct (ho_within _ _ _ b H ltac:(set_solver)) as [Hb0 _]. apply elem_of_cons in Ht as [->|Ht].
  - simpl. lia.
  - apply list_elem_of_split in Hb as (al1 & al2 & ->). pose proof (ho_apart _ _ _ _ _ t H ltac:(set_solver)) as Ha.
    pose proof (ho_pos _ _ _ t H ltac:(set_solver)). unfold HEADER in *. lia.
Qed.

(** The blocks of the ring are in order, [base] first. *)
Lemma nodes_lt fl al s l1 b l2 :
  heap_ok fl al s -> nodes fl = l1 ++ b :: l2 ->
  (forall c, c ∈ l1 -> fst c + snd c * HEADER < fst b) /\ (forall c, c ∈ l2 -> fst b + snd b * HEADER < fst c).
Proof.
  intros H E. destruct l1 as [|c l1].
  - injection E as <- <-. split; [intros c Hc; by apply elem_of_nil in Hc|]. intros c Hc. simpl. pose proof (ho_gaps _ _ _ H) as Hs. apply (gaps_pos _ _ _ Hs) in Hc. lia.
  - injection E as <- ->. pose proof (ho_gaps _ _ _ H) as Hs. destruct (gaps_app _ _ _ _ Hs) as (H1 & H2 & H3 & H4). split.
    + intros c [->|Hc]%elem_of_cons; [simpl; lia|auto].
    + intros c Hc. by destruct (gaps_pos _ _ _ H3 Hc).
Qed.

(** ** The search for the place of a block *)

(** [find_place] stops at [t] and nowhere else. *)
Lemma find_place_spec m bp t k : forall l p,
  (forall b, b ∈ l -> (if decide (fst b = t) then
     (bp >? fst b) && (bp <? hptr m (fst b)) || (fst b >=? hptr m (fst b)) && ((bp >? fst b) || (bp <? hptr m (fst b))) = true
   else
     (bp >? fst b) && (bp <? hptr m (fst b)) || (fst b >=? hptr m (fst b)) && ((bp >? fst b) || (bp <? hptr m (fst b))) = false)) ->
  chain m l p -> t ∈ (fst <$> l) -> (length l <= k)%nat -> find_place k m bp (first l p) = Some t.
Proof.
  induction k as [|k IH]; intros [|b l] p Hs Hc Ht Hk; simpl in Hk; try lia; try by apply elem_of_nil in Ht.
  cbn [find_place first]. pose proof (Hs b ltac:(by left)) as Hb. destruct (decide (fst b = t)) as [E|Hne].
  - apply orb_true_iff in Hb as [->| ->]; [by rewrite E|]. rewrite E. by destruct (_ && _).
  - apply orb_false_iff in Hb as [-> ->]. simpl in Hc. destruct Hc as (E & _ & Hc). rewrite E. apply IH.
    + intros c Hc'. apply Hs. by right.
    + done.
    + rewrite fmap_cons in Ht. apply elem_of_cons in Ht as [->|]; done.
    + lia.
Qed.

Lemma node_size fl al s b : heap_ok fl al s -> b ∈ nodes fl -> base <= fst b /\ 0 <= snd b.
Proof.
  intros H [->|Hb]%elem_of_cons; simpl; [lia|]. destruct (gaps_pos _ _ _ (ho_gaps _ _ _ H) Hb). lia.
Qed.

(** Of two nodes, which comes first. *)
Lemma nodes_cases fl al s l1 t l2 b :
  heap_ok fl al s -> nodes fl = l1 ++ t :: l2 -> b ∈ nodes fl ->
  (b ∈ l1 /\ fst b + snd b * HEADER < fst t) \/ b = t \/ (b ∈ l2 /\ fst t + snd t * HEADER < fst b).
Proof.
  intros H E Hb. destruct (nodes_lt _ _ _ _ _ _ H E) as [H1 H2]. rewrite E in Hb.
  apply elem_of_app in Hb as [Hb|[->|Hb]%elem_of_cons]; auto.
Qed.

(** The search stops at the node [t] before the block and at no other. *)
Lemma place_unique fl al s l1 t l2 b bp :
  heap_ok fl al s -> nodes fl = l1 ++ t :: l2 -> base < bp -> fst t < bp -> (forall c, c ∈ l2 -> bp < fst c) -> b ∈ nodes fl ->
  let p := hptr (umem s) (fst b) in
  (bp >? fst b) && (bp <? p) || (fst b >=? p) && ((bp >? fst b) || (bp <? p)) = bool_decide (fst b = fst t).
Proof.
  intros H E Hb Ht Hl2 Hn. apply list_elem_of_split in Hn as (k1 & k2 & Ek). pose proof (ho_chain _ _ _ H) as Hc. rewrite Ek in Hc.
  apply links_app in Hc as (_ & Ep & _ & _). rewrite Ep. unfold HEADER in *.
  assert (Hbn : b ∈ nodes fl) by (rewrite Ek; set_solver). assert (Htn : t ∈ nodes fl) by (rewrite E; set_solver).
  pose proof (node_size _ _ _ _ H Hbn) as Sb. pose proof (node_size _ _ _ _ H Htn) as St.
  destruct (nodes_cases _ _ _ _ _ _ _ H E Hbn) as [[Hin Hlt]|[->|[Hin Hlt]]]; unfold HEADER in *.
  - rewrite bool_decide_eq_false_2 by lia. destruct (nodes_cases _ _ _ _ _ _ _ H Ek Htn) as [[? ?]|[->|[Hin' ?]]]; unfold HEADER in *; try lia.
    destruct k2 as [|c k2]; [by apply elem_of_nil in Hin'|]. cbn [first]. rewrite cons_middle, app_assoc in Ek.
    assert (Hcn : c ∈ nodes fl) by (rewrite Ek; set_solver). pose proof (node_size _ _ _ _ H Hcn).
    destruct (nodes_lt _ _ _ _ _ _ H Ek) as [Hk1 Hk2]. pose proof (Hk1 b ltac:(set_solver)) as Hbc. unfold HEADER in *.
    apply elem_of_cons in Hin' as [->|Hin']; [lia|]. apply Hk2 in Hin'. lia.
  - rewrite bool_decide_eq_true_2 by done. destruct k2 as [|c k2]; cbn [first]; [lia|].
    rewrite cons_middle, app_assoc in Ek. assert (Hcn : c ∈ nodes fl) by (rewrite Ek; set_solver).
    destruct (nodes_lt _ _ _ _ _ _ H Ek) as [Hk1 _]. pose proof (Hk1 t ltac:(set_solver)) as Htc. unfold HEADER in Htc.
    destruct (nodes_cases _ _ _ _ _ _ _ H E Hcn) as [[? ?]|[->|[Hc' ?]]]; unfold HEADER in *; try lia.
    + pose proof (node_size _ _ _ _ H Hcn). lia.
    + apply Hl2 in Hc'. lia.
  - rewrite bool_decide_eq_false_2 by lia. apply Hl2 in Hin. destruct k2 as [|c k2]; cbn [first]; [lia|].
    rewrite cons_middle, app_assoc in Ek. destruct (nodes_lt _ _ _ _ _ _ H Ek) as [Hk1 _]. pose proof (Hk1 b ltac:(set_solver)) as Htc. unfold HEADER in Htc. lia.
Qed.

Lemma find_place_ring fl al s l1 t l2 bp fuel :
  heap_ok fl al s -> nodes fl = l1 ++ t :: l2 -> base < bp -> fst t < bp -> (forall c, c ∈ l2 -> bp < fst c) ->
  (length fl < fuel)%nat -> find_place fuel (umem s) bp (freep s) = Some (fst t).
Proof.
  intros H E Hb Ht Hl2 Hf. destruct (proj1 (list_elem_of_fmap fst (nodes fl) (freep s)) (ho_freep _ _ _ H)) as (f & -> & (r1 & r2 & Er)%list_elem_of_split).
  pose proof (ho_chain _ _ _ H) as Hc. assert (Hlen : length (nodes fl) = (length r1 + S (length r2))%nat) by (rewrite Er, length_app; done).
  assert (Hr : chain (umem s) (f :: r2 ++ r1) (fst f)).
  { apply (chain_rotate _ r1 f r2 base); rewrite <- Er; done. }
  apply (find_place_spec _ _ _ _ (f :: r2 ++ r1) (fst f)); try done.
  - intros b Hb'. assert (Hn : b ∈ nodes fl) by (rewrite Er; set_solver).
    pose proof (place_unique _ _ _ _ _ _ _ _ H E Hb Ht Hl2 Hn) as Hp. cbv zeta in Hp. rewrite Hp.
    destruct (decide _); [by apply bool_decide_eq_true_2|by apply bool_decide_eq_false_2].
  - rewrite fmap_cons, fmap_app. assert (Hin : t ∈ nodes fl) by (rewrite E; set_solver). rewrite Er in Hin. apply (list_elem_of_fmap_2 fst) in Hin.
    rewrite fmap_app, fmap_cons in Hin. set_solver.
  - simpl. rewrite length_app. simpl in Hlen. lia.
Qed.

(** ** Freeing a block *)

(** The two halves of [free]: joining the block to its upper neighbour, and
    the node before it to the result. *)
Definition join_up m (bp p : Z) : mem :=
  if u64 (bp + hsize m bp * HEADER) =? hptr m p then
    let m' := set_hsize bp (u32 (hsize m bp + hsize m (hptr m p))) m in set_hptr bp (hptr m' (hptr m' p)) m'
  else set_hptr bp (hptr m p) m.
Definition join_low m (bp p : Z) : mem :=
  if u64 (p + hsize m p * HEADER) =? bp then
    let m' := set_hsize p (u32 (hsize m p + hsize m bp)) m in set_hptr p (hptr m' bp) m'
  else set_hptr p bp m.

Lemma free_eq fuel bp s p :
  0 <= bp < 2 ^ 63 -> find_place fuel (umem s) bp (freep s) = Some p ->
  free fuel (bp + HEADER) s = Ret tt (UState (join_low (join_up (umem s) bp p) bp p) p (brk s)).
Proof.
  intros Hb E. unfold free, join_up, join_low, kbind, kget, kupd. unfold HEADER. rewrite Z.add_simpl_r, u64_small by lia. rewrite E.
  destruct (u64 (bp + hsize (umem s) bp * 16) =? hptr (umem s) p); cbn [umem set_umem];
    match goal with |- context [u64 (p + ?n * 16) =? bp] => destruct (u64 (p + n * 16) =? bp) end; done.
Qed.

Lemma join_up_out m bp p x : ~ (bp <= x < bp + HEADER) -> join_up m bp p x = m x.
Proof. intros H. unfold join_up. destruct (_ =? _); cbv zeta; by rewrite ?set_hptr_out, ?set_hsize_out. Qed.

Lemma join_low_out m bp p x : ~ (p <= x < p + HEADER) -> join_low m bp p x = m x.
Proof. intros H. unfold join_low. destruct (_ =? _); cbv zeta; by rewrite ?set_hptr_out, ?set_hsize_out. Qed.

(** A header outside the one stored to. *)
Lemma chain_other m m' q l z :
  (forall x, ~ (q <= x < q + HEADER) -> m' x = m x) -> (forall b, b ∈ l -> fst b + HEADER <= q \/ q + HEADER <= fst b) ->
  chain m l z -> chain m' l z.
Proof. intros Hm Hl. apply links_ext. intros b x Hb Hx. apply Hm. specialize (Hl b Hb). lia. Qed.

Lemma join_up_spec m bp n t l2 :
  0 <= bp -> bp < limit -> 1 <= n -> hsize m bp = n -> hptr m t = first l2 base -> base < bp -> t + HEADER <= bp ->
  chain m l2 base -> gaps (bp + n * HEADER - 1) l2 -> (forall c, c ∈ l2 -> fst c + snd c * HEADER <= limit) -> bp + n * HEADER <= limit ->
  exists N rest, chain (join_up m bp t) ((bp, N) :: rest) base /\ gaps (bp + N * HEADER) rest /\ n <= N /\ bp + N * HEADER <= limit /\
    (length rest <= length l2)%nat /\ (forall c, c ∈ rest -> c ∈ l2) /\
    (forall x, covers (bp, N) x + cover rest x = covers (bp, n) x + cover l2 x).
Proof.
  intros Hb0 Hbl Hn Hs Ht Hbase' Htb Hc Hg Hl Hbn. unfold join_up. rewrite Hs, Ht. unfold HEADER in *. rewrite u64_small by lia.
  assert (Hout : forall c l, gaps (bp + n * 16 - 1) l -> c ∈ l -> fst c + 16 <= bp \/ bp + 16 <= fst c).
  { intros c l Hgl Hcl. destruct (gaps_pos _ _ _ Hgl Hcl). lia. }
  destruct (Z.eqb_spec (bp + n * 16) (first l2 base)) as [E|Hne]; cbv zeta.
  - destruct l2 as [|b2 l2]; cbn [first] in *; [lia|]. cbn [gaps chain] in *. destruct Hg as (Hg1 & Hg2 & Hg3), Hc as (Hc1 & Hc2 & Hc3).
    unfold HEADER in *. pose proof (Hl b2 ltac:(by left)). rewrite Hc2.
    set (m' := set_hsize bp _ m). assert (Ho : forall p, bp + 16 <= p \/ p + 16 <= bp -> hptr m' p = hptr m p).
    { intros p Hp. apply header_ext. intros x Hx. unfold HEADER in *. apply set_hsize_out. unfold HEADER. lia. }
    rewrite (Ho t), Ht, (Ho (fst b2)), Hc1 by lia. exists (n + snd b2), l2. cbn [chain first]. split_and!.
    + apply set_hptr_same. destruct l2 as [|b3 l2]; cbn [first]; [lia|]. cbn [gaps] in Hg3. pose proof (Hl b3 ltac:(set_solver)). unfold HEADER in *. lia.
    + rewrite hsize_set_hptr. unfold m'. rewrite u32_small by lia. apply set_hsize_same. simpl. lia.
    + eapply (chain_other m _ bp); [|intros c Hc'; destruct (gaps_pos _ _ _ Hg3 Hc'); unfold HEADER in *; lia|done].
      intros x Hx. unfold m'. by rewrite set_hptr_out, set_hsize_out.
    + eapply gaps_le; [|exact Hg3]. unfold HEADER. lia.
    + lia.
    + lia.
    + simpl. lia.
    + intros c Hc'. by right.
    + intros x. rewrite (covers_split bp n (snd b2)) by lia. unfold cover. simpl. unfold HEADER. rewrite E. destruct b2; simpl. lia.
  - exists n, l2. cbn [chain]. split_and!; try done; try lia.
    + apply set_hptr_same. destruct l2 as [|b2 l2]; cbn [first]; [lia|]. cbn [gaps] in Hg. pose proof (Hl b2 ltac:(set_solver)). unfold HEADER in *. lia.
    + by rewrite hsize_set_hptr.
    + eapply (chain_other m _ bp); [|intros c Hc'; by eapply Hout|done]. intros x Hx. by rewrite set_hptr_out.
    + destruct l2 as [|b2 l2]; cbn [gaps first] in *; [done|]. split_and!; try tauto. lia.
Qed.

Lemma join_low_spec m bp N rest l1 t :
  chain m l1 (fst t) -> hsize m (fst t) = snd t -> chain m ((bp, N) :: rest) base ->
  0 < fst t -> 0 <= snd t -> fst t + HEADER <= bp -> fst t + snd t * HEADER <= bp -> (forall c, c ∈ l1 -> fst c + HEADER <= fst t) ->
  gaps (bp + N * HEADER) rest -> 1 <= N -> bp + N * HEADER <= limit -> (forall c, c ∈ rest -> fst c <= limit) ->
  exists t' rest', chain (join_low m bp (fst t)) (l1 ++ t' :: rest') base /\ fst t' = fst t /\ snd t <= snd t' /\
    gaps (fst t' + snd t' * HEADER) rest' /\ (length rest' <= S (length rest))%nat /\ (fst t + snd t * HEADER <> bp -> t' = t) /\
    (exists c, c ∈ t' :: rest' /\ N <= snd c) /\
    (forall x, covers t' x + cover rest' x = covers t x + (covers (bp, N) x + cover rest x)).
Proof.
  intros Hc1 Hst (Hb1 & Hb2 & Hb3) Ht0 Ht1 Ht2 Ht3 Hl1 Hg HN Hlim Hrest. simpl in Hb1, Hb2. unfold join_low. rewrite Hst, Hb2. unfold HEADER in *.
  rewrite u64_small by lia.
  assert (Hframe : forall m', (forall x, ~ (fst t <= x < fst t + 16) -> m' x = m x) -> chain m' l1 (fst t) /\ chain m' ((bp, N) :: rest) base).
  { intros m' Hm'. split.
    - eapply (chain_other m _ (fst t)); [exact Hm'| |done]. intros b Hb. left. by apply Hl1.
    - eapply (chain_other m _ (fst t)); [exact Hm'| |by split_and!]. unfold HEADER. intros b [->|Hb]%elem_of_cons; right; simpl; [lia|].
      destruct (gaps_pos _ _ _ Hg Hb). lia. }
  assert (Hfirst : 0 <= first rest base < 2 ^ 64).
  { destruct rest as [|c rest]; cbn [first]; [lia|]. cbn [gaps] in Hg. pose proof (Hrest c ltac:(by left)). lia. }
  destruct (Z.eqb_spec (fst t + snd t * 16) bp) as [E|Hne]; cbv zeta.
  - set (m' := set_hsize (fst t) _ m). destruct (Hframe m') as [_ (Hb1' & _ & _)].
    { intros x Hx. by apply set_hsize_out. }
    simpl in Hb1'. rewrite Hb1'. destruct (Hframe (set_hptr (fst t) (first rest base) m')) as [H1 (_ & _ & H2)].
    { intros x Hx. unfold m'. by rewrite set_hptr_out, set_hsize_out. }
    exists (fst t, snd t + N), rest. split_and!; simpl; try lia; try done.
    + apply links_app. split; [done|]. cbn [chain fst snd]. split_and!; [by apply set_hptr_same| |done].
      rewrite hsize_set_hptr. unfold m'. rewrite u32_small by lia. apply set_hsize_same. lia.
    + eapply gaps_le; [|exact Hg]. lia.
    + exists (fst t, snd t + N). simpl. split; [by left|lia].
    + intros x. rewrite covers_split by lia. unfold HEADER. rewrite E. destruct t; simpl. lia.
  - destruct (Hframe (set_hptr (fst t) bp m)) as [H1 H2]; [intros x Hx; by apply set_hptr_out|].
    exists t, ((bp, N) :: rest). split_and!; try done; try lia.
    + apply links_app. split; [done|]. split; [apply set_hptr_same; simpl; lia|]. split; [by rewrite hsize_set_hptr|exact H2].
    + cbn [gaps fst snd]. split_and!; [unfold HEADER; lia|lia|done].
    + exists (bp, N). simpl. split; [right; left|lia].
Qed.

(** The place of an allocated block among the nodes. *)
Lemma split_ring fl al1 bp n al2 s :
  heap_ok fl (al1 ++ (bp, n) :: al2) s ->
  exists l1 t l2, nodes fl = l1 ++ t :: l2 /\ fst t + snd t * HEADER <= bp /\ (forall c, c ∈ l2 -> bp + n * HEADER <= fst c).
Proof.
  intros H. assert (Ha : forall c, c ∈ fl -> bp + n * HEADER <= fst c \/ fst c + snd c * HEADER <= bp).
  { intros c Hc. apply (ho_apart fl al1 (bp, n) al2 s c); [done|set_solver]. }
  destruct (ho_within _ _ _ (bp, n) H ltac:(set_solver)) as [Hb _]. simpl in Hb.
  assert (Hi : forall t l, gaps (fst t + snd t * HEADER) l -> (forall c, c ∈ l -> bp + n * HEADER <= fst c \/ fst c + snd c * HEADER <= bp) -> fst t + snd t * HEADER <= bp -> 1 <= n ->
    exists l1 t' l2, t :: l = l1 ++ t' :: l2 /\ fst t' + snd t' * HEADER <= bp /\ (forall c, c ∈ l2 -> bp + n * HEADER <= fst c)).
  { clear. intros t l. revert t. induction l as [|b l IH]; intros t Hg Ha Ht Hn.
    - exists [], t, []. split_and!; try done. intros c Hc. by apply elem_of_nil in Hc.
    - cbn [gaps] in Hg. destruct Hg as (Hg1 & Hg2 & Hg3). destruct (Ha b ltac:(by left)) as [Hb|Hb].
      + exists [], t, (b :: l). split_and!; try done. intros c [->|Hc]%elem_of_cons; [done|]. destruct (gaps_pos _ _ _ Hg3 Hc). unfold HEADER in *. lia.
      + destruct (IH b Hg3) as (l1 & t' & l2 & -> & H1 & H2); [set_solver|done|done|]. by exists (t :: l1), t', l2. }
  apply (Hi (base, 0) fl); simpl.
  - eapply gaps_le; [|apply (ho_gaps _ _ _ H)]. lia.
  - done.
  - unfold HEADER in *. lia.
  - by apply (ho_pos _ _ _ (bp, n) H); set_solver.
Qed.

Lemma gaps_replace lo l1 b l2 b' l2' :
  gaps lo (l1 ++ b :: l2) -> fst b' = fst b -> 1 <= snd b' -> gaps (fst b' + snd b' * HEADER) l2' -> gaps lo (l1 ++ b' :: l2').
Proof.
  revert lo. induction l1 as [|c l1 IH]; intros lo; cbn [app gaps].
  - intros (H1 & H2 & H3) E ? ?. rewrite E. split_and!; try done. by rewrite <- E.
  - intros (H1 & H2 & H3) ? ? ?. split_and!; try done. by apply IH.
Qed.

(** The free blocks after the nodes from [t] on have been replaced. *)
Lemma nodes_replace fl al s l1 t l2 t' rest' :
  heap_ok fl al s -> nodes fl = l1 ++ t :: l2 -> fst t' = fst t -> (t <> (base, 0) -> 1 <= snd t') -> (t = (base, 0) -> t' = t) ->
  gaps (fst t' + snd t' * HEADER) rest' ->
  exists fl', nodes fl' = l1 ++ t' :: rest' /\ gaps base fl' /\
    (forall x, cover fl' x + (covers t x + cover l2 x) = cover fl x + (covers t' x + cover rest' x)) /\
    (length fl' + length l2 = length fl + length rest')%nat.
Proof.
  intros H E Hf Hs Hb Hg. pose proof (ho_gaps _ _ _ H) as Hgs. destruct l1 as [|c l1]; injection E as <- ->.
  - rewrite Hb in * by done. exists rest'. split_and!; [done| |intros x; unfold covers; simpl; lia|lia].
    eapply gaps_le; [|exact Hg]. simpl. lia.
  - exists (l1 ++ t' :: rest'). split_and!; [done| | |rewrite !length_app; simpl; lia].
    + eapply gaps_replace; try done. apply Hs. intros ->. destruct (gaps_app _ _ _ _ Hgs) as (_ & Hlt & _). simpl in Hlt. lia.
    + intros x. rewrite !cover_app. unfold cover. simpl. lia.
Qed.

(** The headers of the ring do not overlap. *)
Lemma nodes_sep fl al s l1 t l2 :
  heap_ok fl al s -> nodes fl = l1 ++ t :: l2 ->
  (forall c, c ∈ l1 -> fst c + HEADER <= fst t) /\ (forall c, c ∈ l2 -> fst t + HEADER <= fst c).
Proof.
  intros H E. assert (Hn : forall c, c ∈ nodes fl -> c = (base, 0) \/ (1 <= snd c /\ heap0 <= fst c)).
  { intros c [->|Hc]%elem_of_cons; [by left|right]. split; [by apply (gaps_pos _ _ _ (ho_gaps _ _ _ H))|].
    by apply (ho_within _ _ _ c H); set_solver. }
  destruct (nodes_lt _ _ _ _ _ _ H E) as [H1 H2]. unfold HEADER in *.
  pose proof (Hn t ltac:(rewrite E; set_solver)) as Ht. split; intros c Hc; [pose proof (H1 c Hc)|pose proof (H2 c Hc)];
    pose proof (Hn c ltac:(rewrite E; set_solver)) as Hc'; destruct Ht as [->|Ht], Hc' as [->|Hc']; simpl in *; lia.
Qed.

Lemma nodes_gaps fl al s l1 t l2 : heap_ok fl al s -> nodes fl = l1 ++ t :: l2 -> gaps (fst t + snd t * HEADER) l2.
Proof.
  intros H E. pose proof (ho_gaps _ _ _ H) as Hg. destruct l1 as [|d l1]; injection E as <- E2; rewrite E2 in *.
  - eapply gaps_le; [|exact Hg]. simpl. lia.
  - by destruct (gaps_app _ _ _ _ Hg) as (_ & _ & ? & _).
Qed.

Lemma free_ok fuel fl al1 bp n al2 s :
  heap_ok fl (al1 ++ (bp, n) :: al2) s -> (length fl < fuel)%nat ->
  exists s' fl', free fuel (bp + HEADER) s = Ret tt s' /\ heap_ok fl' (al1 ++ al2) s' /\ brk s' = brk s /\
    (length fl' <= S (length fl))%nat /\ (exists c, c ∈ fl' /\ n <= snd c) /\
    (forall b x, b ∈ al1 ++ al2 -> fst b <= x < fst b + snd b * HEADER -> umem s' x = umem s x).
Proof.
  intros H Hf. destruct (split_ring _ _ _ _ _ _ H) as (l1 & t & l2 & E & Ht & Hl2).
  destruct (nodes_sep _ _ _ _ _ _ H E) as [Hl1 _]. destruct (ho_within _ _ _ (bp, n) H ltac:(set_solver)) as [Hb0 Hb1]. destruct (ho_alloc _ _ _ H (bp, n) ltac:(set_solver)) as [Hn Hsz]. simpl in *.
  destruct (ho_brk _ _ _ H) as [Hk0 Hk1].
  assert (Htn : t ∈ nodes fl) by (rewrite E; set_solver). destruct (node_size _ _ _ _ H Htn) as [St0 St1].
  assert (Htb : fst t + HEADER <= bp).
  { pose proof Htn as Htn'. apply elem_of_cons in Htn' as [->|Htn']; [simpl; lia|]. destruct (gaps_pos _ _ _ (ho_gaps _ _ _ H) Htn'). unfold HEADER in *. lia. }
  pose proof (ho_chain _ _ _ H) as Hc. rewrite E in Hc. apply links_app in Hc as (Hc1 & Hc2 & Hc3 & Hc4). cbn [first] in Hc1.
  assert (Hl2in : forall c, c ∈ l2 -> c ∈ fl).
  { intros c Hc. destruct l1; injection E as E1 E2; rewrite E2; set_solver. }
  assert (Hg2 : gaps (bp + n * HEADER - 1) l2).
  { pose proof (nodes_gaps _ _ _ _ _ _ H E) as Hg. destruct l2 as [|c l2]; [done|]. cbn [gaps] in *. pose proof (Hl2 c ltac:(by left)).
    split; [lia|tauto]. }
  rewrite (free_eq fuel bp s (fst t)); [|unfold HEADER in *; lia|].
  2: { eapply find_place_ring; try done; unfold HEADER in *; try lia. intros c Hc. pose proof (Hl2 c Hc). lia. }
  destruct (join_up_spec (umem s) bp n (fst t) l2) as (N & rest & J1 & J2 & J3 & J4 & J5 & J6 & J7); try done; try (unfold HEADER in *; lia).
  { intros c Hc. destruct (ho_within _ _ _ c H ltac:(set_solver)). lia. }
  set (m1 := join_up (umem s) bp (fst t)) in *.
  assert (Hm1 : forall x, ~ (bp <= x < bp + HEADER) -> m1 x = umem s x) by (intros; by apply join_up_out).
  destruct (join_low_spec m1 bp N rest l1 t) as (t' & rest' & K1 & K2 & K3 & K4 & K5 & K6 & K7 & K8); try done; try (unfold HEADER in *; lia).
  { eapply (chain_other (umem s) _ bp); [done| |done]. intros c Hc. pose proof (Hl1 c Hc). lia. }
  { rewrite <- Hc3. apply header_ext. intros x Hx. apply Hm1. lia. }
  { intros c Hc. destruct (ho_within _ _ _ c H ltac:(set_solver)). unfold HEADER in *. destruct (gaps_pos _ _ _ J2 Hc). lia. }
  set (m2 := join_low m1 bp (fst t)) in *.
  assert (Hm2 : forall x, ~ (bp <= x < bp + HEADER) -> ~ (fst t <= x < fst t + HEADER) -> m2 x = umem s x).
  { intros x Hx1 Hx2. unfold m2. rewrite join_low_out by done. by apply Hm1. }
  destruct (nodes_replace fl _ s l1 t l2 t' rest' H E K2) as (fl' & F1 & F2 & F3 & F4).
  { intros Hne. apply elem_of_cons in Htn as [->|Htn]; [done|]. destruct (gaps_pos _ _ _ (ho_gaps _ _ _ H) Htn). lia. }
  { intros ->. apply K6. simpl. unfold HEADER in *. lia. }
  { done. }
  assert (Hfr : forall b x, b ∈ al1 ++ al2 -> fst b <= x < fst b + snd b * HEADER -> m2 x = umem s x).
  { intros b x Hb Hx. destruct (ho_apart _ _ _ _ _ b H ltac:(set_solver)) as [Ha|Ha]; simpl in Ha; unfold HEADER in *.
    - apply Hm2; lia.
    - apply Hm2; [lia|]. by apply (header_apart fl (al1 ++ (bp, n) :: al2) s b); [..|set_solver]. }
  exists (UState m2 (fst t) (brk s)), fl'. split_and!; try done; try lia.
  - split; cbn [umem freep brk].
    + by rewrite F1.
    + done.
    + intros x. rewrite <- (ho_cover _ _ _ H x). rewrite !cover_app in *. specialize (F3 x). specialize (K8 x). specialize (J7 x). unfold cover in *. simpl. lia.
    + intros b Hb. destruct (ho_alloc _ _ _ H b ltac:(set_solver)) as [Hb2 Hb3]. split; [done|]. rewrite <- Hb3. apply header_ext.
      intros x Hx. apply (Hfr b); [done|]. unfold HEADER in *. lia.
    + rewrite F1, fmap_app, fmap_cons, K2. set_solver.
    + done.
  - destruct K7 as (c & Hc' & HcN). exists c. split; [|lia]. assert (Hcn : c ∈ nodes fl') by (rewrite F1; set_solver). apply elem_of_cons in Hcn as [->|]; [simpl in *; lia|done].
Qed.

(** ** Taking a block off the ring *)

(** The contents of the allocated blocks are kept. *)
Definition kept al s s' : Prop := forall b x, b ∈ al -> fst b <= x < fst b + snd b * HEADER -> umem s' x = umem s x.

Lemma addr_unique fl al s b c : heap_ok fl al s -> b ∈ nodes fl -> c ∈ nodes fl -> fst b = fst c -> b = c.
Proof.
  intros H Hb Hc E. destruct (node_size _ _ _ _ H Hb), (node_size _ _ _ _ H Hc). apply list_elem_of_split in Hb as (l1 & l2 & E').
  destruct (nodes_cases _ _ _ _ _ _ _ H E' Hc) as [[? ?]|[->|[? ?]]]; unfold HEADER in *; [lia|done|lia].
Qed.

(** The node before a block of the ring. *)
Lemma node_prev fl al s w p :
  heap_ok fl al s -> w ∈ nodes fl -> hptr (umem s) (fst w) = fst p -> p ∈ fl ->
  exists l1 l2, nodes fl = l1 ++ w :: p :: l2.
Proof.
  intros H (l1 & l2 & E)%list_elem_of_split Hp Hin. pose proof (ho_chain _ _ _ H) as Hc. rewrite E in Hc. apply links_app in Hc as (_ & Hc & _).
  rewrite Hp in Hc. destruct l2 as [|c l2]; cbn [first] in Hc.
  - destruct (gaps_pos _ _ _ (ho_gaps _ _ _ H) Hin). lia.
  - assert (p = c) as ->; [|by exists l1, l2]. apply (addr_unique _ _ _ _ _ H); [by right|rewrite E; set_solver|done].
Qed.

(** What a state must provide for the block [(r, n)] to have been taken. *)
Lemma take_all fl al s w p l1 l2 :
  heap_ok fl al s -> nodes fl = l1 ++ w :: p :: l2 ->
  let s' := set_freep (fst w) (set_umem (set_hptr (fst w) (hptr (umem s) (fst p))) s) in
  exists fl', heap_ok fl' (p :: al) s' /\ kept al s s' /\ (length fl' <= length fl)%nat.
Proof.
  intros H E s'. pose proof E as E'. rewrite cons_middle, app_assoc in E'.
  pose proof (nodes_sep _ _ _ _ _ _ H E) as [Hw1 Hw2]. pose proof (nodes_sep _ _ _ _ _ _ H E') as [Hp1 Hp2].
  pose proof (ho_chain _ _ _ H) as Hc. rewrite E in Hc. apply links_app in Hc as (Hc1 & Hc2 & Hc3 & Hc4). cbn [chain first] in Hc1, Hc4. destruct Hc4 as (Hc4 & Hc5 & Hc6).
  assert (Hm : forall x, ~ (fst w <= x < fst w + HEADER) -> umem s' x = umem s x) by (intros; by apply set_hptr_out).
  assert (Hpin : p ∈ fl) by (destruct l1; injection E as E1 E2; rewrite E2; set_solver).
  destruct (gaps_pos _ _ _ (ho_gaps _ _ _ H) Hpin) as [Hp0 Hp3].
  assert (Hwn : w ∈ nodes fl) by (rewrite E; set_solver).
  destruct (nodes_replace fl al s l1 w (p :: l2) w l2 H E) as (fl' & F1 & F2 & F3 & F4); try done.
  { intros Hne. apply elem_of_cons in Hwn as [->|Hwn]; [done|]. by apply (gaps_pos _ _ _ (ho_gaps _ _ _ H)). }
  { pose proof (nodes_gaps _ _ _ _ _ _ H E) as Hg. cbn [gaps] in Hg. destruct Hg as (? & ? & Hg). eapply gaps_le; [|exact Hg]. unfold HEADER in *. lia. }
  assert (Hk : kept al s s').
  { intros b x Hb Hx. apply Hm. by apply (header_apart fl al s b w x H). }
  exists fl'. split_and!; [split|done|simpl in F4; lia].
  - rewrite F1. apply links_app. cbn [first chain]. split_and!.
    + eapply (chain_other (umem s) _ (fst w)); [done| |done]. intros c Hc. left. by apply Hw1.
    + cbn [umem s' set_freep set_umem]. rewrite Hc4. apply set_hptr_same.
      destruct (ho_brk _ _ _ H). destruct l2 as [|c l2]; cbn [first]; [unfold HEADER in *; lia|].
      assert (Hcin : c ∈ fl) by (destruct l1; injection E as E1 E2; rewrite E2; set_solver).
      destruct (ho_within _ _ _ c H ltac:(set_solver)), (gaps_pos _ _ _ (ho_gaps _ _ _ H) Hcin). unfold HEADER in *. lia.
    + rewrite <- Hc3. apply hsize_set_hptr.
    + eapply (chain_other (umem s) _ (fst w)); [done| |done]. intros c Hc. right. apply Hw2. by right.
  - done.
  - intros x. cbn [brk s' set_freep set_umem]. rewrite <- (ho_cover _ _ _ H x). specialize (F3 x). rewrite !cover_app. unfold cover in *. simpl in *. lia.
  - intros b [->|Hb]%elem_of_cons.
    + split; [done|]. rewrite <- Hc5. apply header_ext. intros x Hx. apply Hm. pose proof (Hw2 p ltac:(by left)). lia.
    + destruct (ho_alloc _ _ _ H b Hb) as [Ha1 Ha2]. split; [done|]. rewrite <- Ha2. apply header_ext. intros x Hx. apply (Hk b); [done|]. unfold HEADER in *. lia.
  - cbn [freep s' set_freep]. rewrite F1, fmap_app, fmap_cons. set_solver.
  - apply (ho_brk _ _ _ H).
Qed.

Lemma take_part fl al s p n l1 l2 nunits prevp :
  heap_ok fl al s -> nodes fl = l1 ++ (p, n) :: l2 -> l1 <> [] -> prevp ∈ (fst <$> l1) -> 1 <= nunits < n ->
  let r := p + (n - nunits) * HEADER in
  let s' := set_freep prevp (set_umem (set_hsize r nunits) (set_umem (set_hsize p (n - nunits)) s)) in
  exists fl', heap_ok fl' ((r, nunits) :: al) s' /\ kept al s s' /\ (length fl' <= length fl)%nat.
Proof.
  intros H E Hl1 Hprev Hn r s'. pose proof (nodes_sep _ _ _ _ _ _ H E) as [Hp1 Hp2]. simpl in Hp1, Hp2.
  pose proof (ho_chain _ _ _ H) as Hc. rewrite E in Hc. apply links_app in Hc as (Hc1 & Hc2 & Hc3 & Hc4). simpl in Hc1, Hc2, Hc3.
  assert (Hpin : (p, n) ∈ fl) by (destruct l1; [done|]; injection E as E1 E2; rewrite E2; set_solver).
  destruct (ho_within _ _ _ (p, n) H ltac:(set_solver)) as [Hp3 Hp4]. simpl in Hp3, Hp4. destruct (ho_brk _ _ _ H) as [Hb0 Hb1].
  pose proof (nodes_gaps _ _ _ _ _ _ H E) as Hg. simpl in Hg.
  assert (Hm : forall x, ~ (p <= x < p + HEADER) -> ~ (r <= x < r + HEADER) -> umem s' x = umem s x).
  { intros x Hx1 Hx2. cbn [umem s' set_freep set_umem]. by rewrite !set_hsize_out. }
  assert (Hblk : forall b x, b ∈ al -> fst b <= x < fst b + snd b * HEADER -> ~ (p <= x < p + n * HEADER)).
  { intros b x Hb Hx. apply list_elem_of_split in Hb as (al1 & al2 & ->). pose proof (ho_apart _ _ _ _ _ (p, n) H ltac:(set_solver)) as Ha. simpl in Ha. lia. }
  assert (Hk : kept al s s').
  { intros b x Hb Hx. pose proof (Hblk b x Hb Hx). apply Hm; unfold r, HEADER in *; lia. }
  destruct (nodes_replace fl al s l1 (p, n) l2 (p, n - nunits) l2 H E) as (fl' & F1 & F2 & F3 & F4); simpl; try done; try lia.
  { intros [= -> ->]. destruct (gaps_pos _ _ _ (ho_gaps _ _ _ H) Hpin). simpl in *. lia. }
  { eapply gaps_le; [|exact Hg]. unfold HEADER. lia. }
  exists fl'. split_and!; [split|done|lia].
  - rewrite F1. apply links_app. cbn [first chain fst snd]. split_and!.
    + eapply (links_ext (umem s)); [|done]. intros c x Hc Hx. pose proof (Hp1 c Hc). apply Hm; unfold r, HEADER in *; lia.
    + rewrite <- Hc2. transitivity (hptr (set_hsize p (n - nunits) (umem s)) p); [|apply hptr_set_hsize]. apply header_ext. intros x Hx.
      apply set_hsize_out. unfold r, HEADER in *. lia.
    + transitivity (hsize (set_hsize p (n - nunits) (umem s)) p); [|apply set_hsize_same; unfold HEADER in *; lia]. apply header_ext. intros x Hx.
      apply set_hsize_out. unfold r, HEADER in *. lia.
    + eapply (links_ext (umem s)); [|done]. intros c x Hc Hx. destruct (gaps_pos _ _ _ Hg Hc). apply Hm; unfold r, HEADER in *; lia.
  - done.
  - intros x. cbn [brk s' set_freep set_umem]. rewrite <- (ho_cover _ _ _ H x). specialize (F3 x). rewrite !cover_app.
    pose proof (covers_split p (n - nunits) nunits x ltac:(lia) ltac:(lia)) as Hcs. replace (n - nunits + nunits) with n in Hcs by lia.
    unfold cover in *. simpl in *. fold r in Hcs. lia.
  - intros b [->|Hb]%elem_of_cons; cbn [fst snd].
    + split; [lia|]. apply set_hsize_same. unfold HEADER in *. lia.
    + destruct (ho_alloc _ _ _ H b Hb) as [Ha1 Ha2]. split; [done|]. rewrite <- Ha2. apply header_ext. intros x Hx. apply (Hk b); [done|]. unfold HEADER in *. lia.
  - cbn [freep s' set_freep]. rewrite F1, fmap_app. set_solver.
  - apply (ho_brk _ _ _ H).
Qed.

(** ** The loop of malloc *)

(** A block of [nunits] has been handed out. *)
Definition got al (nunits : Z) s (v : Z) s' : Prop :=
  exists r fl', v = r + HEADER /\ heap_ok fl' ((r, nunits) :: al) s' /\ kept al s s'.

Section loop.
Variable fuel : nat.

Lemma malloc_take k nunits w p fl al s :
  heap_ok fl al s -> w ∈ nodes fl -> hptr (umem s) (fst w) = fst p -> p ∈ fl -> 1 <= nunits <= snd p ->
  wp (malloc_loop grant fuel (S k) nunits (fst w) (fst p)) (fun v s' => got al nunits s v s') s.
Proof.
  intros H Hw Hp Hin Hn. destruct (node_prev _ _ _ _ _ H Hw Hp Hin) as (l1 & l2 & E).
  assert (Hsz : hsize (umem s) (fst p) = snd p) by (eapply chain_at; [apply (ho_chain _ _ _ H)|by right]).
  destruct (ho_within _ _ _ p H ltac:(set_solver)) as [Hp1 Hp2]. destruct (ho_brk _ _ _ H) as [Hb1 Hb2]. unfold HEADER in *.
  cbn [malloc_loop]. unfold wp, kbind, kget, kupd, kret. rewrite Hsz. destruct (Z.geb_spec (snd p) nunits); [|lia].
  destruct (Z.eqb_spec (snd p) nunits) as [En|Hne].
  - rewrite u64_small by (unfold HEADER; lia). destruct (take_all _ _ _ _ _ _ _ H E) as (fl' & H1 & H2 & _).
    exists (fst p), fl'. split_and!; try done. rewrite <- En. by destruct p.
  - rewrite (u32_small (snd p - nunits)), (u64_small (fst p + _)) by (unfold HEADER; lia). rewrite u64_small by (unfold HEADER; lia).
    rewrite cons_middle, app_assoc in E. destruct p as [p n]. cbn [fst snd] in *.
    destruct (take_part _ _ _ _ _ _ _ nunits (fst w) H E) as (fl' & H1 & H2 & _); try (done || lia).
    { by destruct l1. }
    { rewrite fmap_app. set_solver. }
    exists (p + (n - nunits) * HEADER), fl'. split_and!; done.
Qed.

(** A scan of the ring that finds a block before it is back at [freep]. *)
Lemma scan_found fl al s f nunits : heap_ok fl al s -> f ∈ nodes fl -> fst f = freep s -> 1 <= nunits ->
  forall todo w k, w ∈ nodes fl -> hptr (umem s) (fst w) = first todo (fst f) -> chain (umem s) todo (fst f) ->
  (forall c, c ∈ todo -> c ∈ nodes fl /\ fst c <> fst f) -> (exists c, c ∈ todo ++ [f] /\ nunits <= snd c) -> (length todo < k)%nat ->
  wp (malloc_loop grant fuel k nunits (fst w) (first todo (fst f))) (fun v s' => got al nunits s v s') s.
Proof.
  intros H Hf Ef Hn todo. induction todo as [|b todo IH]; intros w [|k] Hw Hp Hc Hin Hex Hk; simpl in Hk; try lia; cbn [first] in *.
  - destruct Hex as (c & ->%list_elem_of_singleton & Hc'). eapply malloc_take; try done.
    apply elem_of_cons in Hf as [->|]; [simpl in Hc'; lia|done].
  - destruct (Hin b ltac:(by left)) as [Hb Hbf]. assert (Hsz : hsize (umem s) (fst b) = snd b) by (eapply chain_at; [apply (ho_chain _ _ _ H)|done]).
    destruct (Z.le_gt_cases nunits (snd b)) as [Hle|Hgt].
    + eapply malloc_take; try done. apply elem_of_cons in Hb as [->|]; [simpl in Hle; lia|done].
    + cbn [malloc_loop chain] in *. destruct Hc as (Hc1 & _ & Hc2). apply wp_bind, wp_get. rewrite Hsz. destruct (Z.geb_spec (snd b) nunits); [lia|].
      apply wp_bind, wp_get. rewrite (proj2 (Z.eqb_neq (fst b) (freep s))) by congruence. apply wp_bind, wp_ret. cbn [andb].
      apply wp_bind, wp_get. rewrite Hc1. apply IH; try done; [intros c Hc; apply Hin; by right| |lia].
      destruct Hex as (c & Hc' & Hle). exists c. split; [|done]. apply elem_of_cons in Hc' as [->|]; [lia|done].
Qed.

(** A scan that comes back to [freep]. *)
Lemma scan_none fl al s f nunits Q : heap_ok fl al s -> f ∈ nodes fl -> fst f = freep s ->
  forall todo w k j, w ∈ nodes fl -> hptr (umem s) (fst w) = first todo (fst f) -> chain (umem s) todo (fst f) ->
  (forall c, c ∈ todo -> c ∈ nodes fl /\ fst c <> fst f) -> (forall c, c ∈ todo ++ [f] -> snd c < nunits) -> k = (length todo + S j)%nat ->
  wp (let! q := morecore grant fuel nunits in if q =? 0 then kret 0 else let! m := kget umem in malloc_loop grant fuel j nunits q (hptr m q)) Q s ->
  wp (malloc_loop grant fuel k nunits (fst w) (first todo (fst f))) Q s.
Proof.
  intros H Hf Ef todo. induction todo as [|b todo IH]; intros w k j Hw Hp Hc Hin Hall -> HQ; cbn [first length Nat.add] in *; cbn [malloc_loop].
  - assert (Hsz : hsize (umem s) (fst f) = snd f) by (eapply chain_at; [apply (ho_chain _ _ _ H)|done]).
    pose proof (Hall f ltac:(by left)). apply wp_bind, wp_get. rewrite Hsz. destruct (Z.geb_spec (snd f) nunits); [lia|].
    apply wp_bind, wp_get. rewrite Ef, Z.eqb_refl. exact HQ.
  - destruct (Hin b ltac:(by left)) as [Hb Hbf]. assert (Hsz : hsize (umem s) (fst b) = snd b) by (eapply chain_at; [apply (ho_chain _ _ _ H)|done]).
    destruct Hc as (Hc1 & _ & Hc2). pose proof (Hall b ltac:(by left)). apply wp_bind, wp_get. rewrite Hsz. destruct (Z.geb_spec (snd b) nunits); [lia|].
    apply wp_bind, wp_get. rewrite (proj2 (Z.eqb_neq (fst b) (freep s))) by congruence. apply wp_bind, wp_ret. cbn [andb].
    apply wp_bind, wp_get. rewrite Hc1. eapply (IH b _ j); try done; intros c Hc; [apply Hin|apply Hall]; by right.
Qed.
(** The ring from [freep] on. *)
Lemma ring_from fl al s : heap_ok fl al s ->
  exists f todo, f ∈ nodes fl /\ fst f = freep s /\ hptr (umem s) (fst f) = first todo (fst f) /\ chain (umem s) todo (fst f) /\
    (forall c, c ∈ todo -> c ∈ nodes fl /\ fst c <> fst f) /\ (forall c, c ∈ nodes fl -> c ∈ todo ++ [f]) /\ length todo = length fl.
Proof.
  intros H. destruct (proj1 (list_elem_of_fmap fst (nodes fl) (freep s)) (ho_freep _ _ _ H)) as (f & Ef & Hf). pose proof Hf as Hf'.
  apply list_elem_of_split in Hf' as (r1 & r2 & Er). exists f, (r2 ++ r1). pose proof (ho_chain _ _ _ H) as Hc.
  rewrite Er in Hc. apply chain_rotate in Hc; [|by rewrite <- Er]. cbn [chain] in Hc. destruct Hc as (Hc1 & _ & Hc2).
  assert (Hlen : length (nodes fl) = (length r1 + S (length r2))%nat) by (rewrite Er, length_app; done).
  destruct (nodes_sep _ _ _ _ _ _ H Er) as [H1 H2]. unfold HEADER in *. split_and!; try done.
  - intros c Hcin. rewrite Er. apply elem_of_app in Hcin as [Hcin|Hcin].
    + split; [rewrite elem_of_app, elem_of_cons; tauto|]. pose proof (H2 c Hcin). lia.
    + split; [rewrite elem_of_app; tauto|]. pose proof (H1 c Hcin). lia.
  - intros c. rewrite Er, !elem_of_app, elem_of_cons, list_elem_of_singleton. tauto.
  - rewrite length_app. simpl in Hlen. lia.
Qed.

(** The request [morecore] makes of the kernel, in units. *)
Definition request (nunits : Z) : Z := Z.max 4096 nunits.

Lemma sbrk_ok fl al s nu :
  heap_ok fl al s -> 1 <= nu -> grant (brk s + nu * HEADER) = true ->
  heap_ok fl ((brk s, nu) :: al) (set_umem (set_hsize (brk s) nu) (set_brk (brk s + nu * HEADER) s)).
Proof.
  intros H Hnu Hg. pose proof (Hgrant _ Hg) as Hl. destruct (ho_brk _ _ _ H) as [Hb1 Hb2]. unfold HEADER in *.
  assert (Hin : forall b, b ∈ fl ++ al -> fst b + 16 <= brk s).
  { intros b Hb. destruct (ho_within _ _ _ b H Hb). pose proof (ho_pos _ _ _ b H Hb). unfold HEADER in *. lia. }
  assert (Hm : forall x, x < brk s -> set_hsize (brk s) nu (umem s) x = umem s x) by (intros; apply set_hsize_out; unfold HEADER; lia).
  split; cbn [umem set_umem set_brk brk freep].
  - eapply links_ext; [|apply (ho_chain _ _ _ H)]. intros b x Hb Hx. apply Hm. unfold HEADER in *.
    apply elem_of_cons in Hb as [->|Hb]; [simpl in Hx; lia|]. pose proof (Hin b ltac:(set_solver)). lia.
  - apply (ho_gaps _ _ _ H).
  - intros x. pose proof (ho_cover _ _ _ H x) as Hc. rewrite cover_app in *. unfold cover in *. simpl. unfold covers at 2. unfold interval, HEADER in *. simpl.
    destruct (Z.leb_spec heap0 x), (Z.ltb_spec x (brk s)), (Z.leb_spec (brk s) x), (Z.ltb_spec x (brk s + nu * 16)); simpl in *; lia.
  - intros b [->|Hb]%elem_of_cons; cbn [fst snd].
    + split; [done|]. apply set_hsize_same. lia.
    + destruct (ho_alloc _ _ _ H b Hb) as [Ha1 Ha2]. split; [done|]. rewrite <- Ha2. apply header_ext. intros x Hx. apply Hm.
      pose proof (Hin b ltac:(set_solver)). unfold HEADER in *. lia.
  - apply (ho_freep _ _ _ H).
  - lia.
Qed.

Lemma morecore_ok fl al s nunits :
  heap_ok fl al s -> 1 <= nunits -> nunits * HEADER < 2 ^ 31 -> (length fl < fuel)%nat ->
  wp (morecore grant fuel nunits) (fun q s' =>
    (q = 0 /\ s' = s /\ grant (brk s + request nunits * HEADER) = false) \/
    (q <> 0 /\ q = freep s' /\ kept al s s' /\ exists fl', heap_ok fl' al s' /\ (length fl' <= S (length fl))%nat /\ exists c, c ∈ fl' /\ nunits <= snd c)) s.
Proof.
  intros H Hn1 Hn2 Hf. destruct (ho_brk _ _ _ H) as [Hb1 Hb2]. unfold morecore. replace (if nunits <? 4096 then 4096 else nunits) with (request nunits).
  2: { unfold request. destruct (Z.ltb_spec nunits 4096); lia. }
  assert (Hr : 4096 <= request nunits /\ nunits <= request nunits /\ request nunits * 16 < 2 ^ 31) by (unfold request, HEADER in *; lia).
  set (nu := request nunits) in *. clearbody nu. unfold HEADER in Hn2. unfold sbrk. apply wp_bind, wp_bind, wp_get. rewrite s32_small by (unfold HEADER; lia).
  destruct (grant (brk s + nu * HEADER)) eqn:Eg.
  2: { apply wp_ret. rewrite Z.eqb_refl. apply wp_ret. by left. }
  apply wp_bind, wp_upd, wp_ret. unfold SBRK_ERROR. rewrite (proj2 (Z.eqb_neq (brk s) (2 ^ 64 - 1))) by lia.
  apply wp_bind, wp_upd. pose proof (sbrk_ok fl al s nu H ltac:(lia) Eg) as H1. set (s1 := set_umem _ _) in *.
  rewrite u64_small by (unfold HEADER in *; lia).
  destruct (free_ok fuel fl [] (brk s) nu al s1 H1 Hf) as (s2 & fl' & E & H2 & _ & Hlen & (c & Hc & Hcn) & Hk).
  apply wp_bind. eapply wp_run; [exact E|]. apply wp_get. right. split_and!.
  - pose proof (ho_freep _ _ _ H2) as Hfp. apply list_elem_of_fmap in Hfp as (b & -> & Hb). destruct (node_size _ _ _ _ H2 Hb). lia.
  - done.
  - intros b x Hb Hx. rewrite (Hk b x Hb Hx). apply set_hsize_out. destruct (ho_within _ _ _ b H ltac:(set_solver)). lia.
  - exists fl'. split_and!; try done. exists c. split; [done|]. lia.
Qed.

Lemma malloc_loop_ok fl al s nunits :
  heap_ok fl al s -> 1 <= nunits -> nunits * HEADER < 2 ^ 31 -> (2 * length fl + 3 < fuel)%nat ->
  wp (malloc_loop grant fuel fuel nunits (freep s) (hptr (umem s) (freep s))) (fun v s' =>
    got al nunits s v s' \/ (v = 0 /\ s' = s /\ grant (brk s + request nunits * HEADER) = false)) s.
Proof.
  intros H Hn1 Hn2 Hf. destruct (ring_from _ _ _ H) as (f & todo & Hfn & Ef & Hp & Hc & Hin & Hall & Hlen). rewrite <- Ef, Hp.
  destruct (decide (Exists (fun c : block => nunits <= snd c) (todo ++ [f]))) as [Hex|Hno].
  - eapply wp_mono; [apply (scan_found fl al s f nunits H Hfn Ef Hn1 todo f fuel Hfn Hp Hc Hin); [by apply Exists_exists|lia]|]. auto.
  - assert (Hlt : forall c, c ∈ todo ++ [f] -> snd c < nunits).
    { intros c Hcin. destruct (Z.lt_ge_cases (snd c) nunits); [done|]. destruct Hno. apply Exists_exists. by exists c. }
    eapply (scan_none _ _ _ _ _ _ H Hfn Ef todo f fuel (fuel - length todo - 1)); try done; [lia|].
    apply wp_bind. eapply wp_mono; [apply (morecore_ok fl al s nunits); [done..|lia]|].
    intros q s' [(-> & -> & Hg)|(Hq & Hq' & Hk & fl' & H' & Hl' & c' & Hc' & Hcn)].
    + apply wp_ret. auto.
    + rewrite (proj2 (Z.eqb_neq q 0)) by done. apply wp_bind, wp_get. subst q.
      destruct (ring_from _ _ _ H') as (f' & todo' & Hfn' & Ef' & Hp' & Hc'' & Hin' & Hall' & Hlen'). rewrite <- Ef', Hp'.
      eapply wp_mono; [apply (scan_found fl' al s' f' nunits H' Hfn' Ef' Hn1 todo' f' _ Hfn' Hp' Hc'' Hin'); [exists c'; split; [apply Hall'; by right|done]|lia]|].
      intros v s2 (r & fl2 & -> & H2 & Hk2). left. exists r, fl2. split_and!; try done. intros b x Hb Hx. rewrite (Hk2 b x Hb Hx). by apply (Hk b).
Qed.
End loop.

(** ** Every state a program can reach *)

Lemma gaps_length lo hi l : gaps lo l -> lo <= hi -> (forall c, c ∈ l -> fst c + snd c * HEADER <= hi) -> lo + Z.of_nat (length l) * HEADER <= hi.
Proof.
  revert lo. induction l as [|b l IH]; intros lo; cbn [gaps length]; [lia|]. intros (H1 & H2 & H3) Hlo Hl. unfold HEADER in *.
  pose proof (Hl b ltac:(by left)). assert (Hr : fst b + snd b * 16 + Z.of_nat (length l) * 16 <= hi); [|lia].
  apply IH; [done|lia|]. intros c Hc. apply Hl. by right.
Qed.

Lemma ring_length fl al s : heap_ok fl al s -> Z.of_nat (length fl) * HEADER <= limit - base.
Proof.
  intros H. destruct (ho_brk _ _ _ H). unfold HEADER in *.
  assert (Hl : base + Z.of_nat (length fl) * HEADER <= limit); [|unfold HEADER in *; lia].
  apply gaps_length; [apply (ho_gaps _ _ _ H)|lia|]. intros c Hc. destruct (ho_within _ _ _ c H ltac:(set_solver)). lia.
Qed.

(** Before the first [malloc] nothing is set up. *)
Definition heap al s : Prop := (freep s = 0 /\ al = [] /\ brk s = heap0) \/ exists fl, heap_ok fl al s.

Definition units (nbytes : Z) : Z := (nbytes + HEADER - 1) / HEADER + 1.

Lemma heap_init s :
  brk s = heap0 -> heap_ok [] [] (set_umem (set_hsize base 0) (set_freep base (set_umem (set_hptr base base) s))).
Proof.
  intros Hb. unfold HEADER in *. split; cbn [umem set_umem set_freep freep brk nodes chain fst snd first].
  - split_and!; [|apply set_hsize_same; lia|done]. rewrite hptr_set_hsize. apply set_hptr_same. lia.
  - done.
  - intros x. rewrite Hb. unfold interval, cover. simpl. destruct (Z.leb_spec heap0 x), (Z.ltb_spec x heap0); simpl; try done; lia.
  - intros b Hin. by apply elem_of_nil in Hin.
  - set_solver.
  - lia.
Qed.

Section run.
Variable fuel : nat.
Hypothesis Hfuel : (limit - base) / 8 + 8 <= Z.of_nat fuel.

Lemma ring_fuel fl al s : heap_ok fl al s -> (2 * length fl + 3 < fuel)%nat.
Proof. intros H%ring_length. unfold HEADER in H. Z.to_euclidean_division_equations. lia. Qed.

Lemma malloc_ok al s nbytes :
  heap al s -> 0 <= nbytes <= 2 ^ 31 - 64 ->
  wp (malloc base grant fuel nbytes) (fun v s' => kept al s s' /\
    ((exists r, v = r + HEADER /\ heap0 <= r /\ heap ((r, units nbytes) :: al) s') \/
     (v = 0 /\ heap al s' /\ grant (brk s + request (units nbytes) * HEADER) = false))) s.
Proof.
  intros H Hn. assert (Hu : 1 <= units nbytes /\ units nbytes * 16 < 2 ^ 31) by (unfold units, HEADER; Z.to_euclidean_division_equations; lia).
  unfold malloc. fold (units nbytes). rewrite u32_small by lia. set (u := units nbytes) in *. clearbody u.
  assert (Hloop : forall fl s1, heap_ok fl al s1 -> brk s1 = brk s -> kept al s s1 ->
    wp (malloc_loop grant fuel fuel u (freep s1) (hptr (umem s1) (freep s1))) (fun v s' => kept al s s' /\
      ((exists r, v = r + HEADER /\ heap0 <= r /\ heap ((r, u) :: al) s') \/ (v = 0 /\ heap al s' /\ grant (brk s + request u * HEADER) = false))) s1).
  { intros fl s1 H1 Eb Hk. eapply wp_mono; [apply (malloc_loop_ok fuel fl al s1 u); [done|lia|unfold HEADER; lia|by eapply ring_fuel]|].
    intros v s' [(r & fl' & -> & H' & Hk')|(-> & -> & Hg)].
    - split; [intros b x Hb Hx; rewrite (Hk' b x Hb Hx); by apply (Hk b)|]. left. exists r. split_and!; [done| |by right; exists fl'].
      by apply (ho_within _ _ _ (r, u) H'); set_solver.
    - split; [done|]. right. split_and!; [done|by right; exists fl|by rewrite <- Eb]. }
  apply wp_bind, wp_get. destruct H as [(Ef & -> & Eb)|(fl & H)].
  - rewrite Ef, Z.eqb_refl. apply wp_bind, wp_bind, wp_upd, wp_bind, wp_upd, wp_ret. apply wp_bind, wp_get.
    pose proof (heap_init s Eb) as H1. set (s1 := set_umem _ _) in *. change base with (freep s1) at 1 2. apply (Hloop [] s1); [done|done|].
    intros b x Hb. by apply elem_of_nil in Hb.
  - assert (Hf : freep s <> 0).
    { pose proof (ho_freep _ _ _ H) as Hfp. apply list_elem_of_fmap in Hfp as (b & -> & Hb). destruct (node_size _ _ _ _ H Hb). lia. }
    rewrite (proj2 (Z.eqb_neq _ 0)) by done. apply wp_bind, wp_ret, wp_bind, wp_get. by apply (Hloop fl s).
Qed.

(** A store to the part of a block that is the program's. *)
Lemma user_store_ok fl al s b x v :
  heap_ok fl al s -> b ∈ al -> fst b + HEADER <= x < fst b + snd b * HEADER -> heap_ok fl al (set_umem (fun m => upd m x v) s).
Proof.
  intros H Hb Hx. assert (Hm : forall y, y <> x -> upd (umem s) x v y = umem s y) by (intros; by apply upd_ne).
  split; cbn [umem set_umem freep brk]; try apply H.
  - eapply links_ext; [|apply (ho_chain _ _ _ H)]. intros c y Hc Hy. apply Hm. intros ->.
    apply (header_apart fl al s b c x H); try done. unfold HEADER in *. lia.
  - intros c Hc. destruct (ho_alloc _ _ _ H c Hc) as [Ha1 Ha2]. split; [done|]. rewrite <- Ha2. apply header_ext. intros y Hy. apply Hm. intros ->.
    destruct (decide (c = b)) as [->|Hne]; [lia|]. apply list_elem_of_split in Hb as (al1 & al2 & ->).
    pose proof (ho_apart _ _ _ _ _ c H ltac:(set_solver)). unfold HEADER in *. lia.
Qed.

(** What a program does with the allocator: [ureach al s] if it can reach
    [s] with the blocks [al], address and size asked for, in its hands. *)
Inductive ureach : list (Z * Z) -> ustate -> Prop :=
  | ur_start s : freep s = 0 -> brk s = heap0 -> ureach [] s
  | ur_malloc al s n v s' :
      ureach al s -> 0 <= n <= 2 ^ 31 - 64 -> malloc base grant fuel n s = Ret v s' -> ureach (if v =? 0 then al else (v, n) :: al) s'
  | ur_free al1 v n al2 s s' :
      ureach (al1 ++ (v, n) :: al2) s -> free fuel v s = Ret tt s' -> ureach (al1 ++ al2) s'
  | ur_store al s v n x c :
      ureach al s -> (v, n) ∈ al -> v <= x < v + n -> ureach al (set_umem (fun m => upd m x c) s).

Definition in_hand (a b : Z * Z) : Prop := fst a = fst b + HEADER /\ 0 <= snd a <= (snd b - 1) * HEADER.

Lemma units_enough r n : 0 <= n -> in_hand (r + HEADER, n) (r, units n).
Proof. intros Hn. split; [done|]. simpl. unfold units, HEADER. Z.to_euclidean_division_equations. lia. Qed.

Lemma ureach_heap al s : ureach al s -> exists bl, Forall2 in_hand al bl /\ heap bl s.
Proof.
  induction 1 as [s Hf Hb|al s n v s' _ (bl & Hbl & H) Hn E|al1 v n al2 s s' _ (bl & Hbl & H) E|al s v n x c _ (bl & Hbl & H) Hin Hx].
  - exists []. split; [constructor|]. by left.
  - destruct (wp_det _ _ _ _ _ (malloc_ok _ _ _ H Hn) E) as [_ [(r & -> & Hr & H')|(-> & H' & _)]].
    + unfold HEADER in *. rewrite (proj2 (Z.eqb_neq _ 0)) by lia. exists ((r, units n) :: bl). split; [|done]. constructor; [apply units_enough; lia|done].
    + by exists bl.
  - apply Forall2_app_inv_l in Hbl as (bl1 & bl' & H1 & H2 & ->). apply Forall2_cons_inv_l in H2 as ([bp u] & bl2 & [Hv Hsz] & H2 & ->). simpl in Hv, Hsz.
    exists (bl1 ++ bl2). split; [by apply Forall2_app|]. destruct H as [(_ & Hnil & _)|(fl & H)]; [by destruct bl1|].
    subst v. destruct (free_ok fuel _ _ _ _ _ _ H) as (s2 & fl' & E' & H' & _); [pose proof (ring_fuel _ _ _ H); lia|]. rewrite E in E'. injection E' as <-.
    right. by exists fl'.
  - exists bl. split; [done|]. apply list_elem_of_split in Hin as (al1 & al2 & ->). apply Forall2_app_inv_l in Hbl as (bl1 & bl' & H1 & H2 & ->).
    apply Forall2_cons_inv_l in H2 as ([bp u] & bl2 & [Hv Hsz] & H2 & ->). simpl in Hv, Hsz. destruct H as [(_ & Hnil & _)|(fl & H)]; [by destruct bl1|].
    right. exists fl. apply (user_store_ok fl _ s (bp, u)); [done|set_solver|]. simpl. unfold HEADER in *. lia.
Qed.

(** The bytes of the blocks [al] are the same in [s'] as in [s]. *)
Definition same_bytes (al : list (Z * Z)) s s' : Prop :=
  forall a x, a ∈ al -> fst a <= x < fst a + snd a -> umem s' x = umem s x.

Lemma kept_same al bl s s' : Forall2 in_hand al bl -> kept bl s s' -> same_bytes al s s'.
Proof.
  intros Hf Hk a x Ha Hx. apply list_elem_of_lookup in Ha as (i & Ha). destruct (Forall2_lookup_l _ _ _ _ _ Hf Ha) as (b & Hb & [H1 H2]).
  apply (Hk b); [by apply list_elem_of_lookup_2 in Hb|]. unfold HEADER in *. lia.
Qed.

Lemma hand_apart al1 a al2 a' bl s :
  Forall2 in_hand (al1 ++ a :: al2) bl -> heap bl s -> a' ∈ al1 ++ al2 ->
  heap0 <= fst a /\ fst a + snd a <= brk s /\ (fst a + snd a <= fst a' \/ fst a' + snd a' <= fst a).
Proof.
  intros Hf H Ha'. apply Forall2_app_inv_l in Hf as (bl1 & bl' & H1 & H2 & ->). apply Forall2_cons_inv_l in H2 as (b & bl2 & [Hv Hsz] & H2 & ->).
  destruct H as [(_ & Hnil & _)|(fl & H)]; [by destruct bl1|]. destruct (ho_within _ _ _ b H ltac:(set_solver)) as [Hb1 Hb2].
  pose proof (Forall2_app H1 H2) as H12. apply list_elem_of_lookup in Ha' as (i & Ha'). destruct (Forall2_lookup_l _ _ _ _ _ H12 Ha') as (b' & Hb' & [Hv' Hsz']).
  pose proof (ho_apart _ _ _ _ _ b' H ltac:(apply elem_of_app; right; by apply list_elem_of_lookup_2 in Hb')) as Ha. unfold HEADER in *. lia.
Qed.

End run.
End heap.


(** A request for almost 2^32 bytes: the number of bytes asked of [sbrk] is
    converted to an [int] and becomes 16, so that malloc returns the address
    of the break itself. *)
Theorem malloc_huge_overflows :
  exists s', malloc 2048 (fun z => z <=? 69632) 100 (2 ^ 32 - 1) (UState (fun _ => 0) 0 4096) = Ret 4112 s' /\ brk s' = 4112.
Proof.
  destruct (malloc 2048 (fun z => z <=? 69632) 100 (2 ^ 32 - 1) (UState (fun _ => 0) 0 4096)) as [v s'| |] eqn:E.
  2, 3: vm_compute in E; discriminate.
  exists s'. vm_compute in E. injection E as <- <-. split; reflexivity.
Qed.
