(* ===== verification/Shell.v ===== *)
(** * user/sh.c: the shell

    A command line is a C string, the bytes before its NUL; a pointer into
    it is the suffix that begins there, and the parser's [*ps] is the state
    of its monad.  Leaves of a command are pointers to the start and to the
    end of a word; [nulterminate] stores a NUL at each end, after which the
    starts are C strings.  A command is run by a process and the processes
    it forks: [runcmd] and [main] give the tree of their system calls. *)

From S2P Require Import Prelude Sysfile Userland.

Definition MAXARGS : Z := 10.

(** A word: its start and its end. *)
Definition slice : Type := list Z * list Z.

(** [struct cmd] and its five kinds. *)
Inductive cmd :=
  | EXEC (argv : list slice)
  | REDIR (c : cmd) (file : slice) (mode fd : Z)
  | PIPE (left right : cmd)
  | LIST (left right : cmd)
  | BACK (c : cmd).

Definition whitespace : list Z := [32; 9; 13; 10; 11].
Definition symbols : list Z := [60; 124; 62; 38; 59; 40; 41].

(** [strchr(l, c) != 0]. *)
Definition within (l : list Z) (c : Z) : bool := existsb (Z.eqb c) l.
#[global] Arguments within : simpl never.

(** ** Tokens *)

Fixpoint skip_space (s : list Z) : list Z :=
  match s with
  | [] => []
  | c :: s' => if within whitespace c then skip_space s' else s
  end.

Fixpoint skip_word (s : list Z) : list Z :=
  match s with
  | [] => []
  | c :: s' => if negb (within whitespace c) && negb (within symbols c) then skip_word s' else s
  end.

(** The kind of the token, and its start and end. *)
Definition gettoken : M (list Z) (Z * slice) := fun s =>
  let q := skip_space s in
  let (ret, eq) :=
    match q with
    | [] => (0, q)
    | c :: s' =>
        if within [124; 40; 41; 59; 38; 60] c then (c, s') else
        if c =? 62 then
          match s' with
          | d :: s'' => if d =? 62 then (43, s'') else (c, s')
          | [] => (c, s')
          end
        else (97, skip_word q)
    end in
  Ret (ret, (q, eq)) (skip_space eq).

Definition peek (toks : list Z) : M (list Z) bool := fun s =>
  let s := skip_space s in
  Ret (match s with [] => false | c :: _ => within toks c end) s.

(** ** Commands *)

(** What [parseredirs] adds around a command, outermost last. *)
Definition redir : Type := slice * Z * Z.
Definition wrap (rs : list redir) (c : cmd) : cmd :=
  fold_left (fun c r => REDIR c (fst (fst r)) (snd (fst r)) (snd r)) rs c.

Definition redir_of (tok : Z) (file : slice) : list redir :=
  if tok =? 60 then [(file, O_RDONLY, 0)]
  else if tok =? 62 then [(file, Z.lor (Z.lor O_WRONLY O_CREATE) O_TRUNC, 1)]
  else if tok =? 43 then [(file, Z.lor O_WRONLY O_CREATE, 1)]
  else [].

Fixpoint parseredirs (fuel : nat) : M (list Z) (list redir) :=
  match fuel with
  | O => khang
  | S f =>
      let! b := peek [60; 62] in
      if b then
        let! t := gettoken in
        let! u := gettoken in
        if negb (fst u =? 97) then kpanic "missing file for redirection" else
        let! rs := parseredirs f in
        kret (redir_of (fst t) (snd u) ++ rs)
      else kret []
  end.

(** The loop of [parseexec].  The code appends to the [argv] of a command
    that redirections already point to; here the two are put together at
    the end. *)
Fixpoint parseargs (fuel : nat) (argv : list slice) (rs : list redir) : M (list Z) cmd :=
  match fuel with
  | O => khang
  | S f =>
      let! b := peek [124; 41; 38; 59] in
      if b then kret (wrap rs (EXEC argv)) else
      let! t := gettoken in
      if fst t =? 0 then kret (wrap rs (EXEC argv)) else
      if negb (fst t =? 97) then kpanic "syntax" else
      let argv := argv ++ [snd t] in
      if Z.of_nat (length argv) >=? MAXARGS then kpanic "too many args" else
      let! rs' := parseredirs f in
      parseargs f argv (rs ++ rs')
  end.

(** The loop of [parseline] on [&]. *)
Fixpoint parsebacks (fuel : nat) (c : cmd) : M (list Z) cmd :=
  match fuel with
  | O => khang
  | S f =>
      let! b := peek [38] in
      if b then let! _ := gettoken in parsebacks f (BACK c) else kret c
  end.

Fixpoint parseline (fuel : nat) : M (list Z) cmd :=
  match fuel with
  | O => khang
  | S f =>
      let! c := parsepipe f in
      let! c := parsebacks f c in
      let! b := peek [59] in
      if b then
        let! _ := gettoken in
        let! r := parseline f in
        kret (LIST c r)
      else kret c
  end
with parsepipe (fuel : nat) : M (list Z) cmd :=
  match fuel with
  | O => khang
  | S f =>
      let! c := parseexec f in
      let! b := peek [124] in
      if b then
        let! _ := gettoken in
        let! r := parsepipe f in
        kret (PIPE c r)
      else kret c
  end
with parseexec (fuel : nat) : M (list Z) cmd :=
  match fuel with
  | O => khang
  | S f =>
      let! b := peek [40] in
      if b then parseblock f else
      let! rs := parseredirs f in
      parseargs f [] rs
  end
with parseblock (fuel : nat) : M (list Z) cmd :=
  match fuel with
  | O => khang
  | S f =>
      let! b := peek [40] in
      if negb b then kpanic "parseblock" else
      let! _ := gettoken in
      let! c := parseline f in
      let! b := peek [41] in
      if negb b then kpanic "syntax - missing )" else
      let! _ := gettoken in
      let! rs := parseredirs f in
      kret (wrap rs c)
  end.

(** [*e = 0] in the buffer that holds the line of [n] bytes. *)
Definition put_nul (n : nat) (e : list Z) (buf : list Z) : list Z := <[(n - length e)%nat := 0]> buf.

Fixpoint nulterminate (n : nat) (c : cmd) (buf : list Z) : list Z :=
  match c with
  | EXEC argv => fold_left (fun buf w => put_nul n (snd w) buf) argv buf
  | REDIR c file _ _ => put_nul n (snd file) (nulterminate n c buf)
  | PIPE l r | LIST l r => nulterminate n r (nulterminate n l buf)
  | BACK c => nulterminate n c buf
  end.

Definition parse_fuel (line : list Z) : nat := (5 * length line + 6)%nat.

(** The command and the buffer after it. *)
Definition parsecmd (line : list Z) : outcome (list Z) (cmd * list Z) :=
  (let! c := parseline (parse_fuel line) in
   let! _ := peek [] in
   let! s := kget (fun s => s) in
   if negb (bool_decide (s = [])) then kpanic "syntax" else
   kret (c, nulterminate (length line) c (line ++ [0]))) line.

(** The C string at the start of a word. *)
Definition string_of (n : nat) (buf : list Z) (w : slice) : list Z := cstring (drop (n - length (fst w)) buf).

(** ** Running *)

(** [panic], with the descriptors of the process. *)
Definition sh_panic (t : fdtable) (msg : list Z) : beh := Bprint (fd_get t 2) (msg ++ [10]) (Bexit 1).

Definition fork1 (t : fdtable) (child parent : beh) : beh := Bfork child parent (sh_panic t (text "fork")).

Definition exec_argv (argv : list (list Z)) (t : fdtable) : beh :=
  match argv with
  | [] => Bexit 1
  | a :: _ =>
      let failed := Bprint (fd_get t 2) (text "exec " ++ a ++ text " failed" ++ [10]) (Bexit 0) in
      Bexec a argv t (if negb (hd 0 a =? 47) then Bexec (47 :: a) argv t failed else failed)
  end.

(** A child of a pipeline makes the end [p] of the pipe its descriptor [fd]. *)
Definition plumb (t : fdtable) (fd p p0 p1 : Z) : fdtable :=
  let t := fd_close t fd in
  let t := match fd_dup t p with Some (_, t) => t | None => t end in
  fd_close (fd_close t p0) p1.

(** [here] tells the processes of a command apart, to name their pipes. *)
Fixpoint runcmd (n : nat) (buf : list Z) (c : cmd) (t : fdtable) (here : list bool) : beh :=
  match c with
  | EXEC argv => exec_argv (string_of n buf <$> argv) t
  | REDIR c file mode fd =>
      let file := string_of n buf file in
      let t := fd_close t fd in
      let failed := Bprint (fd_get t 2) (text "open " ++ file ++ text " failed" ++ [10]) (Bexit 1) in
      match fd_new t (OFile file mode) with
      | Some (_, t) => Bopen file mode (runcmd n buf c t here) failed
      | None => failed
      end
  | LIST l r => fork1 t (runcmd n buf l t (false :: here)) (Bwait t (runcmd n buf r t (true :: here)))
  | PIPE l r =>
      match fd_pipe t here with
      | None => sh_panic t (text "pipe")
      | Some (p0, p1, t') =>
          Bpipe here
            (fork1 t' (runcmd n buf l (plumb t' 1 p1 p0 p1) (false :: here))
              (fork1 t' (runcmd n buf r (plumb t' 0 p0 p0 p1) (true :: here))
                (let t := fd_close (fd_close t' p0) p1 in Bwait t (Bwait t (Bexit 0)))))
            (sh_panic t (text "pipe"))
      end
  | BACK c => fork1 t (runcmd n buf c t (false :: here)) (Bexit 0)
  end.

(** ** The command loop *)

Fixpoint skip_blanks (s : list Z) : list Z :=
  match s with
  | [] => []
  | c :: s' => if (c =? 32) || (c =? 9) then skip_blanks s' else s
  end.

(** The child that parses a line and runs it. *)
Definition run_line (line : list Z) (t : fdtable) (here : list bool) : beh :=
  match parsecmd line with
  | Ret (c, buf) _ => runcmd (length line) buf c t here
  | Panic msg => sh_panic t (text msg)
  | Hang => Bexit (-1)
  end.

(** The loop of [main] on the strings that [gets] stores, until it stores
    none at the end of the input. *)
Fixpoint commands (lines : list (list Z)) (t : fdtable) (here : list bool) : beh :=
  Bprint (fd_get t 2) (text "$ ")
    match lines with
    | [] => Bexit 0
    | [] :: _ => Bexit 0
    | line :: lines =>
        let cmd := skip_blanks line in
        let rest := commands lines t (true :: here) in
        if hd 0 cmd =? 10 then rest
        else if bool_decide (take 3 cmd = text "cd ") then
          let path := drop 3 (take (length cmd - 1) cmd) in
          Bchdir path rest (Bprint (fd_get t 2) (text "cannot cd " ++ path ++ [10]) rest)
        else fork1 t (run_line cmd t (false :: here)) (Bwait t rest)
    end.

(** The first loop of [main], then the second one. *)
Fixpoint main (fuel : nat) (lines : list (list Z)) (t : fdtable) : beh :=
  match fuel with
  | O => commands lines t []
  | S f =>
      let console := text "console" in
      match fd_new t (OFile console O_RDWR) with
      | None => commands lines t []
      | Some (fd, t') =>
          Bopen console O_RDWR
            (if fd >=? 3 then commands lines (fd_close t' fd) [] else main f lines t')
            (commands lines t [])
      end
  end.
