(* ===== verification/ShellSpec.v ===== *)
(** * The shell's parser: what the code guarantees

    Commands as abstract syntax, how they are written as tokens and how
    tokens are spelled; the parser reads every such spelling back. *)

From S2P Require Import Prelude Sysfile Userland Shell.

(** ** Syntax *)

Inductive kind := In | Out | Append.
Inductive ast :=
  | Exec (args : list (list Z))
  | Redir (c : ast) (k : kind) (file : list Z)
  | Pipe (l r : ast)
  | Seq (l r : ast)
  | Back (c : ast).

Definition is_space (c : Z) : bool := within whitespace c.
Definition is_word (c : Z) : bool := negb (within whitespace c) && negb (within symbols c).

Definition word (w : list Z) : Prop := w <> [] /\ Forall (fun c => is_word c = true) w /\ 0 ∉ w.

Fixpoint wf (c : ast) : Prop :=
  match c with
  | Exec args => Forall word args /\ (length args < 10)%nat
  | Redir c _ f => wf c /\ word f
  | Pipe l r | Seq l r => wf l /\ wf r
  | Back c => wf c
  end.

(** ** Tokens *)

Inductive tok := TSym (c : Z) | TApp | TWord (w : list Z).

Definition tok_bytes (t : tok) : list Z := match t with TSym c => [c] | TApp => [62; 62] | TWord w => w end.
Definition tok_code (t : tok) : Z := match t with TSym c => c | TApp => 43 | TWord _ => 97 end.
Definition tok_ok (t : tok) : Prop := match t with TSym c => c ∈ symbols | TApp => True | TWord w => word w end.

Definition redir_tok (k : kind) : tok := match k with In => TSym 60 | Out => TSym 62 | Append => TApp end.

(** How tightly the place of a command binds: as a whole line, before [&],
    in a pipeline, as a simple command. *)
Inductive level := LLine | LBack | LPipe | LExec.

Definition paren (b : bool) (ts : list tok) : list tok := if b then [TSym 40] ++ ts ++ [TSym 41] else ts.

Fixpoint print (lvl : level) (c : ast) : list tok :=
  match c with
  | Exec args => TWord <$> args
  | Redir c k f => print LExec c ++ [redir_tok k; TWord f]
  | Pipe l r => paren (match lvl with LExec => true | _ => false end) (print LExec l ++ [TSym 124] ++ print LPipe r)
  | Back c => paren (match lvl with LExec | LPipe => true | _ => false end) (print LBack c ++ [TSym 38])
  | Seq l r => paren (match lvl with LLine => false | _ => true end) (print LBack l ++ [TSym 59] ++ print LLine r)
  end.

(** The text does not go on with the token. *)
Definition stops (s : list Z) : Prop := match s with [] => True | c :: _ => is_word c = false end.
Definition ends (t : tok) (s : list Z) : Prop :=
  match t with TWord _ => stops s | TSym c => c = 62 -> head s <> Some 62 | TApp => True end.

(** [s] is the text of the tokens, with any white space around them. *)
Inductive spells : list tok -> list Z -> Prop :=
  | sp_nil s : Forall (fun c => is_space c = true) s -> spells [] s
  | sp_cons b t ts s :
      Forall (fun c => is_space c = true) b -> tok_ok t -> ends t s -> spells ts s -> spells (t :: ts) (b ++ tok_bytes t ++ s).

Lemma skip_space_app b s : Forall (fun c => is_space c = true) b -> skip_space (b ++ s) = skip_space s.
Proof. induction 1 as [|c b Hc Hb IH]; simpl; [done|]. unfold is_space in Hc. by rewrite Hc. Qed.

Lemma skip_space_suffix s : skip_space s `suffix_of` s.
Proof.
  induction s as [|c s IH]; simpl; [done|]. destruct (within whitespace c); [|done]. by apply suffix_cons_r.
Qed.

(** The first byte of a token is not white space. *)
Lemma tok_first t : tok_ok t -> exists c s, tok_bytes t = c :: s /\ is_space c = false /\
  match t with TWord _ => is_word c = true | TSym d => c = d | TApp => c = 62 end.
Proof.
  destruct t as [c| |w]; simpl.
  - intros Hc. exists c, []. split_and!; try done. unfold symbols in Hc. set_unfold in Hc. by destruct_or! Hc; subst c.
  - intros _. by exists 62, [62].
  - intros (Hw & Hf & _). destruct w as [|c w]; [done|]. apply Forall_cons in Hf as [Hc Hf]. exists c, w. split_and!; try done.
    unfold is_word in Hc. unfold is_space. by destruct (within whitespace c).
Qed.

Lemma spells_trim ts s : spells ts s -> spells ts (skip_space s).
Proof.
  intros [s' Hs|b t ts' s' Hb Ht He Hs].
  - rewrite <- (app_nil_r s'), skip_space_app by done. by constructor.
  - rewrite skip_space_app by done. destruct (tok_first t Ht) as (c & r & E & Hc & _). rewrite E. simpl. unfold is_space in Hc. rewrite Hc.
    change (c :: r ++ s') with ((c :: r) ++ s'). rewrite <- E. by apply (sp_cons [] t ts' s').
Qed.

(** Whether the first token starts with one of [toks]. *)
Definition starts (toks : list Z) (ts : list tok) : bool :=
  match ts with
  | [] => false
  | t :: _ => match tok_bytes t with c :: _ => within toks c | [] => false end
  end.

Lemma peek_spells toks ts s : spells ts s ->
  exists s', peek toks s = Ret (starts toks ts) s' /\ spells ts s' /\ s' `suffix_of` s.
Proof.
  intros H. exists (skip_space s). split_and!; [|by apply spells_trim|apply skip_space_suffix]. unfold peek. f_equal.
  destruct H as [s Hs|b t ts s Hb Ht He Hs].
  - rewrite <- (app_nil_r s), skip_space_app by done. done.
  - rewrite skip_space_app by done. destruct (tok_first t Ht) as (c & r & E & Hc & _). cbn [starts]. rewrite E. simpl. unfold is_space in Hc. by rewrite Hc.
Qed.

Lemma skip_word_spec w s : Forall (fun c => is_word c = true) w -> stops s -> skip_word (w ++ s) = s.
Proof.
  intros Hw Hs. induction Hw as [|c w Hc Hw IH]; simpl.
  - destruct s as [|c s]; [done|]. simpl in *. unfold is_word in Hs. by rewrite Hs.
  - unfold is_word in Hc. by rewrite Hc.
Qed.

(** A word of the line: it begins at [fst w] and ends at [snd w]. *)
Definition is_slice (line : list Z) (w : slice) (l : list Z) : Prop :=
  fst w `suffix_of` line /\ fst w = l ++ snd w /\ stops (snd w).

Lemma gettoken_spells t ts s : spells (t :: ts) s ->
  exists w s', gettoken s = Ret (tok_code t, w) s' /\ spells ts s' /\ s' `suffix_of` s /\ (length s' < length s)%nat /\
    match t with TWord l => is_slice s w l | _ => True end.
Proof.
  intros H. inversion H as [|b t' ts' s' Hb Ht He Hs]; subst. unfold gettoken. rewrite skip_space_app by done.
  destruct (tok_first t Ht) as (c & r & E & Hc & Hk).
  assert (Eq : skip_space (tok_bytes t ++ s') = tok_bytes t ++ s') by (rewrite E; simpl; unfold is_space in Hc; by rewrite Hc). rewrite Eq. clear Eq.
  assert (Hsuf : skip_space s' `suffix_of` b ++ tok_bytes t ++ s').
  { rewrite app_assoc. apply suffix_app_r, skip_space_suffix. }
  assert (Hlen : (length (skip_space s') < length (b ++ tok_bytes t ++ s'))%nat).
  { pose proof (suffix_length _ _ (skip_space_suffix s')). rewrite !length_app, E. simpl. lia. }
  assert (Hgo : forall q eq, eq = s' -> match t with TWord l => is_slice (b ++ tok_bytes t ++ s') (q, eq) l | _ => True end ->
    exists w s'', Ret (tok_code t, (q, eq)) (skip_space eq) = Ret (tok_code t, w) s'' /\ spells ts s'' /\ s'' `suffix_of` b ++ tok_bytes t ++ s' /\
      (length s'' < length (b ++ tok_bytes t ++ s'))%nat /\ match t with TWord l => is_slice (b ++ tok_bytes t ++ s') w l | _ => True end).
  { intros q eq -> Hw. exists (q, s'), (skip_space s'). split_and!; try done. by apply spells_trim. }
  destruct t as [d| |w]; cbn [tok_bytes app tok_code] in *.
  - subst c. simpl in Ht. unfold symbols in Ht. set_unfold in Ht. destruct_or! Ht; subst d; try by apply Hgo.
    cbn. destruct s' as [|d s']; [by apply Hgo|]. destruct (Z.eqb_spec d 62) as [->|]; [|by apply Hgo]. by destruct (He eq_refl).
  - by apply Hgo.
  - destruct Ht as (Hw & Hf & Hz). rewrite E in *. cbn [app]. unfold is_word in Hk.
    assert (Hcs : within symbols c = false) by (destruct (within symbols c); [by rewrite andb_false_r in Hk|done]).
    unfold within, symbols in Hcs. simpl in Hcs. rewrite !orb_false_iff in Hcs. destruct Hcs as (C1 & C2 & C3 & C4 & C5 & C6 & C7 & _).
    assert (Ew : within [124; 40; 41; 59; 38; 60] c = false) by (unfold within; simpl; by rewrite C1, C2, C4, C5, C6, C7).
    rewrite Ew, C3. replace (skip_word (c :: r ++ s')) with s' by (symmetry; by apply (skip_word_spec (c :: r))).
    apply Hgo; [done|]. split_and!; [by apply suffix_app_r|done|done].
Qed.

(** ** What the parser builds *)

Definition mode_of (k : kind) : Z * Z :=
  match k with In => (O_RDONLY, 0) | Out => (Z.lor (Z.lor O_WRONLY O_CREATE) O_TRUNC, 1) | Append => (Z.lor O_WRONLY O_CREATE, 1) end.

(** The command [k] of the parser, with its words in [line], is [c]. *)
Fixpoint rep (line : list Z) (k : cmd) (c : ast) : Prop :=
  match k, c with
  | EXEC argv, Exec args => Forall2 (is_slice line) argv args
  | REDIR k f mode fd, Redir c kd l => rep line k c /\ is_slice line f l /\ (mode, fd) = mode_of kd
  | PIPE k1 k2, Pipe c1 c2 | LIST k1 k2, Seq c1 c2 => rep line k1 c1 /\ rep line k2 c2
  | BACK k, Back c => rep line k c
  | _, _ => False
  end.

Lemma is_slice_mono s line w l : s `suffix_of` line -> is_slice s w l -> is_slice line w l.
Proof. intros Hs (H1 & H2 & H3). split_and!; try done. by etrans. Qed.

Definition follow (toks : list Z) (ts : list tok) : Prop := ts = [] \/ starts toks ts = true.

Lemma follow_not toks toks' ts : follow toks ts -> forallb (fun c => negb (within toks' c)) toks = true -> starts toks' ts = false.
Proof.
  intros [->|H] Hn; [done|]. destruct ts as [|t ts]; [done|]. cbn [starts] in *. destruct (tok_bytes t) as [|c r]; [done|].
  unfold within in H. apply existsb_exists in H as (d & Hd & ->%Z.eqb_eq). rewrite forallb_forall in Hn. specialize (Hn d Hd).
  by destruct (within toks' d).
Qed.

Lemma starts_word toks w ts : word w -> forallb (within symbols) toks = true -> starts toks (TWord w :: ts) = false.
Proof.
  intros (Hw & Hf & _) Ht. cbn [starts tok_bytes]. destruct w as [|c w]; [done|]. apply Forall_cons in Hf as [Hc _]. unfold is_word in Hc.
  destruct (within toks c) eqn:E; [|done]. unfold within in E. apply existsb_exists in E as (d & Hd & ->%Z.eqb_eq).
  rewrite forallb_forall in Ht. rewrite (Ht d Hd), andb_false_r in Hc. done.
Qed.

(** Reading the next token, as the first step of a computation. *)
Lemma bind_peek {A} toks ts s (k : bool -> M (list Z) A) : spells ts s ->
  exists s', kbind (peek toks) k s = k (starts toks ts) s' /\ spells ts s' /\ s' `suffix_of` s.
Proof. intros (s' & E & H)%(peek_spells toks). exists s'. split; [|done]. unfold kbind. by rewrite E. Qed.

Lemma bind_token {A} t ts s (k : Z * slice -> M (list Z) A) : spells (t :: ts) s ->
  exists w s', kbind gettoken k s = k (tok_code t, w) s' /\ spells ts s' /\ s' `suffix_of` s /\ (length s' < length s)%nat /\
    match t with TWord l => is_slice s w l | _ => True end.
Proof. intros (w & s' & E & H)%gettoken_spells. exists w, s'. split; [|done]. unfold kbind. by rewrite E. Qed.

Ltac sfx := first [eassumption | reflexivity | etrans; [eassumption|sfx]].
Tactic Notation "peeks" constr(H) "as" simple_intropattern(pat) :=
  match goal with |- context [kbind (peek ?t) ?k ?s] => destruct (bind_peek t _ s k H) as pat end.
Tactic Notation "tokens" constr(H) "as" simple_intropattern(pat) :=
  match goal with |- context [kbind gettoken ?k ?s] => destruct (bind_token _ _ s k H) as pat end.

(** ** Redirections *)

Definition rep_redir (line : list Z) (r : redir) (x : kind * list Z) : Prop :=
  is_slice line (fst (fst r)) (snd x) /\ (snd (fst r), snd r) = mode_of (fst x).
Definition redir_toks (rs : list (kind * list Z)) : list tok := concat ((fun x => [redir_tok (fst x); TWord (snd x)]) <$> rs).
Definition wrap_ast (rs : list (kind * list Z)) (c : ast) : ast := fold_left (fun c x => Redir c (fst x) (snd x)) rs c.

Lemma print_wrap rs c : print LExec (wrap_ast rs c) = print LExec c ++ redir_toks rs.
Proof.
  revert c. induction rs as [|x rs IH]; intros c; simpl; [by rewrite app_nil_r|]. rewrite IH. simpl. by rewrite <- app_assoc.
Qed.

Lemma rep_wrap line out rs k c : Forall2 (rep_redir line) out rs -> rep line k c -> rep line (wrap out k) (wrap_ast rs c).
Proof.
  intros H. revert k c. induction H as [|r x out rs [H1 H2] H IH]; intros k c Hk; simpl; [done|]. apply IH. simpl. done.
Qed.

Lemma rep_redir_mono s line out rs : s `suffix_of` line -> Forall2 (rep_redir s) out rs -> Forall2 (rep_redir line) out rs.
Proof. intros Hs H. eapply Forall2_impl; [exact H|]. intros r x [H1 H2]. split; [by eapply is_slice_mono|done]. Qed.

Lemma parseredirs_spells rs : forall fuel rest s,
  Forall (fun x => word (snd x)) rs -> spells (redir_toks rs ++ rest) s -> starts [60; 62] rest = false -> (length s < fuel)%nat ->
  exists out s', parseredirs fuel s = Ret out s' /\ Forall2 (rep_redir s) out rs /\ spells rest s' /\ s' `suffix_of` s.
Proof.
  induction rs as [|[k f] rs IH]; intros [|fuel] rest s Hw Hs Hr Hf; try lia; cbn [parseredirs].
  - peeks Hs as (s1 & -> & H1 & S1). change (redir_toks [] ++ rest) with rest in *.
    rewrite Hr. exists [], s1. by split_and!.
  - apply Forall_cons in Hw as [Hw0 Hw]. simpl in Hw0.
    peeks Hs as (s1 & -> & H1 & S1). simpl in H1.
    assert (Est : starts [60; 62] (redir_toks ((k, f) :: rs) ++ rest) = true) by (by destruct k). rewrite Est.
    tokens H1 as (w & s2 & -> & H2 & S2 & L2 & _).
    tokens H2 as (w' & s3 & -> & H3 & S3 & L3 & W). cbn [fst tok_code].
    cbn [negb Z.eqb Pos.eqb]. pose proof (suffix_length _ _ S1) as Le1.
    destruct (IH fuel rest s3 Hw H3 Hr) as (out & s4 & E4 & F4 & H4 & S4); [lia|].
    unfold kbind. rewrite E4. eexists _, s4. split; [reflexivity|]. split_and!; [|done|sfx].
    assert (S31 : s3 `suffix_of` s) by sfx. assert (S21 : s2 `suffix_of` s) by sfx.
    destruct k; cbn; (constructor; [split; [exact (is_slice_mono _ _ _ _ S21 W)|done]|exact (rep_redir_mono _ _ _ _ S31 F4)]).
Qed.

(** ** Simple commands *)

Lemma Forall2_slice_mono s line ws args : s `suffix_of` line -> Forall2 (is_slice s) ws args -> Forall2 (is_slice line) ws args.
Proof. intros Hs H. eapply Forall2_impl; [exact H|]. intros. by eapply is_slice_mono. Qed.

Lemma parseargs_spells args : forall fuel argv rs0 rs rest s,
  Forall word args -> Forall (fun x => word (snd x)) rs -> (args = [] -> rs = []) -> (length argv + length args < 10)%nat ->
  spells ((TWord <$> args) ++ redir_toks rs ++ rest) s -> follow [124; 41; 38; 59] rest -> (length s + 1 < fuel)%nat ->
  exists ws out s', parseargs fuel argv rs0 s = Ret (wrap (rs0 ++ out) (EXEC (argv ++ ws))) s' /\ Forall2 (is_slice s) ws args /\
    Forall2 (rep_redir s) out rs /\ spells rest s' /\ s' `suffix_of` s.
Proof.
  induction args as [|w args IH]; intros [|fuel] argv rs0 rs rest s Hw Hrs He Hlen Hs Hfo Hf; try lia; cbn [parseargs].
  - rewrite He in * by done. change ((TWord <$> []) ++ redir_toks [] ++ rest) with rest in Hs.
    peeks Hs as (s1 & -> & H1 & S1). exists [], [], (if starts [124; 41; 38; 59] rest then s1 else skip_space s1).
    rewrite !app_nil_r. destruct Hfo as [->|Hfo].
    + cbn [starts]. inversion H1 as [s1' Hsp|]; subst. unfold kbind, gettoken. rewrite <- (app_nil_r s1), !skip_space_app by done.
      split_and!; try done; [by constructor|]. etrans; [apply suffix_nil|]. apply suffix_nil.
    + rewrite Hfo. split_and!; try done.
  - apply Forall_cons in Hw as [Hw0 Hw]. rewrite fmap_cons in Hs. cbn [app] in Hs. peeks Hs as (s1 & -> & H1 & S1).
    rewrite starts_word by done. tokens H1 as (sl & s2 & -> & H2 & S2 & L2 & W). cbn [fst snd tok_code negb Z.eqb Pos.eqb].
    rewrite length_app. simpl in Hlen. destruct (Z.geb_spec (Z.of_nat (length argv + length [sl])) MAXARGS) as [Hge|_]; [unfold MAXARGS in Hge; simpl in Hge; lia|].
    pose proof (suffix_length _ _ S1) as Ls1. assert (S21 : s2 `suffix_of` s) by sfx.
    destruct args as [|w' args].
    + change ((TWord <$> []) ++ redir_toks rs ++ rest) with (redir_toks rs ++ rest) in H2.
      destruct (parseredirs_spells rs fuel rest s2 Hrs H2) as (out & s3 & E3 & F3 & H3 & S3); [by eapply follow_not|lia|].
      unfold kbind at 1. rewrite E3. pose proof (suffix_length _ _ S3) as Le3.
      destruct (IH fuel (argv ++ [sl]) (rs0 ++ out) [] rest s3) as (ws & out' & s4 & E4 & F4 & G4 & H4 & S4); try done; [rewrite length_app; simpl; lia|lia|].
      apply Forall2_nil_inv_r in F4 as ->. apply Forall2_nil_inv_r in G4 as ->. exists [sl], out, s4. rewrite E4, !app_nil_r. split_and!; try done.
      * constructor; [|constructor]. eapply (is_slice_mono s1); [sfx|done].
      * eapply (rep_redir_mono s2); [sfx|done].
      * sfx.
    + destruct (parseredirs_spells [] fuel ((TWord <$> (w' :: args)) ++ redir_toks rs ++ rest) s2) as (out & s3 & E3 & F3 & H3 & S3); try done; [|lia|].
      { apply Forall_cons in Hw as [Hw1 _]. by apply starts_word. }
      apply Forall2_nil_inv_r in F3 as ->. unfold kbind at 1. rewrite E3. pose proof (suffix_length _ _ S3) as Le3. rewrite app_nil_r.
      destruct (IH fuel (argv ++ [sl]) rs0 rs rest s3) as (ws & out' & s4 & E4 & F4 & G4 & H4 & S4); try done; [rewrite length_app; simpl in *; lia|lia|].
      exists (sl :: ws), out', s4. rewrite E4, <- app_assoc. split_and!; try done.
      * constructor; [eapply (is_slice_mono s1); [sfx|done]|eapply (Forall2_slice_mono s3); [sfx|done]].
      * eapply (rep_redir_mono s3); [sfx|done].
      * sfx.
Qed.

(** ** Nested commands *)

Lemma rep_mono s line k : s `suffix_of` line -> forall c, rep s k c -> rep line k c.
Proof.
  intros Hs. induction k as [argv|k IH f mode fd|k1 IH1 k2 IH2|k1 IH1 k2 IH2|k IH]; intros [args|c kd l|c1 c2|c1 c2|c]; simpl; try done.
  - by apply Forall2_slice_mono.
  - intros (H1 & H2 & H3). split_and!; [by apply IH|by eapply is_slice_mono|done].
  - intros (H1 & H2). split; auto.
  - intros (H1 & H2). split; auto.
  - apply IH.
Qed.

(** [p] reads a command printed at level [lvl], followed by one of [toks] or
    by the end. *)
Definition reads (p : nat -> M (list Z) cmd) (lvl : level) (toks : list Z) (off : nat) (c : ast) : Prop :=
  forall s rest fuel, spells (print lvl c ++ rest) s -> follow toks rest -> (5 * length s + off <= fuel)%nat ->
  exists k s', p fuel s = Ret k s' /\ rep s k c /\ spells rest s' /\ s' `suffix_of` s.

Definition parseback (fuel : nat) : M (list Z) cmd := let! c := parsepipe fuel in parsebacks fuel c.

Definition readsE := reads parseexec LExec [124; 41; 38; 59] 4.
Definition readsP := reads parsepipe LPipe [41; 38; 59] 5.
Definition readsB := reads parseback LBack [41; 59] 5.
Definition readsL := reads parseline LLine [41] 6.

Lemma readsE_exec rs args : Forall (fun x => word (snd x)) rs -> wf (Exec args) -> readsE (wrap_ast rs (Exec args)).
Proof.
  intros Hrs [Hw Hl] s rest [|fuel] Hs Hfo Hf; [lia|]. rewrite print_wrap, <- app_assoc in Hs. cbn [print] in Hs. cbn [parseexec].
  assert (Hst : starts [40] ((TWord <$> args) ++ redir_toks rs ++ rest) = false).
  { destruct args as [|w args]; [|apply Forall_cons in Hw as [Hw _]; by apply starts_word].
    destruct rs as [|[[] f] rs]; [by eapply follow_not|done..]. }
  peeks Hs as (s1 & -> & H1 & S1). rewrite Hst. pose proof (suffix_length _ _ S1) as Le1. destruct args as [|w args].
  - destruct (parseredirs_spells rs fuel rest s1 Hrs H1) as (out & s2 & E2 & F2 & H2 & S2); [by eapply follow_not|lia|].
    unfold kbind. rewrite E2. pose proof (suffix_length _ _ S2) as Le2.
    destruct (parseargs_spells [] fuel [] out [] rest s2) as (ws & out' & s3 & E3 & F3 & G3 & H3 & S3); try done; try (simpl; lia).
    apply Forall2_nil_inv_r in F3 as ->. apply Forall2_nil_inv_r in G3 as ->. rewrite app_nil_r in E3. rewrite E3. eexists _, s3. split; [done|]. split_and!; [|done|sfx].
    apply rep_wrap; [|constructor]. eapply (rep_redir_mono s1); [sfx|done].
  - destruct (parseredirs_spells [] fuel ((TWord <$> (w :: args)) ++ redir_toks rs ++ rest) s1) as (out & s2 & E2 & F2 & H2 & S2); try done; [|lia|].
    { apply Forall_cons in Hw as [Hw _]. by apply starts_word. }
    apply Forall2_nil_inv_r in F2 as ->. unfold kbind. rewrite E2. pose proof (suffix_length _ _ S2) as Le2.
    destruct (parseargs_spells (w :: args) fuel [] [] rs rest s2) as (ws & out' & s3 & E3 & F3 & G3 & H3 & S3); try done; try (simpl in *; lia).
    rewrite E3. eexists _, s3. split; [done|]. split_and!; [|done|sfx].
    apply rep_wrap; [eapply (rep_redir_mono s2); [sfx|done]|]. simpl. eapply (Forall2_slice_mono s2); [sfx|done].
Qed.

(** A command that is put in parentheses. *)
Definition grouped (c : ast) : bool := match c with Pipe _ _ | Seq _ _ | Back _ => true | _ => false end.

Lemma print_grouped c : grouped c = true -> print LExec c = TSym 40 :: print LLine c ++ [TSym 41].
Proof. by destruct c. Qed.

Lemma readsE_group rs c : Forall (fun x => word (snd x)) rs -> grouped c = true -> readsL c -> readsE (wrap_ast rs c).
Proof.
  intros Hrs Hg HL s rest [|[|fuel]] Hs Hfo Hf; try lia. rewrite print_wrap, print_grouped in Hs by done. simpl in Hs. rewrite <- !app_assoc in Hs. cbn [parseexec parseblock].
  peeks Hs as (s1 & -> & H1 & S1). change (starts [40] _) with true. cbv iota. pose proof (suffix_length _ _ S1) as Le1.
  peeks H1 as (s2 & -> & H2 & S2). change (starts [40] _) with true. cbn [negb]. pose proof (suffix_length _ _ S2) as Le2.
  tokens H2 as (w3 & s3 & -> & H3 & S3 & L3 & _).
  destruct (HL s3 _ fuel H3) as (k & s4 & E4 & R4 & H4 & S4); [by right|lia|]. unfold kbind at 1. rewrite E4. pose proof (suffix_length _ _ S4) as Le4.
  peeks H4 as (s5 & -> & H5 & S5). change (starts [41] _) with true. cbn [negb]. pose proof (suffix_length _ _ S5) as Le5.
  tokens H5 as (w6 & s6 & -> & H6 & S6 & L6 & _).
  destruct (parseredirs_spells rs fuel rest s6 Hrs H6) as (out & s7 & E7 & F7 & H7 & S7); [by eapply follow_not|lia|].
  unfold kbind. rewrite E7. eexists _, s7. split; [done|]. split_and!; [|done|sfx].
  apply rep_wrap; [eapply (rep_redir_mono s6); [sfx|done]|]. eapply (rep_mono s3); [sfx|done].
Qed.

Lemma readsP_exec c : (if c is Pipe _ _ then False else True) -> readsE c -> readsP c.
Proof.
  intros Hn HE s rest [|fuel] Hs Hfo Hf; [lia|]. assert (Ep : print LPipe c = print LExec c) by (by destruct c). rewrite Ep in Hs. cbn [parsepipe].
  destruct (HE s rest fuel Hs) as (k & s1 & E1 & R1 & H1 & S1); [|lia|].
  { destruct Hfo as [->|Hfo]; [by left|right]. destruct rest as [|t rest]; [done|]. cbn [starts] in *. destruct (tok_bytes t); [done|]. revert Hfo. unfold within. simpl. rewrite !orb_true_iff. tauto. }
  unfold kbind at 1. rewrite E1. peeks H1 as (s2 & -> & H2 & S2). rewrite (follow_not _ [124] _ Hfo) by done. exists k, s2. split_and!; [done|done|done|sfx].
Qed.

Lemma readsP_pipe l r : readsE l -> readsP r -> readsP (Pipe l r).
Proof.
  intros HE HP s rest [|fuel] Hs Hfo Hf; [lia|]. cbn [print paren] in Hs. rewrite <- !app_assoc in Hs. cbn [parsepipe app] in *.
  destruct (HE s _ fuel Hs) as (k & s1 & E1 & R1 & H1 & S1); [by right|lia|]. unfold kbind at 1. rewrite E1. pose proof (suffix_length _ _ S1) as Le1.
  peeks H1 as (s2 & -> & H2 & S2). change (starts [124] _) with true. cbv iota. pose proof (suffix_length _ _ S2) as Le2.
  tokens H2 as (w3 & s3 & -> & H3 & S3 & L3 & _). destruct (HP s3 rest fuel H3 Hfo) as (k2 & s4 & E4 & R4 & H4 & S4); [lia|].
  unfold kbind. rewrite E4. eexists _, s4. split; [done|]. split; [split; [done|eapply (rep_mono s3); [sfx|done]]|split; [done|sfx]].
Qed.

(** A command followed by [m] ampersands. *)
Definition back_n (m : nat) (c : ast) : ast := Nat.iter m Back c.

Lemma print_back_n m c : (if c is Back _ then False else True) ->
  print LBack (back_n m c) = print LPipe c ++ replicate m (TSym 38).
Proof.
  intros Hc. induction m as [|m IH]; simpl.
  - rewrite app_nil_r. by destruct c.
  - fold (back_n m c). rewrite IH, <- app_assoc. f_equal. symmetry. apply (replicate_S_end m (TSym 38)).
Qed.

Lemma parsebacks_spells m : forall fuel k c rest s s0,
  spells (replicate m (TSym 38) ++ rest) s -> follow [41; 59] rest -> (length s < fuel)%nat -> rep s0 k c -> 
  exists k' s', parsebacks fuel k s = Ret k' s' /\ rep s0 k' (back_n m c) /\ spells rest s' /\ s' `suffix_of` s.
Proof.
  induction m as [|m IH]; intros [|fuel] k c rest s s0 Hs Hfo Hf Hk; try lia; cbn [parsebacks].
  - simpl in Hs. peeks Hs as (s1 & -> & H1 & S1). rewrite (follow_not _ [38] _ Hfo) by done. by exists k, s1.
  - simpl in Hs. peeks Hs as (s1 & -> & H1 & S1). change (starts [38] _) with true. cbv iota. pose proof (suffix_length _ _ S1) as Le1.
    tokens H1 as (w & s2 & -> & H2 & S2 & L2 & _). destruct (IH fuel (BACK k) (Back c) rest s2 s0 H2 Hfo) as (k' & s3 & E3 & R3 & H3 & S3); [lia|done|].
    exists k', s3. split_and!; [done| |done|sfx]. unfold back_n in *. rewrite Nat.iter_succ_r. done.
Qed.

Lemma readsB_pipe m c : (if c is Back _ then False else True) -> readsP c -> readsB (back_n m c).
Proof.
  intros Hc HP s rest fuel Hs Hfo Hf. rewrite print_back_n, <- app_assoc in Hs by done. unfold parseback.
  destruct (HP s _ fuel Hs) as (k & s1 & E1 & R1 & H1 & S1); [|lia|].
  { destruct m; [|by right]. destruct Hfo as [->|Hfo]; [by left|right]. destruct rest as [|t rest]; [done|]. cbn [replicate app starts] in *.
    destruct (tok_bytes t); [done|]. revert Hfo. unfold within. simpl. rewrite !orb_true_iff. tauto. }
  unfold kbind. rewrite E1. pose proof (suffix_length _ _ S1) as Le1.
  destruct (parsebacks_spells m fuel k c rest s1 s H1 Hfo) as (k' & s2 & E2 & R2 & H2 & S2); [lia|done|].
  exists k', s2. split_and!; [done|done|done|sfx].
Qed.

Lemma parseline_back fuel s : parseline (S fuel) s =
  (let! c := parseback fuel in let! b := peek [59] in
   if b then let! _ := gettoken in let! r := parseline fuel in kret (LIST c r) else kret c) s.
Proof. cbn [parseline]. unfold parseback, kbind. by destruct (parsepipe fuel s) as [? ?| |]. Qed.

Lemma readsL_back c : (if c is Seq _ _ then False else True) -> readsB c -> readsL c.
Proof.
  intros Hc HB s rest [|fuel] Hs Hfo Hf; [lia|]. assert (Ep : print LLine c = print LBack c) by (by destruct c). rewrite Ep in Hs.
  rewrite parseline_back. destruct (HB s rest fuel Hs) as (k & s1 & E1 & R1 & H1 & S1); [|lia|].
  { destruct Hfo as [->|Hfo]; [by left|right]. destruct rest as [|t rest]; [done|]. cbn [starts] in *.
    destruct (tok_bytes t); [done|]. revert Hfo. unfold within. simpl. rewrite !orb_true_iff. tauto. }
  unfold kbind at 1. rewrite E1. peeks H1 as (s2 & -> & H2 & S2). rewrite (follow_not _ [59] _ Hfo) by done. exists k, s2. split_and!; [done|done|done|sfx].
Qed.

Lemma readsL_seq l r : readsB l -> readsL r -> readsL (Seq l r).
Proof.
  intros HB HL s rest [|fuel] Hs Hfo Hf; [lia|]. cbn [print paren] in Hs. rewrite <- !app_assoc in Hs. cbn [app] in Hs.
  rewrite parseline_back. destruct (HB s _ fuel Hs) as (k & s1 & E1 & R1 & H1 & S1); [by right|lia|]. unfold kbind at 1. rewrite E1. pose proof (suffix_length _ _ S1) as Le1.
  peeks H1 as (s2 & -> & H2 & S2). change (starts [59] _) with true. cbv iota. pose proof (suffix_length _ _ S2) as Le2.
  tokens H2 as (w3 & s3 & -> & H3 & S3 & L3 & _). destruct (HL s3 rest fuel H3 Hfo) as (k2 & s4 & E4 & R4 & H4 & S4); [lia|].
  unfold kbind. rewrite E4. eexists _, s4. split; [done|]. split; [split; [done|eapply (rep_mono s3); [sfx|done]]|split; [done|sfx]].
Qed.

(** ** All commands *)

Fixpoint size (c : ast) : nat :=
  match c with Exec _ => 1 | Redir c _ _ | Back c => S (size c) | Pipe l r | Seq l r => S (size l + size r) end.

Lemma unwrap c : wf c -> exists rs b, c = wrap_ast rs b /\ wf b /\ Forall (fun x => word (snd x)) rs /\ (size b <= size c)%nat /\
  (if b is Redir _ _ _ then False else True).
Proof.
  induction c as [args|c IH k f|l _ r _|l _ r _|c _]; intros Hw; try (eexists [], _; split_and!; [done|exact Hw|constructor|lia|done]).
  destruct Hw as [Hw Hf]. destruct (IH Hw) as (rs & b & -> & Hb & Hrs & Hsz & Hn). exists (rs ++ [(k, f)]), b. split_and!; try done.
  - unfold wrap_ast. by rewrite fold_left_app.
  - apply Forall_app. split; [done|]. by constructor.
  - simpl. lia.
Qed.

Lemma unback c : exists m b, c = back_n m b /\ (if b is Back _ then False else True) /\ (size b + m = size c)%nat.
Proof.
  induction c as [args|c IH k f|l _ r _|l _ r _|c IH]; try (eexists O, _; split_and!; [done|done|simpl; lia]).
  destruct IH as (m & b & -> & Hb & Hs). exists (S m), b. split_and!; [done|done|simpl; lia].
Qed.

Lemma wf_back_n m c : wf (back_n m c) <-> wf c.
Proof. induction m as [|m IH]; simpl; [done|]. done. Qed.

Lemma reads_all n : forall c, (size c <= n)%nat -> wf c -> readsE c /\ readsP c /\ readsB c /\ readsL c.
Proof.
  induction n as [|n IH]; intros c Hn Hw; [destruct c; simpl in Hn; lia|].
  assert (HLg : forall b, (size b <= S n)%nat -> wf b -> grouped b = true -> readsL b).
  { intros b Hb Hwb Hg. destruct b as [| |l r|l r|b]; try done; simpl in Hb; [destruct Hwb..|].
    - apply readsL_back; [done|]. apply (readsB_pipe 0); [done|]. apply readsP_pipe; apply IH; done || lia.
    - apply readsL_seq; apply IH; done || lia.
    - apply readsL_back; [done|]. destruct (unback b) as (m & b' & -> & Hb' & Hs). apply (readsB_pipe (S m) b'); [done|].
      apply IH; [lia|]. simpl in Hwb. by apply wf_back_n in Hwb. }
  assert (HE : readsE c).
  { destruct (unwrap c Hw) as (rs & b & -> & Hb & Hrs & Hsz & Hr). destruct (grouped b) eqn:Hg.
    - apply readsE_group; [done|done|]. apply HLg; done || lia.
    - destruct b; try done. by apply readsE_exec. }
  assert (HP : readsP c).
  { destruct c as [| |l r| |]; try by apply readsP_exec. destruct Hw. simpl in Hn. apply readsP_pipe; apply IH; done || lia. }
  assert (HB : readsB c).
  { destruct (unback c) as (m & b & Eb & Hb & Hs). destruct m as [|m]; [by rewrite Eb in *; apply (readsB_pipe 0)|].
    rewrite Eb in *. apply readsB_pipe; [done|]. apply IH; [lia|]. by apply wf_back_n in Hw. }
  split_and!; try done. destruct c as [| | |l r|]; try by apply readsL_back. destruct Hw. simpl in Hn. apply readsL_seq; apply IH; done || lia.
Qed.

(** ** The strings *)

Fixpoint leaves (k : cmd) : list slice :=
  match k with
  | EXEC argv => argv
  | REDIR k f _ _ => leaves k ++ [f]
  | PIPE l r | LIST l r => leaves l ++ leaves r
  | BACK k => leaves k
  end.

Definition nul_at (n : nat) (ws : list slice) (buf : list Z) : list Z := fold_left (fun buf w => put_nul n (snd w) buf) ws buf.

Lemma nulterminate_leaves n k buf : nulterminate n k buf = nul_at n (leaves k) buf.
Proof.
  unfold nul_at. revert buf. induction k as [argv|k IH f mode fd|k1 IH1 k2 IH2|k1 IH1 k2 IH2|k IH]; intros buf; simpl; try done.
  - rewrite fold_left_app. simpl. by rewrite IH.
  - by rewrite fold_left_app, IH1, IH2.
  - by rewrite fold_left_app, IH1, IH2.
Qed.

Lemma nul_at_other n ws buf i : (forall w, w ∈ ws -> (n - length (snd w))%nat <> i) -> nul_at n ws buf !! i = buf !! i.
Proof.
  unfold nul_at. revert buf. induction ws as [|w ws IH]; intros buf H; simpl; [done|]. rewrite IH by set_solver.
  apply list_lookup_insert_ne. apply H. by left.
Qed.

Lemma nul_at_zero n ws buf i : buf !! i = Some 0 -> nul_at n ws buf !! i = Some 0.
Proof.
  unfold nul_at. revert buf. induction ws as [|w ws IH]; intros buf H; simpl; [done|]. apply IH. unfold put_nul.
  destruct (decide ((n - length (snd w))%nat = i)) as [->|]; [|by rewrite list_lookup_insert_ne].
  apply list_lookup_insert_eq. by eapply lookup_lt_Some.
Qed.

Lemma nul_at_in n ws buf w :
  w ∈ ws -> (n - length (snd w) < length buf)%nat -> nul_at n ws buf !! (n - length (snd w))%nat = Some 0.
Proof.
  revert buf. induction ws as [|w' ws IH]; intros buf Hw Hi; [by apply elem_of_nil in Hw|].
  apply elem_of_cons in Hw as [->|Hw].
  - apply (nul_at_zero n ws). by apply list_lookup_insert_eq.
  - apply (IH (put_nul n (snd w') buf) Hw). unfold put_nul. by rewrite length_insert.
Qed.

(** The command [k] is [c], its words read as C strings. *)
Fixpoint shows (n : nat) (buf : list Z) (k : cmd) (c : ast) : Prop :=
  match k, c with
  | EXEC argv, Exec args => string_of n buf <$> argv = args
  | REDIR k f mode fd, Redir c kd l => shows n buf k c /\ string_of n buf f = l /\ (mode, fd) = mode_of kd
  | PIPE k1 k2, Pipe c1 c2 | LIST k1 k2, Seq c1 c2 => shows n buf k1 c1 /\ shows n buf k2 c2
  | BACK k, Back c => shows n buf k c
  | _, _ => False
  end.

Lemma cstring_spec l : forall buf, (forall j c, l !! j = Some c -> buf !! j = Some c) -> buf !! length l = Some 0 -> 0 ∉ l -> cstring buf = l.
Proof.
  induction l as [|c l IH]; intros [|d buf] H H0 Hz; simpl in *; try done.
  - injection H0 as ->. done.
  - specialize (H 0%nat c eq_refl) as Hd. simpl in Hd. injection Hd as ->. apply not_elem_of_cons in Hz as [Hc Hz].
    destruct (Z.eqb_spec c 0); [congruence|]. f_equal. apply IH; [|done|done]. intros j c' Hj. apply (H (S j)). done.
Qed.

Lemma string_of_slice line ws w l :
  (forall w', w' ∈ ws -> exists l', is_slice line w' l') -> w ∈ ws -> is_slice line w l -> word l ->
  string_of (length line) (nul_at (length line) ws (line ++ [0])) w = l.
Proof.
  intros Hall Hw ((pre & E) & Ew & Hst) (_ & Hwd & Hz). unfold string_of. rewrite Ew in *.
  assert (Hn : length line = (length pre + length l + length (snd w))%nat) by (rewrite E, !length_app; lia).
  replace (length line - length (l ++ snd w))%nat with (length pre) by (rewrite length_app; lia).
  apply cstring_spec; [| |done].
  - intros j c Hj. rewrite lookup_drop. assert (Hline : line !! (length pre + j)%nat = Some c).
    { rewrite E, lookup_app_r by lia. replace (length pre + j - length pre)%nat with j by lia. by apply lookup_app_l_Some. }
    rewrite nul_at_other; [by apply lookup_app_l_Some|]. intros w' Hw' Ei. destruct (Hall w' Hw') as (l' & (pre' & E') & Ew' & Hst').
    rewrite Ew', app_assoc in E'. assert (Hlen' : length line = (length (pre' ++ l') + length (snd w'))%nat) by (rewrite E' at 1; by rewrite length_app).
    rewrite E', lookup_app_r in Hline by lia. replace (length pre + j - length (pre' ++ l'))%nat with O in Hline by lia.
    destruct (snd w') as [|d r]; [done|]. injection Hline as ->. simpl in Hst'. rewrite Forall_lookup in Hwd. specialize (Hwd _ _ Hj). congruence.
  - rewrite lookup_drop. replace (length pre + length l)%nat with (length line - length (snd w))%nat by lia. apply nul_at_in; [done|]. rewrite length_app. simpl. lia.
Qed.

Lemma rep_leaves line k : forall c, rep line k c -> forall w, w ∈ leaves k -> exists l, is_slice line w l.
Proof.
  induction k as [argv|k IH f mode fd|k1 IH1 k2 IH2|k1 IH1 k2 IH2|k IH]; intros [args|c kd l|c1 c2|c1 c2|c] H w Hw; simpl in *; try done.
  - apply list_elem_of_lookup in Hw as (i & Hw). destruct (Forall2_lookup_l _ _ _ _ _ H Hw) as (l & _ & Hl). by exists l.
  - destruct H as (H1 & H2 & _). apply elem_of_app in Hw as [Hw|Hw]; [by eapply IH|]. apply list_elem_of_singleton in Hw as ->. by exists l.
  - destruct H as (H1 & H2). apply elem_of_app in Hw as [Hw|Hw]; [by eapply IH1|by eapply IH2].
  - destruct H as (H1 & H2). apply elem_of_app in Hw as [Hw|Hw]; [by eapply IH1|by eapply IH2].
  - by eapply IH.
Qed.

Lemma rep_shows line ws k : (forall w', w' ∈ ws -> exists l', is_slice line w' l') ->
  forall c, (forall w, w ∈ leaves k -> w ∈ ws) -> wf c -> rep line k c -> shows (length line) (nul_at (length line) ws (line ++ [0])) k c.
Proof.
  intros Hall. induction k as [argv|k IH f mode fd|k1 IH1 k2 IH2|k1 IH1 k2 IH2|k IH]; intros [args|c kd l|c1 c2|c1 c2|c] Hin Hw H; simpl in *; try done.
  - destruct Hw as [Hw _]. induction H as [|w l argv args Hs H IHf]; [done|]. apply Forall_cons in Hw as [Hw0 Hw]. rewrite fmap_cons. f_equal.
    + apply string_of_slice; try done. apply Hin. by left.
    + apply IHf; [|done]. intros w' Hw'. apply Hin. by right.
  - destruct H as (H1 & H2 & H3), Hw as [Hw Hl]. split_and!; [apply IH; try done; set_solver| |done]. apply string_of_slice; try done. set_solver.
  - destruct H, Hw. split; [apply IH1|apply IH2]; try done; set_solver.
  - destruct H, Hw. split; [apply IH1|apply IH2]; try done; set_solver.
  - by apply IH.
Qed.

(** Every command has a spelling: its tokens with a space after each. *)
Definition show (ts : list tok) : list Z := concat ((fun t => tok_bytes t ++ [32]) <$> ts).

Lemma show_spells ts : Forall tok_ok ts -> spells ts (show ts).
Proof.
  assert (H : forall ts b, (b = [] \/ b = [32]) -> Forall tok_ok ts -> spells ts (b ++ show ts)).
  { clear. intros ts. induction ts as [|t ts IH]; intros b Hb Ht.
    - apply sp_nil. destruct Hb as [-> | ->]; by repeat constructor.
    - apply Forall_cons in Ht as [Ht0 Ht]. unfold show. rewrite fmap_cons. cbn [concat]. rewrite <- app_assoc. apply sp_cons.
      + destruct Hb as [-> | ->]; by repeat constructor.
      + done.
      + destruct t; simpl; done.
      + apply (IH [32]); auto. }
  intros Ht. apply (H ts []); auto.
Qed.

Lemma print_ok c : wf c -> forall lvl, Forall tok_ok (print lvl c).
Proof.
  assert (Hp : forall b ts, Forall tok_ok ts -> Forall tok_ok (paren b ts)).
  { intros [] ts Ht; [|done]. unfold paren. rewrite !Forall_app. split_and!; [|done|]; repeat constructor; unfold symbols; set_solver. }
  induction c as [args|c IH k f|l IHl r IHr|l IHl r IHr|c IH]; intros Hw lvl; simpl in *.
  - apply Forall_fmap, Hw.
  - destruct Hw as [Hw Hf]. apply Forall_app. split; [by apply IH|]. constructor; [|by constructor]. destruct k; simpl; unfold symbols; set_solver.
  - destruct Hw. apply Hp, Forall_app. split; [by apply IHl|]. constructor; [simpl; unfold symbols; set_solver|by apply IHr].
  - destruct Hw. apply Hp, Forall_app. split; [by apply IHl|]. constructor; [simpl; unfold symbols; set_solver|by apply IHr].
  - apply Hp, Forall_app. split; [by apply IH|]. constructor; [simpl; unfold symbols; set_solver|constructor].
Qed.

(** The parser reads every command back from any spelling of it. *)
Lemma parsecmd_print (c : ast) (line : list Z) :
  wf c -> spells (print LLine c) line ->
  exists k buf s, parsecmd line = Ret (k, buf) s /\ shows (length line) buf k c.
Proof.
  intros Hw Hs. destruct (reads_all (size c) c) as (_ & _ & _ & HL); [done|done|]. rewrite <- (app_nil_r (print LLine c)) in Hs.
  destruct (HL line [] (parse_fuel line) Hs) as (k & s1 & E1 & R1 & H1 & S1); [by left|unfold parse_fuel; lia|].
  unfold parsecmd. unfold kbind at 1. rewrite E1. unfold kbind, peek, kget, kret.
  assert (E2 : skip_space s1 = []) by (inversion H1; subst; rewrite <- (app_nil_r s1), skip_space_app by done; done). rewrite E2.
  rewrite bool_decide_eq_true_2 by done. cbn [negb]. eexists k, _, _. split; [done|]. rewrite nulterminate_leaves.
  apply rep_shows; try done. by eapply rep_leaves.
Qed.
