(* ===== verification/ShellRun.v ===== *)
(** * The shell: parsing and running a line

    The parser ends on every line.  A command has a meaning as a tree of
    processes with three descriptors each; the processes that [main] starts
    for a line that spells a command are that tree. *)

From S2P Require Import Prelude Sysfile Userland Shell ShellSpec.

(** ** The parser ends *)

(** The computation ends, at most [n] bytes from the end of the line. *)
Definition ends_by {A} (c : outcome (list Z) A) (n : nat) : Prop :=
  match c with Ret _ s => (length s <= n)%nat | Panic _ => True | Hang => False end.

Lemma ends_bind {A B} (c : M (list Z) A) (k : A -> M (list Z) B) s m n :
  ends_by (c s) m -> (forall a s', c s = Ret a s' -> (length s' <= m)%nat -> ends_by (k a s') n) -> ends_by (kbind c k s) n.
Proof. unfold kbind. destruct (c s) eqn:E; simpl; eauto. Qed.

Lemma ends_mono {A} (c : outcome (list Z) A) m n : ends_by c m -> (m <= n)%nat -> ends_by c n.
Proof. destruct c; simpl; lia. Qed.

Lemma skip_space_length s : (length (skip_space s) <= length s)%nat.
Proof. apply suffix_length, skip_space_suffix. Qed.

Lemma skip_word_length s : (length (skip_word s) <= length s)%nat.
Proof. induction s as [|c s IH]; simpl; [done|]. destruct (_ && _); simpl; lia. Qed.

Lemma skip_space_head s c q : skip_space s = c :: q -> within whitespace c = false.
Proof.
  induction s as [|d s IH]; simpl; [done|]. destruct (within whitespace d) eqn:E; [done|]. by intros [= <- _].
Qed.

Lemma skip_space_idem s : skip_space (skip_space s) = skip_space s.
Proof. destruct (skip_space s) as [|c q] eqn:E; [done|]. simpl. by rewrite (skip_space_head _ _ _ E). Qed.

Lemma gettoken_ends s : ends_by (gettoken s) (length s - (if bool_decide (skip_space s = []) then 0 else 1)).
Proof.
  unfold gettoken. pose proof (skip_space_length s). destruct (skip_space s) as [|c q] eqn:E; simpl in *; [lia|].
  assert (forall q', (length q' <= length q)%nat -> (length (skip_space q') <= length s - 1)%nat) as Hq.
  { intros q' ?. pose proof (skip_space_length q'). lia. }
  destruct (within [124; 40; 41; 59; 38; 60] c) eqn:E1; [by apply Hq|].
  destruct (c =? 62) eqn:E2; [destruct q as [|d q']; [by apply Hq|destruct (d =? 62); apply Hq; simpl; lia]|].
  assert (within symbols c = false) as E3.
  { unfold within, symbols in *. simpl in *. repeat (apply orb_false_iff in E1 as [? E1]). by repeat (apply orb_false_iff; split). }
  rewrite (skip_space_head _ _ _ E), E3. simpl. apply Hq, skip_word_length.
Qed.

(** After a successful [peek] the next token takes a byte. *)
Lemma peek_gettoken toks s s' : peek toks s = Ret true s' -> ends_by (gettoken s') (length s - 1) /\ (0 < length s)%nat.
Proof.
  unfold peek. intros [= H <-]. pose proof (skip_space_length s). pose proof (gettoken_ends (skip_space s)) as Hg.
  rewrite skip_space_idem in Hg. destruct (skip_space s) as [|c q] eqn:E; [done|]. simpl in *.
  split; [|lia]. eapply ends_mono; [exact Hg|lia].
Qed.

(** [if(peek(...)) { gettoken(...); ... } else ...]. *)
Lemma peek_ends {A} toks (yes no : M (list Z) A) s n :
  (forall s', (length s' < length s)%nat -> ends_by (yes s') n) -> (forall s', (length s' <= length s)%nat -> ends_by (no s') n) ->
  ends_by ((let! b := peek toks in if b then (let! _ := gettoken in yes) else no) s) n.
Proof.
  intros Hy Hn. eapply (ends_bind _ _ _ (length s)); [apply skip_space_length|]. intros [] s' Hp Hs; [|by apply Hn].
  destruct (peek_gettoken _ _ _ Hp) as [Hg Hl]. eapply ends_bind; [exact Hg|]. intros t s2 _ Hs2. apply Hy. lia.
Qed.

Lemma parseredirs_ends fuel s : (length s < fuel)%nat -> ends_by (parseredirs fuel s) (length s).
Proof.
  revert s. induction fuel as [|f IH]; intros s Hf; [lia|]. cbn [parseredirs].
  eapply (ends_bind _ _ _ (length s)); [apply skip_space_length|]. intros [] s' Hp Hs; [|done].
  destruct (peek_gettoken _ _ _ Hp) as [Hg Hl]. eapply ends_bind; [exact Hg|]. intros t s2 _ Hs2.
  eapply ends_bind; [apply gettoken_ends|]. intros u s3 _ Hs3. destruct (negb _); [done|].
  eapply ends_bind; [apply IH; lia|]. intros rs s4 _ Hs4. simpl. lia.
Qed.

Lemma gettoken_word s t s' : gettoken s = Ret t s' -> fst t <> 0 -> (length s' < length s)%nat.
Proof.
  intros Hg Ht. pose proof (gettoken_ends s) as He. rewrite Hg in He. simpl in He.
  pose proof (skip_space_length s). destruct (skip_space s) as [|c q] eqn:E; simpl in *; [|lia].
  unfold gettoken in Hg. rewrite E in Hg. injection Hg as <- _. done.
Qed.

Lemma parseargs_ends fuel argv rs s : (length s + 1 < fuel)%nat -> ends_by (parseargs fuel argv rs s) (length s).
Proof.
  revert argv rs s. induction fuel as [|f IH]; intros argv rs s Hf; [lia|]. cbn [parseargs].
  eapply (ends_bind _ _ _ (length s)); [apply skip_space_length|]. intros [] s' _ Hs; [done|].
  pose proof (gettoken_ends s') as Hg. eapply ends_bind; [exact Hg|]. intros t s2 Ht Hs2.
  assert (length s2 <= length s)%nat by lia.
  destruct (Z.eqb_spec (fst t) 0) as [|Hn]; [done|]. apply (gettoken_word _ _ _ Ht) in Hn.
  destruct (negb _); [done|]. destruct (_ >=? _); [done|].
  eapply ends_bind; [apply parseredirs_ends; lia|]. intros rs' s3 _ Hs3.
  eapply ends_mono; [apply IH|]; lia.
Qed.

Lemma parsebacks_ends fuel c s : (length s < fuel)%nat -> ends_by (parsebacks fuel c s) (length s).
Proof.
  revert c s. induction fuel as [|f IH]; intros c s Hf; [lia|]. cbn [parsebacks]. apply peek_ends; [|done].
  intros s' Hs. eapply ends_mono; [apply IH|]; lia.
Qed.

(** The four mutual functions, each with the fuel that is enough for it. *)
Lemma parse_ends fuel :
  (forall s, (5 * length s + 5 < fuel)%nat -> ends_by (parseline fuel s) (length s)) /\
  (forall s, (5 * length s + 4 < fuel)%nat -> ends_by (parsepipe fuel s) (length s)) /\
  (forall s, (5 * length s + 3 < fuel)%nat -> ends_by (parseexec fuel s) (length s)) /\
  (forall s, (5 * length s + 2 < fuel)%nat -> ends_by (parseblock fuel s) (length s)).
Proof.
  induction fuel as [|f (IHL & IHP & IHE & IHB)]; [split_and!; intros; lia|].
  split_and!; intros s Hf; cbn [parseline parsepipe parseexec parseblock].
  - eapply ends_bind; [apply IHP; lia|]. intros c s1 _ H1. eapply ends_bind; [apply parsebacks_ends; lia|]. intros c' s2 _ H2.
    apply peek_ends; [|intros s3 H3; simpl; lia]. intros s3 H3.
    eapply ends_bind; [apply IHL; lia|]. intros r s4 _ H4. simpl. lia.
  - eapply ends_bind; [apply IHE; lia|]. intros c s1 _ H1.
    apply peek_ends; [|intros s3 H3; simpl; lia]. intros s3 H3.
    eapply ends_bind; [apply IHP; lia|]. intros r s4 _ H4. simpl. lia.
  - eapply (ends_bind _ _ _ (length s)); [apply skip_space_length|]. intros [] s1 _ H1.
    { eapply ends_mono; [apply IHB|]; lia. }
    eapply ends_bind; [apply parseredirs_ends; lia|]. intros rs s2 _ H2. eapply ends_mono; [apply parseargs_ends|]; lia.
  - eapply (ends_bind _ _ _ (length s)); [apply skip_space_length|]. intros [] s1 Hp H1; [|done]. cbn [negb].
    destruct (peek_gettoken _ _ _ Hp) as [Hg Hl]. eapply ends_bind; [exact Hg|]. intros t s2 _ H2.
    eapply ends_bind; [apply IHL; lia|]. intros c s3 _ H3.
    eapply (ends_bind _ _ _ (length s3)); [apply skip_space_length|]. intros [] s4 _ H4; [|done]. cbn [negb].
    eapply ends_bind; [apply gettoken_ends|]. intros u s5 _ H5.
    eapply ends_bind; [apply parseredirs_ends; lia|]. intros rs s6 _ H6. simpl. lia.
Qed.

Lemma parsecmd_ends line : parsecmd line <> Hang.
Proof.
  enough (ends_by (parsecmd line) (length line)) as H by (by destruct (parsecmd line)).
  unfold parsecmd. eapply ends_bind; [apply parse_ends; unfold parse_fuel; lia|]. intros c s _ Hs.
  eapply (ends_bind _ _ _ (length s)); [apply skip_space_length|]. intros b s1 _ H1. unfold kbind, kget.
  destruct (negb _); [done|]. simpl. lia.
Qed.

(** ** What commands mean *)

Record stdio := Stdio { s_in : obj; s_out : obj; s_err : obj }.

(** The descriptors of a process that has the three and no other one. *)
Definition table (e : stdio) : fdtable := [Some (s_in e); Some (s_out e); Some (s_err e)] ++ replicate 13 None.

Definition redirect (k : kind) (o : obj) (e : stdio) : stdio :=
  match k with In => Stdio o (s_out e) (s_err e) | Out | Append => Stdio (s_in e) o (s_err e) end.
Definition complain (e : stdio) (s : list Z) (status : Z) : beh := Bprint (Some (s_err e)) (s ++ [10]) (Bexit status).

(** A program, looked for by its name and then in the root directory. *)
Definition program (args : list (list Z)) (e : stdio) : beh :=
  match args with
  | [] => Bexit 1
  | a :: _ =>
      let lost := complain e (text "exec " ++ a ++ text " failed") 0 in
      Bexec a args (table e) (if hd 0 a =? 47 then lost else Bexec (47 :: a) args (table e) lost)
  end.

Fixpoint denote (c : ast) (e : stdio) (here : list bool) : beh :=
  let fork child parent := Bfork child parent (complain e (text "fork") 1) in
  match c with
  | Exec args => program args e
  | Redir c k f =>
      Bopen f (fst (mode_of k)) (denote c (redirect k (OFile f (fst (mode_of k))) e) here)
        (complain e (text "open " ++ f ++ text " failed") 1)
  | Seq l r => fork (denote l e (false :: here)) (Bwait (table e) (denote r e (true :: here)))
  | Pipe l r =>
      Bpipe here
        (fork (denote l (redirect Out (OPipe here true) e) (false :: here))
          (fork (denote r (redirect In (OPipe here false) e) (true :: here)) (Bwait (table e) (Bwait (table e) (Bexit 0)))))
        (complain e (text "pipe") 1)
  | Back c => fork (denote c e (false :: here)) (Bexit 0)
  end.

Lemma runcmd_denote n buf k c e here : shows n buf k c -> runcmd n buf k (table e) here = denote c e here.
Proof.
  revert k e here. induction c as [args|c IH kd f|l IHl r IHr|l IHl r IHr|c IH]; intros [] e here H; try done; cbn in H.
  - subst args. cbn. unfold exec_argv, program. destruct (string_of n buf <$> argv) as [|a l]; [done|].
    unfold complain. rewrite <- !app_assoc. by destruct (hd 0 a =? 47).
  - destruct H as (H & <- & Hm). 
    set (o := OFile (string_of n buf file) mode).
    transitivity (Bopen (string_of n buf file) mode (runcmd n buf c0 (table (redirect kd o e)) here)
      (complain e (text "open " ++ string_of n buf file ++ text " failed") 1)).
    + destruct kd; injection Hm as -> ->; cbn; unfold complain; by rewrite <- !app_assoc.
    + rewrite (IH _ _ _ H). by destruct kd; injection Hm as -> ->.
  - destruct H as [Hl Hr]. cbn. unfold fork1, sh_panic, complain. cbn. 
    rewrite <- (IHl _ (redirect Out (OPipe here true) e)), <- (IHr _ (redirect In (OPipe here false) e)) by eassumption. done.
  - destruct H as [Hl Hr]. cbn. unfold fork1. by rewrite (IHl _ e), (IHr _ e).
  - cbn. unfold fork1. by rewrite (IH _ e).
Qed.

Lemma skip_blanks_spells ts line : spells ts line -> spells ts (skip_blanks line).
Proof.
  intros H. induction line as [|c line IH]; [done|]. cbn. destruct ((c =? 32) || (c =? 9)) eqn:E; [|done].
  assert (is_space c = true) as Hc by (unfold is_space, within; cbn; destruct (Z.eqb_spec c 32), (Z.eqb_spec c 9); subst; done).
  apply IH. inversion H as [s Hs|b t ts' s Hb Ht He Hs]; subst.
  - apply Forall_cons in Hs as [_ Hs]. by apply sp_nil.
  - destruct b as [|d b].
    + destruct (tok_first t Ht) as (c' & s' & Heq & Hsp & _). rewrite Heq in *. simplify_eq/=. congruence.
    + simplify_eq/=. apply Forall_cons in Hb as [_ Hb]. by apply sp_cons.
Qed.

(** C39. From a line to processes.  The parser ends on every line.  For a line that spells a command and is not the
    built-in [cd], the shell forks a child and waits for it, and the child is the command: every program of it runs
    with exactly its three descriptors, connected by the pipes and files the command names, and a process that waits
    holds no end of a pipe open. *)
Theorem shell_runs (c : ast) (line : list Z) (lines : list (list Z)) (e : stdio) (here : list bool) :
  (forall l, parsecmd l <> Hang) /\
  (wf c -> spells (print LLine c) line -> line <> [] -> hd 0 (skip_blanks line) <> 10 -> take 3 (skip_blanks line) <> text "cd " ->
   commands (line :: lines) (table e) here =
     Bprint (Some (s_err e)) (text "$ ")
       (Bfork (denote c e (false :: here)) (Bwait (table e) (commands lines (table e) (true :: here))) (complain e (text "fork") 1))).
Proof.
  split; [apply parsecmd_ends|]. intros Hw Hs Hn H10 Hcd. cbn [commands]. destruct line as [|x line]; [done|].
  rewrite (proj2 (Z.eqb_neq _ _) H10), bool_decide_eq_false_2 by done.
  destruct (parsecmd_print c _ Hw (skip_blanks_spells _ _ Hs)) as (k & buf & s & Hp & Hk).
  unfold run_line. rewrite Hp, (runcmd_denote _ _ _ _ _ _ Hk). done.
Qed.

(** The line [ls|wc >>f& ; (cd x&)<g]. *)
Lemma shell_runs_witness :
  let c := Seq (Back (Pipe (Exec [[108; 115]]) (Redir (Exec [[119; 99]]) Append [102]))) (Redir (Back (Exec [[99; 100]; [120]])) In [103]) in
  let e := Stdio (OStart 0) (OStart 1) (OStart 2) in
  commands [show (print LLine c)] (table e) [] =
    Bprint (Some (OStart 2)) (text "$ ")
      (Bfork (denote c e [false]) (Bwait (table e) (commands [] (table e) [true])) (complain e (text "fork") 1)).
Proof.
  intros c e. assert (Hc : wf c).
  { repeat (split || constructor); try discriminate; try (simpl; lia); set_solver. }
  refine (proj2 (shell_runs c (show (print LLine c)) [] e []) Hc _ _ _ _); [|done..]. apply show_spells, print_ok, Hc.
Defined.

(** The run on which every [open] at the start succeeds. *)
Fixpoint all_open (b : beh) : beh := match b with Bopen _ _ k _ => all_open k | _ => b end.

(** The first loop of [main] opens the console until the three descriptors are open, in at most four rounds, and
    leaves no other one open. *)
Lemma main_descriptors lines (a b c : option obj) f :
  let console := OFile (text "console") O_RDWR in
  all_open (main (4 + f) lines ([a; b; c] ++ replicate 13 None)) =
    commands lines (table (Stdio (default console a) (default console b) (default console c))) [].
Proof. destruct a, b, c, lines as [|[|] ?]; reflexivity. Qed.
