(* ===== verification/Calculator.v ===== *)
(** * user/calculator.c

    A line is a C string, the bytes before its NUL, and a pointer into it
    the suffix that begins there.  [int] arithmetic wraps at 32 bits.  The
    state has the pointer the parser moves, the 26 variables and what was
    printed; the parser's mutual recursion runs on fuel, and four times the
    length of the line is enough.  The banner and the prompt are left out. *)

From S2P Require Import Prelude Memory Userland.

(** What the program prints: the results and the two errors. *)
Inductive said := SValue (v : Z) | SAssign (var v : Z) | SDivZero | SModZero.

Record calc := Calc { cptr : list Z; vars : Z -> Z; out : list said }.

Definition cur (p : list Z) : Z := hd 0 p.
Definition advance : M calc unit := kupd (fun s => Calc (tl (cptr s)) (vars s) (out s)).
Definition say (m : said) : M calc unit := kupd (fun s => Calc (cptr s) (vars s) (out s ++ [m])).

Fixpoint skip_ws (p : list Z) : list Z :=
  match p with
  | [] => []
  | c :: p' => if (c =? 32) || (c =? 9) then skip_ws p' else p
  end.
Definition skip_whitespace : M calc unit := kupd (fun s => Calc (skip_ws (cptr s)) (vars s) (out s)).

Definition is_digit (c : Z) : bool := (48 <=? c) && (c <=? 57).
Definition is_var (c : Z) : bool := (97 <=? c) && (c <=? 122).

(** The loop on digits. *)
Fixpoint number (val : Z) (p : list Z) : Z * list Z :=
  match p with
  | [] => (val, [])
  | c :: p' => if is_digit c then number (s32 (val * 10 + (c - 48))) p' else (val, p)
  end.

Fixpoint factor (fuel : nat) : M calc Z :=
  match fuel with
  | O => khang
  | S f =>
      do! skip_whitespace;
      let! c := kget (fun s => cur (cptr s)) in
      let! val :=
        (if c =? 40 then
           do! advance;
           let! val := expr f in
           do! skip_whitespace;
           let! c := kget (fun s => cur (cptr s)) in
           do! (if c =? 41 then advance else kret tt);
           kret val
         else if is_var c then
           let! val := kget (fun s => vars s (c - 97)) in
           do! advance;
           kret val
         else if is_digit c then
           let! r := kget (fun s => number 0 (cptr s)) in
           do! kupd (fun s => Calc (snd r) (vars s) (out s));
           kret (fst r)
         else if c =? 45 then
           do! advance;
           let! val := factor f in
           kret (s32 (- val))
         else kret 0) in
      do! skip_whitespace;
      kret val
  end
with term (fuel : nat) : M calc Z :=
  match fuel with
  | O => khang
  | S f => let! val := factor f in term_loop f val
  end
with term_loop (fuel : nat) (val : Z) : M calc Z :=
  match fuel with
  | O => khang
  | S f =>
      do! skip_whitespace;
      let! c := kget (fun s => cur (cptr s)) in
      if c =? 42 then
        do! advance;
        let! d := factor f in
        term_loop f (s32 (val * d))
      else if c =? 47 then
        do! advance;
        let! d := factor f in
        if d =? 0 then do! say SDivZero; kret 0 else term_loop f (s32 (val ÷ d))
      else if c =? 37 then
        do! advance;
        let! d := factor f in
        if d =? 0 then do! say SModZero; kret 0 else term_loop f (s32 (Z.rem val d))
      else kret val
  end
with expr (fuel : nat) : M calc Z :=
  match fuel with
  | O => khang
  | S f => let! val := term f in expr_loop f val
  end
with expr_loop (fuel : nat) (val : Z) : M calc Z :=
  match fuel with
  | O => khang
  | S f =>
      do! skip_whitespace;
      let! c := kget (fun s => cur (cptr s)) in
      if c =? 43 then
        do! advance;
        let! d := term f in
        expr_loop f (s32 (val + d))
      else if c =? 45 then
        do! advance;
        let! d := term f in
        expr_loop f (s32 (val - d))
      else kret val
  end.

Definition calc_fuel (p : list Z) : nat := (4 * length p + 3)%nat.

(** The variable assigned to, -1 for none, and where the expression begins. *)
Definition assignment (p : list Z) : Z * list Z :=
  if is_var (cur p) then
    let q := skip_ws (tl p) in
    if cur q =? 61 then (cur p - 97, tl q) else (-1, p)
  else (-1, p).

Definition evaluate (line : list Z) : M calc unit :=
  let p := skip_ws line in
  if (cur p =? 0) || (cur p =? 10) then kret tt else
  let '(dest_var, p) := assignment p in
  do! kupd (fun s => Calc p (vars s) (out s));
  let! result := expr (calc_fuel p) in
  if negb (dest_var =? -1) then
    do! kupd (fun s => Calc (cptr s) (upd (vars s) dest_var result) (out s));
    say (SAssign (97 + dest_var) result)
  else say (SValue result).

(** The line up to its first newline or carriage return. *)
Fixpoint chop (buf : list Z) : list Z :=
  match buf with
  | [] => []
  | c :: buf' => if (c =? 10) || (c =? 13) then [] else c :: chop buf'
  end.

(** The loop of [main], on the strings [gets] stores until the end of the input. *)
Fixpoint calculator (lines : list (list Z)) : M calc unit :=
  match lines with
  | [] => kret tt
  | [] :: _ => kret tt
  | buf :: lines =>
      let buf := chop buf in
      if bool_decide (buf = text "quit") || bool_decide (buf = text "exit") then kret tt else
      do! (if negb (cur buf =? 0) then evaluate buf else kret tt);
      calculator lines
  end.
