(* ===== verification/CalculatorSpec.v ===== *)
(** * The calculator computes

    Expressions, their values and all the ways to write them, with blanks
    and parentheses; the calculator prints the value of every one of them,
    and reports every division by zero. *)

From S2P Require Import Prelude Memory Userland Calculator.

Inductive op := Add | Sub | Mul | Div | Mod.
Inductive aexp := ENum (ds : list Z) | EVar (c : Z) | ENeg (a : aexp) | EBin (o : op) (a b : aexp).

Definition op_char (o : op) : Z := match o with Add => 43 | Sub => 45 | Mul => 42 | Div => 47 | Mod => 37 end.
Definition is_mul (o : op) : bool := match o with Mul | Div | Mod => true | _ => false end.

(** [None] stands for a division by zero. *)
Definition apply_op (o : op) (a b : Z) : option Z :=
  match o with
  | Add => Some (s32 (a + b))
  | Sub => Some (s32 (a - b))
  | Mul => Some (s32 (a * b))
  | Div => if b =? 0 then None else Some (s32 (a ÷ b))
  | Mod => if b =? 0 then None else Some (s32 (Z.rem a b))
  end.

(** The value of a numeral, modulo 2^32. *)
Definition numeral (ds : list Z) : Z := fold_left (fun v c => s32 (v * 10 + (c - 48))) ds 0.

Fixpoint value (vs : Z -> Z) (e : aexp) : option Z :=
  match e with
  | ENum ds => Some (numeral ds)
  | EVar c => Some (vs (c - 97))
  | ENeg a => a ← value vs a; Some (s32 (- a))
  | EBin o a b => a ← value vs a; b ← value vs b; apply_op o a b
  end.

Definition blank (c : Z) : bool := (c =? 32) || (c =? 9).

(** The texts of an expression: as a factor, a term or an expression. *)
Inductive place := AsFactor | AsTerm | AsExpr.
Inductive spelt : place -> aexp -> list Z -> Prop :=
| sp_num ds : ds <> [] -> Forall (fun c => is_digit c = true) ds -> spelt AsFactor (ENum ds) ds
| sp_var c : is_var c = true -> spelt AsFactor (EVar c) [c]
| sp_neg a s : spelt AsFactor a s -> spelt AsFactor (ENeg a) (45 :: s)
| sp_paren a s : spelt AsExpr a s -> spelt AsFactor a (40 :: s ++ [41])
| sp_factor a s : spelt AsFactor a s -> spelt AsTerm a s
| sp_term a s : spelt AsTerm a s -> spelt AsExpr a s
| sp_mul o a b s t : is_mul o = true -> spelt AsTerm a s -> spelt AsFactor b t -> spelt AsTerm (EBin o a b) (s ++ op_char o :: t)
| sp_add o a b s t : is_mul o = false -> spelt AsExpr a s -> spelt AsTerm b t -> spelt AsExpr (EBin o a b) (s ++ op_char o :: t)
| sp_before l a c s : blank c = true -> spelt l a s -> spelt l a (c :: s)
| sp_after l a c s : blank c = true -> spelt l a s -> spelt l a (s ++ [c]).

(** ** The parser's equations *)

(** After a factor: [k] applied to its value. *)
Definition then_ (c : outcome calc Z) (k : Z -> M calc Z) : outcome calc Z :=
  match c with Ret v s => k v s | Panic m => Panic m | Hang => Hang end.

Lemma term_loop_eq f v p vs o :
  term_loop (S f) v (Calc p vs o) =
    let c := cur (skip_ws p) in
    let s := Calc (tl (skip_ws p)) vs o in
    if c =? 42 then then_ (factor f s) (fun d => term_loop f (s32 (v * d)))
    else if c =? 47 then then_ (factor f s) (fun d => if d =? 0 then (do! say SDivZero; kret 0) else term_loop f (s32 (v ÷ d)))
    else if c =? 37 then then_ (factor f s) (fun d => if d =? 0 then (do! say SModZero; kret 0) else term_loop f (s32 (Z.rem v d)))
    else Ret v (Calc (skip_ws p) vs o).
Proof.
  cbn [term_loop]. unfold kbind at 1 2, skip_whitespace, kupd, kget. cbn [cptr vars out].
  repeat (destruct (_ =? _); [reflexivity|]). reflexivity.
Qed.

Lemma expr_loop_eq f v p vs o :
  expr_loop (S f) v (Calc p vs o) =
    let c := cur (skip_ws p) in
    let s := Calc (tl (skip_ws p)) vs o in
    if c =? 43 then then_ (term f s) (fun d => expr_loop f (s32 (v + d)))
    else if c =? 45 then then_ (term f s) (fun d => expr_loop f (s32 (v - d)))
    else Ret v (Calc (skip_ws p) vs o).
Proof.
  cbn [expr_loop]. unfold kbind at 1 2, skip_whitespace, kupd, kget. cbn [cptr vars out].
  repeat (destruct (_ =? _); [reflexivity|]). reflexivity.
Qed.

(** The value is there; blanks and maybe a closing parenthesis follow. *)
Definition close (v : Z) : M calc Z := fun s =>
  Ret v (Calc (let p := skip_ws (cptr s) in skip_ws (if cur p =? 41 then tl p else p)) (vars s) (out s)).
Definition finish (v : Z) : M calc Z := fun s => Ret v (Calc (skip_ws (cptr s)) (vars s) (out s)).

Lemma factor_eq f p vs o :
  factor (S f) (Calc p vs o) =
    let p := skip_ws p in
    let c := cur p in
    let s := Calc (tl p) vs o in
    if c =? 40 then then_ (expr f s) close
    else if is_var c then finish (vs (c - 97)) s
    else if is_digit c then finish (fst (number 0 p)) (Calc (snd (number 0 p)) vs o)
    else if c =? 45 then then_ (factor f s) (fun v => finish (s32 (- v)))
    else finish 0 (Calc p vs o).
Proof.
  cbn [factor]. unfold kbind at 1 2, skip_whitespace, kupd, kget. cbn [cptr vars out].
  unfold kbind. destruct (_ =? 40).
  { cbn. destruct (expr f _) as [v [q vs1 o1]| |]; [|done..]. cbn. unfold close. cbn. by destruct (cur (skip_ws q) =? 41). }
  destruct (is_var _); [done|]. destruct (is_digit _); [done|]. destruct (_ =? 45); [|done].
  cbn. by destruct (factor f _).
Qed.

(** ** The parser ends *)

(** It ends with the variables as they were and with what was printed
    before, at most [n] bytes from the end of the line. *)
Definition ends_in (vs : Z -> Z) (o : list said) (n : nat) (r : outcome calc Z) : Prop :=
  exists v p l, r = Ret v (Calc p vs (o ++ l)) /\ (length p <= n)%nat.

Lemma ends_in_ret vs o v p n : (length p <= n)%nat -> ends_in vs o n (Ret v (Calc p vs o)).
Proof. intros H. exists v, p, []. by rewrite app_nil_r. Qed.

Lemma skip_ws_length p : (length (skip_ws p) <= length p)%nat.
Proof. induction p as [|c p IH]; simpl; [done|]. destruct (_ || _); simpl; lia. Qed.

Lemma number_length v p : (length (snd (number v p)) <= length p)%nat.
Proof.
  revert v. induction p as [|c p IH]; intros v; simpl; [done|]. destruct (is_digit c); simpl; [|lia].
  specialize (IH (s32 (v * 10 + (c - 48)))). lia.
Qed.

(** A byte other than the NUL is before the end of the line. *)
Lemma tl_length p : cur p <> 0 -> (length (tl p) < length p)%nat.
Proof. destruct p; simpl; [done|lia]. Qed.

Lemma tl_skip_length p : cur (skip_ws p) <> 0 -> (length (tl (skip_ws p)) < length p)%nat.
Proof. intros H%tl_length. pose proof (skip_ws_length p). lia. Qed.

(** A loop goes on after a subexpression of a shorter text. *)
Lemma ends_in_next c (k : Z -> M calc Z) vs o m n :
  ends_in vs o m c -> (m <= n)%nat ->
  (forall v q o', (length q <= m)%nat -> ends_in vs o' (length q) (k v (Calc q vs o'))) ->
  ends_in vs o n (then_ c k).
Proof.
  intros (v & q & l & -> & Hq) Hm Hk. cbn. destruct (Hk v q (o ++ l) Hq) as (v' & q' & l' & -> & Hq').
  exists v', q', (l ++ l'). rewrite app_assoc. split; [done|lia].
Qed.

(** The next subexpression begins after the byte at the pointer. *)
Ltac goes_on IH :=
  match goal with E : cur (skip_ws ?p) = _ |- _ => pose proof (tl_skip_length p ltac:(lia)) end;
  eapply ends_in_next; [apply IH; lia|lia|intros d q o' Hq].

(** Fuel that is enough for each of the functions. *)
Lemma calc_ends fuel :
  (forall p vs o, (4 * length p + 1 <= fuel)%nat -> ends_in vs o (length p) (factor fuel (Calc p vs o))) /\
  (forall p vs o, (4 * length p + 2 <= fuel)%nat -> ends_in vs o (length p) (term fuel (Calc p vs o))) /\
  (forall v p vs o, (4 * length p + 1 <= fuel)%nat -> ends_in vs o (length p) (term_loop fuel v (Calc p vs o))) /\
  (forall p vs o, (4 * length p + 3 <= fuel)%nat -> ends_in vs o (length p) (expr fuel (Calc p vs o))) /\
  (forall v p vs o, (4 * length p + 2 <= fuel)%nat -> ends_in vs o (length p) (expr_loop fuel v (Calc p vs o))).
Proof.
  induction fuel as [|f (IHF & IHT & IHTL & IHE & IHEL)]; [split_and!; intros; lia|].
  split_and!.
  - intros p vs o Hf. rewrite factor_eq. pose proof (skip_ws_length p) as Hp. cbv zeta.
    destruct (Z.eqb_spec (cur (skip_ws p)) 40) as [E|_].
    { pose proof (tl_skip_length p ltac:(lia)). eapply ends_in_next; [apply IHE; lia|lia|]. intros v q o' Hq.
      apply ends_in_ret. cbn. destruct (Z.eqb_spec (cur (skip_ws q)) 41) as [E'|].
      - pose proof (tl_skip_length q ltac:(lia)). pose proof (skip_ws_length (tl (skip_ws q))). lia.
      - pose proof (skip_ws_length q). pose proof (skip_ws_length (skip_ws q)). lia. }
    destruct (is_var _) eqn:Hv.
    { apply ends_in_ret. assert (cur (skip_ws p) <> 0) as Hn by (unfold is_var in Hv; cbool; lia). apply tl_skip_length in Hn.
      pose proof (skip_ws_length (tl (skip_ws p))). cbn. lia. }
    destruct (is_digit _).
    { apply ends_in_ret. pose proof (number_length 0 (skip_ws p)).
      pose proof (skip_ws_length (snd (number 0 (skip_ws p)))). cbn. lia. }
    destruct (Z.eqb_spec (cur (skip_ws p)) 45).
    { pose proof (tl_skip_length p ltac:(lia)). eapply ends_in_next; [apply IHF; lia|lia|]. intros v q o' Hq.
      apply ends_in_ret, skip_ws_length. }
    apply ends_in_ret. cbn. pose proof (skip_ws_length (skip_ws p)). lia.
  - intros p vs o Hf. change (term (S f) ?s) with (then_ (factor f s) (term_loop f)).
    eapply ends_in_next; [apply IHF; lia|done|]. intros; apply IHTL; lia.
  - intros v p vs o Hf. rewrite term_loop_eq. cbv zeta.
    destruct (Z.eqb_spec (cur (skip_ws p)) 42) as [E|_]; [goes_on IHF; apply IHTL; lia|].
    destruct (Z.eqb_spec (cur (skip_ws p)) 47) as [E|_].
    { goes_on IHF. destruct (d =? 0); [|apply IHTL; lia]. by exists 0, q, [SDivZero]. }
    destruct (Z.eqb_spec (cur (skip_ws p)) 37) as [E|_].
    { goes_on IHF. destruct (d =? 0); [|apply IHTL; lia]. by exists 0, q, [SModZero]. }
    apply ends_in_ret, skip_ws_length.
  - intros p vs o Hf. change (expr (S f) ?s) with (then_ (term f s) (expr_loop f)).
    eapply ends_in_next; [apply IHT; lia|done|]. intros; apply IHEL; lia.
  - intros v p vs o Hf. rewrite expr_loop_eq. cbv zeta.
    destruct (Z.eqb_spec (cur (skip_ws p)) 43) as [E|_]; [goes_on IHT; apply IHEL; lia|].
    destruct (Z.eqb_spec (cur (skip_ws p)) 45) as [E|_]; [goes_on IHT; apply IHEL; lia|].
    apply ends_in_ret, skip_ws_length.
Qed.

(** ** Values *)

(** An error was printed. *)
Definition grows (vs : Z -> Z) (o : list said) (r : outcome calc Z) : Prop :=
  exists v p m l, r = Ret v (Calc p vs (o ++ m :: l)) /\ (m = SDivZero \/ m = SModZero).

Lemma grows_next c (k : Z -> M calc Z) vs o m :
  grows vs o c -> ends_in vs o m c ->
  (forall v q o', (length q <= m)%nat -> ends_in vs o' (length q) (k v (Calc q vs o'))) -> grows vs o (then_ c k).
Proof.
  intros (v & p & e & l & -> & He) (v' & p' & l' & [= <- <- H] & Hp) Hk. cbn.
  destruct (Hk v p (o ++ e :: l) Hp) as (v2 & p2 & l2 & -> & _). exists v2, p2, e, (l ++ l2). by rewrite <- app_assoc.
Qed.

Lemma skip_ws_blank c p : blank c = true -> skip_ws (c :: p) = skip_ws p.
Proof. unfold blank. intros H. cbn. by rewrite H. Qed.

Lemma skip_ws_at c p : blank c = false -> skip_ws (c :: p) = c :: p.
Proof. unfold blank. intros H. cbn. by rewrite H. Qed.

Lemma skip_ws_idem p : skip_ws (skip_ws p) = skip_ws p.
Proof. induction p as [|c p IH]; [done|]. cbn. destruct (_ || _) eqn:E; [done|]. by apply skip_ws_at. Qed.

Lemma number_app ds rest v :
  Forall (fun c => is_digit c = true) ds -> is_digit (cur rest) = false ->
  number v (ds ++ rest) = (fold_left (fun v c => s32 (v * 10 + (c - 48))) ds v, rest).
Proof.
  intros Hd Hr. revert v. induction Hd as [|c ds Hc Hd IH]; intros v; cbn.
  - destruct rest as [|c rest]; [done|]. cbn in *. by rewrite Hr.
  - by rewrite Hc.
Qed.

Lemma is_digit_blank c : is_digit c = true -> blank c = false.
Proof. unfold is_digit, blank. intros. cbool. destruct (Z.eqb_spec c 32), (Z.eqb_spec c 9); lia || done. Qed.

Lemma is_var_blank c : is_var c = true -> blank c = false.
Proof. unfold is_var, blank. intros. cbool. destruct (Z.eqb_spec c 32), (Z.eqb_spec c 9); lia || done. Qed.

(** What may follow the text, which goes on as long as it can. *)
Definition follows (l : place) (rest : list Z) : Prop :=
  is_digit (cur rest) = false /\
  match l with AsExpr => cur (skip_ws rest) <> 42 /\ cur (skip_ws rest) <> 47 /\ cur (skip_ws rest) <> 37 | _ => True end.

Definition run_at (l : place) (f : nat) : M calc Z :=
  match l with AsFactor => factor f | AsTerm => term f | AsExpr => expr f end.
Definition need (l : place) (n : nat) : nat := match l with AsFactor => 4 * n + 1 | AsTerm => 4 * n + 2 | AsExpr => 4 * n + 3 end.

(** The parser has read the text and is in the loop of its place with the value. *)
Definition arrives (l : place) (v : Z) (rest : list Z) (vs : Z -> Z) (o : list said) (r : outcome calc Z) : Prop :=
  match l with
  | AsFactor => r = Ret v (Calc (skip_ws rest) vs o)
  | AsTerm => exists f, (4 * length rest + 1 <= f)%nat /\ r = term_loop f v (Calc rest vs o)
  | AsExpr => exists f, (4 * length rest + 2 <= f)%nat /\ r = expr_loop f v (Calc rest vs o)
  end.

Definition computes (l : place) (e : aexp) (s : list Z) : Prop :=
  forall vs f rest o, follows l rest -> (need l (length (s ++ rest)) <= f)%nat ->
    match value vs e with
    | Some v => arrives l v rest vs o (run_at l f (Calc (s ++ rest) vs o))
    | None => grows vs o (run_at l f (Calc (s ++ rest) vs o))
    end.

Lemma term_loop_stops f v rest vs o :
  (1 <= f)%nat -> cur (skip_ws rest) <> 42 /\ cur (skip_ws rest) <> 47 /\ cur (skip_ws rest) <> 37 ->
  term_loop f v (Calc rest vs o) = Ret v (Calc (skip_ws rest) vs o).
Proof.
  intros Hf (H1 & H2 & H3). destruct f as [|f]; [lia|]. rewrite term_loop_eq. cbv zeta.
  by rewrite !(proj2 (Z.eqb_neq _ _)).
Qed.

Lemma expr_loop_stops f v rest vs o :
  (1 <= f)%nat -> cur (skip_ws rest) <> 43 /\ cur (skip_ws rest) <> 45 ->
  expr_loop f v (Calc rest vs o) = Ret v (Calc (skip_ws rest) vs o).
Proof.
  intros Hf (H1 & H2). destruct f as [|f]; [lia|]. rewrite expr_loop_eq. cbv zeta. by rewrite !(proj2 (Z.eqb_neq _ _)).
Qed.

(** Blanks at the pointer do not matter. *)
Lemma factor_skip f p vs o : factor f (Calc (skip_ws p) vs o) = factor f (Calc p vs o).
Proof. destruct f; [done|]. rewrite !factor_eq. cbv zeta. by rewrite skip_ws_idem. Qed.
Lemma term_loop_skip f v p vs o : term_loop f v (Calc (skip_ws p) vs o) = term_loop f v (Calc p vs o).
Proof. destruct f; [done|]. rewrite !term_loop_eq. cbv zeta. by rewrite skip_ws_idem. Qed.
Lemma expr_loop_skip f v p vs o : expr_loop f v (Calc (skip_ws p) vs o) = expr_loop f v (Calc p vs o).
Proof. destruct f; [done|]. rewrite !expr_loop_eq. cbv zeta. by rewrite skip_ws_idem. Qed.
Lemma run_skip l f p vs o : run_at l f (Calc (skip_ws p) vs o) = run_at l f (Calc p vs o).
Proof.
  destruct l; cbn [run_at]; [apply factor_skip| |]; destruct f as [|f]; try done.
  - change (term (S f) ?s) with (then_ (factor f s) (term_loop f)). by rewrite factor_skip.
  - destruct f as [|f]; [done|]. change (expr (S (S f)) ?s) with (then_ (then_ (factor f s) (term_loop f)) (expr_loop (S f))).
    by rewrite factor_skip.
Qed.

Lemma arrives_skip l v rest rest' vs o r :
  skip_ws rest = skip_ws rest' -> (length rest' <= length rest)%nat -> arrives l v rest vs o r -> arrives l v rest' vs o r.
Proof.
  intros H Hl. destruct l; cbn.
  - by rewrite H.
  - intros (f & Hf & ->). exists f. split; [lia|]. by rewrite <- term_loop_skip, H, term_loop_skip.
  - intros (f & Hf & ->). exists f. split; [lia|]. by rewrite <- expr_loop_skip, H, expr_loop_skip.
Qed.

Lemma computes_num ds : ds <> [] -> Forall (fun c => is_digit c = true) ds -> computes AsFactor (ENum ds) ds.
Proof.
  intros Hn Hd vs f rest o [Hr _] Hf. destruct f as [|f]; [cbn in Hf; lia|]. cbn [value arrives run_at].
  destruct ds as [|c ds]; [done|]. pose proof (Forall_inv Hd) as Hc. cbn in Hc. rewrite factor_eq. cbn [app].
  rewrite skip_ws_at by (by apply is_digit_blank). cbv zeta. cbn [cur hd tl].
  assert (c <> 40 /\ is_var c = false) as [Hp Hv].
  { unfold is_digit, is_var in *. cbool. split; [lia|]. apply andb_false_iff. left. by apply Z.leb_gt; lia. }
  rewrite (proj2 (Z.eqb_neq c 40) Hp), Hv, Hc. change (c :: ds ++ rest) with ((c :: ds) ++ rest). by rewrite number_app.
Qed.

Lemma computes_var c : is_var c = true -> computes AsFactor (EVar c) [c].
Proof.
  intros Hc vs f rest o [Hr _] Hf. destruct f as [|f]; [cbn in Hf; lia|]. cbn [value arrives run_at app].
  rewrite factor_eq, skip_ws_at by (by apply is_var_blank). cbv zeta. cbn [cur hd tl].
  rewrite (proj2 (Z.eqb_neq c 40)) by (unfold is_var in Hc; cbool; lia). by rewrite Hc.
Qed.

Lemma computes_neg a s : computes AsFactor a s -> computes AsFactor (ENeg a) (45 :: s).
Proof.
  intros IH vs f rest o Hr Hf. cbn in Hf. destruct f as [|f]; [lia|]. specialize (IH vs f rest o Hr ltac:(cbn; lia)).
  cbn [value run_at] in *. cbn [app]. rewrite factor_eq, skip_ws_at by done. cbv zeta. cbn [cur hd tl].
  change (45 =? 40) with false. change (is_var 45) with false. change (is_digit 45) with false. change (45 =? 45) with true.
  cbv iota. destruct (value vs a) as [v|]; cbn [mbind option_bind] in *.
  - cbn in IH |- *. rewrite IH. cbn. unfold finish. cbn. by rewrite skip_ws_idem.
  - eapply grows_next; [done|apply calc_ends; lia|]. intros. apply ends_in_ret, skip_ws_length.
Qed.

Lemma computes_paren a s : computes AsExpr a s -> computes AsFactor a (40 :: s ++ [41]).
Proof.
  intros IH vs f rest o Hr Hf. cbn in Hf. rewrite !length_app in Hf. cbn in Hf. destruct f as [|f]; [lia|].
  specialize (IH vs f (41 :: rest) o ltac:(done) ltac:(rewrite length_app; cbn; lia)). cbn [run_at] in *.
  cbn [app]. rewrite <- app_assoc. cbn [app]. rewrite factor_eq, skip_ws_at by done. cbv zeta. cbn [cur hd tl].
  change (40 =? 40) with true. cbv iota. destruct (value vs a) as [v|].
  - destruct IH as (f' & Hf' & ->). rewrite expr_loop_stops by (cbn in *; lia). cbn. unfold close. cbn. done.
  - eapply grows_next; [done|apply calc_ends; rewrite length_app; cbn; lia|]. intros v q o' _. apply ends_in_ret. cbn.
    destruct (Z.eqb_spec (cur (skip_ws q)) 41).
    + pose proof (tl_skip_length q ltac:(lia)). pose proof (skip_ws_length (tl (skip_ws q))). lia.
    + pose proof (skip_ws_length q). pose proof (skip_ws_length (skip_ws q)). lia.
Qed.

Lemma computes_factor a s : computes AsFactor a s -> computes AsTerm a s.
Proof.
  intros IH vs f rest o Hr Hf. cbn in Hf. destruct f as [|f]; [lia|]. specialize (IH vs f rest o Hr ltac:(cbn; lia)).
  cbn [run_at] in *. change (term (S f) ?s) with (then_ (factor f s) (term_loop f)).
  rewrite length_app in Hf. destruct (value vs a) as [v|].
  - cbn in IH. rewrite IH. exists f. split; [lia|]. apply term_loop_skip.
  - eapply grows_next; [done|apply calc_ends; rewrite length_app; lia|]. intros v q o' Hq. rewrite length_app in Hq. apply calc_ends. lia.
Qed.

Lemma computes_term a s : computes AsTerm a s -> computes AsExpr a s.
Proof.
  intros IH vs f rest o [Hr Hs] Hf. cbn in Hf. destruct f as [|f]; [lia|].
  specialize (IH vs f rest o (conj Hr I) ltac:(cbn; lia)).
  cbn [run_at] in *. change (expr (S f) ?s) with (then_ (term f s) (expr_loop f)).
  rewrite length_app in Hf. destruct (value vs a) as [v|].
  - destruct IH as (f' & Hf' & ->). rewrite term_loop_stops by (done || lia). exists f. split; [lia|]. apply expr_loop_skip.
  - eapply grows_next; [done|apply calc_ends; rewrite length_app; lia|]. intros v q o' Hq. rewrite length_app in Hq. apply calc_ends. lia.
Qed.

Definition complaint (o : op) : said := match o with Mod => SModZero | _ => SDivZero end.

Lemma term_loop_op op f a p vs o : is_mul op = true ->
  term_loop (S f) a (Calc (op_char op :: p) vs o) =
    then_ (factor f (Calc p vs o)) (fun b => match apply_op op a b with
      | Some v => term_loop f v | None => (do! say (complaint op); kret 0) end).
Proof.
  intros Hm. rewrite term_loop_eq, skip_ws_at by (by destruct op). cbv zeta. cbn [cur hd tl].
  destruct op; try done; unfold then_; destruct (factor f _) as [b s| |]; try done; cbn; by destruct (b =? 0).
Qed.

Lemma expr_loop_op op f a p vs o : is_mul op = false ->
  expr_loop (S f) a (Calc (op_char op :: p) vs o) =
    then_ (term f (Calc p vs o)) (fun b => expr_loop f (default 0 (apply_op op a b))).
Proof.
  intros Hm. rewrite expr_loop_eq, skip_ws_at by (by destruct op). cbv zeta. cbn [cur hd tl]. by destruct op.
Qed.

Lemma computes_mul op a b s t : is_mul op = true ->
  computes AsTerm a s -> computes AsFactor b t -> computes AsTerm (EBin op a b) (s ++ op_char op :: t).
Proof.
  intros Hm IHa IHb vs f rest o Hr Hf. cbn in Hf. rewrite !length_app in Hf. cbn in Hf.
  assert (follows AsTerm (op_char op :: t ++ rest)) as Hfo by (by destruct op).
  rewrite <- app_assoc. cbn [app].
  specialize (IHa vs f _ o Hfo ltac:(cbn; rewrite length_app; cbn; rewrite length_app; lia)). cbn [value].
  destruct (value vs a) as [va|]; cbn [mbind option_bind]; [|done].
  destruct IHa as (f' & Hf' & Ea). cbn in Hf'. rewrite length_app in Hf'. cbn [run_at] in *. rewrite Ea. clear Ea.
  destruct f' as [|f']; [lia|]. specialize (IHb vs f' rest o Hr ltac:(cbn; rewrite length_app; lia)). cbn [run_at] in IHb.
  rewrite term_loop_op by done. destruct (value vs b) as [vb|]; cbn [mbind option_bind].
  - cbn in IHb. rewrite IHb. cbn [then_]. destruct (apply_op op va vb) as [v|].
    + exists f'. split; [lia|]. apply term_loop_skip.
    + eexists _, _, (complaint op), []. split; [reflexivity|]. destruct op; auto.
  - eapply grows_next; [done|apply calc_ends; rewrite length_app; lia|]. intros v q o' Hq. rewrite length_app in Hq.
    destruct (apply_op op va v); [apply calc_ends; lia|]. by eexists _, _, [_].
Qed.

Lemma computes_add op a b s t : is_mul op = false ->
  computes AsExpr a s -> computes AsTerm b t -> computes AsExpr (EBin op a b) (s ++ op_char op :: t).
Proof.
  intros Hm IHa IHb vs f rest o [Hr Hs] Hf. cbn in Hf. rewrite !length_app in Hf. cbn in Hf.
  assert (follows AsExpr (op_char op :: t ++ rest)) as Hfo by (by destruct op).
  rewrite <- app_assoc. cbn [app].
  specialize (IHa vs f _ o Hfo ltac:(cbn; rewrite length_app; cbn; rewrite length_app; lia)). cbn [value].
  destruct (value vs a) as [va|]; cbn [mbind option_bind]; [|done].
  destruct IHa as (f' & Hf' & Ea). cbn in Hf'. rewrite length_app in Hf'. cbn [run_at] in *. rewrite Ea. clear Ea.
  destruct f' as [|f']; [lia|]. specialize (IHb vs f' rest o (conj Hr I) ltac:(cbn; rewrite length_app; lia)). cbn [run_at] in IHb.
  rewrite expr_loop_op by done. destruct (value vs b) as [vb|]; cbn [mbind option_bind].
  - destruct IHb as (f2 & Hf2 & ->). rewrite term_loop_stops by (done || lia). cbn [then_].
    destruct (apply_op op va vb) as [v|] eqn:E; [|by destruct op]. exists f'. split; [lia|]. apply expr_loop_skip.
  - eapply grows_next; [done|apply calc_ends; rewrite length_app; lia|]. intros v q o' Hq. rewrite length_app in Hq. apply calc_ends. lia.
Qed.

Lemma spelt_computes l e s : spelt l e s -> computes l e s.
Proof.
  induction 1 as [| | | | | | | |l a c s Hc _ IH|l a c s Hc _ IH];
    eauto using computes_num, computes_var, computes_neg, computes_paren, computes_factor, computes_term, computes_mul, computes_add.
  - intros vs f rest o Hr Hf. cbn [app]. rewrite <- run_skip, skip_ws_blank, run_skip by done.
    apply IH; [done|]. unfold need in *. cbn [app length] in Hf. destruct l; lia.
  - intros vs f rest o [Hr Hs] Hf. rewrite <- app_assoc in Hf |- *. cbn [app] in Hf |- *.
    assert (follows l (c :: rest)) as Hfo.
    { split; [destruct (is_digit c) eqn:E; [apply is_digit_blank in E; congruence|done]|]. by rewrite skip_ws_blank. }
    specialize (IH vs f (c :: rest) o Hfo Hf). destruct (value vs a); [|done].
    apply (arrives_skip _ _ (c :: rest)); [by apply skip_ws_blank|cbn; lia|exact IH].
Qed.

(** ** Lines *)

Definition plain (c : Z) : bool := negb (c =? 0) && negb (c =? 10) && negb (c =? 61).

Lemma spelt_plain l e s : spelt l e s -> Forall (fun c => plain c = true) s /\ skip_ws s <> [].
Proof.
  assert (forall c, is_digit c = true \/ is_var c = true \/ blank c = true -> plain c = true) as Hpl.
  { unfold is_digit, is_var, blank, plain. intros c Hc. destruct (Z.eqb_spec c 0), (Z.eqb_spec c 10), (Z.eqb_spec c 61); subst; naive_solver. }
  assert (forall s t, skip_ws s <> [] -> skip_ws (s ++ t) <> []) as Happ.
  { clear. intros s t. induction s as [|c s IH]; [done|]. cbn. by destruct (_ || _). }
  induction 1 as [ds Hn Hd|c Hc|a s _ [IH ?]|a s _ [IH ?]| | |o a b s t _ _ [IHa ?] _ [IHb ?]|o a b s t _ _ [IHa ?] _ [IHb ?]|l a c s Hc _ [IH ?]|l a c s Hc _ [IH ?]]; try done.
  - split; [eapply Forall_impl; [exact Hd|]; eauto|]. destruct ds as [|c ds]; [done|].
    rewrite skip_ws_at; [done|]. apply is_digit_blank. by inversion Hd.
  - split; [by constructor; [auto|]|]. by rewrite skip_ws_at by (by apply is_var_blank).
  - split; [by constructor|done].
  - split; [|done]. constructor; [done|]. apply Forall_app. split; [done|]. by constructor.
  - split; [|by apply Happ]. apply Forall_app. split; [done|]. constructor; [by destruct o|done].
  - split; [|by apply Happ]. apply Forall_app. split; [done|]. constructor; [by destruct o|done].
  - split; [constructor; auto|]. by rewrite skip_ws_blank.
  - split; [|by apply Happ]. apply Forall_app. split; [done|]. constructor; auto.
Qed.

Lemma skip_ws_suffix p : exists b, p = b ++ skip_ws p.
Proof.
  induction p as [|c p [b IH]]; [by exists []|]. cbn. destruct (_ || _); [|by exists []]. exists (c :: b). cbn. by f_equal.
Qed.

Lemma cur_plain s : Forall (fun c => plain c = true) s -> cur s = 0 \/ plain (cur s) = true.
Proof. intros [|c s' Hc _]; cbn; auto. Qed.

Lemma plain_skip s : Forall (fun c => plain c = true) s -> Forall (fun c => plain c = true) (skip_ws s).
Proof. destruct (skip_ws_suffix s) as [b E]. rewrite E at 1. by intros [_ ?]%Forall_app. Qed.

Lemma plain_tl s : Forall (fun c => plain c = true) s -> Forall (fun c => plain c = true) (tl s).
Proof. by intros [|]. Qed.

Lemma assignment_plain p : Forall (fun c => plain c = true) p -> assignment p = (-1, p).
Proof.
  intros H. unfold assignment. destruct (is_var (cur p)); [|done].
  destruct (cur_plain (skip_ws (tl p))) as [->|Hp]; [by apply plain_skip, plain_tl|done|].
  unfold plain in Hp. by destruct (Z.eqb_spec (cur (skip_ws (tl p))) 61) as [->|].
Qed.

Lemma skip_ws_app s t : skip_ws s <> [] -> skip_ws (s ++ t) = skip_ws s ++ t.
Proof. induction s as [|c s IH]; [done|]. cbn. by destruct (_ || _). Qed.

Lemma spelt_skip l e s : spelt l e s -> spelt l e (skip_ws s).
Proof.
  induction 1 as [ds Hn Hd|c Hc|a s H IH|a s H IH| | |o a b s t Ho Ha IHa Hb IHb|o a b s t Ho Ha IHa Hb IHb|l a c s Hc _ IH|l a c s Hc H IH].
  - destruct ds as [|c ds]; [done|]. rewrite skip_ws_at by (apply is_digit_blank; by inversion Hd). by apply sp_num.
  - rewrite skip_ws_at by (by apply is_var_blank). by apply sp_var.
  - by apply sp_neg.
  - by apply sp_paren.
  - by apply sp_factor.
  - by apply sp_term.
  - rewrite skip_ws_app by (by apply spelt_plain in Ha as [_ ?]). by apply sp_mul.
  - rewrite skip_ws_app by (by apply spelt_plain in Ha as [_ ?]). by apply sp_add.
  - by rewrite skip_ws_blank.
  - rewrite skip_ws_app by (by apply spelt_plain in H as [_ ?]). by apply sp_after.
Qed.

(** What a run of the parser on a whole text gives. *)
Definition evaluated (vs : Z -> Z) (e : aexp) (o : list said) (show : Z -> said) (store : Z -> Z -> Z) (r : outcome calc unit) : Prop :=
  match value vs e with
  | Some v => exists p, r = Ret tt (Calc p (store v) (o ++ [show v]))
  | None => exists p v m l, r = Ret tt (Calc p (store v) (o ++ m :: l ++ [show v])) /\ (m = SDivZero \/ m = SModZero)
  end.

Lemma expr_evaluated vs e s o : spelt AsExpr e s ->
  match value vs e with
  | Some v => expr (calc_fuel s) (Calc s vs o) = Ret v (Calc [] vs o)
  | None => grows vs o (expr (calc_fuel s) (Calc s vs o))
  end.
Proof.
  intros H%spelt_computes. specialize (H vs (calc_fuel s) [] o ltac:(done)). rewrite app_nil_r in H.
  specialize (H ltac:(done)). destruct (value vs e) as [v|]; [|done].
  destruct H as (f & Hf & E). cbn [run_at] in E. rewrite E, expr_loop_stops by (cbn in *; lia). done.
Qed.

(** The part of [evaluate] after the choice of the variable. *)
Lemma finish_evaluated vs e q p o (d : Z) :
  spelt AsExpr e q ->
  evaluated vs e o (if negb (d =? -1) then SAssign (97 + d) else SValue) (fun v => if negb (d =? -1) then upd vs d v else vs)
    ((do! kupd (fun s => Calc q (vars s) (out s));
      let! result := expr (calc_fuel q) in
      if negb (d =? -1) then
        do! kupd (fun s => Calc (cptr s) (upd (vars s) d result) (out s));
        say (SAssign (97 + d) result)
      else say (SValue result)) (Calc p vs o)).
Proof.
  intros H%(expr_evaluated vs e q o). unfold evaluated.
  destruct (value vs e) as [v|]; unfold kbind at 1 2, kupd at 1; cbn [vars out].
  - rewrite H. destruct (negb _); by eexists.
  - destruct H as (v & p' & m & l & -> & Hm). destruct (negb _); eexists _, _, m, l; (split; [|done]); unfold kbind, say, kupd; cbn; by rewrite <- app_assoc.
Qed.

Lemma skip_ws_blanks b s : Forall (fun c => blank c = true) b -> skip_ws (b ++ s) = skip_ws s.
Proof. induction 1 as [|c b Hc _ IH]; [done|]. cbn [app]. by rewrite skip_ws_blank. Qed.

(** C40. The calculator computes.  It ends on every line.  For every expression and every way to write it, with any blanks
    and parentheses, it prints the expression's 32-bit value, with the usual precedence and grouping to the left, or an
    error if the expression divides by zero; an assignment also stores the value in the variable and in no other one. *)
Theorem calculator_evaluates (vs : Z -> Z) (p : list Z) (o : list said) :
  (forall line, exists s, evaluate line (Calc p vs o) = Ret tt s) /\
  (forall e s, spelt AsExpr e s -> evaluated vs e o SValue (fun _ => vs) (evaluate s (Calc p vs o))) /\
  (forall e s c b1 b2, spelt AsExpr e s -> is_var c = true -> Forall (fun c => blank c = true) (b1 ++ b2) ->
    evaluated vs e o (SAssign c) (upd vs (c - 97)) (evaluate (b1 ++ c :: b2 ++ 61 :: s) (Calc p vs o))).
Proof.
  split_and!.
  - intros line. unfold evaluate. destruct (_ || _); [by eexists|]. destruct (assignment _) as [d q].
    unfold kbind at 1, kupd at 1. cbn [vars out].
    destruct (calc_ends (calc_fuel q)) as (_ & _ & _ & H & _). destruct (H q vs o ltac:(done)) as (v & q' & l & E & _).
    unfold kbind at 1. rewrite E. destruct (negb _); by eexists.
  - intros e s Hs. destruct (spelt_plain _ _ _ Hs) as [Hp%plain_skip Hn]. apply spelt_skip in Hs. unfold evaluate.
    rewrite assignment_plain by done. destruct (skip_ws s) as [|c q] eqn:Eq; [done|].
    pose proof (Forall_inv Hp) as Hc. unfold plain in Hc. cbn [cur hd].
    destruct (Z.eqb_spec c 0) as [->|]; [done|]. destruct (Z.eqb_spec c 10) as [->|]; [done|]. cbn [orb].
    by apply (finish_evaluated vs e (c :: q) p o (-1)).
  - intros e s c b1 b2 Hs Hc [Hb1 Hb2]%Forall_app. unfold evaluate. rewrite skip_ws_blanks, skip_ws_at by (done || by apply is_var_blank).
    cbn [cur hd]. assert (97 <= c <= 122) as Hr by (unfold is_var in Hc; cbool; lia).
    rewrite (proj2 (Z.eqb_neq c 0)), (proj2 (Z.eqb_neq c 10)) by lia. cbn [orb]. unfold assignment. cbn [cur hd tl].
    rewrite Hc, skip_ws_blanks, skip_ws_at by done. cbn [cur hd tl]. change (61 =? 61) with true. cbv iota.
    pose proof (finish_evaluated vs e s p o (c - 97) Hs) as H. rewrite (proj2 (Z.eqb_neq (c - 97) (-1))) in H |- * by lia.
    cbn [negb] in H |- *. by replace (97 + (c - 97)) with c in H |- * by lia.
Qed.

(** [ a = (1 + x) * 7 / -2] with [x] = 5. *)
Lemma calculator_evaluates_witness :
  let vs := upd (fun _ => 0) 23 5 in
  exists p, evaluate (text " a = (1 + x) * 7 / -2") (Calc [] vs []) = Ret tt (Calc p (upd vs 0 (-21)) [SAssign 97 (-21)]).
Proof.
  intros vs.
  pose (e := EBin Div (EBin Mul (EBin Add (ENum [49]) (EVar 120)) (ENum [55])) (ENeg (ENum [50]))).
  destruct (calculator_evaluates vs [] []) as (_ & _ & H).
  assert (spelt AsExpr e (text " (1 + x) * 7 / -2")) as He.
  { apply sp_term. apply (sp_mul Div _ _ (text " (1 + x) * 7 ")); [done| |].
    - apply (sp_mul Mul _ _ (text " (1 + x) ")); [done| |].
      + apply sp_factor, sp_before, (sp_after _ _ 32 (text "(1 + x)")); [done..|]. apply (sp_paren _ (text "1 + x")).
        apply (sp_add Add _ _ (text "1 ")); [done| |].
        * apply sp_term, sp_factor, (sp_after _ _ 32 [49]); [done|]. by apply sp_num; [|repeat constructor].
        * apply sp_factor, sp_before, sp_var; done.
      + apply sp_before, (sp_after _ _ 32 [55]); [done..|]. by apply sp_num; [|repeat constructor].
    - apply sp_before, sp_neg; [done|]. by apply sp_num; [|repeat constructor]. }
  exact (H e _ 97 [32] [32] He eq_refl ltac:(by repeat constructor)).
Defined.
