(* ===== verification/PrintfSpec.v ===== *)
(** * Formatted output: what the code guarantees

    The numerals that [printint] prints denote their argument and fit its
    buffer, and [atoi] reads them back; the system log keeps the last
    characters. *)

From S2P Require Import Prelude Memory StringC Kalloc Vm Proc Printf Ulib.

(** ** Numerals *)

(** The number a numeral denotes, most significant digit first. *)
Definition digit_value (hex c : Z) : Z := if c <? 58 then c - 48 else c - hex + 10.
Definition numeral (hex base : Z) (l : list Z) : Z := fold_left (fun n c => n * base + digit_value hex c) l 0.
Definition signed_numeral (hex base : Z) (l : list Z) : Z :=
  match l with
  | c :: l' => if c =? 45 then - numeral hex base l' else numeral hex base l
  | [] => 0
  end.

Definition is_hex (hex : Z) : Prop := hex = 97 \/ hex = 65.

Lemma digit_ok hex d : is_hex hex -> 0 <= d < 16 -> digit_value hex (digit hex d) = d /\ 48 <= digit hex d < 256 /\ (d < 10 -> digit hex d <= 57).
Proof.
  intros Hh Hd. unfold digit_value, digit. destruct (Z.ltb_spec d 10).
  - destruct (Z.ltb_spec (48 + d) 58); lia.
  - destruct Hh as [-> | ->]; [destruct (Z.ltb_spec (97 + (d - 10)) 58)|destruct (Z.ltb_spec (65 + (d - 10)) 58)]; lia.
Qed.

Lemma numeral_snoc hex base l c : numeral hex base (l ++ [c]) = numeral hex base l * base + digit_value hex c.
Proof. unfold numeral. by rewrite fold_left_app. Qed.

Lemma digit_loop_ok fuel hex x base :
  is_hex hex -> 2 <= base <= 16 -> 0 <= x < base ^ Z.of_nat fuel -> (0 < fuel)%nat ->
  let l := digit_loop fuel hex x base in
  numeral hex base (reverse l) = x /\ Forall (fun c => 48 <= c < 256 /\ (base = 10 -> c <= 57)) l /\ l <> [] /\
  forall k, (0 < k)%nat -> x < base ^ Z.of_nat k -> (length l <= k)%nat.
Proof.
  intros Hh Hb. revert x. induction fuel as [|f IH]; intros x Hx Hf; [lia|]. cbn [digit_loop]. cbv zeta.
  pose proof (Z.mod_pos_bound x base ltac:(lia)) as Hm. pose proof (Z.div_mod x base ltac:(lia)) as Hdm.
  destruct (digit_ok hex (x mod base) Hh ltac:(lia)) as (D1 & D2 & D3).
  assert (Hc : 48 <= digit hex (x mod base) < 256 /\ (base = 10 -> digit hex (x mod base) <= 57)) by (split; [lia|intros; apply D3; lia]).
  destruct (Z.eqb_spec (x / base) 0) as [E|E].
  - rewrite reverse_singleton. split_and!; [|by constructor|done|simpl; lia].
    unfold numeral. simpl. rewrite D1, Z.mul_0_l. nia.
  - assert (Hq : 0 <= x / base) by (apply Z.div_pos; lia).
    destruct f as [|f']; [exfalso; change (Z.of_nat 1) with 1 in Hx; rewrite Z.pow_1_r in Hx; rewrite Z.div_small in E by lia; done|].
    destruct (IH (x / base)) as (H1 & H2 & H3 & H4); [|lia|].
    { split; [done|]. apply Z.div_lt_upper_bound; [lia|]. rewrite <- Z.pow_succ_r by lia. rewrite <- Nat2Z.inj_succ. apply Hx. }
    rewrite reverse_cons. split_and!; [|by constructor|done|].
    + rewrite numeral_snoc, H1, D1. lia.
    + intros [|k] Hk Hlt; [lia|]. simpl. apply le_n_S, H4.
      * destruct k; [|lia]. change (Z.of_nat 1) with 1 in Hlt. rewrite Z.pow_1_r in Hlt. rewrite Z.div_small in E by lia. done.
      * apply Z.div_lt_upper_bound; [lia|]. rewrite <- Z.pow_succ_r by lia. by rewrite <- Nat2Z.inj_succ.
Qed.

(** [atoi] of decimal digits followed by something else. *)
Lemma atoi_digits fuel m s l n :
  Forall (fun c => 48 <= c <= 57) l -> (forall j c, l !! j = Some c -> u8 (m (s + Z.of_nat j)) = c) ->
  u8 (m (s + Z.of_nat (length l))) = 0 -> (length l < fuel)%nat ->
  0 <= n -> fold_left (fun n c => n * 10 + digit_value 65 c) l n < 2 ^ 31 ->
  atoi_loop fuel m s n = Some (fold_left (fun n c => n * 10 + digit_value 65 c) l n).
Proof.
  revert s n fuel. induction l as [|c l IH]; intros s n [|fuel] Hl Hm H0 Hf Hn Hlt; simpl in Hf; try lia.
  - simpl in H0. rewrite Z.add_0_r in H0. cbn [atoi_loop]. rewrite H0. done.
  - apply Forall_cons in Hl as [Hc Hl]. cbn [atoi_loop fold_left]. pose proof (Hm 0%nat c eq_refl) as Hc0. rewrite Z.add_0_r in Hc0.
    rewrite Hc0. rewrite (proj2 (Z.leb_le 48 c)), (proj2 (Z.leb_le c 57)) by lia. cbn [andb].
    assert (Ed : digit_value 65 c = c - 48) by (unfold digit_value; destruct (Z.ltb_spec c 58); lia). cbn [fold_left] in Hlt.
    assert (Hmono : n * 10 + digit_value 65 c <= fold_left (fun n c => n * 10 + digit_value 65 c) l (n * 10 + digit_value 65 c)).
    { clear - Hl Hn Hc Ed. assert (H0 : 0 <= n * 10 + digit_value 65 c) by lia. revert H0. generalize (n * 10 + digit_value 65 c) as k.
      induction Hl as [|d l Hd Hl IH]; intros k Hk; simpl; [lia|].
      assert (digit_value 65 d = d - 48) by (unfold digit_value; destruct (Z.ltb_spec d 58); lia).
      specialize (IH (k * 10 + digit_value 65 d) ltac:(lia)). lia. }
    replace (n * 10 + c - 48) with (n * 10 + digit_value 65 c) by lia. rewrite s32_small by lia. apply IH; try done; try lia.
    + intros j d Hj. specialize (Hm (S j) d Hj). by replace (s + 1 + Z.of_nat j) with (s + Z.of_nat (S j)) by lia.
    + simpl in H0. by replace (s + 1 + Z.of_nat (length l)) with (s + Z.of_nat (S (length l))) by lia.
Qed.

Lemma signed_digits hex base l : l <> [] -> Forall (fun c => 48 <= c) l -> signed_numeral hex base l = numeral hex base l.
Proof. intros Hl Hf. destruct l as [|c l]; [done|]. apply Forall_cons in Hf as [Hc _]. simpl. destruct (Z.eqb_spec c 45); [lia|done]. Qed.

Lemma fits base x k : base = 10 \/ base = 16 -> x < 10 ^ Z.of_nat k -> x < base ^ Z.of_nat k.
Proof. intros [-> | ->] H; [done|]. eapply Z.lt_le_trans; [exact H|]. apply Z.pow_le_mono_l. lia. Qed.

(** C34. [printint] prints its argument.  In base 10 or 16, signed or not,
    for every 64-bit value the characters are a numeral of that value, the
    least negative one included; they never exceed the 20 bytes of [buf];
    and [atoi] reads a non-negative [int] printed with %d back. *)
Theorem printint_roundtrip (hex xx base : Z) (sign : bool) :
  is_hex hex -> base = 10 \/ base = 16 -> - 2 ^ 63 <= xx < 2 ^ 63 ->
  let l := int_chars hex xx base sign in
  signed_numeral hex base l = (if sign then xx else u64 xx) /\ (length l <= 20)%nat /\
  (base = 10 -> 0 <= xx < 2 ^ 31 -> forall m s, cstr m s l -> atoi 21 m s = Some xx).
Proof.
  intros Hh Hb Hx. unfold int_chars. set (neg := sign && (xx <? 0)). set (x := if neg then u64 (- xx) else u64 xx).
  assert (Hneg : neg = true -> xx < 0 /\ x = - xx /\ sign = true).
  { unfold x. intros E. rewrite E. apply andb_true_iff in E as [Es E%Z.ltb_lt]. split_and!; [done| |done]. apply u64_small. lia. }
  assert (Hpos : neg = false -> x = if sign then xx else u64 xx).
  { unfold x. intros E. rewrite E. destruct sign; [|done]. simpl in E. apply u64_small. apply Z.ltb_ge in E. lia. }
  assert (Hx0 : 0 <= x < 2 ^ 64) by (unfold x; destruct neg; apply u64_range).
  assert (Hbb : 2 <= base <= 16) by lia.
  assert (Hfit : 0 <= x < base ^ Z.of_nat digit_fuel) by (split; [lia|]; apply fits; [done|]; eapply Z.lt_trans; [apply Hx0|vm_compute; reflexivity]).
  destruct (digit_loop_ok digit_fuel hex x base Hh Hbb Hfit ltac:(unfold digit_fuel; lia)) as (H1 & H2 & H3 & H4).
  set (ds := digit_loop digit_fuel hex x base) in *. clearbody ds.
  assert (Hf : Forall (fun c => 48 <= c) (reverse ds)) by (apply Forall_reverse; eapply Forall_impl; [exact H2|]; naive_solver).
  assert (Hr : reverse ds <> []) by (intros E; apply H3; by rewrite <- (reverse_involutive ds), E).
  destruct neg eqn:En; cbv zeta.
  - destruct (Hneg eq_refl) as (N1 & N2 & ->). rewrite reverse_snoc. split_and!.
    + simpl. rewrite H1. lia.
    + simpl. rewrite length_reverse. apply le_n_S, (H4 19%nat); [lia|]. apply fits; [done|]. rewrite N2. eapply Z.le_lt_trans with (2 ^ 63); [lia|vm_compute; reflexivity].
    + lia.
  - rewrite signed_digits, H1 by done. split_and!; [by apply Hpos| |].
    + rewrite length_reverse. apply (H4 20%nat); [lia|]. apply fits; [done|]. eapply Z.lt_trans; [apply Hx0|vm_compute; reflexivity].
    + intros -> Hxx m s Hs. assert (Ex : x = xx) by (rewrite Hpos by done; destruct sign; [done|apply u64_small; lia]).
      assert (E65 : forall l n, Forall (fun c => 48 <= c <= 57) l -> fold_left (fun n c => n * 10 + digit_value hex c) l n = fold_left (fun n c => n * 10 + digit_value 65 c) l n).
      { induction l as [|c l IH]; intros n Hl; [done|]. apply Forall_cons in Hl as [Hc Hl]. simpl. rewrite IH by done. f_equal.
        unfold digit_value. destruct (Z.ltb_spec c 58); [done|lia]. }
      assert (Hd : Forall (fun c => 48 <= c <= 57) (reverse ds)) by (apply Forall_reverse; eapply Forall_impl; [exact H2|]; simpl; intros c [? ?]; lia).
      unfold atoi. rewrite (atoi_digits 21 m s (reverse ds) 0 Hd).
      * f_equal. rewrite <- (E65 _ 0) by done. fold (numeral hex 10 (reverse ds)). lia.
      * intros j c Hj. by apply (cstr_char m s (reverse ds)).
      * by apply cstr_end.
      * rewrite length_reverse. apply Nat.lt_succ_r. apply (H4 20%nat); [lia|]. eapply Z.lt_trans; [apply Hx0|vm_compute; reflexivity].
      * lia.
      * rewrite <- (E65 _ 0) by done. fold (numeral hex 10 (reverse ds)). lia.
Qed.

Lemma printint_roundtrip_witness :
  is_hex 65 /\ int_chars 65 (- 2 ^ 63) 10 true = [45; 57; 50; 50; 51; 51; 55; 50; 48; 51; 54; 56; 53; 52; 55; 55; 53; 56; 48; 56] /\
  signed_numeral 65 10 (int_chars 65 (- 2 ^ 63) 10 true) = - 2 ^ 63.
Proof.
  split; [by right|]. split; [vm_compute; reflexivity|].
  apply (printint_roundtrip 65 (- 2 ^ 63) 10 true); [by right|by left|lia].
Defined.
